(** * NomXML: a shallow embedding of the pull parser of nomxml.cpp

    The development follows nomxml.h / nomxml.cpp function by function.
    A session reads its document through the memory-backed input
    interface ([XmlMemoryInputInterface]); the parser object is the record
    [XmlParser] and every member function becomes a function that takes
    the object and returns the updated object next to its result.

    Conventions.
    - [wchar_t] is [ascii]: the memory reader widens one byte of the block
      into one character, and the character is represented by that byte.
      The parser only compares characters with ASCII punctuation and asks
      [iswspace] about them.
    - [std::wstring] is [string]; [s += c] is [push_wchar s c].
    - [size_t] counters that only count what was read are [nat]; the one
      place where the source subtracts ([m_DataPos - 2]) is written with
      its wrap-around ([size_t_sub]).
    - [std::vector] is [list], the back of the vector being the end of the
      list.  Indexing and erasing are partial ([vector_at],
      [vector_erase_back]): what C++ leaves undefined shows up as the outcome
      [EmptyStackAccess].
    - Loops that consume input run under an iteration budget computed from
      the unread part of the block ([loop_budget]); the lemmas
      [scan_budget_irrelevant] and [Eat_budget_irrelevant] show that the
      budget never decides the result.  The two places where the source can
      loop without consuming input (the attribute loop of
      [ParseBeginTagNode]) or recurses ([ParseBangTag] into [NextNode]) take
      an explicit [fuel] and answer [OutOfFuel] when it is used up. *)

From Stdlib Require Import String Ascii List ZArith Lia Bool Arith.
Import ListNotations.

Local Open Scope string_scope.
Local Open Scope bool_scope.

(** ** Characters and strings *)

Definition wchar_t : Type := ascii.

Definition wchar_eqb (a b : wchar_t) : bool := Ascii.eqb a b.

Definition NUL : wchar_t := "000"%char.
Definition ch_tab : wchar_t := "009"%char.
Definition ch_lf : wchar_t := "010"%char.
Definition ch_cr : wchar_t := "013"%char.
Definition ch_dquote : wchar_t := "034"%char.
Definition ch_squote : wchar_t := "'"%char.
Definition ch_lt : wchar_t := "<"%char.
Definition ch_gt : wchar_t := ">"%char.
Definition ch_slash : wchar_t := "/"%char.
Definition ch_bang : wchar_t := "!"%char.
Definition ch_question : wchar_t := "?"%char.
Definition ch_equals : wchar_t := "="%char.
Definition ch_dash : wchar_t := "-"%char.
Definition ch_lbracket : wchar_t := "["%char.
Definition ch_rbracket : wchar_t := "]"%char.

(** [iswspace] on the characters a memory-backed session can see: HT, LF,
    VT, FF, CR and the space.  (A byte of 128 or more is widened with its
    sign and is no space character.) *)
Definition iswspace (c : wchar_t) : bool :=
  let n := nat_of_ascii c in
  (((9 <=? n) && (n <=? 13)) || (n =? 32))%nat.

(** [text += c] *)
Definition push_wchar (text : string) (c : wchar_t) : string :=
  text ++ String c EmptyString.

(** [text.empty()] *)
Definition wstring_empty (text : string) : bool :=
  match text with
  | EmptyString => true
  | String _ _ => false
  end.

(** [wcschr(str, c) != nullptr] for a character [c] other than the
    terminator. *)
Fixpoint wcschr (str : string) (c : wchar_t) : bool :=
  match str with
  | EmptyString => false
  | String d rest => wchar_eqb d c || wcschr rest c
  end.

(** [text.c_str()] as C functions see it: the characters before the first
    terminator. *)
Fixpoint c_str (text : string) : string :=
  match text with
  | EmptyString => EmptyString
  | String c rest => if wchar_eqb c NUL then EmptyString else String c (c_str rest)
  end.

(** [wcscmp(a.c_str(), b.c_str()) != 0] *)
Definition wcscmp_differs (a b : string) : bool :=
  negb (String.eqb (c_str a) (c_str b)).

(** Delimiter character sets used with NextToken() calls. *)
Definition xmlDelimsWithEquals : string :=
  "=><? " ++ String ch_cr (String ch_lf (String ch_tab EmptyString)).
Definition xmlDelimsWithSlash : string :=
  "/><? " ++ String ch_cr (String ch_lf (String ch_tab EmptyString)).

(** Returns true if all characters in {text} are whitespace. *)
Fixpoint IsWhiteSpace (text : string) : bool :=
  match text with
  | EmptyString => true
  | String c rest => if iswspace c then IsWhiteSpace rest else false
  end.

(** ** size_t arithmetic *)

Definition size_t_bits : Z := 64.

(** [a - b] on [size_t]. *)
Definition size_t_sub (a b : nat) : Z :=
  ((Z.of_nat a - Z.of_nat b) mod 2 ^ size_t_bits)%Z.

(** ** std::vector *)

(** [v[i]], undefined (None) outside the vector. *)
Definition vector_at {A : Type} (v : list A) (i : nat) : option A :=
  nth_error v i.

(** Index of the back element as the source computes it, [v.size() - 1];
    on an empty vector the subtraction wraps and no element is there. *)
Definition back_index {A : Type} (v : list A) : option nat :=
  match v with
  | [] => None
  | _ :: _ => Some (length v - 1)
  end.

(** [v[v.size() - 1]] *)
Definition vector_back {A : Type} (v : list A) : option A :=
  match back_index v with
  | None => None
  | Some i => vector_at v i
  end.

(** [v[v.size() - 1] = x] through the reference the source holds. *)
Definition vector_set_back {A : Type} (v : list A) (x : A) : list A :=
  (removelast v ++ [x])%list.

(** [v.erase(v.begin() + v.size() - 1)], undefined (None) on an empty
    vector. *)
Definition vector_erase_back {A : Type} (v : list A) : option (list A) :=
  match back_index v with
  | None => None
  | Some _ => Some (removelast v)
  end.

(** [v.empty()] *)
Definition vector_empty {A : Type} (v : list A) : bool :=
  match v with
  | [] => true
  | _ :: _ => false
  end.

(** ** Nodes and elements (nomxml.h) *)

Record XmlAttribute : Type := mkXmlAttribute {
  attr_m_Name : string;
  attr_m_Value : string
}.

Inductive XmlNodeType : Type :=
| XmlNodeType_Invalid
| XmlNodeType_Begin
| XmlNodeType_Value
| XmlNodeType_End.

Record XmlBeginNode : Type := mkXmlBeginNode {
  begin_m_Name : string;
  m_Attribs : list XmlAttribute;
  m_Offset : Z
}.

Record XmlValueNode : Type := mkXmlValueNode {
  value_m_Name : string;
  value_m_Value : string
}.

Record XmlEndNode : Type := mkXmlEndNode {
  end_m_Name : string
}.

(** What [NextNode] hands out through [ptrref]: a clone of one of the three
    node classes; [m_Type] is the constructor. *)
Inductive XmlNodeBase : Type :=
| BeginNode (n : XmlBeginNode)
| ValueNode (n : XmlValueNode)
| EndNode (n : XmlEndNode).

Definition m_Type (n : XmlNodeBase) : XmlNodeType :=
  match n with
  | BeginNode _ => XmlNodeType_Begin
  | ValueNode _ => XmlNodeType_Value
  | EndNode _ => XmlNodeType_End
  end.

Definition m_Name (n : XmlNodeBase) : string :=
  match n with
  | BeginNode b => begin_m_Name b
  | ValueNode v => value_m_Name v
  | EndNode e => end_m_Name e
  end.

Record XmlElementBase : Type := mkXmlElementBase {
  m_Begin : XmlBeginNode;
  m_Value : XmlValueNode;
  m_End : XmlEndNode
}.

(** A default-constructed element. *)
Definition XmlElementBase_new : XmlElementBase :=
  {| m_Begin := mkXmlBeginNode "" [] 0%Z;
     m_Value := mkXmlValueNode "" "";
     m_End := mkXmlEndNode "" |}.

(** ** The memory-backed input interface *)

Module XmlMemoryInputInterface.

Record t : Type := mk {
  m_Data : option (list ascii);   (* nullptr is None *)
  m_DataSize : nat;
  m_DataPos : nat
}.

(** The constructor. *)
Definition new (data : option (list ascii)) (datasize : nat) : t :=
  {| m_Data := data; m_DataSize := datasize; m_DataPos := 0 |}.

(** Retrieve the total number of characters in the file. *)
Definition GetFileLength (r : t) : nat := m_DataSize r.

(** Seek to a particular character in the input file.
    Returns true if successful. *)
Definition Seek (r : t) (offset : nat) : bool * t :=
  let r1 := {| m_Data := m_Data r; m_DataSize := m_DataSize r; m_DataPos := offset |} in
  if (m_DataSize r1 <? m_DataPos r1)%nat
  then (false, {| m_Data := m_Data r1; m_DataSize := m_DataSize r1;
                  m_DataPos := m_DataSize r1 |})
  else (true, r1).

(** [m_Data[i]]; the block is [m_DataSize] bytes long by the caller's
    contract, and a list that is shorter than that reads as zero bytes. *)
Definition byte_at (data : list ascii) (i : nat) : ascii := nth i data NUL.

(** Read the next character from the file.  None is the false return. *)
Definition ReadChar (r : t) : option wchar_t * t :=
  match m_Data r with
  | Some data =>
      if (m_DataPos r <? m_DataSize r)%nat
      then (Some (byte_at data (m_DataPos r)),
            {| m_Data := m_Data r; m_DataSize := m_DataSize r;
               m_DataPos := S (m_DataPos r) |})
      else (None, r)
  | None => (None, r)
  end.

(** Returns true if end of file has been reached. *)
Definition EndOfFile (r : t) : bool :=
  match m_Data r with
  | None => true
  | Some _ => (m_DataSize r <? m_DataPos r)%nat
  end.

(** The characters [ReadChar] has still to deliver, in order. *)
Definition unread (r : t) : list wchar_t :=
  match m_Data r with
  | None => []
  | Some data => map (byte_at data) (seq (m_DataPos r) (m_DataSize r - m_DataPos r))
  end.

End XmlMemoryInputInterface.

Module Mem := XmlMemoryInputInterface.

(** ** The parser object *)

Record XmlParser : Type := mkXmlParser {
  m_Stack : list XmlElementBase;
  m_PriorTagType : XmlNodeType;
  m_PriorWasEmptyTag : bool;
  m_PriorName : string;
  m_Reader : option Mem.t;        (* nullptr is None *)
  m_DataSize : nat;
  m_DataPos : nat;
  m_ErrorInfo : string;
  m_CurChar : wchar_t;
  m_CurToken : string
}.

Definition set_Stack (v : list XmlElementBase) (p : XmlParser) : XmlParser :=
  mkXmlParser v (m_PriorTagType p) (m_PriorWasEmptyTag p) (m_PriorName p)
    (m_Reader p) (m_DataSize p) (m_DataPos p) (m_ErrorInfo p) (m_CurChar p)
    (m_CurToken p).

Definition set_PriorWasEmptyTag (b : bool) (p : XmlParser) : XmlParser :=
  mkXmlParser (m_Stack p) (m_PriorTagType p) b (m_PriorName p)
    (m_Reader p) (m_DataSize p) (m_DataPos p) (m_ErrorInfo p) (m_CurChar p)
    (m_CurToken p).

Definition set_PriorName (n : string) (p : XmlParser) : XmlParser :=
  mkXmlParser (m_Stack p) (m_PriorTagType p) (m_PriorWasEmptyTag p) n
    (m_Reader p) (m_DataSize p) (m_DataPos p) (m_ErrorInfo p) (m_CurChar p)
    (m_CurToken p).

Definition set_Reader (r : option Mem.t) (p : XmlParser) : XmlParser :=
  mkXmlParser (m_Stack p) (m_PriorTagType p) (m_PriorWasEmptyTag p) (m_PriorName p)
    r (m_DataSize p) (m_DataPos p) (m_ErrorInfo p) (m_CurChar p)
    (m_CurToken p).

Definition set_DataSize (n : nat) (p : XmlParser) : XmlParser :=
  mkXmlParser (m_Stack p) (m_PriorTagType p) (m_PriorWasEmptyTag p) (m_PriorName p)
    (m_Reader p) n (m_DataPos p) (m_ErrorInfo p) (m_CurChar p)
    (m_CurToken p).

Definition set_DataPos (n : nat) (p : XmlParser) : XmlParser :=
  mkXmlParser (m_Stack p) (m_PriorTagType p) (m_PriorWasEmptyTag p) (m_PriorName p)
    (m_Reader p) (m_DataSize p) n (m_ErrorInfo p) (m_CurChar p)
    (m_CurToken p).

Definition set_ErrorInfo (e : string) (p : XmlParser) : XmlParser :=
  mkXmlParser (m_Stack p) (m_PriorTagType p) (m_PriorWasEmptyTag p) (m_PriorName p)
    (m_Reader p) (m_DataSize p) (m_DataPos p) e (m_CurChar p)
    (m_CurToken p).

Definition set_CurChar (c : wchar_t) (p : XmlParser) : XmlParser :=
  mkXmlParser (m_Stack p) (m_PriorTagType p) (m_PriorWasEmptyTag p) (m_PriorName p)
    (m_Reader p) (m_DataSize p) (m_DataPos p) (m_ErrorInfo p) c
    (m_CurToken p).

Definition set_CurToken (t : string) (p : XmlParser) : XmlParser :=
  mkXmlParser (m_Stack p) (m_PriorTagType p) (m_PriorWasEmptyTag p) (m_PriorName p)
    (m_Reader p) (m_DataSize p) (m_DataPos p) (m_ErrorInfo p) (m_CurChar p)
    t.

(** Construct. *)
Definition XmlParser_new : XmlParser :=
  {| m_Stack := [];
     m_PriorTagType := XmlNodeType_Invalid;
     m_PriorWasEmptyTag := false;
     m_PriorName := "";
     m_Reader := None;
     m_DataSize := 0;
     m_DataPos := 0;
     m_ErrorInfo := "";
     m_CurChar := NUL;
     m_CurToken := "" |}.

(** Retrieve a description of the most recent error. *)
Definition ErrorInfo (p : XmlParser) : string := m_ErrorInfo p.

(** Discard all allocated memory and close all files. *)
Definition Reset (p : XmlParser) : XmlParser :=
  let p := set_Stack [] p in
  let p := set_PriorWasEmptyTag false p in
  let p := set_PriorName "" p in
  let p := set_Reader None p in
  set_DataPos 0 (set_DataSize 0 p).

(** Returns true if the end of the XML document has been reached. *)
Definition EndOfDocument (p : XmlParser) : bool :=
  match m_Reader p with
  | None => true
  | Some r => Mem.EndOfFile r
  end.

(** Retrieves the current character position in the XML document. *)
Definition CurPosition (p : XmlParser) : nat := m_DataPos p.

(** Retrieve the current character from the XML document. *)
Definition CurChar (p : XmlParser) : wchar_t := m_CurChar p.

(** Retrieve the current token from the XML document. *)
Definition CurToken (p : XmlParser) : string := m_CurToken p.

(** Advance to next character in XML document.
    Returns false if no more characters available. *)
Definition NextChar (p : XmlParser) : bool * XmlParser :=
  let p := set_CurChar NUL p in
  match m_Reader p with
  | None => (false, p)
  | Some r =>
      match Mem.ReadChar r with
      | (None, r') => (false, set_Reader (Some r') p)
      | (Some c, r') =>
          let p := set_Reader (Some r') p in
          let p := set_CurChar c p in
          (true, set_DataPos (S (m_DataPos p)) p)
      end
  end.

(** The characters the session has still to read. *)
Definition upcoming (p : XmlParser) : list wchar_t :=
  match m_Reader p with
  | None => []
  | Some r => Mem.unread r
  end.

(** Iteration budget of the input-consuming loops: every [NextChar] they
    issue either takes one of the unread characters or turns a non-zero
    current character into zero, which ends the loop. *)
Definition loop_budget (p : XmlParser) : nat :=
  match m_Reader p with
  | None => 2
  | Some r => 2 * (Mem.m_DataSize r - Mem.m_DataPos r) + 2
  end.

(** [while (cond(CurChar())) { text += CurChar(); NextChar(); }] *)
Fixpoint scan (budget : nat) (cond : wchar_t -> bool) (p : XmlParser) (text : string)
  : XmlParser * string :=
  match budget with
  | 0 => (p, text)
  | S budget' =>
      if cond (CurChar p)
      then scan budget' cond (snd (NextChar p)) (push_wchar text (CurChar p))
      else (p, text)
  end.

(** [while (iswspace(CurChar())) NextChar();] *)
Definition skip_space (p : XmlParser) : XmlParser :=
  fst (scan (loop_budget p) iswspace p "").

(** [while (cond(CurChar())) { m_CurToken += CurChar(); NextChar(); }] *)
Definition accumulate_token (cond : wchar_t -> bool) (p : XmlParser) : XmlParser :=
  let (p', tok) := scan (loop_budget p) cond p (m_CurToken p) in
  set_CurToken tok p'.

(** Extract next token from XML document, where token is delimited
    by double quotes or by any of the delimiters given in {delims}.
    Returns false if no more tokens. *)
Definition NextToken (delims : option string) (p : XmlParser) : bool * XmlParser :=
  let p := set_CurToken "" p in
  (* Eat any leading whitespace. *)
  let p := skip_space p in
  let p :=
    if wchar_eqb (CurChar p) ch_dquote then
      let p := snd (NextChar p) in
      let p := accumulate_token
                 (fun c => negb (wchar_eqb c NUL) && negb (wchar_eqb c ch_dquote)) p in
      if wchar_eqb (CurChar p) ch_dquote then snd (NextChar p) else p
    else if wchar_eqb (CurChar p) ch_squote then
      let p := snd (NextChar p) in
      let p := accumulate_token
                 (fun c => negb (wchar_eqb c NUL) && negb (wchar_eqb c ch_squote)) p in
      if wchar_eqb (CurChar p) ch_squote then snd (NextChar p) else p
    else
      accumulate_token
        (fun c => negb (wchar_eqb c NUL) &&
                  negb (wcschr (match delims with None => "" | Some d => d end) c)) p in
  (* Eat any trailing whitespace. *)
  let p := skip_space p in
  if wstring_empty (m_CurToken p) && EndOfDocument p then (false, p) else (true, p).

(** ** Outcomes *)

(** What a call can come to: it returns, it touches the back of an empty
    stack (undefined behaviour in C++), or the fuel given to it is used
    up. *)
Inductive Outcome (A : Type) : Type :=
| Ok (a : A)
| EmptyStackAccess
| OutOfFuel.

Arguments Ok {A} a.
Arguments EmptyStackAccess {A}.
Arguments OutOfFuel {A}.

Definition bind {A B : Type} (m : Outcome A) (k : A -> Outcome B) : Outcome B :=
  match m with
  | Ok a => k a
  | EmptyStackAccess => EmptyStackAccess
  | OutOfFuel => OutOfFuel
  end.

(** [require o] reads a partial vector operation. *)
Definition require {A : Type} (o : option A) : Outcome A :=
  match o with
  | Some a => Ok a
  | None => EmptyStackAccess
  end.

Notation "x <- m ;; k" := (bind m (fun x => k))
  (at level 61, m at next level, right associativity).

(** The result of the node-producing member functions: the bool they
    return, the node left in [ptrref] (None is nullptr) and the parser
    afterwards. *)
Definition NodeResult : Type := (bool * option XmlNodeBase * XmlParser)%type.

Definition failure (p : XmlParser) : Outcome NodeResult := Ok (false, None, p).
Definition success (n : XmlNodeBase) (p : XmlParser) : Outcome NodeResult :=
  Ok (true, Some n, p).

(** ** Values and end tags *)

(** Parses the value portion of an XML tag, meaning the text that
    appears between the begin tag and the end tag.
    Returns false if error or no more data. *)
Definition ParseTagValueNode (prefix : string) (p : XmlParser) : Outcome NodeResult :=
  let (p, token) :=
    scan (loop_budget p)
         (fun c => negb (wchar_eqb c NUL) && negb (wchar_eqb c ch_lt)) p prefix in
  if vector_empty (m_Stack p) then
    if negb (IsWhiteSpace token)
    then failure (set_ErrorInfo ("Unexpected data outside of all tags:  '" ++ token ++ "'") p)
    else failure p
  else
    celm <- require (vector_back (m_Stack p)) ;;
    let celm :=
      {| m_Begin := m_Begin celm;
         m_Value := {| value_m_Name := begin_m_Name (m_Begin celm);
                       value_m_Value := token |};
         m_End := m_End celm |} in
    let p := set_Stack (vector_set_back (m_Stack p) celm) p in
    success (ValueNode (m_Value celm)) p.

(** Parses an end tag from the XML document.  Caller is assumed
    to have already read the "</" at the beginning of the tag,
    leaving the "/" in CurChar().  Returns false if error. *)
Definition ParseEndTagNode (p : XmlParser) : Outcome NodeResult :=
  let p := snd (NextChar p) in    (* Eat the '/' *)
  let (ok, p) := NextToken (Some xmlDelimsWithEquals) p in
  if negb ok then failure (set_ErrorInfo "Unexpected end of input." p)
  else
    let token := CurToken p in
    if negb (wchar_eqb (CurChar p) ch_gt)
    then failure (set_ErrorInfo ("Expected '>' at end of tag:  " ++ CurToken p) p)
    else
      let p := snd (NextChar p) in    (* Eat the '>' *)
      if vector_empty (m_Stack p)
      then failure (set_ErrorInfo ("Unexpected end tag outside of all tags:  " ++ token) p)
      else
        celm <- require (vector_back (m_Stack p)) ;;
        if wcscmp_differs token (begin_m_Name (m_Begin celm))
        then failure (set_ErrorInfo
                        ("Mismatched end tag, found '" ++ token ++ "', expected '"
                           ++ begin_m_Name (m_Begin celm) ++ "'") p)
        else
          let celm :=
            {| m_Begin := m_Begin celm;
               m_Value := m_Value celm;
               m_End := {| end_m_Name := begin_m_Name (m_Begin celm) |} |} in
          let p := set_Stack (vector_set_back (m_Stack p) celm) p in
          v <- require (vector_erase_back (m_Stack p)) ;;
          success (EndNode (m_End celm)) (set_Stack v p).

(** ** Comments and marked sections *)

(** The loop shared by [EatComment] (with closer '-') and
    [EatMarkedSection] (with closer ']'), which differ in that character
    only: [while (!done)] with its two early returns. *)
Fixpoint Eat (budget : nat) (closer : wchar_t) (p : XmlParser) : bool * XmlParser :=
  match budget with
  | 0 => (false, p)
  | S budget' =>
      if wchar_eqb (CurChar p) closer then
        let p := snd (NextChar p) in
        if wchar_eqb (CurChar p) closer then
          let p := snd (NextChar p) in
          if wchar_eqb (CurChar p) ch_gt then
            (* Found the end; done = true. *)
            let (ok, p) := NextChar p in   (* Eat the '>' *)
            if negb ok
            then (false, set_ErrorInfo "Unexpected end of input." p)
            else (true, p)
          else Eat budget' closer p
        else Eat budget' closer p
      else
        let (ok, p) := NextChar p in
        if negb ok
        then (false, set_ErrorInfo "Unexpected end of input." p)
        else Eat budget' closer p
  end.

(** Skips the remainder of a comment, up to and including the "-->" at
    the end of the comment. *)
Definition EatComment (p : XmlParser) : bool * XmlParser :=
  Eat (loop_budget p) ch_dash p.

(** Skips the remainder of a marked section, up to and including the
    "]]>" at the end of the section. *)
Definition EatMarkedSection (p : XmlParser) : bool * XmlParser :=
  Eat (loop_budget p) ch_rbracket p.

(** Parses a tag that starts with "<!" from the XML document.  The
    recursive call of [NextNode] is the argument [NextNode_rec]. *)
Definition ParseBangTag (NextNode_rec : XmlParser -> Outcome NodeResult)
  (p : XmlParser) : Outcome NodeResult :=
  let p := snd (NextChar p) in      (* Eat the '!' *)
  let c1 := CurChar p in
  let p := snd (NextChar p) in      (* Eat the '-' or '[' *)
  if wchar_eqb c1 ch_lbracket then
    let p := snd (EatMarkedSection p) in
    (* Recursively parse the next node. *)
    NextNode_rec p
  else if wchar_eqb c1 ch_dash && wchar_eqb (CurChar p) ch_dash then
    let p := snd (NextChar p) in    (* Eat the '-' *)
    let p := snd (EatComment p) in
    (* Recursively parse the next node. *)
    NextNode_rec p
  else
    failure (set_ErrorInfo "Malformed tag beginning with '!'" p).

(** ** Begin tags *)

(** The attribute loop of [ParseBeginTagNode]:
    [while (CurChar() != '/' && CurChar() != '>' && CurChar() != '?')]. *)
Fixpoint ParseAttribs (fuel : nat) (p : XmlParser) (attribs : list XmlAttribute)
  : Outcome (XmlParser * list XmlAttribute) :=
  match fuel with
  | 0 => OutOfFuel
  | S fuel' =>
      if negb (wchar_eqb (CurChar p) ch_slash) &&
         negb (wchar_eqb (CurChar p) ch_gt) &&
         negb (wchar_eqb (CurChar p) ch_question)
      then
        let p := snd (NextToken (Some xmlDelimsWithEquals) p) in
        let attribname := CurToken p in
        let (p, value) :=
          if wchar_eqb (CurChar p) ch_equals then
            let p := snd (NextChar p) in
            let p := snd (NextToken (Some xmlDelimsWithEquals) p) in
            (p, CurToken p)
          else (p, "") in
        ParseAttribs fuel' p (attribs ++ [mkXmlAttribute attribname value])%list
      else Ok (p, attribs)
  end.

(** Parses a begin tag from the XML document.  Caller is assumed
    to have already read the "<" at the beginning of the tag,
    leaving CurChar() at the next character after the "<". *)
Definition ParseBeginTagNode (fuel : nat) (p : XmlParser) : Outcome NodeResult :=
  let tagoffset := size_t_sub (m_DataPos p) 2 in
  (* First check for '?' immediately after the '<'. *)
  let bQuestionMarked := wchar_eqb (CurChar p) ch_question in
  let p := if bQuestionMarked then snd (NextChar p) else p in
  (* Get the tag's name. *)
  let (ok, p) := NextToken (Some xmlDelimsWithSlash) p in
  if negb ok then failure (set_ErrorInfo "Unexpected end of input." p)
  else
    let token := CurToken p in
    (* Now parse the tag's attributes, if any. *)
    r <- ParseAttribs fuel p [] ;;
    let (p, attribs) := (r : XmlParser * list XmlAttribute) in
    let elm_Begin := mkXmlBeginNode token attribs tagoffset in
    let elm_Value := m_Value XmlElementBase_new in
    let elm_End := m_End XmlElementBase_new in
    if bQuestionMarked && negb (wchar_eqb (CurChar p) ch_question)
    then failure (set_ErrorInfo "Expected '?' at end of tag." p)
    else
      (* Question marked tag is always empty. *)
      let (p, elm_End) :=
        if bQuestionMarked
        then (snd (NextChar (set_PriorWasEmptyTag true p)), mkXmlEndNode token)
        else (p, elm_End) in
      (* Check if the tag ends with a slash. *)
      let (p, elm_End) :=
        if wchar_eqb (CurChar p) ch_slash
        then (snd (NextChar (set_PriorWasEmptyTag true p)), mkXmlEndNode token)
        else (p, elm_End) in
      (* Lastly, check for the trailing marker. *)
      if negb (wchar_eqb (CurChar p) ch_gt)
      then failure (set_ErrorInfo "Expected '>' at end of tag." p)
      else
        let p := snd (NextChar p) in   (* Eat the trailing '>' *)
        let elm := mkXmlElementBase elm_Begin elm_Value elm_End in
        success (BeginNode (m_Begin elm)) (set_Stack (m_Stack p ++ [elm])%list p).

(** ** The node iterator *)

(** Parse the next XmlNode from the XML document.
    Returns false if parsing error or no more nodes in document. *)
Fixpoint NextNode (fuel : nat) (p : XmlParser) : Outcome NodeResult :=
  match fuel with
  | 0 => OutOfFuel
  | S fuel' =>
      (* If prior begin tag was actually an empty tag, generate its end
         tag node now. *)
      if m_PriorWasEmptyTag p && negb (vector_empty (m_Stack p)) then
        let p := set_PriorWasEmptyTag false p in
        top <- require (vector_back (m_Stack p)) ;;
        v <- require (vector_erase_back (m_Stack p)) ;;
        success (EndNode (m_End top)) (set_Stack v p)
      else
        (* Accumulate any leading whitespace. *)
        let (p, token) := scan (loop_budget p) iswspace p "" in
        (* Determine if we're parsing a tag or value. *)
        if wchar_eqb (CurChar p) ch_lt then
          let p := snd (NextChar p) in
          if wchar_eqb (CurChar p) ch_slash then ParseEndTagNode p
          else if wchar_eqb (CurChar p) ch_bang then ParseBangTag (NextNode fuel') p
          else ParseBeginTagNode fuel' p
        else ParseTagValueNode token p
  end.

(** ** Starting a session *)

(** Begin parsing the XML document that was just opened. *)
Definition BeginParsingImpl (p : XmlParser) : bool * XmlParser :=
  match m_Reader p with
  | None => (false, p)
  | Some r =>
      let p := set_DataSize (Mem.GetFileLength r) p in
      (* Prime the current character. *)
      let (ok, p) := NextChar p in
      if negb ok
      then (false, set_ErrorInfo "Empty document.  No XML tags found." p)
      else (true, p)
  end.

(** Begin parsing XML document contained in the memory block pointed
    to by {data}.  The memory block is {numbytes} in size. *)
Definition BeginParsingFromMemory (data : option (list ascii)) (numbytes : nat)
  (p : XmlParser) : bool * XmlParser :=
  let p := Reset p in
  let p := set_Reader (Some (Mem.new data numbytes)) p in
  BeginParsingImpl p.

(** A session on a fresh parser over the bytes of [doc]. *)
Definition session (doc : string) : bool * XmlParser :=
  let data := list_ascii_of_string doc in
  BeginParsingFromMemory (Some data) (List.length data) XmlParser_new.

(** ** The caller's loop *)

(** [while (xml.NextNode(node)) { ... }] as in xmldump.cpp's parse: the
    nodes handed out, each with [CurPosition()] right after the call that
    produced it, and the parser when [NextNode] returned false.  [calls]
    bounds how many times the caller is prepared to call. *)
Fixpoint pull (calls fuel : nat) (p : XmlParser)
  : Outcome (list (XmlNodeBase * nat) * XmlParser) :=
  match calls with
  | 0 => OutOfFuel
  | S calls' =>
      r <- NextNode fuel p ;;
      match (r : NodeResult) with
      | (true, Some node, p') =>
          rest <- pull calls' fuel p' ;;
          Ok ((node, CurPosition p') :: fst rest, snd rest)
      | (_, _, p') => Ok ([], p')
      end
  end.

Definition nodes_of (trace : list (XmlNodeBase * nat)) : list XmlNodeBase :=
  map fst trace.

Definition positions_of (trace : list (XmlNodeBase * nat)) : list nat :=
  map snd trace.

Definition Open (name : string) (offset : Z) (attribs : list XmlAttribute) : XmlNodeBase :=
  BeginNode (mkXmlBeginNode name attribs offset).
Definition Text (name value : string) : XmlNodeBase :=
  ValueNode (mkXmlValueNode name value).
Definition Close (name : string) : XmlNodeBase :=
  EndNode (mkXmlEndNode name).

(** ** Vocabulary of the statements *)

(** How many bytes of the block the reader has not delivered yet. *)
Definition remaining (p : XmlParser) : nat :=
  match m_Reader p with
  | None => 0
  | Some r => Mem.m_DataSize r - Mem.m_DataPos r
  end.

(** The quantity every [NextChar] of a loop decreases: an unread byte is
    taken, or a non-zero current character becomes zero. *)
Definition measure (p : XmlParser) : nat :=
  2 * remaining p + (if wchar_eqb (CurChar p) NUL then 0 else 1).

(** The current character followed by the characters still to be read. *)
Definition input_at (p : XmlParser) : list wchar_t := CurChar p :: upcoming p.

(** The parser after [n] further calls of [NextChar]. *)
Fixpoint advance (n : nat) (p : XmlParser) : XmlParser :=
  match n with
  | 0 => p
  | S n' => advance n' (snd (NextChar p))
  end.

(** [q] differs from [p] at most in the cursor (reader, position, current
    character, current token). *)
Definition same_session_state (p q : XmlParser) : Prop :=
  m_Stack q = m_Stack p /\
  m_PriorWasEmptyTag q = m_PriorWasEmptyTag p /\
  m_ErrorInfo q = m_ErrorInfo p.

(** As above, but an error text may have been recorded on the way. *)
Definition error_may_be_set (p q : XmlParser) : Prop :=
  m_Stack q = m_Stack p /\
  m_PriorWasEmptyTag q = m_PriorWasEmptyTag p /\
  (m_ErrorInfo q = "" -> m_ErrorInfo p = "").

(** The names of the open elements, outermost first. *)
Definition open_element_names (p : XmlParser) : list string :=
  map (fun e => begin_m_Name (m_Begin e)) (m_Stack p).

(** When a synthetic close is pending, the element at the back of the
    stack carries its own name in its end node. *)
Definition pending_close_ready (p : XmlParser) : Prop :=
  m_PriorWasEmptyTag p = true ->
  exists e, vector_back (m_Stack p) = Some e /\
            end_m_Name (m_End e) = begin_m_Name (m_Begin e).

(** Replaying a node sequence against the list of open names (innermost
    first): a begin node opens its name, an end node must carry the
    innermost open name and closes it, a value node must carry the
    innermost open name.  None when a node does not fit. *)
Fixpoint replay (open : list string) (nodes : list XmlNodeBase) : option (list string) :=
  match nodes with
  | [] => Some open
  | BeginNode b :: rest => replay (begin_m_Name b :: open) rest
  | ValueNode v :: rest =>
      match open with
      | top :: _ => if String.eqb top (value_m_Name v) then replay open rest else None
      | [] => None
      end
  | EndNode e :: rest =>
      match open with
      | top :: outer => if String.eqb top (end_m_Name e) then replay outer rest else None
      | [] => None
      end
  end.

(** Every end node closes the innermost element still open, and nothing is
    left open at the end. *)
Definition properly_nested (nodes : list XmlNodeBase) : Prop :=
  replay [] nodes = Some [].

Fixpoint open_names (nodes : list XmlNodeBase) : list string :=
  match nodes with
  | [] => []
  | BeginNode b :: rest => begin_m_Name b :: open_names rest
  | _ :: rest => open_names rest
  end.

Fixpoint close_names (nodes : list XmlNodeBase) : list string :=
  match nodes with
  | [] => []
  | EndNode e :: rest => end_m_Name e :: close_names rest
  | _ :: rest => close_names rest
  end.

Fixpoint open_offsets (nodes : list XmlNodeBase) : list Z :=
  match nodes with
  | [] => []
  | BeginNode b :: rest => m_Offset b :: open_offsets rest
  | _ :: rest => open_offsets rest
  end.

Fixpoint no_begin_node (nodes : list XmlNodeBase) : bool :=
  match nodes with
  | [] => true
  | BeginNode _ :: _ => false
  | _ :: rest => no_begin_node rest
  end.

(** No begin node comes after an end node: the document has no element
    with a sibling before it. *)
Fixpoint opens_precede_closes (nodes : list XmlNodeBase) : bool :=
  match nodes with
  | [] => true
  | EndNode _ :: rest => no_begin_node rest
  | _ :: rest => opens_precede_closes rest
  end.

Fixpoint strictly_increasing (l : list Z) : bool :=
  match l with
  | [] => true
  | x :: rest =>
      match rest with
      | [] => true
      | y :: _ => (x <? y)%Z && strictly_increasing rest
      end
  end.

(** The text between an opening "<!--" (or "<![") and its terminator in
    which the scanning loop of [Eat] finds the terminator: every
    occurrence of the closer is followed, inside the text, by a character
    that is not the closer. *)
Fixpoint markup_body (closer : wchar_t) (body : list wchar_t) : bool :=
  match body with
  | [] => true
  | c :: rest =>
      if wchar_eqb c closer
      then match rest with
           | [] => false
           | c' :: _ => negb (wchar_eqb c' closer) && markup_body closer rest
           end
      else markup_body closer rest
  end.

(** The parser right after a piece of markup that ends [n] characters
    ahead: the cursor has moved over it, and reading past its last
    character at the very end of the input has recorded the error text of
    [Eat]. *)
Definition after_markup (n : nat) (p : XmlParser) : XmlParser :=
  let q := advance n p in
  match upcoming (advance (n - 1) p) with
  | [] => set_ErrorInfo "Unexpected end of input." q
  | _ :: _ => q
  end.

(** The node handed out by a call fits the open elements before the call
    and leaves those after it. *)
Definition node_fits (p : XmlParser) (node : XmlNodeBase) (p' : XmlParser) : Prop :=
  replay (rev (open_element_names p)) [node] = Some (rev (open_element_names p')).

(** The parser at the clean end of the session over a single blank. *)
Definition blank_session_end : XmlParser :=
  Eval cbv in
    match NextNode 1 (snd (session " ")) with
    | Ok (_, _, p) => p
    | _ => XmlParser_new
    end.

(** A small accepted document, its session and its run. *)
Definition nested_doc : string := "<a><b>x</b></a>".

Definition nested_start : XmlParser := Eval cbv in snd (session nested_doc).

Definition nested_run : list (XmlNodeBase * nat) * XmlParser :=
  Eval cbv in
    match pull 6 2 nested_start with
    | Ok r => r
    | _ => ([], XmlParser_new)
    end.

(** The two kinds of markup [ParseBangTag] skips. *)
Inductive BangMarkup : Type :=
| CommentMarkup          (* <!-- ... --> *)
| MarkedSectionMarkup.   (* <![ ... ]]> *)

(** What follows the '<'. *)
Definition markup_opener (kind : BangMarkup) : list wchar_t :=
  match kind with
  | CommentMarkup => [ch_bang; ch_dash; ch_dash]
  | MarkedSectionMarkup => [ch_bang; ch_lbracket]
  end.

(** The character [Eat] looks for twice before the '>'. *)
Definition markup_closer (kind : BangMarkup) : wchar_t :=
  match kind with
  | CommentMarkup => ch_dash
  | MarkedSectionMarkup => ch_rbracket
  end.

Definition markup_terminator (kind : BangMarkup) : list wchar_t :=
  [markup_closer kind; markup_closer kind; ch_gt].

(** How many characters are read from the '<' to just past the markup. *)
Definition markup_span (kind : BangMarkup) (body : list wchar_t) : nat :=
  List.length (markup_opener kind) + List.length body
  + List.length (markup_terminator kind) + 1.

(** Where the cursor is after the markup: at the first character of what
    follows, or at zero when nothing follows. *)
Definition input_after (rest : list wchar_t) : list wchar_t :=
  match rest with
  | [] => [NUL]
  | _ :: _ => rest
  end.

(** A document with a comment and a marked section, and the parser after
    its first node. *)
Definition markup_doc : string := "<a><!--x--><![CDATA[x]]></a>".

Definition markup_start : XmlParser :=
  Eval cbv in
    match NextNode 2 (snd (session markup_doc)) with
    | Ok (_, _, p) => p
    | _ => XmlParser_new
    end.

(** The sample file of xmldump.cpp's header comment (note.xml), with
    CR LF line ends, tab indentation and the one-byte registered sign. *)
Definition crlf : string := String ch_cr (String ch_lf EmptyString).

Definition note_xml : string :=
  "<?xml version=" ++ String ch_dquote "1.0" ++ String ch_dquote " encoding="
    ++ String ch_dquote "ISO-8859-1" ++ String ch_dquote "?>" ++ crlf
  ++ "<!-- Edited by XMLSpy" ++ String "174"%char " -->" ++ crlf
  ++ "<note>" ++ crlf
  ++ String ch_tab "<to>Mary</to>" ++ crlf
  ++ String ch_tab "<from>Jane</from>" ++ crlf
  ++ String ch_tab "<heading>Reminder</heading>" ++ crlf
  ++ String ch_tab "<body>Don't forget the meetup this weekend!</body>" ++ crlf
  ++ "</note>" ++ crlf.

(** The session reads a non-null block and its reader has not run past the
    end of it. *)
Definition reads_memory_block (p : XmlParser) : Prop :=
  exists r d, m_Reader p = Some r /\ Mem.m_Data r = Some d /\
              Mem.m_DataPos r <= Mem.m_DataSize r.

(** ** Further vocabulary *)

(** [n] calls of [ReadChar] in a row, stopping at the first that fails:
    the characters delivered and the reader afterwards. *)
Fixpoint ReadChars (n : nat) (r : Mem.t) : list wchar_t * Mem.t :=
  match n with
  | 0 => ([], r)
  | S n' =>
      match Mem.ReadChar r with
      | (Some c, r') => let (l, r'') := ReadChars n' r' in (c :: l, r'')
      | (None, r') => ([], r')
      end
  end.

(** A parser that has been through a session that failed to start. *)
Definition parser_after_empty_document : XmlParser :=
  Eval cbv in snd (session "").

(** The parser in "<a></b></a>" before and after the call that meets the
    mismatched end tag. *)
Definition mismatch_before : XmlParser :=
  Eval cbv in
    match NextNode 2 (snd (session "<a></b></a>")) with
    | Ok (_, _, p) => p
    | _ => XmlParser_new
    end.

Definition mismatch_after : XmlParser :=
  Eval cbv in
    match NextNode 2 mismatch_before with
    | Ok (_, _, p) => p
    | _ => XmlParser_new
    end.

(** The parser stands at the input [l]: its current character is the
    first character of [l] and the rest of [l] is what is left to read; at
    the empty input the current character is zero and nothing is left. *)
Definition stands_at (p : XmlParser) (l : list wchar_t) : Prop :=
  input_at p = input_after l.

(** The first character of an input, zero at its end. *)
Definition first_char (l : list wchar_t) : wchar_t := hd NUL l.

(** The delimiter string [NextToken] searches. *)
Definition delims_of (delims : option string) : string :=
  match delims with
  | None => EmptyString
  | Some d => d
  end.

(** The condition of the loop that accumulates a non-quoted token. *)
Definition token_char (delims : option string) (c : wchar_t) : bool :=
  negb (wchar_eqb c NUL) && negb (wcschr (delims_of delims) c).

(** The condition of the loop that accumulates a quoted token. *)
Definition quoted_char (quote : wchar_t) (c : wchar_t) : bool :=
  negb (wchar_eqb c NUL) && negb (wchar_eqb c quote).

(** The condition of the loop that accumulates a value. *)
Definition value_char (c : wchar_t) : bool :=
  negb (wchar_eqb c NUL) && negb (wchar_eqb c ch_lt).

Definition is_quote (c : wchar_t) : bool :=
  wchar_eqb c ch_dquote || wchar_eqb c ch_squote.

(** The blanks that are also delimiters: space, CR, LF and tab. *)
Definition is_blank (c : wchar_t) : bool :=
  wchar_eqb c " "%char || wchar_eqb c ch_cr || wchar_eqb c ch_lf || wchar_eqb c ch_tab.

(** A character that can stand anywhere in a tag or attribute name written
    without quotes: not zero, no white space, no quote and none of
    [= / > < ? !]. *)
Definition name_char (c : wchar_t) : bool :=
  negb (wchar_eqb c NUL) && negb (iswspace c) && negb (is_quote c)
  && negb (wcschr "=/><?!" c).

(** A non-empty run of such characters. *)
Definition tag_name (name : list wchar_t) : bool :=
  match name with
  | [] => false
  | _ :: _ => forallb name_char name
  end.

(** The four ways a begin tag is written: [<name ...>], [<name ... />],
    [<?name ... ?>] and the tolerated [<?name ... ?/>]. *)
Inductive TagShape : Type :=
| PlainTag
| SelfClosingTag
| InstructionTag
| InstructionSlashTag.

Definition tag_opener (shape : TagShape) : list wchar_t :=
  match shape with
  | PlainTag | SelfClosingTag => []
  | InstructionTag | InstructionSlashTag => [ch_question]
  end.

Definition tag_closer (shape : TagShape) : list wchar_t :=
  match shape with
  | PlainTag => [ch_gt]
  | SelfClosingTag => [ch_slash; ch_gt]
  | InstructionTag => [ch_question; ch_gt]
  | InstructionSlashTag => [ch_question; ch_slash; ch_gt]
  end.

(** Whether the tag has no separate end tag. *)
Definition tag_is_empty (shape : TagShape) : bool :=
  match shape with
  | PlainTag => false
  | _ => true
  end.

(** An attribute as written in a tag: [name="value"] or [name='value'],
    followed by blanks. *)
Record AttrText : Type := mkAttrText {
  at_name : list wchar_t;
  at_quote : wchar_t;
  at_value : list wchar_t;
  at_sep : list wchar_t
}.

Definition render_attr (a : AttrText) : list wchar_t :=
  at_name a ++ ch_equals :: at_quote a :: at_value a ++ at_quote a :: at_sep a.

Fixpoint render_attrs (attrs : list AttrText) : list wchar_t :=
  match attrs with
  | [] => []
  | a :: rest => render_attr a ++ render_attrs rest
  end.

Definition attr_ok (a : AttrText) : bool :=
  tag_name (at_name a) && is_quote (at_quote a)
  && forallb (quoted_char (at_quote a)) (at_value a)
  && forallb is_blank (at_sep a).

(** The attribute the parser is to make of it. *)
Definition attr_of (a : AttrText) : XmlAttribute :=
  mkXmlAttribute (string_of_list_ascii (at_name a)) (string_of_list_ascii (at_value a)).

(** The element pushed for a begin tag. *)
Definition element_of (shape : TagShape) (name : list wchar_t)
  (attribs : list XmlAttribute) (offset : Z) : XmlElementBase :=
  mkXmlElementBase
    (mkXmlBeginNode (string_of_list_ascii name) attribs offset)
    (mkXmlValueNode "" "")
    (mkXmlEndNode (if tag_is_empty shape then string_of_list_ascii name else "")).

(** The condition that ends the attribute loop of [ParseBeginTagNode]. *)
Definition ends_attributes (c : wchar_t) : bool :=
  wchar_eqb c ch_slash || wchar_eqb c ch_gt || wchar_eqb c ch_question.

(** A tag with a repeated attribute, as written and as a session. *)
Definition sample_attrs : list AttrText :=
  [mkAttrText ["x"%char] ch_dquote ["1"%char] [" "%char];
   mkAttrText ["x"%char] ch_squote (list_ascii_of_string "2 3") []].

Definition sample_tag (shape : TagShape) : list wchar_t :=
  [" "%char] ++ ch_lt :: tag_opener shape ++ ["c"%char] ++ [" "%char]
    ++ render_attrs sample_attrs ++ tag_closer shape ++ list_ascii_of_string "<d>".

Definition sample_tag_session (shape : TagShape) : XmlParser :=
  snd (session (string_of_list_ascii (sample_tag shape))).

(** Parser states inside the element of [<to> Tove </to>]: after its
    begin tag, and after its text. *)
Definition inside_to : XmlParser :=
  Eval cbv in
    match NextNode 2 (snd (session "<to> Tove </to>")) with
    | Ok (_, _, p) => p
    | _ => XmlParser_new
    end.

Definition inside_to_after_text : XmlParser :=
  Eval cbv in
    match NextNode 1 inside_to with
    | Ok (_, _, p) => p
    | _ => XmlParser_new
    end.

(** From [p] to [q] the session has read on: [q] has taken some of the
    characters that [p] had still to read, in order, and the position has
    grown by exactly their number; the size recorded at the start of the
    session is unchanged. *)
Definition reads_on (p q : XmlParser) : Prop :=
  m_DataSize q = m_DataSize p /\
  exists k : nat,
    (k <= List.length (upcoming p))%nat /\
    upcoming q = skipn k (upcoming p) /\
    m_DataPos q = (m_DataPos p + k)%nat.

(** [lo <= x1 <= x2 <= ... <= xn <= hi] for the list [x1; ...; xn]. *)
Fixpoint ascending_between (lo hi : nat) (l : list nat) : Prop :=
  match l with
  | [] => (lo <= hi)%nat
  | x :: l' => (lo <= x)%nat /\ ascending_between x hi l'
  end.

(** ** Documents written out

    The text of an element, to state what the parser makes of it.  A
    [Leaf] is a tag without a separate end tag; a [Branch] is a begin tag,
    a body and an end tag.  A body is a run of child elements, each after a
    gap of text, and a last gap; the gaps are arbitrary text without '<'
    (possibly blank, possibly empty).  [ws0], [ws1] and [ws2] are the
    blanks after the tag name, before the name of the end tag and after
    it. *)
Inductive Element : Type :=
| Leaf (shape : TagShape) (name ws0 : list wchar_t) (attrs : list AttrText)
| Branch (name ws0 : list wchar_t) (attrs : list AttrText) (body : Content)
         (ws1 ws2 : list wchar_t)
with Content : Type :=
| Last (gap : list wchar_t)
| Child (gap : list wchar_t) (e : Element) (rest : Content).

Definition end_tag (ws1 name ws2 : list wchar_t) : list wchar_t :=
  (ch_lt :: ch_slash :: ws1 ++ name ++ ws2 ++ [ch_gt])%list.

Fixpoint render (e : Element) : list wchar_t :=
  match e with
  | Leaf shape name ws0 attrs =>
      (ch_lt :: tag_opener shape ++ name ++ ws0 ++ render_attrs attrs
         ++ tag_closer shape)%list
  | Branch name ws0 attrs body ws1 ws2 =>
      (ch_lt :: tag_opener PlainTag ++ name ++ ws0 ++ render_attrs attrs
         ++ tag_closer PlainTag ++ render_content body ++ end_tag ws1 name ws2)%list
  end
with render_content (b : Content) : list wchar_t :=
  match b with
  | Last gap => gap
  | Child gap e rest => (gap ++ render e ++ render_content rest)%list
  end.

Definition tag_ok (name ws0 : list wchar_t) (attrs : list AttrText) : bool :=
  tag_name name && forallb is_blank ws0
  && match attrs, ws0 with
     | _ :: _, [] => false
     | _, _ => true
     end
  && forallb attr_ok attrs.

(** The elements this development follows the parser on: names without
    delimiters, quoted attribute values, text without '<' and without zero
    characters. *)
Fixpoint element_ok (e : Element) : bool :=
  match e with
  | Leaf shape name ws0 attrs => tag_is_empty shape && tag_ok name ws0 attrs
  | Branch name ws0 attrs body ws1 ws2 =>
      tag_ok name ws0 attrs && content_ok body
      && forallb iswspace ws1 && forallb is_blank ws2
  end
with content_ok (b : Content) : bool :=
  match b with
  | Last gap => forallb value_char gap
  | Child gap e rest => forallb value_char gap && element_ok e && content_ok rest
  end.

(** At the top level of a document only blanks may stand between the
    elements. *)
Fixpoint blank_gaps (b : Content) : bool :=
  match b with
  | Last gap => forallb iswspace gap
  | Child gap _ rest => forallb iswspace gap && blank_gaps rest
  end.

(** The offset of a begin node whose '<' is the character number [index]
    of the document (counted from 0), as a [size_t]. *)
Definition offset_at (index : nat) : Z := size_t_sub (index + 2) 2.

(** A gap that is all white space gives no node before a tag; any other
    gap gives one value node with the whole gap as its text. *)
Definition gap_events (name : string) (gap : list wchar_t) : list XmlNodeBase :=
  if forallb iswspace gap then [] else [Text name (string_of_list_ascii gap)].

(** The nodes of an element whose '<' is the character number [index]. *)
Fixpoint events (index : nat) (e : Element) : list XmlNodeBase :=
  match e with
  | Leaf shape name ws0 attrs =>
      [Open (string_of_list_ascii name) (offset_at index) (map attr_of attrs);
       Close (string_of_list_ascii name)]
  | Branch name ws0 attrs body ws1 ws2 =>
      (Open (string_of_list_ascii name) (offset_at index) (map attr_of attrs)
         :: content_events (string_of_list_ascii name)
              (index + List.length
                         (ch_lt :: tag_opener PlainTag ++ name ++ ws0
                            ++ render_attrs attrs ++ tag_closer PlainTag))
              body
         ++ [Close (string_of_list_ascii name)])%list
  end
with content_events (name : string) (index : nat) (b : Content) : list XmlNodeBase :=
  match b with
  | Last gap => gap_events name gap
  | Child gap e rest =>
      (gap_events name gap
         ++ events (index + List.length gap) e
         ++ content_events name (index + List.length gap + List.length (render e)) rest)%list
  end.

(** The largest number of attributes on one tag. *)
Fixpoint most_attributes (e : Element) : nat :=
  match e with
  | Leaf _ _ _ attrs => List.length attrs
  | Branch _ _ attrs body _ _ => Nat.max (List.length attrs) (most_attributes_in body)
  end
with most_attributes_in (b : Content) : nat :=
  match b with
  | Last _ => 0
  | Child _ e rest => Nat.max (most_attributes e) (most_attributes_in rest)
  end.

(** Successive calls of [NextNode] from [p] return true, hand out [nodes]
    in this order, and leave the parser [p']. *)
Fixpoint NextNodes (fuel : nat) (nodes : list XmlNodeBase) (p p' : XmlParser) : Prop :=
  match nodes with
  | [] => p' = p
  | n :: rest =>
      exists q, NextNode fuel p = Ok (true, Some n, q) /\ NextNodes fuel rest q p'
  end.

Scheme Element_mut := Induction for Element Sort Prop
  with Content_mut := Induction for Content Sort Prop.

Combined Scheme Element_Content_ind from Element_mut, Content_mut.

(** The parser follows the element [e] wherever it meets it: after any
    blanks [lead], with whatever comes after it, [NextNode] hands out the
    nodes of [e] and stands behind it, with the stack, the flag and the
    error text as they were. *)
Definition element_runs (fuel : nat) (e : Element) : Prop :=
  forall (lead rest : list wchar_t) (index : nat) (p : XmlParser),
    m_PriorWasEmptyTag p = false ->
    m_DataPos p = S index ->
    forallb iswspace lead = true ->
    stands_at p (lead ++ render e ++ rest)%list ->
    exists p',
      NextNodes fuel (events (index + List.length lead) e) p p' /\
      stands_at p' rest /\ m_Stack p' = m_Stack p /\
      m_PriorWasEmptyTag p' = false /\ m_ErrorInfo p' = m_ErrorInfo p.

(** The same for the body [b] of the element [e] on top of the stack, up
    to the '<' of whatever tag follows the body; the blanks [lead'] before
    that '<' may be left unread. *)
Definition content_runs (fuel : nat) (b : Content) : Prop :=
  forall (following : list wchar_t) (index : nat) (p : XmlParser)
         (below : list XmlElementBase) (e : XmlElementBase),
    m_PriorWasEmptyTag p = false ->
    m_Stack p = (below ++ [e])%list ->
    m_DataPos p = S index ->
    stands_at p (render_content b ++ ch_lt :: following)%list ->
    exists p' lead' e',
      forallb iswspace lead' = true /\
      NextNodes fuel (content_events (begin_m_Name (m_Begin e)) index b) p p' /\
      stands_at p' (lead' ++ ch_lt :: following)%list /\
      m_Stack p' = (below ++ [e'])%list /\ m_Begin e' = m_Begin e /\
      m_PriorWasEmptyTag p' = false /\ m_ErrorInfo p' = m_ErrorInfo p.

(** A small document with a declaration, nesting, attributes, text and
    an empty tag. *)
Definition sample_document : Content :=
  Child [] (Leaf InstructionTag (list_ascii_of_string "xml") [" "%char]
              [mkAttrText (list_ascii_of_string "version") ch_dquote
                 (list_ascii_of_string "1.0") []])
    (Child [ch_lf]
       (Branch (list_ascii_of_string "note") [] []
          (Child [" "%char]
             (Branch (list_ascii_of_string "to") [" "%char]
                [mkAttrText (list_ascii_of_string "id") ch_squote
                   (list_ascii_of_string "7") []]
                (Last (list_ascii_of_string "Tove & co")) [] [])
             (Child (list_ascii_of_string " see ")
                (Leaf SelfClosingTag (list_ascii_of_string "br") [] [])
                (Last (list_ascii_of_string " end"))))
          [] [" "%char])
       (Last [ch_lf])).

(** The attribute loop, run on the text [text] of the attributes of a tag
    followed by [tail], takes [text] and returns [attribs], within [n]
    iterations. *)
Definition attribs_along (text : list wchar_t) (n : nat) (attribs : list XmlAttribute)
  (tail : list wchar_t) : Prop :=
  forall (fuel : nat) (q : XmlParser),
    stands_at q (text ++ tail)%list ->
    exists p2,
      ParseAttribs (n + S fuel) q [] = Ok (p2, attribs) /\
      stands_at p2 tail /\ same_session_state q p2.

(** ** The three ways to write an attribute

    [name="value"] or [name='value'] (an [AttrText]), [name=value] without
    quotes, and [name] alone.  Each may be followed by blanks. *)
Inductive AttrForm : Type :=
| QuotedAttr (a : AttrText)
| BareAttr (name value sep : list wchar_t)
| FlagAttr (name sep : list wchar_t).

Definition render_form (f : AttrForm) : list wchar_t :=
  match f with
  | QuotedAttr a => render_attr a
  | BareAttr name value sep => (name ++ ch_equals :: value ++ sep)%list
  | FlagAttr name sep => (name ++ sep)%list
  end.

Fixpoint render_forms (fs : list AttrForm) : list wchar_t :=
  match fs with
  | [] => []
  | f :: rest => (render_form f ++ render_forms rest)%list
  end.

Definition form_of (f : AttrForm) : XmlAttribute :=
  match f with
  | QuotedAttr a => attr_of a
  | BareAttr name value _ =>
      mkXmlAttribute (string_of_list_ascii name) (string_of_list_ascii value)
  | FlagAttr name _ => mkXmlAttribute (string_of_list_ascii name) ""
  end.

(** A token written without quotes: it is not empty, does not begin with
    white space or a quote, and holds no zero character and none of the
    delimiters [=><?], blank, CR, LF, TAB. *)
Definition bare_token (t : list wchar_t) : bool :=
  match t with
  | [] => false
  | c :: _ =>
      negb (iswspace c) && negb (is_quote c)
      && forallb (token_char (Some xmlDelimsWithEquals)) t
  end.

(** An attribute name, moreover, does not begin with '/'. *)
Definition attr_name (t : list wchar_t) : bool :=
  bare_token t && negb (wchar_eqb (first_char t) ch_slash).

(** A token without quotes ends at a blank or at a delimiter. *)
Definition token_ends (sep next : list wchar_t) : bool :=
  match sep with
  | [] => negb (token_char (Some xmlDelimsWithEquals) (first_char next))
  | _ :: _ => true
  end.

Definition form_ok (f : AttrForm) (next : list wchar_t) : bool :=
  match f with
  | QuotedAttr a => attr_ok a
  | BareAttr name value sep =>
      attr_name name && bare_token value && forallb is_blank sep && token_ends sep next
  | FlagAttr name sep =>
      attr_name name && forallb is_blank sep && token_ends sep next
  end.

(** The attributes [fs], written one after the other before [tail]. *)
Fixpoint forms_ok (fs : list AttrForm) (tail : list wchar_t) : bool :=
  match fs with
  | [] => true
  | f :: rest => form_ok f (render_forms rest ++ tail)%list && forms_ok rest tail
  end.

(** An attribute written without quotes and without blanks after it, with
    a '/' appended to its last token. *)
Definition with_slash (f : AttrForm) : AttrForm :=
  match f with
  | QuotedAttr a => QuotedAttr a
  | BareAttr name value _ => BareAttr name (value ++ [ch_slash])%list []
  | FlagAttr name _ => FlagAttr (name ++ [ch_slash])%list []
  end.

Definition is_unquoted (f : AttrForm) : bool :=
  match f with
  | QuotedAttr _ => false
  | BareAttr _ _ sep | FlagAttr _ sep =>
      match sep with
      | [] => true
      | _ :: _ => false
      end
  end.

(** ** The element tree and its dump

    [XmlElementTree] is an [XmlElementBase] with children.  [dump] tests
    the [m_Type] of each of the three nodes, a public field that the
    constructors set to Begin, Value and End; it is kept beside each
    node here.  [indent] is a [size_t] that only grows by 4 per level. *)
#[warnings="-register-all"]
Inductive XmlElementTree : Type :=
| mkXmlElementTree (tree_Begin_Type : XmlNodeType) (tree_Begin : XmlBeginNode)
                   (tree_Value_Type : XmlNodeType) (tree_Value : XmlValueNode)
                   (tree_End_Type : XmlNodeType) (tree_End : XmlEndNode)
                   (m_Children : list XmlElementTree).

Definition XmlNodeType_eqb (a b : XmlNodeType) : bool :=
  match a, b with
  | XmlNodeType_Invalid, XmlNodeType_Invalid
  | XmlNodeType_Begin, XmlNodeType_Begin
  | XmlNodeType_Value, XmlNodeType_Value
  | XmlNodeType_End, XmlNodeType_End => true
  | _, _ => false
  end.

Definition newline : string := String ch_lf EmptyString.

(** Append {indent} number of spaces onto {text}. *)
Fixpoint AddSpaces (text : string) (indent : nat) : string :=
  match indent with
  | 0 => text
  | S n => AddSpaces (text ++ " ") n
  end.

(** The loop over [m_Begin.m_Attribs] in [dump]. *)
Fixpoint dump_attribs (text : string) (attribs : list XmlAttribute) : string :=
  match attribs with
  | [] => text
  | a :: rest =>
      let text := (text ++ "  Attrib:  ")%string in
      let text := (text ++ attr_m_Name a)%string in
      let text := (text ++ "=")%string in
      let text := (text ++ attr_m_Value a)%string in
      let text := (text ++ newline)%string in
      dump_attribs text rest
  end.

(** Dump contents of this tree to caller-provided string {text}, for
    human viewing. *)
Fixpoint dump (t : XmlElementTree) (text : string) (indent : nat) {struct t} : string :=
  match t with
  | mkXmlElementTree begin_type b value_type v end_type e children =>
      let text :=
        if XmlNodeType_eqb begin_type XmlNodeType_Begin then
          let text := AddSpaces text indent in
          let text := (text ++ "Begin:  ")%string in
          let text := (text ++ begin_m_Name b)%string in
          let text := (text ++ newline)%string in
          dump_attribs text (m_Attribs b)
        else text in
      let text :=
        if XmlNodeType_eqb value_type XmlNodeType_Value then
          let text := AddSpaces text (indent + 4) in
          let text := (text ++ "Value:  ")%string in
          let text := (text ++ value_m_Value v)%string in
          (text ++ newline)%string
        else text in
      let text :=
        if XmlNodeType_eqb end_type XmlNodeType_End then
          let text := AddSpaces text indent in
          let text := (text ++ "End:  ")%string in
          let text := (text ++ end_m_Name e)%string in
          (text ++ newline)%string
        else text in
      (fix dump_children (cs : list XmlElementTree) (text : string) : string :=
         match cs with
         | [] => text
         | c :: cs' => dump_children cs' (dump c text (indent + 4))
         end) children text
  end.

(** [n] spaces. *)
Fixpoint spaces (n : nat) : string :=
  match n with
  | 0 => EmptyString
  | S n' => String " " (spaces n')
  end.

Fixpoint concat_strings (l : list string) : string :=
  match l with
  | [] => EmptyString
  | x :: rest => (x ++ concat_strings rest)%string
  end.

Definition attrib_line (a : XmlAttribute) : string :=
  ("  Attrib:  " ++ attr_m_Name a ++ "=" ++ attr_m_Value a ++ newline)%string.

(** The lines [dump] writes for the element itself. *)
Definition own_lines (t : XmlElementTree) (indent : nat) : string :=
  match t with
  | mkXmlElementTree begin_type b value_type v end_type e _ =>
      ((if XmlNodeType_eqb begin_type XmlNodeType_Begin
        then spaces indent ++ "Begin:  " ++ begin_m_Name b ++ newline
             ++ concat_strings (map attrib_line (m_Attribs b))
        else "")
       ++ (if XmlNodeType_eqb value_type XmlNodeType_Value
           then spaces (indent + 4) ++ "Value:  " ++ value_m_Value v ++ newline
           else "")
       ++ (if XmlNodeType_eqb end_type XmlNodeType_End
           then spaces indent ++ "End:  " ++ end_m_Name e ++ newline
           else ""))%string
  end.

Definition children_of (t : XmlElementTree) : list XmlElementTree :=
  match t with
  | mkXmlElementTree _ _ _ _ _ _ children => children
  end.

(** The end of [ParseBeginTagNode], from the test for the closing '?' on:
    what the function does once the name and the attributes are read. *)
Definition tag_end (bQuestionMarked : bool) (token : string)
  (attribs : list XmlAttribute) (tagoffset : Z) (p : XmlParser) : Outcome NodeResult :=
  let elm_Begin := mkXmlBeginNode token attribs tagoffset in
  let elm_Value := m_Value XmlElementBase_new in
  let elm_End := m_End XmlElementBase_new in
  if bQuestionMarked && negb (wchar_eqb (CurChar p) ch_question)
  then failure (set_ErrorInfo "Expected '?' at end of tag." p)
  else
    let (p, elm_End) :=
      if bQuestionMarked
      then (snd (NextChar (set_PriorWasEmptyTag true p)), mkXmlEndNode token)
      else (p, elm_End) in
    let (p, elm_End) :=
      if wchar_eqb (CurChar p) ch_slash
      then (snd (NextChar (set_PriorWasEmptyTag true p)), mkXmlEndNode token)
      else (p, elm_End) in
    if negb (wchar_eqb (CurChar p) ch_gt)
    then failure (set_ErrorInfo "Expected '>' at end of tag." p)
    else
      let p := snd (NextChar p) in
      let elm := mkXmlElementBase elm_Begin elm_Value elm_End in
      success (BeginNode (m_Begin elm)) (set_Stack (m_Stack p ++ [elm])%list p).

(** What a tag that is to end without a separate end tag has before its
    '>'. *)
Definition closer_before_gt (shape : TagShape) : list wchar_t :=
  removelast (tag_closer shape).

(** The parser inside the element of [<a><!--x-->], after the begin
    tag. *)
Definition inside_a_before_comment : XmlParser :=
  Eval cbv in
    match NextNode 2 (snd (session "<a><!--x-->")) with
    | Ok (_, _, p) => p
    | _ => XmlParser_new
    end.

(** The parser inside the element of [<a><![CDATA[x]]]></a>], after the
    begin tag. *)
Definition inside_a_before_section : XmlParser :=
  Eval cbv in
    match NextNode 2 (snd (session "<a><![CDATA[x]]]></a>")) with
    | Ok (_, _, p) => p
    | _ => XmlParser_new
    end.

(** A caller that calls [NextNode] [calls] times, whatever it returns: the
    returns and the nodes handed out, in order, and the parser in the
    end. *)
Fixpoint NextNode_again (calls fuel : nat) (p : XmlParser)
  : Outcome (list (bool * option XmlNodeBase) * XmlParser) :=
  match calls with
  | 0 => Ok ([], p)
  | S calls' =>
      r <- NextNode fuel p ;;
      match (r : NodeResult) with
      | (b, node, p') =>
          rest <- NextNode_again calls' fuel p' ;;
          Ok ((b, node) :: fst rest, snd rest)
      end
  end.

(** * Properties *)

Local Open Scope list_scope.

(** ** The reader and [NextChar] *)

Lemma ReadChar_cases (r : Mem.t) :
  (exists d, Mem.m_Data r = Some d /\ Mem.m_DataPos r < Mem.m_DataSize r /\
             Mem.ReadChar r =
               (Some (Mem.byte_at d (Mem.m_DataPos r)),
                Mem.mk (Mem.m_Data r) (Mem.m_DataSize r) (S (Mem.m_DataPos r)))) \/
  ((Mem.m_Data r = None \/ Mem.m_DataSize r <= Mem.m_DataPos r) /\
   Mem.ReadChar r = (None, r)).
Proof.
  unfold Mem.ReadChar. destruct (Mem.m_Data r) as [d|] eqn:Hd.
  - destruct (Nat.ltb_spec (Mem.m_DataPos r) (Mem.m_DataSize r)).
    + left. exists d. auto.
    + right. auto.
  - right. auto.
Qed.

Lemma unread_cons (r : Mem.t) (d : list ascii) :
  Mem.m_Data r = Some d -> Mem.m_DataPos r < Mem.m_DataSize r ->
  Mem.unread r =
    Mem.byte_at d (Mem.m_DataPos r)
      :: Mem.unread (Mem.mk (Mem.m_Data r) (Mem.m_DataSize r) (S (Mem.m_DataPos r))).
Proof.
  intros Hd Hlt. unfold Mem.unread. cbn [Mem.m_Data Mem.m_DataSize Mem.m_DataPos].
  rewrite Hd.
  replace (Mem.m_DataSize r - Mem.m_DataPos r)
    with (S (Mem.m_DataSize r - S (Mem.m_DataPos r))) by lia.
  reflexivity.
Qed.

Lemma unread_nil (r : Mem.t) :
  Mem.m_Data r = None \/ Mem.m_DataSize r <= Mem.m_DataPos r ->
  Mem.unread r = [].
Proof.
  intros [Hd|Hle]; unfold Mem.unread.
  - now rewrite Hd.
  - destruct (Mem.m_Data r); auto.
    replace (Mem.m_DataSize r - Mem.m_DataPos r) with 0 by lia. reflexivity.
Qed.

(** [NextChar] in its two cases. *)
Lemma NextChar_cases (p : XmlParser) :
  (exists r d, m_Reader p = Some r /\ Mem.m_Data r = Some d /\
               Mem.m_DataPos r < Mem.m_DataSize r /\
               NextChar p =
                 (true,
                  set_DataPos (S (m_DataPos p))
                    (set_CurChar (Mem.byte_at d (Mem.m_DataPos r))
                       (set_Reader
                          (Some (Mem.mk (Mem.m_Data r) (Mem.m_DataSize r)
                                   (S (Mem.m_DataPos r))))
                          (set_CurChar NUL p))))) \/
  (upcoming p = [] /\ remaining (snd (NextChar p)) = remaining p /\
   NextChar p = (false, set_Reader (m_Reader p) (set_CurChar NUL p))).
Proof.
  unfold NextChar, upcoming, remaining.
  cbn [m_Reader set_CurChar].
  destruct (m_Reader p) as [r|] eqn:Hr.
  - destruct (ReadChar_cases r) as [(d & Hd & Hlt & ->)|[Hcase ->]].
    + left. exists r, d. auto.
    + right. cbn. auto using unread_nil.
  - right. unfold set_Reader, set_CurChar. cbn. rewrite Hr. auto.
Qed.

Lemma NextChar_same_session_state (p : XmlParser) :
  same_session_state p (snd (NextChar p)).
Proof.
  unfold same_session_state.
  destruct (NextChar_cases p) as [(r & d & _ & _ & _ & ->)|(_ & _ & ->)]; cbn; auto.
Qed.

Lemma NextChar_CurToken (p : XmlParser) :
  m_CurToken (snd (NextChar p)) = m_CurToken p.
Proof.
  destruct (NextChar_cases p) as [(r & d & _ & _ & _ & ->)|(_ & _ & ->)]; cbn; auto.
Qed.

Lemma NextChar_upcoming_cons (p : XmlParser) (c : wchar_t) (l : list wchar_t) :
  upcoming p = c :: l ->
  fst (NextChar p) = true /\
  CurChar (snd (NextChar p)) = c /\
  upcoming (snd (NextChar p)) = l /\
  m_DataPos (snd (NextChar p)) = S (m_DataPos p).
Proof.
  intros Hup.
  destruct (NextChar_cases p) as [(r & d & Hr & Hd & Hlt & ->)|(Hnil & _ & _)].
  - unfold upcoming in *. rewrite Hr in Hup. rewrite (unread_cons r d Hd Hlt) in Hup.
    injection Hup as H1 H2. cbn. auto.
  - congruence.
Qed.

Lemma NextChar_upcoming_nil (p : XmlParser) :
  upcoming p = [] ->
  NextChar p = (false, set_Reader (m_Reader p) (set_CurChar NUL p)).
Proof.
  intros Hup.
  destruct (NextChar_cases p) as [(r & d & Hr & Hd & Hlt & _)|(_ & _ & ->)]; auto.
  unfold upcoming in Hup. rewrite Hr, (unread_cons r d Hd Hlt) in Hup. discriminate.
Qed.

Lemma NextChar_false_NUL (p : XmlParser) :
  fst (NextChar p) = false -> CurChar (snd (NextChar p)) = NUL.
Proof.
  destruct (NextChar_cases p) as [(r & d & _ & _ & _ & ->)|(_ & _ & ->)]; cbn; auto.
  discriminate.
Qed.

Lemma wchar_eqb_NUL_measure (c : wchar_t) :
  (if wchar_eqb c NUL then 0 else 1) <= 1.
Proof. destruct (wchar_eqb c NUL); lia. Qed.

Lemma NextChar_measure_true (p : XmlParser) :
  fst (NextChar p) = true -> measure (snd (NextChar p)) < measure p.
Proof.
  destruct (NextChar_cases p) as [(r & d & Hr & Hd & Hlt & ->)|(_ & _ & ->)];
    [|discriminate].
  intros _. unfold measure, remaining, CurChar. cbn. rewrite Hr.
  pose proof (wchar_eqb_NUL_measure (Mem.byte_at d (Mem.m_DataPos r))).
  destruct (wchar_eqb (m_CurChar p) NUL); lia.
Qed.

Lemma NextChar_measure_nonzero (p : XmlParser) :
  wchar_eqb (CurChar p) NUL = false -> measure (snd (NextChar p)) < measure p.
Proof.
  intros Hc. destruct (fst (NextChar p)) eqn:Hok.
  - now apply NextChar_measure_true.
  - destruct (NextChar_cases p) as [(r & d & _ & _ & _ & Heq)|(_ & Hrem & Heq)].
    + rewrite Heq in Hok. discriminate.
    + unfold measure. rewrite Hrem, Hc, Heq. cbn. lia.
Qed.

Lemma loop_budget_enough (p : XmlParser) : measure p < loop_budget p.
Proof.
  unfold measure, loop_budget, remaining.
  pose proof (wchar_eqb_NUL_measure (CurChar p)).
  destruct (m_Reader p); lia.
Qed.

(** ** Session state across the input-consuming helpers *)

Lemma same_session_state_refl (p : XmlParser) : same_session_state p p.
Proof. unfold same_session_state; auto. Qed.

Lemma same_session_state_trans (p q r : XmlParser) :
  same_session_state p q -> same_session_state q r -> same_session_state p r.
Proof.
  unfold same_session_state. intros (H1 & H2 & H3) (H4 & H5 & H6).
  repeat split; congruence.
Qed.

Lemma error_may_be_set_of_same (p q : XmlParser) :
  same_session_state p q -> error_may_be_set p q.
Proof.
  unfold same_session_state, error_may_be_set. intros (H1 & H2 & H3).
  repeat split; congruence.
Qed.

Lemma error_may_be_set_trans (p q r : XmlParser) :
  error_may_be_set p q -> error_may_be_set q r -> error_may_be_set p r.
Proof.
  unfold error_may_be_set. intros (H1 & H2 & H3) (H4 & H5 & H6).
  repeat split; try congruence. auto.
Qed.

Lemma set_ErrorInfo_error_may_be_set (p : XmlParser) (c : ascii) (e : string) :
  error_may_be_set p (set_ErrorInfo (String c e) p).
Proof. unfold error_may_be_set; cbn. repeat split; auto. discriminate. Qed.

Lemma set_CurToken_same_session_state (p : XmlParser) (t : string) :
  same_session_state p (set_CurToken t p).
Proof. unfold same_session_state; cbn; auto. Qed.

Create HintDb session.

#[local] Hint Resolve same_session_state_refl NextChar_same_session_state
  set_CurToken_same_session_state error_may_be_set_of_same : session.

Lemma scan_same_session_state (n : nat) (cond : wchar_t -> bool) (p : XmlParser)
  (text : string) :
  same_session_state p (fst (scan n cond p text)).
Proof.
  revert p text. induction n as [|n IH]; intros p text; cbn.
  - auto with session.
  - destruct (cond (CurChar p)); cbn; auto with session.
    eapply same_session_state_trans; [apply NextChar_same_session_state | apply IH].
Qed.

Lemma scan_stops_at_once (n : nat) (cond : wchar_t -> bool) (p : XmlParser)
  (text : string) :
  cond (CurChar p) = false -> scan n cond p text = (p, text).
Proof. intros H. destruct n; cbn; auto. now rewrite H. Qed.

Lemma push_wchar_app (text : string) (c : wchar_t) (more : string) :
  (push_wchar text c ++ more)%string = (text ++ String c more)%string.
Proof.
  unfold push_wchar. induction text as [|d text IH]; cbn; auto. now rewrite IH.
Qed.

Lemma scan_text_extends (n : nat) (cond : wchar_t -> bool) (p : XmlParser)
  (text : string) :
  exists more, snd (scan n cond p text) = (text ++ more)%string /\
    (cond (CurChar p) = true -> 0 < n -> exists more', more = String (CurChar p) more').
Proof.
  revert p text. induction n as [|n IH]; intros p text; cbn.
  - exists ""%string. split; [|lia]. induction text; cbn; congruence.
  - destruct (cond (CurChar p)) eqn:Hc.
    + destruct (IH (snd (NextChar p)) (push_wchar text (CurChar p))) as (more & Hm & _).
      exists (String (CurChar p) more). rewrite Hm, push_wchar_app. eauto.
    + exists ""%string. split; [|discriminate]. cbn. induction text; cbn; congruence.
Qed.

Lemma IsWhiteSpace_app (a b : string) :
  IsWhiteSpace (a ++ b)%string = IsWhiteSpace a && IsWhiteSpace b.
Proof.
  induction a as [|c a IH]; cbn; auto. destruct (iswspace c); auto.
Qed.

Lemma scan_iswspace_text (n : nat) (p : XmlParser) (text : string) :
  IsWhiteSpace text = true -> IsWhiteSpace (snd (scan n iswspace p text)) = true.
Proof.
  revert p text. induction n as [|n IH]; intros p text Hw; cbn; auto.
  destruct (iswspace (CurChar p)) eqn:Hc; cbn; auto.
  apply IH. unfold push_wchar. rewrite IsWhiteSpace_app, Hw. cbn. now rewrite Hc.
Qed.

Section Scan.

Variable cond : wchar_t -> bool.
Hypothesis cond_NUL : cond NUL = false.

Lemma cond_true_nonzero (c : wchar_t) : cond c = true -> wchar_eqb c NUL = false.
Proof.
  intros Hc. unfold wchar_eqb. destruct (Ascii.eqb_spec c NUL); auto.
  subst. congruence.
Qed.

(** The budget of a scanning loop never decides its result. *)
Lemma scan_budget_irrelevant (n m : nat) (p : XmlParser) (text : string) :
  measure p < n -> measure p < m -> scan n cond p text = scan m cond p text.
Proof.
  revert m p text. induction n as [|n IH]; intros m p text Hn Hm; [lia|].
  destruct m as [|m]; [lia|]. cbn.
  destruct (cond (CurChar p)) eqn:Hc; auto.
  pose proof (NextChar_measure_nonzero p (cond_true_nonzero _ Hc)).
  apply IH; lia.
Qed.

(** A scanning loop ends because its condition fails. *)
Lemma scan_exit (n : nat) (p : XmlParser) (text : string) :
  measure p < n -> cond (CurChar (fst (scan n cond p text))) = false.
Proof.
  revert p text. induction n as [|n IH]; intros p text Hn; [lia|]. cbn.
  destruct (cond (CurChar p)) eqn:Hc; auto.
  pose proof (NextChar_measure_nonzero p (cond_true_nonzero _ Hc)).
  apply IH; lia.
Qed.

End Scan.

Lemma skip_space_same_session_state (p : XmlParser) :
  same_session_state p (skip_space p).
Proof. apply scan_same_session_state. Qed.

Lemma accumulate_token_same_session_state (cond : wchar_t -> bool) (p : XmlParser) :
  same_session_state p (accumulate_token cond p).
Proof.
  unfold accumulate_token.
  pose proof (scan_same_session_state (loop_budget p) cond p (m_CurToken p)) as H.
  destruct (scan (loop_budget p) cond p (m_CurToken p)) as [q tok]; cbn in *.
  eapply same_session_state_trans; eauto with session.
Qed.

#[local] Hint Resolve skip_space_same_session_state
  accumulate_token_same_session_state scan_same_session_state : session.

Ltac session_chain :=
  repeat first
    [ apply same_session_state_refl
    | apply NextChar_same_session_state
    | apply skip_space_same_session_state
    | apply accumulate_token_same_session_state
    | apply set_CurToken_same_session_state
    | match goal with
      | |- same_session_state ?p (snd (NextChar ?q)) =>
          apply (same_session_state_trans p q); [|apply NextChar_same_session_state]
      | |- same_session_state ?p (skip_space ?q) =>
          apply (same_session_state_trans p q); [|apply skip_space_same_session_state]
      | |- same_session_state ?p (accumulate_token ?c ?q) =>
          apply (same_session_state_trans p q);
          [|apply accumulate_token_same_session_state]
      | |- same_session_state ?p (set_CurToken ?t ?q) =>
          apply (same_session_state_trans p q); [|apply set_CurToken_same_session_state]
      | |- same_session_state ?p (if ?b then _ else _) => destruct b
      end ].

Lemma NextToken_same_session_state (delims : option string) (p : XmlParser) :
  same_session_state p (snd (NextToken delims p)).
Proof.
  unfold NextToken.
  match goal with
  | |- same_session_state _ (snd (if ?b then _ else _)) => destruct b
  end; cbn [snd]; session_chain.
Qed.

Lemma ParseAttribs_same_session_state (fuel : nat) (p q : XmlParser)
  (attribs attribs' : list XmlAttribute) :
  ParseAttribs fuel p attribs = Ok (q, attribs') -> same_session_state p q.
Proof.
  revert p attribs. induction fuel as [|fuel IH]; intros p attribs; cbn; [discriminate|].
  match goal with |- context [if ?b then _ else _] => destruct b end.
  - match goal with |- context [if ?b then _ else _] => destruct b end;
      intros H; apply IH in H;
      (eapply same_session_state_trans; [|exact H]).
    + apply (same_session_state_trans _ (snd (NextToken (Some xmlDelimsWithEquals) p)));
        [apply NextToken_same_session_state|].
      eapply same_session_state_trans;
        [apply NextChar_same_session_state | apply NextToken_same_session_state].
    + apply NextToken_same_session_state.
  - intros H; injection H as <- _. apply same_session_state_refl.
Qed.

(** ** Comments and marked sections *)

Lemma error_may_be_set_after_NextChar (p q : XmlParser) :
  error_may_be_set (snd (NextChar p)) q -> error_may_be_set p q.
Proof.
  apply error_may_be_set_trans. auto with session.
Qed.

Lemma NextChar_then_error (p : XmlParser) (c : ascii) (e : string) :
  error_may_be_set p (set_ErrorInfo (String c e) (snd (NextChar p))).
Proof.
  apply error_may_be_set_after_NextChar, set_ErrorInfo_error_may_be_set.
Qed.

Lemma Eat_error_may_be_set (n : nat) (closer : wchar_t) (p : XmlParser) :
  error_may_be_set p (snd (Eat n closer p)).
Proof.
  revert p. induction n as [|n IH]; intros p; cbn.
  - auto with session.
  - destruct (wchar_eqb (CurChar p) closer).
    + apply error_may_be_set_after_NextChar.
      destruct (wchar_eqb (CurChar (snd (NextChar p))) closer); [|apply IH].
      apply error_may_be_set_after_NextChar.
      destruct (wchar_eqb (CurChar (snd (NextChar (snd (NextChar p))))) ch_gt);
        [|apply IH].
      pose proof (NextChar_then_error (snd (NextChar (snd (NextChar p))))) as He.
      pose proof (NextChar_same_session_state (snd (NextChar (snd (NextChar p))))) as Hs.
      destruct (NextChar (snd (NextChar (snd (NextChar p))))) as [[|] q]; cbn in *.
      * auto with session.
      * apply He.
    + pose proof (NextChar_then_error p) as He.
      pose proof (error_may_be_set_after_NextChar p _ (IH (snd (NextChar p)))) as IH'.
      destruct (NextChar p) as [[|] q]; cbn in *.
      * exact IH'.
      * apply He.
Qed.

(** The budget of [Eat] never decides its result. *)
Lemma Eat_budget_irrelevant (n m : nat) (closer : wchar_t) (p : XmlParser) :
  wchar_eqb closer NUL = false ->
  measure p < n -> measure p < m -> Eat n closer p = Eat m closer p.
Proof.
  intros Hcl. revert m p. induction n as [|n IH]; intros m p Hn Hm; [lia|].
  destruct m as [|m]; [lia|]. cbn.
  destruct (wchar_eqb (CurChar p) closer) eqn:Hc.
  - assert (Hnz : wchar_eqb (CurChar p) NUL = false).
    { unfold wchar_eqb in *. apply Ascii.eqb_eq in Hc. now rewrite Hc. }
    pose proof (NextChar_measure_nonzero p Hnz) as H1.
    destruct (wchar_eqb (CurChar (snd (NextChar p))) closer) eqn:Hc2.
    + assert (Hnz2 : wchar_eqb (CurChar (snd (NextChar p))) NUL = false).
      { unfold wchar_eqb in *. apply Ascii.eqb_eq in Hc2. now rewrite Hc2. }
      pose proof (NextChar_measure_nonzero _ Hnz2) as H2.
      destruct (wchar_eqb (CurChar (snd (NextChar (snd (NextChar p))))) ch_gt); auto.
      apply IH; lia.
    + apply IH; lia.
  - pose proof (NextChar_measure_true p) as H1.
    destruct (NextChar p) as [ok q]; cbn [fst snd] in *.
    destruct ok; cbn; auto. apply IH; specialize (H1 eq_refl); lia.
Qed.

(** ** The memory-backed input source *)

(** C4.  [Seek] fails for every offset past the end of the block (and
    leaves the reader at the end).  [EndOfFile], however, compares with
    [>] where the position can only reach the size: on a block of [n]
    bytes of which all [n] have been read, [ReadChar] has nothing left to
    deliver and [EndOfFile] still answers false; it does so at every
    position from which the reader can be. *)
Theorem memory_EndOfFile_misses_exhaustion :
  (forall (data : list ascii) (n : nat),
      let r := Mem.mk (Some data) n n in
      fst (Mem.ReadChar r) = None /\ Mem.unread r = [] /\ Mem.EndOfFile r = false) /\
  (forall (data : list ascii) (pos k : nat),
      Mem.EndOfFile (Mem.mk (Some data) (pos + k) pos) = false) /\
  (forall (r : Mem.t) (k : nat),
      Mem.Seek r (Mem.m_DataSize r + S k)
      = (false, Mem.mk (Mem.m_Data r) (Mem.m_DataSize r) (Mem.m_DataSize r))).
Proof.
  split; [|split].
  - intros data n r. subst r. unfold Mem.ReadChar, Mem.unread, Mem.EndOfFile.
    cbn [Mem.m_Data Mem.m_DataSize Mem.m_DataPos].
    rewrite Nat.ltb_irrefl, Nat.sub_diag. auto.
  - intros data pos k. unfold Mem.EndOfFile.
    cbn [Mem.m_Data Mem.m_DataSize Mem.m_DataPos].
    apply Nat.ltb_ge. lia.
  - intros r k. unfold Mem.Seek.
    cbn [Mem.m_Data Mem.m_DataSize Mem.m_DataPos].
    destruct (Nat.ltb_spec (Mem.m_DataSize r) (Mem.m_DataSize r + S k)); [reflexivity|lia].
Qed.

(** Reading the one byte of a one-byte block: the reader is exhausted and
    [EndOfFile] does not say so. *)
Example memory_EndOfFile_one_byte :
  let r0 := Mem.new (Some ["a"%char]) 1 in
  let r1 := snd (Mem.ReadChar r0) in
  fst (Mem.ReadChar r0) = Some "a"%char /\
  Mem.m_DataPos r1 = Mem.m_DataSize r1 /\
  fst (Mem.ReadChar r1) = None /\
  Mem.EndOfFile r1 = false.
Proof. cbv. auto. Qed.

(** ** The tokenizer *)

(** What [NextToken] returns, in terms of the reader's own answer. *)
Lemma NextToken_returns (delims : option string) (p : XmlParser) :
  fst (NextToken delims p)
  = negb (wstring_empty (m_CurToken (snd (NextToken delims p)))
          && EndOfDocument (snd (NextToken delims p))).
Proof.
  unfold NextToken.
  match goal with
  | |- fst (if ?b then _ else _) = _ => destruct b eqn:Hb
  end; cbn [fst snd]; now rewrite Hb.
Qed.

Lemma NextChar_reads_memory_block (p : XmlParser) :
  reads_memory_block p -> reads_memory_block (snd (NextChar p)).
Proof.
  intros (r & d & Hr & Hd & Hle). unfold reads_memory_block.
  destruct (NextChar_cases p) as [(r' & d' & Hr' & Hd' & Hlt & ->)|(_ & _ & ->)]; cbn.
  - eexists _, d'. split; [reflexivity|]. cbn. split; [assumption|lia].
  - exists r, d. auto.
Qed.

Lemma scan_reads_memory_block (n : nat) (cond : wchar_t -> bool) (p : XmlParser)
  (text : string) :
  reads_memory_block p -> reads_memory_block (fst (scan n cond p text)).
Proof.
  revert p text. induction n as [|n IH]; intros p text H; cbn; auto.
  destruct (cond (CurChar p)); cbn; auto using NextChar_reads_memory_block.
Qed.

Lemma accumulate_token_reads_memory_block (cond : wchar_t -> bool) (p : XmlParser) :
  reads_memory_block p -> reads_memory_block (accumulate_token cond p).
Proof.
  intros H. unfold accumulate_token.
  pose proof (scan_reads_memory_block (loop_budget p) cond p (m_CurToken p) H) as Hs.
  destruct (scan (loop_budget p) cond p (m_CurToken p)) as [q tok]. exact Hs.
Qed.

Lemma NextToken_reads_memory_block (delims : option string) (p : XmlParser) :
  reads_memory_block p -> reads_memory_block (snd (NextToken delims p)).
Proof.
  intros H. unfold NextToken.
  match goal with
  | |- reads_memory_block (snd (if ?b then _ else _)) => destruct b
  end; cbn [snd];
  repeat first
    [ assumption
    | apply scan_reads_memory_block
    | apply NextChar_reads_memory_block
    | apply accumulate_token_reads_memory_block
    | match goal with
      | |- reads_memory_block (if ?b then _ else _) => destruct b
      | |- reads_memory_block (skip_space _) => unfold skip_space
      end ].
Qed.

(** On a memory-backed session [NextToken] never returns false, whatever
    is left to read. *)
Lemma NextToken_never_fails_on_memory (delims : option string) (p : XmlParser) :
  reads_memory_block p -> fst (NextToken delims p) = true.
Proof.
  intros H. rewrite NextToken_returns.
  destruct (NextToken_reads_memory_block delims p H) as (r & d & Hr & Hd & Hle).
  unfold EndOfDocument, Mem.EndOfFile. rewrite Hr, Hd.
  destruct (Nat.ltb_spec (Mem.m_DataSize r) (Mem.m_DataPos r)); [lia|].
  now rewrite andb_false_r.
Qed.

(** C8.  The document is the two characters "</".  Inside
    [ParseEndTagNode] the '/' has been eaten, nothing is left to read, and
    [NextToken] produces the empty token: it returns true all the same,
    because [EndOfDocument] asks the memory reader, whose [EndOfFile] never
    reports the end.  The session then fails with the message about a
    missing '>' and not with "Unexpected end of input.". *)
Theorem NextToken_succeeds_on_exhausted_memory :
  exists p0 p q p',
    session "</" = (true, p0) /\
    p = snd (NextChar (snd (NextChar p0))) /\
    upcoming p = [] /\ fst (NextChar p) = false /\
    NextToken (Some xmlDelimsWithEquals) p = (true, q) /\
    CurToken q = "" /\ upcoming q = [] /\ CurChar q = NUL /\
    EndOfDocument q = false /\
    NextNode 1 p0 = Ok (false, None, p') /\
    ErrorInfo p' = "Expected '>' at end of tag:  ".
Proof.
  do 4 eexists.
  split; [cbv; reflexivity|].
  split; [cbv; reflexivity|].
  split; [cbv; reflexivity|].
  split; [cbv; reflexivity|].
  split; [cbv; reflexivity|].
  cbv. repeat split.
Qed.

(** ** Starting a session *)

(** C9.  A session over zero bytes does not start: the priming read finds
    nothing and the error text is set before any [NextNode]; a block with
    at least one byte starts, with that byte as the current character, an
    empty stack and no new error text. *)
Theorem empty_document_does_not_start :
  (forall (data : option (list ascii)) (parser : XmlParser),
      fst (BeginParsingFromMemory data 0 parser) = false /\
      ErrorInfo (snd (BeginParsingFromMemory data 0 parser))
      = "Empty document.  No XML tags found.") /\
  (forall (c : ascii) (rest : list ascii) (parser : XmlParser),
      let r := BeginParsingFromMemory (Some (c :: rest)) (S (List.length rest)) parser in
      fst r = true /\ CurChar (snd r) = c /\ m_Stack (snd r) = [] /\
      ErrorInfo (snd r) = ErrorInfo parser).
Proof.
  split.
  - intros data parser. unfold BeginParsingFromMemory, BeginParsingImpl, NextChar,
      Mem.ReadChar, Mem.new. cbn. destruct data; cbn; auto.
  - intros c rest parser. cbv. auto.
Qed.

(** ** Concrete documents *)

(** The dump that xmldump.cpp documents for note.xml, offsets included. *)
Example xmldump_note_xml :
  exists trace fin,
    pull 20 5 (snd (session note_xml)) = Ok (trace, fin) /\
    ErrorInfo fin = "" /\
    nodes_of trace
    = [Open "xml" 0 [mkXmlAttribute "version" "1.0";
                     mkXmlAttribute "encoding" "ISO-8859-1"];
       Close "xml";
       Open "note" 73 [];
       Open "to" 82 []; Text "to" "Mary"; Close "to";
       Open "from" 98 []; Text "from" "Jane"; Close "from";
       Open "heading" 118 []; Text "heading" "Reminder"; Close "heading";
       Open "body" 148 []; Text "body" "Don't forget the meetup this weekend!";
       Close "body";
       Close "note"].
Proof.
  do 2 eexists. split; [vm_compute; reflexivity|]. vm_compute. auto.
Qed.

(** C5.  "<a/>": the first call hands out Open("a"), the second the
    synthesized Close("a") without reading anything, so [CurPosition] is
    the same after both; the third call ends the session cleanly. *)
Theorem self_closing_tag_events :
  forall fuel : nat,
  exists p0 p1 p2,
    session "<a/>" = (true, p0) /\
    NextNode (S (S fuel)) p0 = Ok (true, Some (Open "a" 0 []), p1) /\
    NextNode (S (S fuel)) p1 = Ok (true, Some (Close "a"), p2) /\
    CurPosition p2 = CurPosition p1 /\
    upcoming p2 = upcoming p1 /\
    NextNode (S (S fuel)) p2 = Ok (false, None, p2) /\
    ErrorInfo p2 = "".
Proof.
  intros fuel. do 3 eexists.
  split; [cbv; reflexivity|].
  split; [cbv; reflexivity|].
  split; [cbv; reflexivity|].
  cbv. repeat split.
Qed.

(** C6.  "<note><to>Mary</to></note>": exactly five nodes, then a clean
    end; the positions after the five calls, and the offsets of the two
    begin nodes, increase strictly. *)
Theorem note_document_events :
  forall calls fuel : nat,
  exists p0 trace fin,
    session "<note><to>Mary</to></note>" = (true, p0) /\
    pull (6 + calls) (2 + fuel) p0 = Ok (trace, fin) /\
    nodes_of trace
    = [Open "note" 0 []; Open "to" 6 []; Text "to" "Mary"; Close "to"; Close "note"] /\
    NextNode (2 + fuel) fin = Ok (false, None, fin) /\
    ErrorInfo fin = "" /\
    positions_of trace = [7; 11; 15; 20; 26] /\
    strictly_increasing (map Z.of_nat (positions_of trace)) = true /\
    strictly_increasing (open_offsets (nodes_of trace)) = true.
Proof.
  intros calls fuel. do 3 eexists.
  split; [cbv; reflexivity|].
  split; [cbv; reflexivity|].
  cbv. repeat split.
Qed.

(** With nothing left to read and an element still open, a call returns
    true with an empty value node and changes nothing but that element's
    value slot. *)
Lemma exhausted_input_yields_value_node (fuel : nat) (p : XmlParser) (e : XmlElementBase) :
  CurChar p = NUL ->
  m_PriorWasEmptyTag p = false ->
  vector_back (m_Stack p) = Some e ->
  NextNode (S fuel) p
  = Ok (true,
        Some (Text (begin_m_Name (m_Begin e)) ""),
        set_Stack
          (vector_set_back (m_Stack p)
             (mkXmlElementBase (m_Begin e)
                (mkXmlValueNode (begin_m_Name (m_Begin e)) "") (m_End e))) p).
Proof.
  intros Hc Hf Hb. cbn [NextNode]. rewrite Hf. cbn [andb].
  rewrite scan_stops_at_once by (rewrite Hc; reflexivity).
  rewrite Hc. change (wchar_eqb NUL ch_lt) with false. cbv iota.
  unfold ParseTagValueNode.
  rewrite scan_stops_at_once by (rewrite Hc; reflexivity).
  destruct (m_Stack p) as [|x v] eqn:Hs; [discriminate|].
  cbn [vector_empty]. rewrite Hb. reflexivity.
Qed.

(** C2.  "<a>": after Open("a") nothing is left to read and "a" is still
    on the stack.  Every further call returns true with an empty value
    node for "a", leaves the stack as it is and records no error, however
    often it is repeated. *)
Theorem unclosed_element_never_fails :
  exists p0 p1 p2,
    session "<a>" = (true, p0) /\
    NextNode 2 p0 = Ok (true, Some (Open "a" 0 []), p1) /\
    upcoming p1 = [] /\ CurChar p1 = NUL /\
    open_element_names p1 = ["a"] /\
    (forall fuel, NextNode (S fuel) p1 = Ok (true, Some (Text "a" ""), p2)) /\
    (forall fuel, NextNode (S fuel) p2 = Ok (true, Some (Text "a" ""), p2)) /\
    open_element_names p2 = ["a"] /\
    ErrorInfo p2 = "".
Proof.
  do 3 eexists.
  split; [cbv; reflexivity|].
  split; [cbv; reflexivity|].
  split; [cbv; reflexivity|].
  split; [cbv; reflexivity|].
  split; [cbv; reflexivity|].
  split; [intros fuel; cbv; reflexivity|].
  split; [intros fuel; cbv; reflexivity|].
  cbv. auto.
Qed.

(** ** The stack is never touched when empty *)

Lemma vector_back_nonempty {A : Type} (v : list A) :
  vector_empty v = false -> exists e, vector_back v = Some e.
Proof.
  destruct v as [|x v]; [discriminate|]. intros _.
  unfold vector_back, back_index, vector_at.
  destruct (nth_error (x :: v) (List.length (x :: v) - 1)) as [e|] eqn:He; eauto.
  apply nth_error_None in He. cbn in He. lia.
Qed.

Lemma vector_erase_back_nonempty {A : Type} (v : list A) :
  vector_empty v = false -> vector_erase_back v = Some (removelast v).
Proof. destruct v; [discriminate|reflexivity]. Qed.

Lemma vector_set_back_nonempty {A : Type} (v : list A) (x : A) :
  vector_empty (vector_set_back v x) = false.
Proof. unfold vector_set_back. destruct (removelast v); reflexivity. Qed.

Lemma vector_erase_set_back {A : Type} (v : list A) (x : A) :
  vector_erase_back (vector_set_back v x) = Some (removelast v).
Proof.
  rewrite vector_erase_back_nonempty by apply vector_set_back_nonempty.
  unfold vector_set_back. now rewrite removelast_last.
Qed.

Lemma ParseTagValueNode_no_fault (prefix : string) (p : XmlParser) :
  ParseTagValueNode prefix p <> EmptyStackAccess.
Proof.
  unfold ParseTagValueNode.
  destruct (scan _ _ p prefix) as [q token].
  destruct (vector_empty (m_Stack q)) eqn:He.
  - destruct (negb (IsWhiteSpace token)); discriminate.
  - destruct (vector_back_nonempty _ He) as [e ->]. cbn. discriminate.
Qed.

Lemma ParseEndTagNode_no_fault (p : XmlParser) :
  ParseEndTagNode p <> EmptyStackAccess.
Proof.
  unfold ParseEndTagNode.
  destruct (NextToken _ _) as [ok q].
  destruct (negb ok); [discriminate|].
  destruct (negb (wchar_eqb (CurChar q) ch_gt)); [discriminate|].
  destruct (vector_empty (m_Stack (snd (NextChar q)))) eqn:He; [discriminate|].
  destruct (vector_back_nonempty _ He) as [e ->]. cbn [require bind].
  destruct (wcscmp_differs _ _); [discriminate|].
  cbn [m_Stack set_Stack]. rewrite vector_erase_set_back. cbn. discriminate.
Qed.

Lemma ParseAttribs_no_fault (fuel : nat) (p : XmlParser) (attribs : list XmlAttribute) :
  ParseAttribs fuel p attribs <> EmptyStackAccess.
Proof.
  revert p attribs. induction fuel as [|fuel IH]; intros p attribs; cbn; [discriminate|].
  destruct (_ && _); [|discriminate].
  destruct (wchar_eqb _ ch_equals); apply IH.
Qed.

Lemma ParseBeginTagNode_no_fault (fuel : nat) (p : XmlParser) :
  ParseBeginTagNode fuel p <> EmptyStackAccess.
Proof.
  unfold ParseBeginTagNode.
  destruct (NextToken _ _) as [ok q].
  destruct (negb ok); [discriminate|].
  pose proof (ParseAttribs_no_fault fuel q []) as Ha.
  destruct (ParseAttribs fuel q []) as [[q' attribs]| |]; cbn [bind];
    [|congruence|discriminate].
  destruct (_ && _); [discriminate|].
  destruct (wchar_eqb (CurChar p) ch_question);
    match goal with
    | |- context [if wchar_eqb (CurChar ?x) ch_slash then _ else _] =>
        destruct (wchar_eqb (CurChar x) ch_slash)
    end;
    match goal with
    | |- context [if negb ?b then _ else _] => destruct (negb b)
    end; discriminate.
Qed.

(** C10.  Whatever the parser object looks like and however much fuel a
    call gets, [NextNode] never reads or erases the back of an empty stack:
    each of the three places (the synthetic close, the value node, the end
    tag) sits behind its emptiness test. *)
Theorem NextNode_never_touches_empty_stack :
  forall (fuel : nat) (p : XmlParser), NextNode fuel p <> EmptyStackAccess.
Proof.
  induction fuel as [|fuel IH]; intros p; cbn [NextNode]; [discriminate|].
  destruct (m_PriorWasEmptyTag p && negb (vector_empty (m_Stack p))) eqn:Hsyn.
  - apply andb_prop in Hsyn as [_ He]. apply negb_true_iff in He.
    cbn [m_Stack set_PriorWasEmptyTag].
    destruct (vector_back_nonempty _ He) as [e ->].
    rewrite (vector_erase_back_nonempty _ He). cbn. discriminate.
  - destruct (scan _ iswspace p "") as [q token].
    destruct (wchar_eqb (CurChar q) ch_lt); [|apply ParseTagValueNode_no_fault].
    destruct (wchar_eqb (CurChar (snd (NextChar q))) ch_slash);
      [apply ParseEndTagNode_no_fault|].
    destruct (wchar_eqb (CurChar (snd (NextChar q))) ch_bang);
      [|apply ParseBeginTagNode_no_fault].
    unfold ParseBangTag.
    repeat match goal with
           | |- (if ?b then _ else _) <> _ => destruct b
           end; try apply IH; discriminate.
Qed.

(** ** One call of [NextNode] *)

Lemma vector_back_snoc {A : Type} (l : list A) (x : A) :
  vector_back (l ++ [x]) = Some x.
Proof.
  unfold vector_back, back_index, vector_at.
  destruct (l ++ [x]) eqn:E; [destruct l; discriminate|]. rewrite <- E.
  rewrite length_app. cbn. replace (List.length l + 1 - 1) with (List.length l) by lia.
  rewrite nth_error_app2 by lia. now rewrite Nat.sub_diag.
Qed.

Lemma vector_back_inv {A : Type} (v : list A) (e : A) :
  vector_back v = Some e -> v = (removelast v ++ [e])%list.
Proof.
  intros H. destruct v as [|x v] using rev_ind; [discriminate|].
  rewrite vector_back_snoc in H. injection H as <-. now rewrite removelast_last.
Qed.

Lemma names_snoc (l : list XmlElementBase) (e : XmlElementBase) :
  rev (map (fun e => begin_m_Name (m_Begin e)) (l ++ [e]))
  = begin_m_Name (m_Begin e) :: rev (map (fun e => begin_m_Name (m_Begin e)) l).
Proof. now rewrite map_app, rev_app_distr. Qed.

Lemma pending_close_needs_element (p : XmlParser) :
  pending_close_ready p ->
  m_PriorWasEmptyTag p && negb (vector_empty (m_Stack p)) = false ->
  m_PriorWasEmptyTag p = false.
Proof.
  intros Hr Hs. destruct (m_PriorWasEmptyTag p) eqn:Hf; auto.
  destruct (Hr Hf) as (e & He & _).
  destruct (m_Stack p); discriminate.
Qed.

Lemma ParseTagValueNode_step (prefix : string) (p : XmlParser)
  (b : bool) (node : option XmlNodeBase) (p' : XmlParser) :
  ParseTagValueNode prefix p = Ok (b, node, p') ->
  m_ErrorInfo p' = "" ->
  IsWhiteSpace prefix = true ->
  iswspace (CurChar p) = false ->
  wchar_eqb (CurChar p) ch_lt = false ->
  m_ErrorInfo p = "" /\
  (b = false -> node = None /\ m_Stack p = [] /\ p' = p /\ CurChar p = NUL) /\
  (b = true -> exists n, node = Some n /\ node_fits p n p' /\
                         (pending_close_ready p -> pending_close_ready p')).
Proof.
  unfold ParseTagValueNode. intros H Herr Hpre Hws Hlt.
  set (cond := fun c => negb (wchar_eqb c NUL) && negb (wchar_eqb c ch_lt)) in *.
  pose proof (scan_same_session_state (loop_budget p) cond p prefix) as (Hst & Hfl & Her).
  pose proof (scan_text_extends (loop_budget p) cond p prefix) as (more & Hmore & Hfirst).
  pose proof (scan_stops_at_once (loop_budget p) cond p prefix) as Hstop.
  destruct (scan (loop_budget p) cond p prefix) as [q token]; cbn [fst snd] in *.
  destruct (vector_empty (m_Stack q)) eqn:He.
  - destruct (IsWhiteSpace token) eqn:Hw; cbn [negb] in H;
      injection H as <- <- <-; [|discriminate].
    assert (Hc : cond (CurChar p) = false).
    { destruct (cond (CurChar p)) eqn:Hc; auto.
      destruct Hfirst as (more' & ->); auto.
      { pose proof (loop_budget_enough p). lia. }
      rewrite Hmore, IsWhiteSpace_app in Hw. cbn in Hw. rewrite Hws in Hw.
      rewrite andb_false_r in Hw. discriminate. }
    specialize (Hstop Hc). injection Hstop as -> ->.
    split; [auto|]. split; [|discriminate]. intros _.
    repeat split; auto.
    + destruct (m_Stack p); [auto|discriminate].
    + unfold cond in Hc. rewrite Hlt in Hc. cbn in Hc. rewrite andb_true_r in Hc.
      apply negb_false_iff in Hc. now apply Ascii.eqb_eq in Hc.
  - destruct (vector_back_nonempty _ He) as [celm Hback]. rewrite Hback in H.
    cbn [require bind] in H. injection H as <- <- <-. cbn [m_ErrorInfo set_Stack] in Herr.
    split; [congruence|]. split; [discriminate|]. intros _.
    eexists; split; [reflexivity|].
    rewrite Hst in Hback. pose proof (vector_back_inv _ _ Hback) as Hv.
    unfold node_fits, pending_close_ready, open_element_names.
    cbn [m_Stack set_Stack m_PriorWasEmptyTag]. rewrite Hst, Hfl.
    unfold vector_set_back. rewrite vector_back_snoc.
    rewrite Hv at 1. rewrite !names_snoc. cbn. rewrite String.eqb_refl.
    split; [reflexivity|].
    intros Hr Hf. destruct (Hr Hf) as (e & He' & Hn).
    rewrite Hback in He'. injection He' as <-. eexists; split; [reflexivity|]. exact Hn.
Qed.

Lemma ParseEndTagNode_step (p : XmlParser)
  (b : bool) (node : option XmlNodeBase) (p' : XmlParser) :
  ParseEndTagNode p = Ok (b, node, p') ->
  m_ErrorInfo p' = "" ->
  m_ErrorInfo p = "" /\ b = true /\
  m_PriorWasEmptyTag p' = m_PriorWasEmptyTag p /\
  exists n, node = Some n /\ node_fits p n p'.
Proof.
  unfold ParseEndTagNode. intros H Herr.
  pose proof (NextChar_same_session_state p) as S1.
  pose proof (NextToken_same_session_state (Some xmlDelimsWithEquals) (snd (NextChar p)))
    as S2.
  destruct (NextToken _ (snd (NextChar p))) as [ok q]; cbn [snd] in S2.
  destruct (negb ok); [injection H as <- <- <-; discriminate|].
  destruct (negb (wchar_eqb (CurChar q) ch_gt)); [injection H as <- <- <-; discriminate|].
  pose proof (NextChar_same_session_state q) as S3.
  destruct (same_session_state_trans _ _ _ S1
              (same_session_state_trans _ _ _ S2 S3)) as (Hst & Hfl & Her).
  destruct (vector_empty (m_Stack (snd (NextChar q)))) eqn:He;
    [injection H as <- <- <-; discriminate|].
  destruct (vector_back_nonempty _ He) as [celm Hback]. rewrite Hback in H.
  cbn [require bind] in H.
  destruct (wcscmp_differs _ _); [injection H as <- <- <-; discriminate|].
  cbn [m_Stack set_Stack] in H. rewrite vector_erase_set_back in H.
  cbn [require bind] in H. injection H as <- <- <-.
  cbn [m_ErrorInfo set_Stack] in Herr.
  split; [congruence|]. split; [reflexivity|].
  cbn [m_PriorWasEmptyTag set_Stack]. split; [assumption|].
  eexists; split; [reflexivity|].
  rewrite Hst in Hback. pose proof (vector_back_inv _ _ Hback) as Hv.
  unfold node_fits, open_element_names. cbn [m_Stack set_Stack].
  rewrite Hst. rewrite Hv at 1. rewrite names_snoc. cbn. now rewrite String.eqb_refl.
Qed.

Lemma ParseBeginTagNode_step (fuel : nat) (p : XmlParser)
  (b : bool) (node : option XmlNodeBase) (p' : XmlParser) :
  ParseBeginTagNode fuel p = Ok (b, node, p') ->
  m_ErrorInfo p' = "" ->
  m_ErrorInfo p = "" /\ b = true /\
  exists elm, node = Some (BeginNode (m_Begin elm)) /\
              m_Stack p' = m_Stack p ++ [elm] /\
              (m_PriorWasEmptyTag p' = true ->
               m_PriorWasEmptyTag p = true \/
               end_m_Name (m_End elm) = begin_m_Name (m_Begin elm)).
Proof.
  unfold ParseBeginTagNode. intros H Herr.
  set (p1 := if wchar_eqb (CurChar p) ch_question then snd (NextChar p) else p) in *.
  assert (S1 : same_session_state p p1).
  { unfold p1. destruct (wchar_eqb (CurChar p) ch_question); auto with session. }
  pose proof (NextToken_same_session_state (Some xmlDelimsWithSlash) p1) as S2.
  destruct (NextToken _ p1) as [ok q]; cbn [snd] in S2.
  destruct (negb ok); [injection H as <- <- <-; discriminate|].
  destruct (ParseAttribs fuel q []) as [[q' attribs]| |] eqn:Ha; cbn [bind] in H;
    try discriminate.
  apply ParseAttribs_same_session_state in Ha.
  pose proof (same_session_state_trans _ _ _ S1 (same_session_state_trans _ _ _ S2 Ha))
    as S3.
  destruct (wchar_eqb (CurChar p) ch_question) eqn:HQ; cbn [andb] in H.
  - destruct (negb (wchar_eqb (CurChar q') ch_question));
      [injection H as <- <- <-; discriminate|].
    set (q1 := snd (NextChar (set_PriorWasEmptyTag true q'))) in *.
    assert (S4 : m_Stack q1 = m_Stack p /\ m_ErrorInfo q1 = m_ErrorInfo p).
    { destruct (NextChar_same_session_state (set_PriorWasEmptyTag true q'))
        as (A1 & _ & A3).
      destruct S3 as (B1 & _ & B3). fold q1 in A1, A3. cbn in A1, A3.
      split; congruence. }
    destruct S4 as (St & Er).
    destruct (wchar_eqb (CurChar q1) ch_slash).
    + set (q2 := snd (NextChar (set_PriorWasEmptyTag true q1))) in *.
      destruct (NextChar_same_session_state (set_PriorWasEmptyTag true q1))
        as (A1 & _ & A3). fold q2 in A1, A3. cbn in A1, A3.
      destruct (negb (wchar_eqb (CurChar q2) ch_gt));
        [injection H as <- <- <-; discriminate|].
      destruct (NextChar_same_session_state q2) as (C1 & _ & C3).
      injection H as <- <- <-. cbn in Herr |- *.
      split; [congruence|]. split; [reflexivity|].
      eexists (mkXmlElementBase _ _ _); split; [cbn; reflexivity|].
      split; [cbn; f_equal; congruence|]. cbn. auto.
    + destruct (negb (wchar_eqb (CurChar q1) ch_gt));
        [injection H as <- <- <-; discriminate|].
      destruct (NextChar_same_session_state q1) as (C1 & _ & C3).
      injection H as <- <- <-. cbn in Herr |- *.
      split; [congruence|]. split; [reflexivity|].
      eexists (mkXmlElementBase _ _ _); split; [cbn; reflexivity|].
      split; [cbn; f_equal; congruence|]. cbn. auto.
  - destruct S3 as (B1 & B2 & B3).
    destruct (wchar_eqb (CurChar q') ch_slash).
    + set (q2 := snd (NextChar (set_PriorWasEmptyTag true q'))) in *.
      destruct (NextChar_same_session_state (set_PriorWasEmptyTag true q'))
        as (A1 & _ & A3). fold q2 in A1, A3. cbn in A1, A3.
      destruct (negb (wchar_eqb (CurChar q2) ch_gt));
        [injection H as <- <- <-; discriminate|].
      destruct (NextChar_same_session_state q2) as (C1 & _ & C3).
      injection H as <- <- <-. cbn in Herr |- *.
      split; [congruence|]. split; [reflexivity|].
      eexists (mkXmlElementBase _ _ _); split; [cbn; reflexivity|].
      split; [cbn; f_equal; congruence|]. cbn. auto.
    + destruct (negb (wchar_eqb (CurChar q') ch_gt));
        [injection H as <- <- <-; discriminate|].
      destruct (NextChar_same_session_state q') as (C1 & C2 & C3).
      injection H as <- <- <-. cbn in Herr |- *.
      split; [congruence|]. split; [reflexivity|].
      eexists (mkXmlElementBase _ _ _); split; [cbn; reflexivity|].
      split; [cbn; f_equal; congruence|]. cbn.
      intros Hf. left. congruence.
Qed.

Lemma pending_close_ready_transfer (p q : XmlParser) :
  m_Stack q = m_Stack p -> m_PriorWasEmptyTag q = m_PriorWasEmptyTag p ->
  pending_close_ready p -> pending_close_ready q.
Proof. unfold pending_close_ready. intros -> ->. auto. Qed.

Lemma node_fits_transfer (p q : XmlParser) (n : XmlNodeBase) (p' : XmlParser) :
  m_Stack q = m_Stack p -> node_fits q n p' -> node_fits p n p'.
Proof. unfold node_fits, open_element_names. now intros ->. Qed.

(** What one call does to the session, provided no error text is present
    after it. *)
Lemma NextNode_step (fuel : nat) (p : XmlParser)
  (b : bool) (node : option XmlNodeBase) (p' : XmlParser) :
  NextNode fuel p = Ok (b, node, p') ->
  m_ErrorInfo p' = "" ->
  m_ErrorInfo p = "" /\
  (b = false -> node = None /\ m_Stack p = [] /\ m_Stack p' = [] /\ CurChar p' = NUL) /\
  (b = true -> pending_close_ready p ->
   exists n, node = Some n /\ node_fits p n p' /\ pending_close_ready p').
Proof.
  revert p. induction fuel as [|fuel IH]; intros p H Herr; cbn [NextNode] in H;
    [discriminate|].
  destruct (m_PriorWasEmptyTag p && negb (vector_empty (m_Stack p))) eqn:Hsyn.
  - (* the synthetic close *)
    pose proof Hsyn as Hsyn'.
    apply andb_prop in Hsyn' as [Hf He]. apply negb_true_iff in He.
    cbn [m_Stack set_PriorWasEmptyTag] in H.
    destruct (vector_back_nonempty _ He) as [top Hback]. rewrite Hback in H.
    rewrite (vector_erase_back_nonempty _ He) in H. cbn [require bind] in H.
    injection H as <- <- <-. cbn in Herr.
    split; [assumption|]. split; [discriminate|]. intros _ Hr.
    eexists; split; [reflexivity|]. split.
    + destruct (Hr Hf) as (e & He' & Hn). rewrite Hback in He'. injection He' as <-.
      pose proof (vector_back_inv _ _ Hback) as Hv.
      unfold node_fits, open_element_names. cbn [m_Stack set_Stack set_PriorWasEmptyTag].
      rewrite Hv at 1. rewrite names_snoc. cbn. rewrite Hn. now rewrite String.eqb_refl.
    + unfold pending_close_ready. cbn. discriminate.
  - pose proof (scan_same_session_state (loop_budget p) iswspace p "") as S1.
    pose proof (scan_iswspace_text (loop_budget p) p "" eq_refl) as Hw.
    pose proof (scan_exit iswspace eq_refl (loop_budget p) p "" (loop_budget_enough p))
      as Hx.
    destruct (scan (loop_budget p) iswspace p "") as [q token]; cbn [fst snd] in *.
    destruct S1 as (St & Fl & Er).
    destruct (wchar_eqb (CurChar q) ch_lt) eqn:Hlt.
    + destruct (NextChar_same_session_state q) as (St1 & Fl1 & Er1).
      destruct (wchar_eqb (CurChar (snd (NextChar q))) ch_slash).
      * (* an end tag *)
        destruct (ParseEndTagNode_step _ _ _ _ H Herr) as (E1 & -> & F1 & n & -> & Hfit).
        split; [congruence|]. split; [discriminate|]. intros _ Hr.
        exists n. split; [reflexivity|]. split.
        -- apply (node_fits_transfer p (snd (NextChar q))); [congruence|exact Hfit].
        -- pose proof (pending_close_needs_element p Hr Hsyn) as Hf.
           unfold pending_close_ready. intros Hp. congruence.
      * destruct (wchar_eqb (CurChar (snd (NextChar q))) ch_bang).
        -- (* a comment or marked section, then the next node *)
           unfold ParseBangTag in H.
           assert (Hgo : forall r, error_may_be_set (snd (NextChar q)) r ->
                     NextNode fuel r = Ok (b, node, p') ->
                     m_ErrorInfo p = "" /\
                     (b = false ->
                      node = None /\ m_Stack p = [] /\ m_Stack p' = [] /\ CurChar p' = NUL) /\
                     (b = true -> pending_close_ready p ->
                      exists n, node = Some n /\ node_fits p n p' /\
                                pending_close_ready p')).
           { intros r (R1 & R2 & R3) Hr.
             destruct (IH _ Hr Herr) as (E1 & Hfalse & Htrue).
             split; [rewrite <- Er, <- Er1; auto|]. split.
             - intros Hb. destruct (Hfalse Hb) as (? & ? & ? & ?).
               repeat split; auto. congruence.
             - intros Hb Hready.
               destruct (Htrue Hb) as (n & ? & Hfit & ?).
               { apply (pending_close_ready_transfer p); auto; congruence. }
               exists n. repeat split; auto.
               apply (node_fits_transfer p r); [congruence|exact Hfit]. }
           match type of H with
           | (if ?c then _ else _) = _ => destruct c
           end.
           ++ apply (Hgo _ (error_may_be_set_after_NextChar _ _
                              (error_may_be_set_after_NextChar _ _
                                 (Eat_error_may_be_set _ _ _))) H).
           ++ match type of H with
              | (if ?c then _ else _) = _ => destruct c
              end.
              ** apply (Hgo _ (error_may_be_set_after_NextChar _ _
                                 (error_may_be_set_after_NextChar _ _
                                    (error_may_be_set_after_NextChar _ _
                                       (Eat_error_may_be_set _ _ _)))) H).
              ** injection H as <- <- <-. discriminate.
        -- (* a begin tag *)
           destruct (ParseBeginTagNode_step _ _ _ _ _ H Herr)
             as (E1 & -> & elm & -> & Hst & Hflag).
           split; [congruence|]. split; [discriminate|]. intros _ Hr.
           eexists; split; [reflexivity|].
           pose proof (pending_close_needs_element p Hr Hsyn) as Hf. split.
           ++ unfold node_fits, open_element_names. rewrite Hst, St1, St.
              rewrite names_snoc. reflexivity.
           ++ intros Hp. exists elm. rewrite Hst, vector_back_snoc. split; auto.
              destruct (Hflag Hp) as [Hbad|Hok]; [congruence|exact Hok].
    + (* a value *)
      destruct (ParseTagValueNode_step _ _ _ _ _ H Herr Hw Hx Hlt)
        as (E1 & Hfalse & Htrue).
      split; [congruence|]. split.
      * intros Hb. destruct (Hfalse Hb) as (-> & Hs & -> & Hc).
        repeat split; auto; congruence.
      * intros Hb Hr. destruct (Htrue Hb) as (n & -> & Hfit & Hready).
        exists n. split; [reflexivity|]. split.
        -- apply (node_fits_transfer p q); auto.
        -- apply Hready. apply (pending_close_ready_transfer p); auto.
Qed.

(** ** A whole session *)

Lemma replay_cons (open : list string) (n : XmlNodeBase) (rest : list XmlNodeBase) :
  replay open (n :: rest)
  = match replay open [n] with
    | Some open' => replay open' rest
    | None => None
    end.
Proof.
  destruct n as [b|v|e]; cbn; auto.
  - destruct open as [|top outer]; auto. destruct (String.eqb top (value_m_Name v)); auto.
  - destruct open as [|top outer]; auto. destruct (String.eqb top (end_m_Name e)); auto.
Qed.

Lemma no_begin_node_open_names (nodes : list XmlNodeBase) :
  no_begin_node nodes = true -> open_names nodes = [].
Proof.
  induction nodes as [|[b|v|e] rest IH]; cbn; auto. discriminate.
Qed.

Lemma replay_closes_only (nodes : list XmlNodeBase) (open fin : list string) :
  no_begin_node nodes = true -> replay open nodes = Some fin ->
  open = close_names nodes ++ fin.
Proof.
  revert open. induction nodes as [|[b|v|e] rest IH]; intros open Hn H; cbn in *.
  - congruence.
  - discriminate.
  - destruct open as [|top outer]; [discriminate|].
    destruct (String.eqb top (value_m_Name v)); [auto|discriminate].
  - destruct open as [|top outer]; [discriminate|].
    destruct (String.eqb_spec top (end_m_Name e)); [|discriminate].
    subst. f_equal. auto.
Qed.

Lemma replay_opens_then_closes (nodes : list XmlNodeBase) (open fin : list string) :
  opens_precede_closes nodes = true -> replay open nodes = Some fin ->
  rev (open_names nodes) ++ open = close_names nodes ++ fin.
Proof.
  revert open. induction nodes as [|[b|v|e] rest IH]; intros open Hn H; cbn in *.
  - congruence.
  - rewrite <- (IH _ Hn H). now rewrite <- app_assoc.
  - destruct open as [|top outer]; [discriminate|].
    destruct (String.eqb top (value_m_Name v)); [auto|discriminate].
  - destruct open as [|top outer]; [discriminate|].
    destruct (String.eqb_spec top (end_m_Name e)); [|discriminate].
    subst. rewrite (no_begin_node_open_names _ Hn). cbn. f_equal.
    now apply replay_closes_only.
Qed.

Lemma pull_nested (calls fuel : nat) (p : XmlParser)
  (trace : list (XmlNodeBase * nat)) (fin : XmlParser) :
  pull calls fuel p = Ok (trace, fin) ->
  m_ErrorInfo fin = "" ->
  m_ErrorInfo p = "" /\
  (pending_close_ready p ->
   replay (rev (open_element_names p)) (nodes_of trace) = Some []).
Proof.
  revert p trace. induction calls as [|calls IH]; intros p trace H Herr; cbn [pull] in H;
    [discriminate|].
  destruct (NextNode fuel p) as [[[b node] p']| |] eqn:Hn; cbn [bind] in H;
    try discriminate.
  destruct b.
  - destruct node as [n|].
    + destruct (pull calls fuel p') as [[rest fin']| |] eqn:Hp; cbn [bind] in H;
        try discriminate.
      cbn [fst snd] in H. injection H as <- <-.
      destruct (IH _ _ Hp Herr) as (E1 & Hrest).
      destruct (NextNode_step _ _ _ _ _ Hn E1) as (E0 & _ & Htrue).
      split; [exact E0|]. intros Hr.
      destruct (Htrue eq_refl Hr) as (n' & Hn' & Hfit & Hready).
      injection Hn' as <-. unfold nodes_of. cbn [map fst].
      rewrite replay_cons. unfold node_fits in Hfit. rewrite Hfit. now apply Hrest.
    + injection H as <- <-.
      destruct (NextNode_step _ _ _ _ _ Hn Herr) as (E0 & _ & Htrue).
      split; [exact E0|]. intros Hr.
      destruct (Htrue eq_refl Hr) as (n' & Hn' & _). discriminate.
  - assert (H' : trace = [] /\ fin = p').
    { destruct node; injection H as <- <-; auto. }
    destruct H' as [-> ->].
    destruct (NextNode_step _ _ _ _ _ Hn Herr) as (E0 & Hfalse & _).
    split; [exact E0|]. intros _.
    destruct (Hfalse eq_refl) as (_ & Hs & _).
    unfold open_element_names. rewrite Hs. reflexivity.
Qed.

Lemma BeginParsingFromMemory_fresh (data : option (list ascii)) (numbytes : nat)
  (parser p0 : XmlParser) :
  BeginParsingFromMemory data numbytes parser = (true, p0) ->
  m_Stack p0 = [] /\ m_PriorWasEmptyTag p0 = false.
Proof.
  unfold BeginParsingFromMemory, BeginParsingImpl.
  cbn [m_Reader set_Reader].
  match goal with
  | |- (let (ok, q) := NextChar ?x in _) = _ -> _ =>
      pose proof (NextChar_same_session_state x) as (S1 & S2 & _);
      destruct (NextChar x) as [ok q]
  end.
  cbn [snd] in *. destruct ok; cbn [negb]; intros H; [|discriminate].
  injection H as <-. cbn in S1, S2. auto.
Qed.

(** C1, as the code has it.  In a session that ends with [NextNode]
    returning false and no error text, the nodes handed out nest properly:
    every end node carries the name of the innermost element still open,
    every value node the name of the element it sits in, and nothing is
    left open.  The end-node names are the exact reverse of the begin-node
    names when no begin node follows an end node. *)
Theorem accepted_documents_nest_properly :
  forall (data : option (list ascii)) (numbytes : nat) (parser p0 : XmlParser)
         (calls fuel : nat) (trace : list (XmlNodeBase * nat)) (fin : XmlParser),
    BeginParsingFromMemory data numbytes parser = (true, p0) ->
    pull calls fuel p0 = Ok (trace, fin) ->
    ErrorInfo fin = "" ->
    properly_nested (nodes_of trace) /\
    (opens_precede_closes (nodes_of trace) = true ->
     close_names (nodes_of trace) = rev (open_names (nodes_of trace))).
Proof.
  intros data numbytes parser p0 calls fuel trace fin Hstart Hpull Herr.
  destruct (BeginParsingFromMemory_fresh _ _ _ _ Hstart) as (Hs & Hf).
  destruct (pull_nested _ _ _ _ _ Hpull Herr) as (_ & Hnest).
  assert (Hn : properly_nested (nodes_of trace)).
  { unfold properly_nested. unfold open_element_names in Hnest. rewrite Hs in Hnest.
    apply Hnest. unfold pending_close_ready. rewrite Hf. discriminate. }
  split; [exact Hn|]. intros Hord.
  pose proof (replay_opens_then_closes _ _ _ Hord Hn) as H.
  rewrite !app_nil_r in H. auto.
Qed.

(** The theorem at the accepted document "<a><b>x</b></a>". *)
Lemma accepted_documents_nest_properly_witness :
  BeginParsingFromMemory (Some (list_ascii_of_string nested_doc)) 15 XmlParser_new
  = (true, nested_start) /\
  pull 6 2 nested_start = Ok (fst nested_run, snd nested_run) /\
  ErrorInfo (snd nested_run) = "" /\
  properly_nested (nodes_of (fst nested_run)) /\
  (opens_precede_closes (nodes_of (fst nested_run)) = true ->
   close_names (nodes_of (fst nested_run)) = rev (open_names (nodes_of (fst nested_run)))).
Proof.
  assert (H1 : BeginParsingFromMemory (Some (list_ascii_of_string nested_doc)) 15
                 XmlParser_new = (true, nested_start)) by (vm_compute; reflexivity).
  assert (H2 : pull 6 2 nested_start = Ok (fst nested_run, snd nested_run))
    by (vm_compute; reflexivity).
  assert (H3 : ErrorInfo (snd nested_run) = "") by reflexivity.
  exact (conj H1 (conj H2 (conj H3
           (accepted_documents_nest_properly _ _ _ _ _ _ _ _ H1 H2 H3)))).
Defined.

(** C1 as stated fails on a document with two sibling elements: the
    session is accepted, the end-node names are b, c, a and the reversed
    begin-node names are c, b, a. *)
Lemma closes_are_not_reversed_opens :
  exists p0 trace fin,
    session "<a><b></b><c></c></a>" = (true, p0) /\
    pull 7 2 p0 = Ok (trace, fin) /\
    ErrorInfo fin = "" /\
    close_names (nodes_of trace) = ["b"; "c"; "a"] /\
    rev (open_names (nodes_of trace)) = ["c"; "b"; "a"] /\
    close_names (nodes_of trace) <> rev (open_names (nodes_of trace)).
Proof.
  do 3 eexists.
  split; [cbv; reflexivity|].
  split; [cbv; reflexivity|].
  cbv. repeat split. discriminate.
Qed.

(** ** After the terminal signal *)

(** An error text, once recorded, is never cleared by a call. *)
Lemma error_text_is_never_cleared (fuel : nat) (p : XmlParser)
  (b : bool) (node : option XmlNodeBase) (p' : XmlParser) :
  NextNode fuel p = Ok (b, node, p') -> ErrorInfo p <> "" -> ErrorInfo p' <> "".
Proof.
  intros H Hne He. apply Hne. exact (proj1 (NextNode_step _ _ _ _ _ H He)).
Qed.

(** C3, as the code has it.  When [NextNode] has returned false and the
    error text is empty, the call handed out no node, and every later call
    returns false again, hands out no node and leaves the parser (stack,
    position, reader, error text) exactly as it is. *)
Theorem clean_end_is_repeatable :
  forall (fuel : nat) (p : XmlParser) (node : option XmlNodeBase) (p' : XmlParser),
    NextNode fuel p = Ok (false, node, p') ->
    ErrorInfo p' = "" ->
    node = None /\
    (forall fuel', NextNode (S fuel') p' = Ok (false, None, p')).
Proof.
  intros fuel p node p' H Herr.
  destruct (NextNode_step _ _ _ _ _ H Herr) as (_ & Hfalse & _).
  destruct (Hfalse eq_refl) as (-> & _ & Hs & Hc).
  split; [reflexivity|].
  intros fuel'. cbn [NextNode]. rewrite Hs. cbn [vector_empty negb].
  rewrite andb_false_r.
  rewrite scan_stops_at_once by (rewrite Hc; reflexivity).
  rewrite Hc. cbn [wchar_eqb]. change (Ascii.eqb NUL ch_lt) with false. cbv iota.
  unfold ParseTagValueNode.
  rewrite scan_stops_at_once by (rewrite Hc; reflexivity).
  rewrite Hs. reflexivity.
Qed.

(** The theorem at the clean end of the session over a single blank. *)
Lemma clean_end_is_repeatable_witness :
  NextNode 1 (snd (session " ")) = Ok (false, None, blank_session_end) /\
  ErrorInfo blank_session_end = "" /\
  (None : option XmlNodeBase) = None /\
  (forall fuel', NextNode (S fuel') blank_session_end = Ok (false, None, blank_session_end)).
Proof.
  assert (H1 : NextNode 1 (snd (session " ")) = Ok (false, None, blank_session_end))
    by (vm_compute; reflexivity).
  assert (H2 : ErrorInfo blank_session_end = "") by reflexivity.
  exact (conj H1 (conj H2 (clean_end_is_repeatable _ _ _ _ H1 H2))).
Defined.

(** C3 as stated fails after a fatal error.  In "<a></b></a>" the second
    call returns false with the mismatch message; the third call reads on,
    returns true with Close("a"), moves the position and empties the
    stack. *)
Lemma terminal_signal_is_not_sticky :
  exists p0 p1 p2 p3,
    session "<a></b></a>" = (true, p0) /\
    NextNode 2 p0 = Ok (true, Some (Open "a" 0 []), p1) /\
    NextNode 2 p1 = Ok (false, None, p2) /\
    ErrorInfo p2 = "Mismatched end tag, found 'b', expected 'a'" /\
    NextNode 2 p2 = Ok (true, Some (Close "a"), p3) /\
    CurPosition p2 = 8 /\ CurPosition p3 = 11 /\
    open_element_names p2 = ["a"] /\ open_element_names p3 = [].
Proof.
  do 4 eexists.
  split; [cbv; reflexivity|].
  split; [cbv; reflexivity|].
  split; [cbv; reflexivity|].
  cbv. repeat split.
Qed.

(** ** Comments and marked sections contribute nothing *)

Lemma advance_add (a b : nat) (p : XmlParser) :
  advance (a + b) p = advance b (advance a p).
Proof. revert p. induction a as [|a IH]; intros p; cbn; auto. Qed.

Lemma advance_same_session_state (n : nat) (p : XmlParser) :
  same_session_state p (advance n p).
Proof.
  revert p. induction n as [|n IH]; intros p; cbn; auto with session.
  eapply same_session_state_trans; [apply NextChar_same_session_state | apply IH].
Qed.

Lemma input_at_NextChar (p : XmlParser) (c c' : wchar_t) (l : list wchar_t) :
  input_at p = c :: c' :: l ->
  fst (NextChar p) = true /\ input_at (snd (NextChar p)) = c' :: l.
Proof.
  unfold input_at. intros H. injection H as _ Hup.
  destruct (NextChar_upcoming_cons _ _ _ Hup) as (H1 & H2 & H3 & _).
  split; [assumption|]. congruence.
Qed.

Lemma input_at_NextChar_last (p : XmlParser) (c : wchar_t) :
  input_at p = [c] ->
  fst (NextChar p) = false /\ input_at (snd (NextChar p)) = [NUL].
Proof.
  unfold input_at. intros H. injection H as _ Hup.
  rewrite (NextChar_upcoming_nil _ Hup). cbn. unfold upcoming in *. cbn.
  rewrite Hup. auto.
Qed.

Lemma input_at_advance (pre : list wchar_t) (c : wchar_t) (l : list wchar_t)
  (p : XmlParser) :
  input_at p = pre ++ c :: l -> input_at (advance (List.length pre) p) = c :: l.
Proof.
  revert p. induction pre as [|x pre IH]; intros p H; cbn in *; auto.
  apply IH. destruct pre; cbn in *; eapply input_at_NextChar; eauto.
Qed.

Lemma input_at_CurChar (p : XmlParser) (c : wchar_t) (l : list wchar_t) :
  input_at p = c :: l -> CurChar p = c.
Proof. unfold input_at. congruence. Qed.

Lemma input_at_upcoming (p : XmlParser) (c : wchar_t) (l : list wchar_t) :
  input_at p = c :: l -> upcoming p = l.
Proof. unfold input_at. congruence. Qed.

(** On a body in which it can find the terminator, [Eat] stops right after
    the terminator's '>'. *)
Lemma Eat_finds_terminator (closer : wchar_t) (body rest : list wchar_t) :
  wchar_eqb closer NUL = false ->
  forall (n : nat) (p : XmlParser),
    markup_body closer body = true ->
    input_at p = body ++ [closer; closer; ch_gt] ++ rest ->
    measure p < n ->
    Eat n closer p
    = let q := advance (List.length body + 2) p in
      match upcoming q with
      | [] => (false, set_ErrorInfo "Unexpected end of input." (snd (NextChar q)))
      | _ :: _ => (true, snd (NextChar q))
      end.
Proof.
  intros Hcl. induction body as [|c body IH]; intros n p Hbody Hin Hn.
  - destruct n as [|n]; [lia|]. cbn [Eat app List.length Nat.add advance] in *.
    rewrite (input_at_CurChar _ _ _ Hin).
    unfold wchar_eqb at 1. rewrite Ascii.eqb_refl.
    destruct (input_at_NextChar _ _ _ _ Hin) as (_ & Hin1).
    rewrite (input_at_CurChar _ _ _ Hin1).
    unfold wchar_eqb at 1. rewrite Ascii.eqb_refl.
    assert (Hin2 : input_at (snd (NextChar (snd (NextChar p)))) = ch_gt :: rest).
    { destruct rest; [eapply input_at_NextChar|eapply input_at_NextChar]; eauto. }
    rewrite (input_at_CurChar _ _ _ Hin2).
    unfold wchar_eqb at 1. rewrite Ascii.eqb_refl.
    unfold input_at in Hin2. injection Hin2 as _ Hup. rewrite Hup.
    destruct rest as [|x rest].
    + rewrite (NextChar_upcoming_nil _ Hup). reflexivity.
    + destruct (NextChar_upcoming_cons _ _ _ Hup) as (Hok & _).
      destruct (NextChar (snd (NextChar (snd (NextChar p))))) as [ok q];
        cbn [fst snd] in *.
      subst ok. reflexivity.
  - destruct n as [|n]; [lia|].
    assert (Hnext : fst (NextChar p) = true /\
                    input_at (snd (NextChar p))
                    = body ++ [closer; closer; ch_gt] ++ rest).
    { destruct body; cbn in Hin |- *; eapply input_at_NextChar; eauto. }
    destruct Hnext as (Hok & Hin1).
    pose proof (NextChar_measure_true _ Hok) as Hm.
    cbn [Eat]. rewrite (input_at_CurChar _ _ _ Hin).
    cbn [markup_body] in Hbody.
    destruct (wchar_eqb c closer) eqn:Hc.
    + destruct body as [|c' body]; [discriminate|].
      apply andb_prop in Hbody as (Hc' & Hbody).
      rewrite (input_at_CurChar _ _ _ Hin1).
      apply negb_true_iff in Hc'. rewrite Hc'.
      rewrite (IH n (snd (NextChar p)) Hbody Hin1) by lia. reflexivity.
    + destruct (NextChar p) as [ok q] eqn:Hnc; cbn [fst snd] in *. subst ok.
      cbn [negb]. rewrite (IH n q Hbody Hin1) by lia.
      cbn [List.length Nat.add advance]. rewrite Hnc. reflexivity.
Qed.

Lemma markup_closer_nonzero (kind : BangMarkup) :
  wchar_eqb (markup_closer kind) NUL = false.
Proof. destruct kind; reflexivity. Qed.

(** Where C7 holds.  The parser stands at a '<' (no synthetic close pending) that
    opens a complete comment or marked section, followed by [rest].  The
    call of [NextNode] returns exactly what [NextNode] returns on the
    parser that stands just past the markup: same stack, same pending flag,
    cursor on the first character of [rest].  The markup itself hands out
    no node. *)
Theorem markup_contributes_no_node :
  forall (kind : BangMarkup) (fuel : nat) (p : XmlParser) (body rest : list wchar_t),
    CurChar p = ch_lt ->
    m_PriorWasEmptyTag p && negb (vector_empty (m_Stack p)) = false ->
    upcoming p = markup_opener kind ++ body ++ markup_terminator kind ++ rest ->
    markup_body (markup_closer kind) body = true ->
    let q := after_markup (markup_span kind body) p in
    NextNode (S fuel) p = NextNode fuel q /\
    m_Stack q = m_Stack p /\
    m_PriorWasEmptyTag q = m_PriorWasEmptyTag p /\
    input_at q = input_after rest.
Proof.
  intros kind fuel p body rest Hc Hsyn Hup Hbody q.
  assert (Hin : input_at p
                = (ch_lt :: markup_opener kind) ++ body ++ markup_terminator kind ++ rest).
  { unfold input_at. rewrite Hc, Hup. reflexivity. }
  (* the cursor after the opener *)
  set (k := List.length (markup_opener kind)) in *.
  assert (Hin4 : input_at (advance (S k) p)
                 = body ++ [markup_closer kind; markup_closer kind; ch_gt] ++ rest).
  { destruct body as [|c body].
    - apply (input_at_advance (ch_lt :: markup_opener kind)). exact Hin.
    - apply (input_at_advance (ch_lt :: markup_opener kind)). exact Hin. }
  pose proof (Eat_finds_terminator _ body rest (markup_closer_nonzero kind)
                (loop_budget (advance (S k) p)) (advance (S k) p) Hbody Hin4
                (loop_budget_enough _)) as HEat.
  cbv zeta in HEat. rewrite <- advance_add in HEat.
  (* the state after the markup *)
  assert (Hq : snd (Eat (loop_budget (advance (S k) p)) (markup_closer kind)
                      (advance (S k) p)) = q).
  { rewrite HEat. unfold q, after_markup, markup_span. fold k.
    cbn [markup_terminator List.length].
    replace (k + List.length body + 3 + 1 - 1) with (S k + (List.length body + 2)) by lia.
    replace (k + List.length body + 3 + 1) with (S (S k + (List.length body + 2))) by lia.
    replace (advance (S (S k + (List.length body + 2))) p)
      with (snd (NextChar (advance (S k + (List.length body + 2)) p))).
    2:{ replace (S (S k + (List.length body + 2)))
          with ((S k + (List.length body + 2)) + 1) by lia.
        rewrite (advance_add _ 1). reflexivity. }
    destruct (upcoming (advance (S k + (List.length body + 2)) p)); reflexivity. }
  assert (Hgt : input_at (advance (S k + (List.length body + 2)) p) = ch_gt :: rest).
  { replace (S k + (List.length body + 2))
      with (List.length ((ch_lt :: markup_opener kind) ++ body
                         ++ [markup_closer kind; markup_closer kind])).
    2:{ rewrite !length_app. cbn [List.length]. fold k. lia. }
    apply input_at_advance. rewrite Hin. unfold markup_terminator.
    rewrite <- !app_assoc. reflexivity. }
  split; [|split; [|split]].
  - cbn [NextNode]. rewrite Hsyn.
    rewrite scan_stops_at_once by (rewrite Hc; reflexivity).
    rewrite Hc. change (wchar_eqb ch_lt ch_lt) with true. cbv iota.
    unfold ParseBangTag, EatComment, EatMarkedSection.
    destruct kind; cbn [markup_opener List.length] in k; subst k.
    + (* comment *)
      pose proof (input_at_advance [ch_lt] ch_bang _ p Hin) as H1.
      pose proof (input_at_advance [ch_lt; ch_bang] ch_dash _ p Hin) as H2.
      pose proof (input_at_advance [ch_lt; ch_bang; ch_dash] ch_dash _ p Hin) as H3.
      cbn [List.length advance] in H1, H2, H3, Hq.
      rewrite (input_at_CurChar _ _ _ H1), (input_at_CurChar _ _ _ H2),
        (input_at_CurChar _ _ _ H3).
      change (wchar_eqb ch_bang ch_slash) with false.
      change (wchar_eqb ch_bang ch_bang) with true.
      change (wchar_eqb ch_dash ch_lbracket) with false.
      change (wchar_eqb ch_dash ch_dash) with true.
      cbv iota. cbn [andb]. cbn [markup_closer] in Hq. rewrite Hq. reflexivity.
    + (* marked section *)
      pose proof (input_at_advance [ch_lt] ch_bang _ p Hin) as H1.
      pose proof (input_at_advance [ch_lt; ch_bang] ch_lbracket _ p Hin) as H2.
      cbn [List.length advance] in H1, H2, Hq.
      rewrite (input_at_CurChar _ _ _ H1), (input_at_CurChar _ _ _ H2).
      change (wchar_eqb ch_bang ch_slash) with false.
      change (wchar_eqb ch_bang ch_bang) with true.
      change (wchar_eqb ch_lbracket ch_lbracket) with true.
      cbv iota. cbn [markup_closer] in Hq. rewrite Hq. reflexivity.
  - rewrite <- Hq.
    destruct (Eat_error_may_be_set (loop_budget (advance (S k) p)) (markup_closer kind)
                (advance (S k) p)) as (E1 & _ & _).
    destruct (advance_same_session_state (S k) p) as (A1 & _ & _). congruence.
  - rewrite <- Hq.
    destruct (Eat_error_may_be_set (loop_budget (advance (S k) p)) (markup_closer kind)
                (advance (S k) p)) as (_ & E2 & _).
    destruct (advance_same_session_state (S k) p) as (_ & A2 & _). congruence.
  - rewrite <- Hq, HEat.
    destruct rest as [|x rest].
    + destruct (input_at_NextChar_last _ _ Hgt) as (_ & Hl).
      rewrite (input_at_upcoming _ _ _ Hgt). cbn [snd]. exact Hl.
    + destruct (input_at_NextChar _ _ _ _ Hgt) as (_ & Hl).
      rewrite (input_at_upcoming _ _ _ Hgt). cbn [snd]. exact Hl.
Qed.

(** The theorem at the comment and at the marked section of
    "<a><!--x--><![CDATA[x]]></a>". *)
Lemma markup_contributes_no_node_witness :
  (CurChar markup_start = ch_lt /\
   m_PriorWasEmptyTag markup_start && negb (vector_empty (m_Stack markup_start)) = false /\
   upcoming markup_start
   = markup_opener CommentMarkup ++ ["x"%char] ++ markup_terminator CommentMarkup
     ++ list_ascii_of_string "<![CDATA[x]]></a>" /\
   markup_body (markup_closer CommentMarkup) ["x"%char] = true /\
   let q := after_markup (markup_span CommentMarkup ["x"%char]) markup_start in
   NextNode 3 markup_start = NextNode 2 q /\
   m_Stack q = m_Stack markup_start /\
   m_PriorWasEmptyTag q = m_PriorWasEmptyTag markup_start /\
   input_at q = input_after (list_ascii_of_string "<![CDATA[x]]></a>")) /\
  (let p := after_markup 8 markup_start in
   CurChar p = ch_lt /\
   m_PriorWasEmptyTag p && negb (vector_empty (m_Stack p)) = false /\
   upcoming p
   = markup_opener MarkedSectionMarkup ++ list_ascii_of_string "CDATA[x"
     ++ markup_terminator MarkedSectionMarkup ++ list_ascii_of_string "</a>" /\
   markup_body (markup_closer MarkedSectionMarkup) (list_ascii_of_string "CDATA[x") = true /\
   let q := after_markup (markup_span MarkedSectionMarkup (list_ascii_of_string "CDATA[x")) p in
   NextNode 2 p = NextNode 1 q /\
   m_Stack q = m_Stack p /\
   m_PriorWasEmptyTag q = m_PriorWasEmptyTag p /\
   input_at q = input_after (list_ascii_of_string "</a>")).
Proof.
  split.
  - assert (H1 : CurChar markup_start = ch_lt) by reflexivity.
    assert (H2 : m_PriorWasEmptyTag markup_start
                 && negb (vector_empty (m_Stack markup_start)) = false) by reflexivity.
    assert (H3 : upcoming markup_start
                 = markup_opener CommentMarkup ++ ["x"%char]
                   ++ markup_terminator CommentMarkup
                   ++ list_ascii_of_string "<![CDATA[x]]></a>") by reflexivity.
    assert (H4 : markup_body (markup_closer CommentMarkup) ["x"%char] = true)
      by reflexivity.
    exact (conj H1 (conj H2 (conj H3 (conj H4
             (markup_contributes_no_node CommentMarkup 2 markup_start _ _ H1 H2 H3 H4))))).
  - set (p := after_markup 8 markup_start).
    assert (H1 : CurChar p = ch_lt) by reflexivity.
    assert (H2 : m_PriorWasEmptyTag p && negb (vector_empty (m_Stack p)) = false)
      by reflexivity.
    assert (H3 : upcoming p
                 = markup_opener MarkedSectionMarkup ++ list_ascii_of_string "CDATA[x"
                   ++ markup_terminator MarkedSectionMarkup
                   ++ list_ascii_of_string "</a>") by reflexivity.
    assert (H4 : markup_body (markup_closer MarkedSectionMarkup)
                   (list_ascii_of_string "CDATA[x") = true) by reflexivity.
    exact (conj H1 (conj H2 (conj H3 (conj H4
             (markup_contributes_no_node MarkedSectionMarkup 1 p _ _ H1 H2 H3 H4))))).
Defined.

(** * Further properties of the code *)

(** ** The memory reader *)

Lemma map_byte_at_seq (d : list ascii) :
  map (Mem.byte_at d) (seq 0 (List.length d)) = d.
Proof.
  induction d as [|a d IH]; cbn [List.length seq map]; auto.
  unfold Mem.byte_at at 1. cbn [nth]. f_equal.
  rewrite <- seq_shift, map_map. exact IH.
Qed.

Lemma map_byte_at_seq_from (d : list ascii) (pos : nat) :
  map (Mem.byte_at d) (seq pos (List.length d - pos)) = skipn pos d.
Proof.
  revert pos. induction d as [|a d IH]; intros pos.
  - cbn. now destruct pos.
  - destruct pos as [|pos].
    + rewrite Nat.sub_0_r. apply map_byte_at_seq.
    + cbn [List.length Nat.sub skipn]. rewrite <- seq_shift, map_map. apply IH.
Qed.

Lemma ReadChars_delivers_unread (n : nat) (r : Mem.t) :
  List.length (Mem.unread r) <= n ->
  Mem.m_DataPos r <= Mem.m_DataSize r ->
  ReadChars n r
  = (Mem.unread r, Mem.mk (Mem.m_Data r) (Mem.m_DataSize r)
                     (match Mem.m_Data r with
                      | Some _ => Mem.m_DataSize r
                      | None => Mem.m_DataPos r
                      end)).
Proof.
  revert r. induction n as [|n IH]; intros r Hn Hle.
  - destruct (ReadChar_cases r) as [(d & Hd & Hlt & _)|(Hc & _)].
    + rewrite (unread_cons r d Hd Hlt) in Hn. cbn in Hn. lia.
    + rewrite (unread_nil r Hc). cbn [ReadChars]. f_equal.
      destruct r as [data size pos]; cbn in *.
      destruct data; [|reflexivity]. destruct Hc as [Hc|Hc]; [discriminate|].
      f_equal. lia.
  - cbn [ReadChars].
    destruct (ReadChar_cases r) as [(d & Hd & Hlt & ->)|(Hc & ->)].
    + rewrite (unread_cons r d Hd Hlt) in Hn |- *. cbn [List.length] in Hn.
      rewrite IH; cbn [Mem.m_Data Mem.m_DataSize Mem.m_DataPos]; try lia.
      rewrite Hd. reflexivity.
    + rewrite (unread_nil r Hc). f_equal.
      destruct r as [data size pos]; cbn in *.
      destruct data; [|reflexivity]. destruct Hc as [Hc|Hc]; [discriminate|].
      f_equal. lia.
Qed.

(** X1.  A fresh reader over a block delivers the bytes of the block, in
    order and nothing else: however many more reads are attempted, the
    characters read are exactly the block, and the reader ends at the end
    of the block. *)
Theorem memory_reader_delivers_the_block :
  forall (data : list ascii) (more : nat),
    ReadChars (List.length data + more) (Mem.new (Some data) (List.length data))
    = (data, Mem.mk (Some data) (List.length data) (List.length data)).
Proof.
  intros data more.
  rewrite ReadChars_delivers_unread.
  - unfold Mem.unread, Mem.new. cbn [Mem.m_Data Mem.m_DataSize Mem.m_DataPos].
    rewrite Nat.sub_0_r, map_byte_at_seq. reflexivity.
  - unfold Mem.unread, Mem.new. cbn [Mem.m_Data Mem.m_DataSize Mem.m_DataPos].
    rewrite length_map, length_seq. lia.
  - cbn. lia.
Qed.

(** X2.  [Seek] is random access inside the block: from whatever position,
    seeking to an offset that does not exceed the size succeeds, and the
    reader then delivers exactly the bytes of the block from that offset
    on. *)
Theorem Seek_then_read_from_offset :
  forall (data : list ascii) (pos offset : nat),
    offset <= List.length data ->
    let r := Mem.mk (Some data) (List.length data) pos in
    fst (Mem.Seek r offset) = true /\
    Mem.m_DataPos (snd (Mem.Seek r offset)) = offset /\
    fst (ReadChars (List.length data) (snd (Mem.Seek r offset))) = skipn offset data.
Proof.
  intros data pos offset Hle r. subst r. unfold Mem.Seek.
  cbn [Mem.m_Data Mem.m_DataSize Mem.m_DataPos].
  destruct (Nat.ltb_spec (List.length data) offset) as [Hlt|_]; [lia|].
  cbn [fst snd Mem.m_DataPos]. repeat split.
  rewrite ReadChars_delivers_unread; cbn [Mem.m_Data Mem.m_DataSize Mem.m_DataPos fst].
  - unfold Mem.unread. cbn [Mem.m_Data Mem.m_DataSize Mem.m_DataPos].
    apply map_byte_at_seq_from.
  - unfold Mem.unread. cbn [Mem.m_Data Mem.m_DataSize Mem.m_DataPos].
    rewrite length_map, length_seq. lia.
  - exact Hle.
Qed.

(** The theorem at the block "hello", seeking from position 5 back to 2. *)
Lemma Seek_then_read_from_offset_witness :
  2 <= List.length (list_ascii_of_string "hello") /\
  (let r := Mem.mk (Some (list_ascii_of_string "hello"))
              (List.length (list_ascii_of_string "hello")) 5 in
   fst (Mem.Seek r 2) = true /\
   Mem.m_DataPos (snd (Mem.Seek r 2)) = 2 /\
   fst (ReadChars (List.length (list_ascii_of_string "hello")) (snd (Mem.Seek r 2)))
   = skipn 2 (list_ascii_of_string "hello")).
Proof.
  assert (H : 2 <= List.length (list_ascii_of_string "hello")) by (cbv; lia).
  exact (conj H (Seek_then_read_from_offset (list_ascii_of_string "hello") 5 2 H)).
Defined.

(** ** What a failing call leaves behind *)

Lemma NextChar_stack (p : XmlParser) : m_Stack (snd (NextChar p)) = m_Stack p.
Proof. apply NextChar_same_session_state. Qed.

Lemma NextToken_stack (delims : option string) (p : XmlParser) :
  m_Stack (snd (NextToken delims p)) = m_Stack p.
Proof. apply NextToken_same_session_state. Qed.

Lemma ParseTagValueNode_failure (prefix : string) (p : XmlParser)
  (node : option XmlNodeBase) (p' : XmlParser) :
  ParseTagValueNode prefix p = Ok (false, node, p') ->
  node = None /\ m_Stack p' = m_Stack p.
Proof.
  unfold ParseTagValueNode. intros H.
  match type of H with
  | context [scan ?n ?c p prefix] =>
      pose proof (scan_same_session_state n c p prefix) as (Hst & _ & _);
      destruct (scan n c p prefix) as [q token]
  end.
  cbn [fst] in Hst.
  destruct (vector_empty (m_Stack q)) eqn:He.
  - destruct (negb (IsWhiteSpace token)); injection H as <- <-; auto.
  - destruct (vector_back_nonempty _ He) as [celm Hb]. rewrite Hb in H.
    cbn in H. discriminate.
Qed.

Lemma ParseEndTagNode_failure (p : XmlParser)
  (node : option XmlNodeBase) (p' : XmlParser) :
  ParseEndTagNode p = Ok (false, node, p') ->
  node = None /\ m_Stack p' = m_Stack p.
Proof.
  unfold ParseEndTagNode. intros H.
  pose proof (NextChar_stack p) as S1.
  pose proof (NextToken_stack (Some xmlDelimsWithEquals) (snd (NextChar p))) as S2.
  destruct (NextToken _ (snd (NextChar p))) as [ok q]; cbn [snd] in S2.
  destruct (negb ok); [injection H as <- <-; cbn; split; congruence|].
  destruct (negb (wchar_eqb (CurChar q) ch_gt));
    [injection H as <- <-; cbn; split; congruence|].
  pose proof (NextChar_stack q) as S3.
  destruct (vector_empty (m_Stack (snd (NextChar q)))) eqn:He;
    [injection H as <- <-; cbn; split; congruence|].
  destruct (vector_back_nonempty _ He) as [celm Hb]. rewrite Hb in H.
  cbn [require bind] in H.
  destruct (wcscmp_differs _ _); [injection H as <- <-; cbn; split; congruence|].
  cbn [m_Stack set_Stack] in H. rewrite vector_erase_set_back in H.
  cbn in H. discriminate.
Qed.

Lemma ParseBeginTagNode_failure (fuel : nat) (p : XmlParser)
  (node : option XmlNodeBase) (p' : XmlParser) :
  ParseBeginTagNode fuel p = Ok (false, node, p') ->
  node = None /\ m_Stack p' = m_Stack p.
Proof.
  unfold ParseBeginTagNode. intros H.
  set (p1 := if wchar_eqb (CurChar p) ch_question then snd (NextChar p) else p) in *.
  assert (S1 : m_Stack p1 = m_Stack p).
  { unfold p1. destruct (wchar_eqb (CurChar p) ch_question); auto using NextChar_stack. }
  pose proof (NextToken_stack (Some xmlDelimsWithSlash) p1) as S2.
  destruct (NextToken _ p1) as [ok q]; cbn [snd] in S2.
  destruct (negb ok); [injection H as <- <-; cbn; split; congruence|].
  destruct (ParseAttribs fuel q []) as [[q' attribs]| |] eqn:Ha; cbn [bind] in H;
    try discriminate.
  apply ParseAttribs_same_session_state in Ha. destruct Ha as (S3 & _ & _).
  destruct (wchar_eqb (CurChar p) ch_question) eqn:HQ; cbn [andb] in H.
  - destruct (negb (wchar_eqb (CurChar q') ch_question));
      [injection H as <- <-; cbn; split; congruence|].
    set (q1 := snd (NextChar (set_PriorWasEmptyTag true q'))) in *.
    assert (S4 : m_Stack q1 = m_Stack q').
    { unfold q1. now rewrite NextChar_stack. }
    destruct (wchar_eqb (CurChar q1) ch_slash).
    + set (q2 := snd (NextChar (set_PriorWasEmptyTag true q1))) in *.
      assert (S5 : m_Stack q2 = m_Stack q1).
      { unfold q2. now rewrite NextChar_stack. }
      destruct (negb (wchar_eqb (CurChar q2) ch_gt));
        [injection H as <- <-; cbn; split; congruence|discriminate].
    + destruct (negb (wchar_eqb (CurChar q1) ch_gt));
        [injection H as <- <-; cbn; split; congruence|discriminate].
  - destruct (wchar_eqb (CurChar q') ch_slash).
    + set (q2 := snd (NextChar (set_PriorWasEmptyTag true q'))) in *.
      assert (S5 : m_Stack q2 = m_Stack q').
      { unfold q2. now rewrite NextChar_stack. }
      destruct (negb (wchar_eqb (CurChar q2) ch_gt));
        [injection H as <- <-; cbn; split; congruence|discriminate].
    + destruct (negb (wchar_eqb (CurChar q') ch_gt));
        [injection H as <- <-; cbn; split; congruence|discriminate].
Qed.

(** X3.  A call of [NextNode] that returns false hands out no node and
    leaves the nesting stack exactly as it found it, whatever the reason
    for the false return (clean end, malformed tag, mismatched or stray end
    tag, stray text). *)
Theorem failing_call_keeps_the_stack :
  forall (fuel : nat) (p : XmlParser) (node : option XmlNodeBase) (p' : XmlParser),
    NextNode fuel p = Ok (false, node, p') ->
    node = None /\ m_Stack p' = m_Stack p.
Proof.
  induction fuel as [|fuel IH]; intros p node p' H; cbn [NextNode] in H; [discriminate|].
  destruct (m_PriorWasEmptyTag p && negb (vector_empty (m_Stack p))) eqn:Hsyn.
  - apply andb_prop in Hsyn as [_ He]. apply negb_true_iff in He.
    cbn [m_Stack set_PriorWasEmptyTag] in H.
    destruct (vector_back_nonempty _ He) as [top Hb]. rewrite Hb in H.
    rewrite (vector_erase_back_nonempty _ He) in H. cbn in H. discriminate.
  - pose proof (scan_same_session_state (loop_budget p) iswspace p "") as (S0 & _ & _).
    destruct (scan (loop_budget p) iswspace p "") as [q token]; cbn [fst] in S0.
    destruct (wchar_eqb (CurChar q) ch_lt).
    + pose proof (NextChar_stack q) as S1.
      destruct (wchar_eqb (CurChar (snd (NextChar q))) ch_slash).
      * destruct (ParseEndTagNode_failure _ _ _ H). split; congruence.
      * destruct (wchar_eqb (CurChar (snd (NextChar q))) ch_bang).
        -- unfold ParseBangTag in H.
           assert (Hgo : forall r, m_Stack r = m_Stack (snd (NextChar q)) ->
                                   NextNode fuel r = Ok (false, node, p') ->
                                   node = None /\ m_Stack p' = m_Stack p).
           { intros r Hr Hn. destruct (IH _ _ _ Hn). split; congruence. }
           match type of H with
           | (if ?c then _ else _) = _ => destruct c
           end.
           ++ refine (Hgo _ _ H).
              destruct (Eat_error_may_be_set
                          (loop_budget (snd (NextChar (snd (NextChar (snd (NextChar q)))))))
                          ch_rbracket
                          (snd (NextChar (snd (NextChar (snd (NextChar q)))))))
                as (E & _ & _).
              unfold EatMarkedSection. rewrite E, !NextChar_stack. reflexivity.
           ++ match type of H with
              | (if ?c then _ else _) = _ => destruct c
              end.
              ** refine (Hgo _ _ H).
                 match goal with
                 | |- m_Stack (snd (EatComment ?x)) = _ =>
                     destruct (Eat_error_may_be_set (loop_budget x) ch_dash x)
                       as (E & _ & _)
                 end.
                 unfold EatComment. rewrite E, !NextChar_stack. reflexivity.
              ** injection H as <- <-. cbn. rewrite !NextChar_stack. split; congruence.
        -- destruct (ParseBeginTagNode_failure _ _ _ _ H). split; congruence.
    + destruct (ParseTagValueNode_failure _ _ _ _ H). split; congruence.
Qed.

(** The theorem at the mismatched end tag of "<a></b></a>". *)
Lemma failing_call_keeps_the_stack_witness :
  NextNode 2 mismatch_before = Ok (false, None, mismatch_after) /\
  ((None : option XmlNodeBase) = None /\ m_Stack mismatch_after = m_Stack mismatch_before).
Proof.
  assert (H : NextNode 2 mismatch_before = Ok (false, None, mismatch_after))
    by (vm_compute; reflexivity).
  exact (conj H (failing_call_keeps_the_stack _ _ _ _ H)).
Defined.

(** ** Error text across sessions, and [Reset] *)

Lemma BeginParsingFromMemory_keeps_error (data : option (list ascii)) (numbytes : nat)
  (parser : XmlParser) :
  ErrorInfo parser <> "" ->
  ErrorInfo (snd (BeginParsingFromMemory data numbytes parser)) <> "".
Proof.
  intros Hne. unfold BeginParsingFromMemory, BeginParsingImpl.
  cbn [m_Reader set_Reader].
  match goal with
  | |- context [NextChar ?x] =>
      pose proof (NextChar_same_session_state x) as (_ & _ & He);
      destruct (NextChar x) as [ok q]
  end.
  cbn [snd] in He. destruct ok; cbn [negb snd].
  - unfold ErrorInfo in *. rewrite He. exact Hne.
  - cbn. discriminate.
Qed.

(** X4.  Neither [Reset] nor the start of a session clears the error
    text.  A parser object that has recorded an error therefore reports an
    error at the end of every later session on it, whatever the
    document: no session on it ends with empty error text. *)
Theorem recorded_error_survives_new_sessions :
  forall (data : option (list ascii)) (numbytes : nat) (parser : XmlParser),
    ErrorInfo parser <> "" ->
    ErrorInfo (Reset parser) = ErrorInfo parser /\
    ErrorInfo (snd (BeginParsingFromMemory data numbytes parser)) <> "" /\
    (forall calls fuel trace fin,
        pull calls fuel (snd (BeginParsingFromMemory data numbytes parser))
        = Ok (trace, fin) ->
        ErrorInfo fin <> "").
Proof.
  intros data numbytes parser Hne.
  split; [reflexivity|].
  pose proof (BeginParsingFromMemory_keeps_error data numbytes parser Hne) as H0.
  split; [exact H0|].
  intros calls fuel trace fin Hp He. apply H0.
  exact (proj1 (pull_nested _ _ _ _ _ Hp He)).
Qed.

(** The theorem at a parser that was first given an empty document and is
    then given "<a/>". *)
Lemma recorded_error_survives_new_sessions_witness :
  ErrorInfo parser_after_empty_document <> "" /\
  ErrorInfo (Reset parser_after_empty_document) = ErrorInfo parser_after_empty_document /\
  ErrorInfo (snd (BeginParsingFromMemory (Some (list_ascii_of_string "<a/>")) 4
                    parser_after_empty_document)) <> "" /\
  (forall calls fuel trace fin,
      pull calls fuel
        (snd (BeginParsingFromMemory (Some (list_ascii_of_string "<a/>")) 4
                parser_after_empty_document))
      = Ok (trace, fin) ->
      ErrorInfo fin <> "").
Proof.
  assert (H : ErrorInfo parser_after_empty_document <> "") by (cbv; discriminate).
  exact (conj H (recorded_error_survives_new_sessions
                   (Some (list_ascii_of_string "<a/>")) 4 parser_after_empty_document H)).
Defined.

Lemma scan_without_reader (cond : wchar_t -> bool) (p : XmlParser) (text : string) :
  cond NUL = false -> m_Reader p = None ->
  scan 2 cond p text
  = if cond (CurChar p)
    then (set_CurChar NUL p, push_wchar text (CurChar p))
    else (p, text).
Proof.
  intros Hc Hr. cbn [scan]. destruct (cond (CurChar p)); auto.
  replace (snd (NextChar p)) with (set_CurChar NUL p).
  2:{ unfold NextChar. cbn [m_Reader set_CurChar]. now rewrite Hr. }
  change (CurChar (set_CurChar NUL p)) with NUL. now rewrite Hc.
Qed.

Lemma ParseTagValueNode_without_reader (prefix : string) (p : XmlParser) :
  m_Reader p = None -> m_Stack p = [] ->
  exists p', ParseTagValueNode prefix p = Ok (false, None, p') /\
             m_Stack p' = [] /\ m_Reader p' = None.
Proof.
  intros Hr Hs. unfold ParseTagValueNode.
  replace (loop_budget p) with 2 by (unfold loop_budget; now rewrite Hr).
  rewrite scan_without_reader by auto.
  match goal with
  | |- context [if ?c then (_, _) else (_, _)] => destruct c
  end.
  - change (m_Stack (set_CurChar NUL p)) with (m_Stack p). rewrite Hs.
    cbn [vector_empty].
    destruct (negb (IsWhiteSpace _)); eexists; (split; [reflexivity|]); cbn; auto.
  - rewrite Hs. cbn [vector_empty].
    destruct (negb (IsWhiteSpace _)); eexists; (split; [reflexivity|]); cbn; auto.
Qed.

(** A parser with no reader and an empty stack hands out nothing and
    stays such a parser, whatever its current character is. *)
Lemma NextNode_without_reader (fuel : nat) (q : XmlParser) :
  m_Reader q = None -> m_Stack q = [] ->
  exists q',
    NextNode (S fuel) q = Ok (false, None, q') /\
    m_Stack q' = [] /\ m_Reader q' = None.
Proof.
  intros Hr Hs. cbn [NextNode]. rewrite Hs. cbn [vector_empty negb].
  rewrite andb_false_r.
  replace (loop_budget q) with 2 by (unfold loop_budget; now rewrite Hr).
  rewrite scan_without_reader by auto.
  assert (Hnext : forall x, m_Reader x = None -> snd (NextChar x) = set_CurChar NUL x).
  { intros x Hx. unfold NextChar. cbn [m_Reader set_CurChar]. now rewrite Hx. }
  destruct (iswspace (CurChar q)) eqn:Hw.
  - (* a stale blank *)
    change (CurChar (set_CurChar NUL q)) with NUL.
    change (wchar_eqb NUL ch_lt) with false. cbv iota.
    apply ParseTagValueNode_without_reader; assumption.
  - destruct (wchar_eqb (CurChar q) ch_lt) eqn:Hlt.
    + (* a stale '<': the begin tag finds no name *)
      rewrite (Hnext q Hr).
      change (CurChar (set_CurChar NUL q)) with NUL.
      change (wchar_eqb NUL ch_slash) with false.
      change (wchar_eqb NUL ch_bang) with false. cbv iota.
      destruct q as [st pt fl pn rd ds dp er cc tk]. cbn in Hr, Hs. subst rd st.
      eexists. split; [vm_compute; reflexivity|]. split; reflexivity.
    + apply ParseTagValueNode_without_reader; assumption.
Qed.

(** X5.  After [Reset] the parser hands out nothing: however often
    [NextNode] is called, every one of the calls returns false with no
    node, and in the end the stack is still empty and no reader is
    attached, whatever the parser held before. *)
Theorem no_nodes_after_Reset :
  forall (calls fuel : nat) (p : XmlParser),
  exists p',
    NextNode_again calls (S fuel) (Reset p) = Ok (repeat (false, None) calls, p') /\
    m_Stack p' = [] /\ m_Reader p' = None.
Proof.
  intros calls fuel p.
  assert (Hall : forall q, m_Reader q = None -> m_Stack q = [] ->
                   exists q',
                     NextNode_again calls (S fuel) q
                     = Ok (repeat (false, None) calls, q') /\
                     m_Stack q' = [] /\ m_Reader q' = None).
  { induction calls as [|calls IH]; intros q Hr Hs.
    - exists q. cbn. auto.
    - destruct (NextNode_without_reader fuel q Hr Hs) as (q1 & Hrun & Hs1 & Hr1).
      destruct (IH q1 Hr1 Hs1) as (q' & Hrest & Hs' & Hr').
      exists q'. cbn [NextNode_again repeat]. rewrite Hrun. cbn [bind].
      rewrite Hrest. cbn [bind fst snd]. auto. }
  apply Hall; reflexivity.
Qed.

(** ** Reading along a known input *)

Lemma stands_at_cons (p : XmlParser) (c : wchar_t) (l : list wchar_t) :
  stands_at p (c :: l) -> CurChar p = c /\ stands_at (snd (NextChar p)) l.
Proof.
  unfold stands_at. cbn [input_after]. intros H.
  split; [exact (input_at_CurChar _ _ _ H)|].
  destruct l as [|c' l]; cbn [input_after].
  - apply (input_at_NextChar_last _ _ H).
  - apply (input_at_NextChar _ _ _ _ H).
Qed.

Lemma stands_at_first_char (p : XmlParser) (l : list wchar_t) :
  stands_at p l -> CurChar p = first_char l.
Proof.
  unfold stands_at. destruct l as [|c l]; cbn [input_after first_char hd]; intros H;
    exact (input_at_CurChar _ _ _ H).
Qed.

Lemma stands_at_advance (l tail : list wchar_t) (p : XmlParser) :
  stands_at p (l ++ tail) -> stands_at (advance (List.length l) p) tail.
Proof.
  revert p. induction l as [|c l IH]; intros p H; cbn [List.length advance app] in *; auto.
  apply IH. now apply (stands_at_cons p c).
Qed.

Lemma append_empty_r (text : string) : (text ++ "")%string = text.
Proof. induction text as [|c text IH]; cbn; congruence. Qed.

Section ScanAlong.

Variable cond : wchar_t -> bool.
Hypothesis cond_NUL : cond NUL = false.

(** A scanning loop over an input whose first characters [l] all pass the
    condition and whose next character does not: the loop takes exactly
    [l]. *)
Lemma scan_consumes (l tail : list wchar_t) :
  forallb cond l = true ->
  cond (first_char tail) = false ->
  forall (n : nat) (p : XmlParser) (text : string),
    stands_at p (l ++ tail) ->
    measure p < n ->
    scan n cond p text
    = (advance (List.length l) p, (text ++ string_of_list_ascii l)%string).
Proof.
  intros Hl Ht. induction l as [|c l IH]; intros n p text Hp Hn.
  - cbn [app List.length advance string_of_list_ascii] in *.
    rewrite append_empty_r. apply scan_stops_at_once.
    now rewrite (stands_at_first_char _ _ Hp).
  - cbn [forallb] in Hl. apply andb_prop in Hl as (Hc & Hl).
    cbn [app] in Hp. destruct (stands_at_cons _ _ _ Hp) as (Hcur & Hnext).
    destruct n as [|n]; [lia|]. cbn [scan]. rewrite Hcur, Hc.
    cbn [List.length advance string_of_list_ascii].
    rewrite <- push_wchar_app. apply (IH Hl); auto.
    assert (Hnz : wchar_eqb (CurChar p) NUL = false).
    { rewrite Hcur. now apply (cond_true_nonzero cond cond_NUL). }
    pose proof (NextChar_measure_nonzero p Hnz). lia.
Qed.

End ScanAlong.

Lemma NextChar_set_CurToken (t : string) (p : XmlParser) :
  NextChar (set_CurToken t p)
  = (fst (NextChar p), set_CurToken t (snd (NextChar p))).
Proof.
  unfold NextChar. cbn [m_Reader set_CurToken set_CurChar].
  destruct (m_Reader p) as [r|]; [|reflexivity].
  destruct (Mem.ReadChar r) as [[c|] r']; reflexivity.
Qed.

Lemma stands_at_set_CurToken (t : string) (p : XmlParser) (l : list wchar_t) :
  stands_at p l -> stands_at (set_CurToken t p) l.
Proof. unfold stands_at, input_at. auto. Qed.

Lemma advance_CurToken (n : nat) (p : XmlParser) :
  m_CurToken (advance n p) = m_CurToken p.
Proof.
  revert p. induction n as [|n IH]; intros p; cbn [advance]; auto.
  now rewrite IH, NextChar_CurToken.
Qed.

Lemma iswspace_NUL : iswspace NUL = false.
Proof. reflexivity. Qed.

Lemma quoted_char_NUL (quote : wchar_t) : quoted_char quote NUL = false.
Proof. reflexivity. Qed.

Lemma token_char_NUL (delims : option string) : token_char delims NUL = false.
Proof. reflexivity. Qed.

Lemma value_char_NUL : value_char NUL = false.
Proof. reflexivity. Qed.

(** [skip_space] along a known input. *)
Lemma skip_space_along (ws tail : list wchar_t) (p : XmlParser) :
  forallb iswspace ws = true ->
  iswspace (first_char tail) = false ->
  stands_at p (ws ++ tail) ->
  skip_space p = advance (List.length ws) p.
Proof.
  intros Hw Ht Hp. unfold skip_space.
  now rewrite (scan_consumes iswspace iswspace_NUL ws tail Hw Ht
                 (loop_budget p) p "" Hp (loop_budget_enough p)).
Qed.

(** [accumulate_token] along a known input. *)
Lemma accumulate_token_along (cond : wchar_t -> bool) (l tail : list wchar_t)
  (p : XmlParser) :
  cond NUL = false ->
  forallb cond l = true ->
  cond (first_char tail) = false ->
  stands_at p (l ++ tail) ->
  accumulate_token cond p
  = set_CurToken (m_CurToken p ++ string_of_list_ascii l)%string
      (advance (List.length l) p).
Proof.
  intros Hz Hl Ht Hp. unfold accumulate_token.
  now rewrite (scan_consumes cond Hz l tail Hl Ht
                 (loop_budget p) p (m_CurToken p) Hp (loop_budget_enough p)).
Qed.

(** ** The tokenizer along a known input *)

Lemma snd_NextToken (delims : option string) (p : XmlParser) :
  snd (NextToken delims p)
  = let p := set_CurToken "" p in
    let p := skip_space p in
    let p :=
      if wchar_eqb (CurChar p) ch_dquote then
        let p := snd (NextChar p) in
        let p := accumulate_token (quoted_char ch_dquote) p in
        if wchar_eqb (CurChar p) ch_dquote then snd (NextChar p) else p
      else if wchar_eqb (CurChar p) ch_squote then
        let p := snd (NextChar p) in
        let p := accumulate_token (quoted_char ch_squote) p in
        if wchar_eqb (CurChar p) ch_squote then snd (NextChar p) else p
      else accumulate_token (token_char delims) p in
    skip_space p.
Proof.
  unfold NextToken. cbv zeta.
  match goal with
  | |- snd (if ?b then _ else _) = _ => destruct b
  end; reflexivity.
Qed.

Lemma is_quote_false (c : wchar_t) :
  is_quote c = false -> wchar_eqb c ch_dquote = false /\ wchar_eqb c ch_squote = false.
Proof. unfold is_quote. intros H. now apply orb_false_elim in H. Qed.

Lemma NextToken_unquoted (delims : option string)
  (ws1 name ws2 tail : list wchar_t) (p : XmlParser) :
  forallb iswspace ws1 = true ->
  forallb (token_char delims) name = true ->
  forallb iswspace ws2 = true ->
  iswspace (first_char (name ++ ws2 ++ tail)) = false ->
  is_quote (first_char (name ++ ws2 ++ tail)) = false ->
  token_char delims (first_char (ws2 ++ tail)) = false ->
  iswspace (first_char tail) = false ->
  stands_at p (ws1 ++ name ++ ws2 ++ tail) ->
  CurToken (snd (NextToken delims p)) = string_of_list_ascii name /\
  stands_at (snd (NextToken delims p)) tail.
Proof.
  intros Hw1 Hname Hw2 Hfirst Hq Hstop Htail Hp.
  rewrite snd_NextToken. cbv zeta.
  apply (stands_at_set_CurToken "") in Hp.
  rewrite (skip_space_along ws1 _ _ Hw1 Hfirst Hp).
  apply stands_at_advance in Hp.
  set (p1 := advance (List.length ws1) (set_CurToken "" p)) in *.
  rewrite (stands_at_first_char _ _ Hp).
  destruct (is_quote_false _ Hq) as (-> & ->).
  rewrite (accumulate_token_along _ name (ws2 ++ tail) p1
             (token_char_NUL delims) Hname Hstop Hp).
  apply stands_at_advance in Hp.
  assert (Htok : m_CurToken p1 = "").
  { unfold p1. now rewrite advance_CurToken. }
  rewrite Htok. cbn [append].
  set (p2 := set_CurToken (string_of_list_ascii name) (advance (List.length name) p1)) in *.
  assert (Hp2 : stands_at p2 (ws2 ++ tail)) by now apply stands_at_set_CurToken.
  rewrite (skip_space_along ws2 _ _ Hw2 Htail Hp2).
  split.
  - unfold CurToken. now rewrite advance_CurToken.
  - now apply stands_at_advance.
Qed.

Lemma NextToken_quoted (delims : option string) (quote : wchar_t)
  (ws1 body ws2 tail : list wchar_t) (p : XmlParser) :
  is_quote quote = true ->
  forallb iswspace ws1 = true ->
  forallb (quoted_char quote) body = true ->
  forallb iswspace ws2 = true ->
  iswspace (first_char tail) = false ->
  stands_at p (ws1 ++ quote :: body ++ quote :: ws2 ++ tail) ->
  CurToken (snd (NextToken delims p)) = string_of_list_ascii body /\
  stands_at (snd (NextToken delims p)) tail.
Proof.
  intros Hquote Hw1 Hbody Hw2 Htail Hp.
  rewrite snd_NextToken. cbv zeta.
  apply (stands_at_set_CurToken "") in Hp.
  assert (Hqw : iswspace quote = false /\ quoted_char quote quote = false).
  { unfold is_quote, wchar_eqb in Hquote. apply orb_prop in Hquote.
    destruct Hquote as [H|H]; apply Ascii.eqb_eq in H; subst quote; split; reflexivity. }
  destruct Hqw as (Hqw & Hqq).
  rewrite (skip_space_along ws1 (quote :: body ++ quote :: ws2 ++ tail) _ Hw1 Hqw Hp).
  apply stands_at_advance in Hp.
  set (p1 := advance (List.length ws1) (set_CurToken "" p)) in *.
  destruct (stands_at_cons _ _ _ Hp) as (Hcur & Hp1).
  assert (Htok : m_CurToken (snd (NextChar p1)) = "").
  { unfold p1. now rewrite NextChar_CurToken, advance_CurToken. }
  pose proof (accumulate_token_along (quoted_char quote) body (quote :: ws2 ++ tail)
                (snd (NextChar p1)) (quoted_char_NUL quote) Hbody Hqq Hp1) as Hacc.
  rewrite Htok in Hacc. cbn [append] in Hacc.
  apply stands_at_advance in Hp1.
  set (p2 := set_CurToken (string_of_list_ascii body)
               (advance (List.length body) (snd (NextChar p1)))) in *.
  assert (Hp2 : stands_at p2 (quote :: ws2 ++ tail)) by now apply stands_at_set_CurToken.
  destruct (stands_at_cons _ _ _ Hp2) as (Hcur2 & Hp3).
  assert (Hfin : CurToken (skip_space (snd (NextChar p2))) = string_of_list_ascii body /\
                 stands_at (skip_space (snd (NextChar p2))) tail).
  { rewrite (skip_space_along ws2 _ _ Hw2 Htail Hp3). split.
    - unfold CurToken. rewrite advance_CurToken, NextChar_CurToken. reflexivity.
    - now apply stands_at_advance. }
  rewrite Hcur.
  unfold is_quote, wchar_eqb in Hquote. apply orb_prop in Hquote.
  destruct Hquote as [H|H]; apply Ascii.eqb_eq in H; subst quote.
  - change (wchar_eqb ch_dquote ch_dquote) with true. cbv iota.
    rewrite Hacc. fold p2. rewrite Hcur2.
    change (wchar_eqb ch_dquote ch_dquote) with true. cbv iota. exact Hfin.
  - change (wchar_eqb ch_squote ch_dquote) with false.
    change (wchar_eqb ch_squote ch_squote) with true. cbv iota.
    rewrite Hacc. fold p2. rewrite Hcur2.
    change (wchar_eqb ch_squote ch_squote) with true. cbv iota. exact Hfin.
Qed.

Lemma NextToken_unterminated_quote (delims : option string) (quote : wchar_t)
  (ws1 body : list wchar_t) (p : XmlParser) :
  is_quote quote = true ->
  forallb iswspace ws1 = true ->
  forallb (quoted_char quote) body = true ->
  stands_at p (ws1 ++ quote :: body) ->
  CurToken (snd (NextToken delims p)) = string_of_list_ascii body /\
  stands_at (snd (NextToken delims p)) [].
Proof.
  intros Hquote Hw1 Hbody Hp.
  rewrite snd_NextToken. cbv zeta.
  apply (stands_at_set_CurToken "") in Hp.
  assert (Hqw : iswspace quote = false).
  { unfold is_quote, wchar_eqb in Hquote. apply orb_prop in Hquote.
    destruct Hquote as [H|H]; apply Ascii.eqb_eq in H; subst quote; reflexivity. }
  rewrite (skip_space_along ws1 (quote :: body) _ Hw1 Hqw Hp).
  apply stands_at_advance in Hp.
  set (p1 := advance (List.length ws1) (set_CurToken "" p)) in *.
  destruct (stands_at_cons _ _ _ Hp) as (Hcur & Hp1).
  assert (Htok : m_CurToken (snd (NextChar p1)) = "").
  { unfold p1. now rewrite NextChar_CurToken, advance_CurToken. }
  rewrite <- (app_nil_r body) in Hp1.
  pose proof (accumulate_token_along (quoted_char quote) body []
                (snd (NextChar p1)) (quoted_char_NUL quote) Hbody
                (quoted_char_NUL quote) Hp1) as Hacc.
  rewrite Htok in Hacc. cbn [append] in Hacc.
  apply stands_at_advance in Hp1.
  set (p2 := set_CurToken (string_of_list_ascii body)
               (advance (List.length body) (snd (NextChar p1)))) in *.
  assert (Hp2 : stands_at p2 []) by now apply stands_at_set_CurToken.
  pose proof (stands_at_first_char _ _ Hp2) as Hcur2. cbn [first_char hd] in Hcur2.
  assert (Hfin : CurToken (skip_space p2) = string_of_list_ascii body /\
                 stands_at (skip_space p2) []).
  { rewrite (skip_space_along [] [] p2 eq_refl eq_refl Hp2). cbn [List.length advance].
    split; [reflexivity|exact Hp2]. }
  rewrite Hcur.
  unfold is_quote, wchar_eqb in Hquote. apply orb_prop in Hquote.
  destruct Hquote as [H|H]; apply Ascii.eqb_eq in H; subst quote.
  - change (wchar_eqb ch_dquote ch_dquote) with true. cbv iota.
    rewrite Hacc. fold p2. rewrite Hcur2.
    change (wchar_eqb NUL ch_dquote) with false. cbv iota. exact Hfin.
  - change (wchar_eqb ch_squote ch_dquote) with false.
    change (wchar_eqb ch_squote ch_squote) with true. cbv iota.
    rewrite Hacc. fold p2. rewrite Hcur2.
    change (wchar_eqb NUL ch_squote) with false. cbv iota. exact Hfin.
Qed.

(** X6.  A non-quoted token.  The input is blanks, then a run [name] of
    characters that are neither zero nor delimiters (and that does not
    start with a blank or a quote), then a delimiter (or the end of the
    input), possibly after more blanks.  [NextToken] leaves exactly [name]
    as the current token, and the cursor on the first character after the
    blanks that follow it; the delimiter itself is not consumed. *)
Theorem NextToken_takes_the_run_before_the_delimiter :
  forall (delims : option string) (ws1 name ws2 tail : list wchar_t) (p : XmlParser),
    forallb iswspace ws1 = true ->
    forallb (token_char delims) name = true ->
    forallb iswspace ws2 = true ->
    iswspace (first_char (name ++ ws2 ++ tail)) = false ->
    is_quote (first_char (name ++ ws2 ++ tail)) = false ->
    token_char delims (first_char (ws2 ++ tail)) = false ->
    iswspace (first_char tail) = false ->
    stands_at p (ws1 ++ name ++ ws2 ++ tail) ->
    CurToken (snd (NextToken delims p)) = string_of_list_ascii name /\
    stands_at (snd (NextToken delims p)) tail /\
    same_session_state p (snd (NextToken delims p)).
Proof.
  intros delims ws1 name ws2 tail p H1 H2 H3 H4 H5 H6 H7 H8.
  destruct (NextToken_unquoted delims ws1 name ws2 tail p H1 H2 H3 H4 H5 H6 H7 H8).
  auto using NextToken_same_session_state.
Qed.

(** The theorem at the input "  name = x" with the delimiters of attribute
    scanning. *)
Lemma NextToken_takes_the_run_before_the_delimiter_witness :
  let delims := Some xmlDelimsWithEquals in
  let ws1 := list_ascii_of_string "  " in
  let name := list_ascii_of_string "name" in
  let ws2 := list_ascii_of_string " " in
  let tail := list_ascii_of_string "= x" in
  let p := snd (session "  name = x") in
  forallb iswspace ws1 = true /\
  forallb (token_char delims) name = true /\
  forallb iswspace ws2 = true /\
  iswspace (first_char (name ++ ws2 ++ tail)) = false /\
  is_quote (first_char (name ++ ws2 ++ tail)) = false /\
  token_char delims (first_char (ws2 ++ tail)) = false /\
  iswspace (first_char tail) = false /\
  stands_at p (ws1 ++ name ++ ws2 ++ tail) /\
  CurToken (snd (NextToken delims p)) = string_of_list_ascii name /\
  stands_at (snd (NextToken delims p)) tail /\
  same_session_state p (snd (NextToken delims p)).
Proof.
  intros delims ws1 name ws2 tail p.
  assert (H1 : forallb iswspace ws1 = true) by reflexivity.
  assert (H2 : forallb (token_char delims) name = true) by reflexivity.
  assert (H3 : forallb iswspace ws2 = true) by reflexivity.
  assert (H4 : iswspace (first_char (name ++ ws2 ++ tail)) = false) by reflexivity.
  assert (H5 : is_quote (first_char (name ++ ws2 ++ tail)) = false) by reflexivity.
  assert (H6 : token_char delims (first_char (ws2 ++ tail)) = false) by reflexivity.
  assert (H7 : iswspace (first_char tail) = false) by reflexivity.
  assert (H8 : stands_at p (ws1 ++ name ++ ws2 ++ tail)) by reflexivity.
  exact (conj H1 (conj H2 (conj H3 (conj H4 (conj H5 (conj H6 (conj H7 (conj H8
           (NextToken_takes_the_run_before_the_delimiter
              delims ws1 name ws2 tail p H1 H2 H3 H4 H5 H6 H7 H8))))))))).
Defined.

(** X7.  A quoted token.  After blanks, a double or single quote opens a
    token that runs to the next quote of the same kind: the token is the
    text between the quotes verbatim (delimiters, blanks and the other
    quote included), the closing quote and the blanks after it are
    consumed.  When the closing quote is missing the token is everything
    up to the end of the input, and no error is raised by [NextToken]. *)
Theorem NextToken_takes_the_text_between_quotes :
  forall (delims : option string) (quote : wchar_t) (ws1 body : list wchar_t)
         (p : XmlParser),
    is_quote quote = true ->
    forallb iswspace ws1 = true ->
    forallb (quoted_char quote) body = true ->
    (forall ws2 tail,
        forallb iswspace ws2 = true ->
        iswspace (first_char tail) = false ->
        stands_at p (ws1 ++ quote :: body ++ quote :: ws2 ++ tail) ->
        CurToken (snd (NextToken delims p)) = string_of_list_ascii body /\
        stands_at (snd (NextToken delims p)) tail) /\
    (stands_at p (ws1 ++ quote :: body) ->
     CurToken (snd (NextToken delims p)) = string_of_list_ascii body /\
     stands_at (snd (NextToken delims p)) [] /\
     ErrorInfo (snd (NextToken delims p)) = ErrorInfo p).
Proof.
  intros delims quote ws1 body p Hq Hw Hb. split.
  - intros ws2 tail Hw2 Ht Hp. now apply (NextToken_quoted delims quote ws1 body ws2 tail).
  - intros Hp.
    destruct (NextToken_unterminated_quote delims quote ws1 body p Hq Hw Hb Hp).
    repeat split; auto. apply NextToken_same_session_state.
Qed.

(** The theorem at a double-quoted token holding a delimiter, a blank and
    a single quote, once terminated and once not. *)
Lemma NextToken_takes_the_text_between_quotes_witness :
  let body := list_ascii_of_string "a>b 'c" in
  is_quote ch_dquote = true /\
  forallb iswspace [" "%char] = true /\
  forallb (quoted_char ch_dquote) body = true /\
  (let p := snd (session (String " " (String ch_dquote
                 ("a>b 'c" ++ String ch_dquote "  />")))) in
   forallb iswspace (list_ascii_of_string "  ") = true /\
   iswspace (first_char (list_ascii_of_string "/>")) = false /\
   stands_at p ([" "%char] ++ ch_dquote :: body ++ ch_dquote
                  :: list_ascii_of_string "  " ++ list_ascii_of_string "/>") /\
   CurToken (snd (NextToken None p)) = string_of_list_ascii body /\
   stands_at (snd (NextToken None p)) (list_ascii_of_string "/>")) /\
  (let p := snd (session (String " " (String ch_dquote "a>b 'c"))) in
   stands_at p ([" "%char] ++ ch_dquote :: body) /\
   CurToken (snd (NextToken None p)) = string_of_list_ascii body /\
   stands_at (snd (NextToken None p)) [] /\
   ErrorInfo (snd (NextToken None p)) = ErrorInfo p).
Proof.
  intros body.
  assert (H1 : is_quote ch_dquote = true) by reflexivity.
  assert (H2 : forallb iswspace [" "%char] = true) by reflexivity.
  assert (H3 : forallb (quoted_char ch_dquote) body = true) by reflexivity.
  split; [exact H1|]. split; [exact H2|]. split; [exact H3|]. split.
  - intros p.
    assert (H4 : forallb iswspace (list_ascii_of_string "  ") = true) by reflexivity.
    assert (H5 : iswspace (first_char (list_ascii_of_string "/>")) = false) by reflexivity.
    assert (H6 : stands_at p ([" "%char] ++ ch_dquote :: body ++ ch_dquote
                                :: list_ascii_of_string "  " ++ list_ascii_of_string "/>"))
      by reflexivity.
    exact (conj H4 (conj H5 (conj H6
             (proj1 (NextToken_takes_the_text_between_quotes
                       None ch_dquote [" "%char] body p H1 H2 H3) _ _ H4 H5 H6)))).
  - intros p.
    assert (H6 : stands_at p ([" "%char] ++ ch_dquote :: body)) by reflexivity.
    exact (conj H6
             (proj2 (NextToken_takes_the_text_between_quotes
                       None ch_dquote [" "%char] body p H1 H2 H3) H6)).
Defined.

(** ** Begin tags along a known input *)

Lemma name_char_facts (c : wchar_t) :
  name_char c = true ->
  token_char (Some xmlDelimsWithSlash) c = true /\
  token_char (Some xmlDelimsWithEquals) c = true /\
  iswspace c = false /\ is_quote c = false /\
  wchar_eqb c ch_slash = false /\ wchar_eqb c ch_gt = false /\
  wchar_eqb c ch_question = false /\ wchar_eqb c ch_bang = false /\
  wchar_eqb c ch_lt = false /\ wchar_eqb c NUL = false.
Proof.
  destruct c as [[] [] [] [] [] [] [] []]; cbv; intros H;
    try discriminate H; repeat split.
Qed.

Lemma is_blank_facts (c : wchar_t) :
  is_blank c = true ->
  iswspace c = true /\
  token_char (Some xmlDelimsWithSlash) c = false /\
  token_char (Some xmlDelimsWithEquals) c = false.
Proof.
  destruct c as [[] [] [] [] [] [] [] []]; cbv; intros H;
    try discriminate H; repeat split.
Qed.

Lemma blanks_are_space (ws : list wchar_t) :
  forallb is_blank ws = true -> forallb iswspace ws = true.
Proof.
  induction ws as [|c ws IH]; cbn; auto. intros H.
  apply andb_prop in H as (Hc & Hw). rewrite (IH Hw).
  now destruct (is_blank_facts c Hc) as (-> & _).
Qed.

Lemma tag_name_facts (name : list wchar_t) :
  tag_name name = true ->
  exists c rest, name = c :: rest /\ name_char c = true /\ forallb name_char name = true.
Proof.
  destruct name as [|c rest]; cbn; [discriminate|]. intros H.
  exists c, rest. split; [reflexivity|]. split; [|exact H].
  now apply andb_prop in H.
Qed.

Lemma forallb_name_char_token (delims : option string) (name : list wchar_t) :
  delims = Some xmlDelimsWithSlash \/ delims = Some xmlDelimsWithEquals ->
  forallb name_char name = true -> forallb (token_char delims) name = true.
Proof.
  intros Hd. induction name as [|c name IH]; cbn; auto. intros H.
  apply andb_prop in H as (Hc & Hn). rewrite (IH Hn).
  destruct (name_char_facts c Hc) as (H1 & H2 & _).
  destruct Hd as [-> | ->]; [rewrite H1|rewrite H2]; reflexivity.
Qed.

Lemma string_of_tag_name_not_empty (name : list wchar_t) :
  tag_name name = true -> wstring_empty (string_of_list_ascii name) = false.
Proof. destruct name; [discriminate|reflexivity]. Qed.

Lemma NextToken_ok_when_token (delims : option string) (p : XmlParser) :
  wstring_empty (CurToken (snd (NextToken delims p))) = false ->
  fst (NextToken delims p) = true.
Proof. intros H. rewrite NextToken_returns. unfold CurToken in H. now rewrite H. Qed.

Lemma stands_at_set_PriorWasEmptyTag (b : bool) (p : XmlParser) (l : list wchar_t) :
  stands_at p l -> stands_at (set_PriorWasEmptyTag b p) l.
Proof. unfold stands_at, input_at. auto. Qed.

Lemma stands_at_advance_pos (l : list wchar_t) (c : wchar_t) (tail : list wchar_t)
  (p : XmlParser) :
  stands_at p (l ++ c :: tail) ->
  m_DataPos (advance (List.length l) p) = m_DataPos p + List.length l.
Proof.
  revert p. induction l as [|x l IH]; intros p H; cbn [List.length advance app] in *.
  - lia.
  - destruct (stands_at_cons _ _ _ H) as (_ & Hn). rewrite (IH _ Hn).
    assert (Hup : upcoming p = l ++ c :: tail).
    { unfold stands_at in H. cbn [input_after] in H. exact (input_at_upcoming _ _ _ H). }
    destruct (l ++ c :: tail) as [|y t] eqn:E; [destruct l; discriminate|].
    destruct (NextChar_upcoming_cons _ _ _ Hup) as (_ & _ & _ & ->). lia.
Qed.

Lemma first_char_render_attrs (attrs : list AttrText) (tail : list wchar_t) :
  forallb attr_ok attrs = true ->
  ends_attributes (first_char tail) = true ->
  iswspace (first_char (render_attrs attrs ++ tail)) = false.
Proof.
  destruct attrs as [|a attrs]; cbn [render_attrs forallb app].
  - intros _. destruct (first_char tail) as [[] [] [] [] [] [] [] []]; cbv; intros H;
      try discriminate H; reflexivity.
  - intros H _. apply andb_prop in H as (Ha & _). unfold attr_ok in Ha.
    apply andb_prop in Ha as (Ha & _). apply andb_prop in Ha as (Ha & _).
    apply andb_prop in Ha as (Ha & _).
    destruct (tag_name_facts _ Ha) as (c & rest & Hn & Hc & _).
    unfold render_attr. rewrite Hn. cbn [app first_char hd].
    now destruct (name_char_facts c Hc) as (_ & _ & -> & _).
Qed.

Lemma render_attrs_cons (a : AttrText) (attrs : list AttrText) (tail : list wchar_t) :
  render_attrs (a :: attrs) ++ tail
  = at_name a ++ ch_equals :: at_quote a :: at_value a ++ at_quote a :: at_sep a
      ++ render_attrs attrs ++ tail.
Proof.
  cbn [render_attrs]. unfold render_attr.
  repeat (rewrite <- app_assoc; cbn [app]). reflexivity.
Qed.

Lemma ParseAttribs_along (attrs : list AttrText) :
  forall (tail : list wchar_t) (fuel : nat) (p : XmlParser) (acc : list XmlAttribute),
    forallb attr_ok attrs = true ->
    ends_attributes (first_char tail) = true ->
    stands_at p (render_attrs attrs ++ tail) ->
    exists p',
      ParseAttribs (List.length attrs + S fuel) p acc
      = Ok (p', acc ++ map attr_of attrs) /\
      stands_at p' tail /\ same_session_state p p' /\
      (attrs = [] -> p' = p).
Proof.
  induction attrs as [|a attrs IH]; intros tail fuel p acc Hok Hend Hp.
  - cbn [render_attrs app List.length Nat.add ParseAttribs map] in *.
    rewrite (stands_at_first_char _ _ Hp).
    unfold ends_attributes in Hend.
    destruct (wchar_eqb (first_char tail) ch_slash);
      [|destruct (wchar_eqb (first_char tail) ch_gt);
        [|destruct (wchar_eqb (first_char tail) ch_question); [|discriminate]]];
      cbn [negb andb]; rewrite ?andb_false_r; exists p; rewrite app_nil_r;
      auto using same_session_state_refl.
  - cbn [forallb] in Hok. apply andb_prop in Hok as (Ha & Hok).
    pose proof Ha as Ha'. unfold attr_ok in Ha'.
    apply andb_prop in Ha' as (Ha' & Hsep). apply andb_prop in Ha' as (Ha' & Hval).
    apply andb_prop in Ha' as (Hname & Hquote).
    destruct (tag_name_facts _ Hname) as (c & nrest & Hn & Hc & Hall).
    destruct (name_char_facts c Hc) as (_ & _ & Hcw & Hcq & Hc1 & Hc2 & Hc3 & _).
    rewrite render_attrs_cons in Hp.
    set (after := render_attrs attrs ++ tail) in *.
    assert (Hcur : CurChar p = c).
    { rewrite (stands_at_first_char _ _ Hp), Hn. reflexivity. }
    cbn [List.length Nat.add ParseAttribs]. rewrite Hcur, Hc1, Hc2, Hc3. cbn [negb andb].
    (* the name *)
    set (more := ch_equals :: at_quote a :: at_value a ++ at_quote a :: at_sep a ++ after)
      in *.
    assert (F1 : iswspace (first_char (at_name a ++ [] ++ more)) = false)
      by (rewrite Hn; exact Hcw).
    assert (F2 : is_quote (first_char (at_name a ++ [] ++ more)) = false)
      by (rewrite Hn; exact Hcq).
    destruct (NextToken_unquoted (Some xmlDelimsWithEquals) [] (at_name a) [] more
                p eq_refl
                (forallb_name_char_token _ _ (or_intror eq_refl) Hall) eq_refl
                F1 F2 eq_refl eq_refl Hp)
      as (Htok & Hq).
    pose proof (NextToken_same_session_state (Some xmlDelimsWithEquals) p) as S1.
    set (q := snd (NextToken (Some xmlDelimsWithEquals) p)) in *.
    destruct (stands_at_cons _ _ _ Hq) as (Hqc & Hq1).
    rewrite Hqc. change (wchar_eqb ch_equals ch_equals) with true. cbv iota.
    (* the value *)
    destruct (NextToken_quoted (Some xmlDelimsWithEquals) (at_quote a) []
                (at_value a) (at_sep a) after (snd (NextChar q))
                Hquote eq_refl Hval (blanks_are_space _ Hsep)
                (first_char_render_attrs _ _ Hok Hend) Hq1) as (Htok2 & Hq2).
    pose proof (NextToken_same_session_state (Some xmlDelimsWithEquals) (snd (NextChar q)))
      as S2.
    set (q2 := snd (NextToken (Some xmlDelimsWithEquals) (snd (NextChar q)))) in *.
    destruct (IH tail fuel q2 (acc ++ [mkXmlAttribute (CurToken q) (CurToken q2)])
                Hok Hend Hq2) as (p' & Hrun & Hp' & S3 & _).
    exists p'. rewrite Hrun. rewrite Htok, Htok2. cbn [map].
    rewrite <- app_assoc. cbn [app]. unfold attr_of at 2.
    split; [reflexivity|]. split; [exact Hp'|]. split; [|discriminate].
    eapply same_session_state_trans; [exact S1|].
    eapply same_session_state_trans; [apply NextChar_same_session_state|].
    eapply same_session_state_trans; [exact S2|exact S3].
Qed.

Lemma ends_attributes_facts (c : wchar_t) :
  ends_attributes c = true ->
  token_char (Some xmlDelimsWithSlash) c = false /\ iswspace c = false.
Proof.
  destruct c as [[] [] [] [] [] [] [] []]; cbv; intros H;
    try discriminate H; repeat split.
Qed.

(** The name of a begin tag and its attributes, whatever the way the
    attributes are written. *)
Lemma begin_name_then_attribs (name ws0 text : list wchar_t) (n : nat)
  (attribs : list XmlAttribute) (tail : list wchar_t) (fuel : nat) (p : XmlParser) :
  tag_name name = true ->
  forallb is_blank ws0 = true ->
  (ws0 = [] -> text = []) ->
  ends_attributes (first_char tail) = true ->
  iswspace (first_char (text ++ tail)) = false ->
  attribs_along text n attribs tail ->
  stands_at p (name ++ ws0 ++ text ++ tail) ->
  exists q p2,
    NextToken (Some xmlDelimsWithSlash) p = (true, q) /\
    CurToken q = string_of_list_ascii name /\
    ParseAttribs (n + S fuel) q [] = Ok (p2, attribs) /\
    stands_at p2 tail /\ same_session_state p p2.
Proof.
  intros Hname Hws Hsep Hend Hvis Hattr Hp.
  destruct (tag_name_facts _ Hname) as (c & nrest & Hn & Hc & Hall).
  destruct (name_char_facts c Hc) as (_ & _ & Hcw & Hcq & _).
  set (after := text ++ tail) in *.
  assert (F1 : iswspace (first_char (name ++ ws0 ++ after)) = false)
    by (rewrite Hn; exact Hcw).
  assert (F2 : is_quote (first_char (name ++ ws0 ++ after)) = false)
    by (rewrite Hn; exact Hcq).
  assert (F3 : token_char (Some xmlDelimsWithSlash) (first_char (ws0 ++ after)) = false).
  { destruct ws0 as [|b ws0].
    - unfold after. rewrite (Hsep eq_refl). cbn [app].
      now destruct (ends_attributes_facts _ Hend).
    - cbn [forallb] in Hws. apply andb_prop in Hws as (Hb & _).
      cbn [app first_char hd]. now destruct (is_blank_facts b Hb) as (_ & -> & _). }
  destruct (NextToken_unquoted (Some xmlDelimsWithSlash) [] name ws0 after p eq_refl
              (forallb_name_char_token _ _ (or_introl eq_refl) Hall)
              (blanks_are_space _ Hws) F1 F2 F3 Hvis Hp) as (Htok & Hq).
  pose proof (NextToken_same_session_state (Some xmlDelimsWithSlash) p) as S1.
  assert (Hfst : fst (NextToken (Some xmlDelimsWithSlash) p) = true).
  { apply NextToken_ok_when_token. rewrite Htok.
    now apply string_of_tag_name_not_empty. }
  destruct (NextToken (Some xmlDelimsWithSlash) p) as [ok q]; cbn [fst snd] in *.
  subst ok.
  destruct (Hattr fuel q Hq) as (p2 & Hrun & Hp2 & S2).
  exists q, p2.
  repeat split; auto; try apply (same_session_state_trans _ _ _ S1 S2).
Qed.

Lemma attrs_along (attrs : list AttrText) (tail : list wchar_t) :
  forallb attr_ok attrs = true ->
  ends_attributes (first_char tail) = true ->
  attribs_along (render_attrs attrs) (List.length attrs) (map attr_of attrs) tail.
Proof.
  intros Hok Hend fuel q Hq.
  destruct (ParseAttribs_along attrs tail fuel q [] Hok Hend Hq)
    as (p2 & Hrun & Hp2 & S2 & _).
  exists p2. cbn [app] in Hrun. auto.
Qed.

Lemma no_blank_no_attrs (ws0 : list wchar_t) (attrs : list AttrText) :
  (attrs <> [] -> ws0 <> []) -> ws0 = [] -> render_attrs attrs = [].
Proof.
  intros Hsep ->. destruct attrs as [|a attrs]; [reflexivity|].
  exfalso. apply Hsep; [discriminate|reflexivity].
Qed.

Lemma first_char_tag_closer (shape : TagShape) (rest : list wchar_t) :
  ends_attributes (first_char (tag_closer shape ++ rest)) = true.
Proof. destruct shape; reflexivity. Qed.

Ltac known_chars :=
  repeat progress
    (change (wchar_eqb ch_gt ch_slash) with false;
     change (wchar_eqb ch_gt ch_gt) with true;
     change (wchar_eqb ch_slash ch_slash) with true;
     change (wchar_eqb ch_question ch_question) with true;
     cbv beta iota zeta; cbn [negb andb fst snd]).

(** [ParseBeginTagNode] on a begin tag of any of the four shapes. *)
Lemma ParseBeginTagNode_generic (shape : TagShape) (name ws0 text : list wchar_t)
  (n : nat) (attribs : list XmlAttribute) (rest : list wchar_t) (fuel : nat)
  (p : XmlParser) :
  tag_name name = true ->
  forallb is_blank ws0 = true ->
  (ws0 = [] -> text = []) ->
  iswspace (first_char (text ++ tag_closer shape ++ rest)) = false ->
  attribs_along text n attribs (tag_closer shape ++ rest) ->
  stands_at p (tag_opener shape ++ name ++ ws0 ++ text ++ tag_closer shape ++ rest) ->
  let elm := element_of shape name attribs (size_t_sub (m_DataPos p) 2) in
  exists p',
    ParseBeginTagNode (n + S fuel) p
    = Ok (true, Some (BeginNode (m_Begin elm)), p') /\
    stands_at p' rest /\
    m_Stack p' = m_Stack p ++ [elm] /\
    m_PriorWasEmptyTag p' = m_PriorWasEmptyTag p || tag_is_empty shape /\
    m_ErrorInfo p' = m_ErrorInfo p.
Proof.
  intros Hname Hws Hsep Hvis Hattr Hp elm.
  destruct (tag_name_facts _ Hname) as (c & nrest & Hn & Hc & _).
  destruct (name_char_facts c Hc) as (_ & _ & _ & _ & _ & _ & Hcq & _).
  unfold ParseBeginTagNode.
  set (bQ := wchar_eqb (CurChar p) ch_question).
  set (p1 := if bQ then snd (NextChar p) else p).
  assert (Hp1 : stands_at p1 (name ++ ws0 ++ text ++ tag_closer shape ++ rest)
                /\ same_session_state p p1
                /\ bQ = match shape with
                        | PlainTag | SelfClosingTag => false
                        | _ => true
                        end).
  { unfold p1, bQ.
    destruct shape; cbn [tag_opener app] in Hp.
    1, 2: pose proof (stands_at_first_char _ _ Hp) as Hcc; rewrite Hn in Hcc;
      cbn [app first_char hd] in Hcc; rewrite Hcc, Hcq;
      repeat split; auto using same_session_state_refl.
    all: destruct (stands_at_cons _ _ _ Hp) as (-> & Hn');
      change (wchar_eqb ch_question ch_question) with true; cbv iota;
      repeat split; auto; apply NextChar_same_session_state. }
  destruct Hp1 as (Hp1 & S1 & HbQ).
  destruct (begin_name_then_attribs name ws0 text n attribs (tag_closer shape ++ rest)
              fuel p1 Hname Hws Hsep (first_char_tag_closer shape rest) Hvis Hattr Hp1)
    as (q & p2 & Htok & Hcur & Hrun & Hp2 & S2).
  rewrite Htok. cbn [negb]. rewrite Hrun. cbn [bind]. rewrite Hcur.
  pose proof (same_session_state_trans _ _ _ S1 S2) as (St & Fl & Er).
  rewrite HbQ. clear HbQ Htok Hrun.
  destruct shape; cbn [tag_closer app] in Hp2; cbn [andb tag_is_empty].
  - (* <name ...> *)
    destruct (stands_at_cons _ _ _ Hp2) as (Hc2 & Hp3).
    rewrite !Hc2; known_chars; rewrite ?Hc2; known_chars.
    destruct (NextChar_same_session_state p2) as (A1 & A2 & A3).
    eexists. split; [reflexivity|]. cbn [m_Stack set_Stack m_PriorWasEmptyTag m_ErrorInfo].
    rewrite orb_false_r. repeat split; auto; try congruence.
    unfold elm, element_of. cbn [tag_is_empty XmlElementBase_new m_Value m_End].
    now rewrite A1, St.
  - (* <name ... /> *)
    destruct (stands_at_cons _ _ _ Hp2) as (Hc2 & _).
    rewrite !Hc2; known_chars.
    apply (stands_at_set_PriorWasEmptyTag true) in Hp2.
    destruct (stands_at_cons _ _ _ Hp2) as (_ & Hp3).
    destruct (NextChar_same_session_state (set_PriorWasEmptyTag true p2)) as (A1 & A2 & A3).
    set (p3 := snd (NextChar (set_PriorWasEmptyTag true p2))) in *.
    destruct (stands_at_cons _ _ _ Hp3) as (Hc3 & Hp4).
    rewrite !Hc3; known_chars.
    destruct (NextChar_same_session_state p3) as (B1 & B2 & B3).
    eexists. split; [reflexivity|]. cbn [m_Stack set_Stack m_PriorWasEmptyTag m_ErrorInfo].
    cbn in A1, A2, A3. rewrite orb_true_r. repeat split; auto; try congruence.
    unfold elm, element_of. cbn [tag_is_empty XmlElementBase_new m_Value m_End].
    now rewrite B1, A1, St.
  - (* <?name ... ?> *)
    destruct (stands_at_cons _ _ _ Hp2) as (Hc2 & _).
    rewrite !Hc2; known_chars.
    apply (stands_at_set_PriorWasEmptyTag true) in Hp2.
    destruct (stands_at_cons _ _ _ Hp2) as (_ & Hp3).
    destruct (NextChar_same_session_state (set_PriorWasEmptyTag true p2)) as (A1 & A2 & A3).
    set (p3 := snd (NextChar (set_PriorWasEmptyTag true p2))) in *.
    destruct (stands_at_cons _ _ _ Hp3) as (Hc3 & Hp4).
    rewrite !Hc3; known_chars; rewrite ?Hc3; known_chars.
    destruct (NextChar_same_session_state p3) as (B1 & B2 & B3).
    eexists. split; [reflexivity|]. cbn [m_Stack set_Stack m_PriorWasEmptyTag m_ErrorInfo].
    cbn in A1, A2, A3. rewrite orb_true_r. repeat split; auto; try congruence.
    unfold elm, element_of. cbn [tag_is_empty XmlElementBase_new m_Value m_End].
    now rewrite B1, A1, St.
  - (* <?name ... ?/> *)
    destruct (stands_at_cons _ _ _ Hp2) as (Hc2 & _).
    rewrite !Hc2; known_chars.
    apply (stands_at_set_PriorWasEmptyTag true) in Hp2.
    destruct (stands_at_cons _ _ _ Hp2) as (_ & Hp3).
    destruct (NextChar_same_session_state (set_PriorWasEmptyTag true p2)) as (A1 & A2 & A3).
    set (p3 := snd (NextChar (set_PriorWasEmptyTag true p2))) in *.
    destruct (stands_at_cons _ _ _ Hp3) as (Hc3 & _).
    rewrite !Hc3; known_chars.
    apply (stands_at_set_PriorWasEmptyTag true) in Hp3.
    destruct (stands_at_cons _ _ _ Hp3) as (_ & Hp4).
    destruct (NextChar_same_session_state (set_PriorWasEmptyTag true p3)) as (B1 & B2 & B3).
    set (p4 := snd (NextChar (set_PriorWasEmptyTag true p3))) in *.
    destruct (stands_at_cons _ _ _ Hp4) as (Hc4 & Hp5).
    rewrite !Hc4; known_chars.
    destruct (NextChar_same_session_state p4) as (C1 & C2 & C3).
    eexists. split; [reflexivity|]. cbn [m_Stack set_Stack m_PriorWasEmptyTag m_ErrorInfo].
    cbn in A1, A2, A3, B1, B2, B3. rewrite orb_true_r. repeat split; auto; try congruence.
    unfold elm, element_of. cbn [tag_is_empty XmlElementBase_new m_Value m_End].
    now rewrite C1, B1, A1, St.
Qed.

(** ** One call of [NextNode] along a known input *)

(** The start of [NextNode] when no synthetic close is pending: the blanks
    are skipped and collected. *)
Lemma NextNode_skips_blanks (lead tail : list wchar_t) (fuel : nat) (p : XmlParser) :
  m_PriorWasEmptyTag p && negb (vector_empty (m_Stack p)) = false ->
  forallb iswspace lead = true ->
  iswspace (first_char tail) = false ->
  stands_at p (lead ++ tail) ->
  NextNode (S fuel) p
  = let q := advance (List.length lead) p in
    if wchar_eqb (CurChar q) ch_lt then
      let q := snd (NextChar q) in
      if wchar_eqb (CurChar q) ch_slash then ParseEndTagNode q
      else if wchar_eqb (CurChar q) ch_bang then ParseBangTag (NextNode fuel) q
      else ParseBeginTagNode fuel q
    else ParseTagValueNode (string_of_list_ascii lead) q.
Proof.
  intros Hsyn Hl Ht Hp. cbn [NextNode]. rewrite Hsyn.
  rewrite (scan_consumes iswspace iswspace_NUL lead tail Hl Ht
             (loop_budget p) p "" Hp (loop_budget_enough p)).
  reflexivity.
Qed.

Lemma advance_frame (n : nat) (p : XmlParser) :
  m_Stack (advance n p) = m_Stack p /\
  m_PriorWasEmptyTag (advance n p) = m_PriorWasEmptyTag p /\
  m_ErrorInfo (advance n p) = m_ErrorInfo p.
Proof. apply advance_same_session_state. Qed.

(** [NextNode] on a begin tag of any of the four shapes, after any
    blanks. *)
Lemma NextNode_begin_tag_generic (shape : TagShape) (lead name ws0 text : list wchar_t)
  (n : nat) (attribs : list XmlAttribute) (rest : list wchar_t) (fuel : nat)
  (p : XmlParser) :
  m_PriorWasEmptyTag p && negb (vector_empty (m_Stack p)) = false ->
  forallb iswspace lead = true ->
  tag_name name = true ->
  forallb is_blank ws0 = true ->
  (ws0 = [] -> text = []) ->
  iswspace (first_char (text ++ tag_closer shape ++ rest)) = false ->
  attribs_along text n attribs (tag_closer shape ++ rest) ->
  stands_at p (lead ++ ch_lt :: tag_opener shape ++ name ++ ws0 ++ text
                 ++ tag_closer shape ++ rest) ->
  let elm := element_of shape name attribs
               (size_t_sub (m_DataPos p + List.length lead + 1) 2) in
  exists p',
    NextNode (S (n + S fuel)) p
    = Ok (true, Some (BeginNode (m_Begin elm)), p') /\
    stands_at p' rest /\
    m_Stack p' = m_Stack p ++ [elm] /\
    m_PriorWasEmptyTag p' = m_PriorWasEmptyTag p || tag_is_empty shape /\
    m_ErrorInfo p' = m_ErrorInfo p.
Proof.
  intros Hsyn Hlead Hname Hws Hsep Hvis Hattr Hp elm.
  set (inner := tag_opener shape ++ name ++ ws0 ++ text
                ++ tag_closer shape ++ rest) in *.
  rewrite (NextNode_skips_blanks lead (ch_lt :: inner) _ p Hsyn Hlead eq_refl Hp).
  cbv zeta.
  pose proof (stands_at_advance_pos lead ch_lt inner p Hp) as Hpos.
  destruct (advance_frame (List.length lead) p) as (St & Fl & Er).
  apply stands_at_advance in Hp.
  set (q := advance (List.length lead) p) in *.
  destruct (stands_at_cons _ _ _ Hp) as (Hc & Hq1). rewrite Hc.
  change (wchar_eqb ch_lt ch_lt) with true. cbv iota.
  destruct (NextChar_same_session_state q) as (St1 & Fl1 & Er1).
  assert (Hpos1 : m_DataPos (snd (NextChar q)) = m_DataPos p + List.length lead + 1).
  { destruct (tag_name_facts _ Hname) as (c & nrest & Hn & _).
    assert (Hup : exists x l, upcoming q = x :: l).
    { unfold stands_at in Hp. cbn [input_after] in Hp.
      rewrite (input_at_upcoming _ _ _ Hp). unfold inner. rewrite Hn.
      destruct (tag_opener shape); cbn [app]; eauto. }
    destruct Hup as (x & l & Hup).
    destruct (NextChar_upcoming_cons _ _ _ Hup) as (_ & _ & _ & ->). lia. }
  set (q1 := snd (NextChar q)) in *.
  assert (Hfirst : wchar_eqb (CurChar q1) ch_slash = false /\
                   wchar_eqb (CurChar q1) ch_bang = false).
  { rewrite (stands_at_first_char _ _ Hq1). unfold inner.
    destruct (tag_name_facts _ Hname) as (c & nrest & Hn & Hcn & _).
    destruct (name_char_facts c Hcn) as (_ & _ & _ & _ & H1 & _ & _ & H2 & _).
    rewrite Hn. destruct shape; cbn [tag_opener app first_char hd]; auto. }
  destruct Hfirst as (-> & ->).
  destruct (ParseBeginTagNode_generic shape name ws0 text n attribs rest fuel q1
              Hname Hws Hsep Hvis Hattr Hq1) as (p' & Hrun & Hp' & Hst & Hfl & Her).
  exists p'. rewrite Hrun. unfold elm. rewrite Hpos1.
  repeat split; auto; congruence.
Qed.

Lemma NextNode_begin_tag (shape : TagShape) (lead name ws0 : list wchar_t)
  (attrs : list AttrText) (rest : list wchar_t) (fuel : nat) (p : XmlParser) :
  m_PriorWasEmptyTag p && negb (vector_empty (m_Stack p)) = false ->
  forallb iswspace lead = true ->
  tag_name name = true ->
  forallb is_blank ws0 = true ->
  (attrs <> [] -> ws0 <> []) ->
  forallb attr_ok attrs = true ->
  stands_at p (lead ++ ch_lt :: tag_opener shape ++ name ++ ws0 ++ render_attrs attrs
                 ++ tag_closer shape ++ rest) ->
  let elm := element_of shape name (map attr_of attrs)
               (size_t_sub (m_DataPos p + List.length lead + 1) 2) in
  exists p',
    NextNode (S (List.length attrs + S fuel)) p
    = Ok (true, Some (BeginNode (m_Begin elm)), p') /\
    stands_at p' rest /\
    m_Stack p' = m_Stack p ++ [elm] /\
    m_PriorWasEmptyTag p' = m_PriorWasEmptyTag p || tag_is_empty shape /\
    m_ErrorInfo p' = m_ErrorInfo p.
Proof.
  intros Hsyn Hlead Hname Hws Hsep Hok Hp.
  exact (NextNode_begin_tag_generic shape lead name ws0 (render_attrs attrs)
           (List.length attrs) (map attr_of attrs) rest fuel p Hsyn Hlead Hname Hws
           (no_blank_no_attrs _ _ Hsep)
           (first_char_render_attrs _ _ Hok (first_char_tag_closer shape rest))
           (attrs_along _ _ Hok (first_char_tag_closer shape rest)) Hp).
Qed.

(** The synthetic close. *)
Lemma NextNode_synthetic_close (fuel : nat) (p : XmlParser) (v : list XmlElementBase)
  (e : XmlElementBase) :
  m_PriorWasEmptyTag p = true ->
  m_Stack p = v ++ [e] ->
  NextNode (S fuel) p
  = Ok (true, Some (EndNode (m_End e)), set_Stack v (set_PriorWasEmptyTag false p)).
Proof.
  intros Hf Hs. cbn [NextNode]. rewrite Hf, Hs.
  assert (He : vector_empty (v ++ [e]) = false) by (destruct v; reflexivity).
  rewrite He. cbn [negb andb m_Stack set_PriorWasEmptyTag]. rewrite Hs.
  rewrite vector_back_snoc, (vector_erase_back_nonempty _ He), removelast_last.
  reflexivity.
Qed.

(** X8.  A begin tag of any of the four shapes, after any blanks: its
    name, and its attributes written [name="value"] or [name='value'], in
    the order written and with repeated names kept, are handed out in one
    begin node.  The node's offset is the position of the '<' counted from
    where the parser stands; the element is pushed on the stack, the
    cursor moves just past the '>', and no error text is recorded. *)
Theorem begin_tag_is_decoded :
  forall (shape : TagShape) (lead name ws0 : list wchar_t) (attrs : list AttrText)
         (rest : list wchar_t) (fuel : nat) (p : XmlParser),
    m_PriorWasEmptyTag p && negb (vector_empty (m_Stack p)) = false ->
    forallb iswspace lead = true ->
    tag_name name = true ->
    forallb is_blank ws0 = true ->
    (attrs <> [] -> ws0 <> []) ->
    forallb attr_ok attrs = true ->
    stands_at p (lead ++ ch_lt :: tag_opener shape ++ name ++ ws0 ++ render_attrs attrs
                   ++ tag_closer shape ++ rest) ->
    exists p',
      NextNode (S (List.length attrs + S fuel)) p
      = Ok (true,
            Some (Open (string_of_list_ascii name)
                    (size_t_sub (m_DataPos p + List.length lead + 1) 2)
                    (map attr_of attrs)),
            p') /\
      stands_at p' rest /\
      open_element_names p' = open_element_names p ++ [string_of_list_ascii name] /\
      m_PriorWasEmptyTag p' = m_PriorWasEmptyTag p || tag_is_empty shape /\
      ErrorInfo p' = ErrorInfo p.
Proof.
  intros shape lead name ws0 attrs rest fuel p Hsyn Hlead Hname Hws Hsep Hok Hp.
  destruct (NextNode_begin_tag shape lead name ws0 attrs rest fuel p
              Hsyn Hlead Hname Hws Hsep Hok Hp) as (p' & Hrun & Hp' & Hst & Hfl & Her).
  exists p'. split; [exact Hrun|]. repeat split; auto.
  unfold open_element_names. rewrite Hst, map_app. reflexivity.
Qed.

(** The theorem at [ <c x="1" x='2 3'/><d>]. *)
Lemma begin_tag_is_decoded_witness :
  let p := sample_tag_session SelfClosingTag in
  m_PriorWasEmptyTag p && negb (vector_empty (m_Stack p)) = false /\
  forallb iswspace [" "%char] = true /\
  tag_name ["c"%char] = true /\
  forallb is_blank [" "%char] = true /\
  (sample_attrs <> [] -> [" "%char] <> []) /\
  forallb attr_ok sample_attrs = true /\
  stands_at p ([" "%char] ++ ch_lt :: tag_opener SelfClosingTag ++ ["c"%char]
                 ++ [" "%char] ++ render_attrs sample_attrs
                 ++ tag_closer SelfClosingTag ++ list_ascii_of_string "<d>") /\
  exists p',
    NextNode (S (List.length sample_attrs + S 0)) p
    = Ok (true,
          Some (Open (string_of_list_ascii ["c"%char])
                  (size_t_sub (m_DataPos p + List.length [" "%char] + 1) 2)
                  (map attr_of sample_attrs)),
          p') /\
    stands_at p' (list_ascii_of_string "<d>") /\
    open_element_names p' = open_element_names p ++ [string_of_list_ascii ["c"%char]] /\
    m_PriorWasEmptyTag p' = m_PriorWasEmptyTag p || tag_is_empty SelfClosingTag /\
    ErrorInfo p' = ErrorInfo p.
Proof.
  intros p.
  assert (H1 : m_PriorWasEmptyTag p && negb (vector_empty (m_Stack p)) = false)
    by reflexivity.
  assert (H2 : forallb iswspace [" "%char] = true) by reflexivity.
  assert (H3 : tag_name ["c"%char] = true) by reflexivity.
  assert (H4 : forallb is_blank [" "%char] = true) by reflexivity.
  assert (H5 : sample_attrs <> [] -> [" "%char] <> []) by (intros _; discriminate).
  assert (H6 : forallb attr_ok sample_attrs = true) by reflexivity.
  assert (H7 : stands_at p ([" "%char] ++ ch_lt :: tag_opener SelfClosingTag ++ ["c"%char]
                              ++ [" "%char] ++ render_attrs sample_attrs
                              ++ tag_closer SelfClosingTag ++ list_ascii_of_string "<d>"))
    by reflexivity.
  exact (conj H1 (conj H2 (conj H3 (conj H4 (conj H5 (conj H6 (conj H7
           (begin_tag_is_decoded SelfClosingTag [" "%char] ["c"%char] [" "%char]
              sample_attrs (list_ascii_of_string "<d>") 0 p
              H1 H2 H3 H4 H5 H6 H7)))))))).
Defined.

(** X9.  A tag without a separate end tag ([<name ... />], [<?name ... ?>]
    or the tolerated [<?name ... ?/>]) is closed by the very next call:
    after the begin node, [NextNode] hands out the end node with the same
    name without reading anything (cursor and position stay where they
    were), and the stack is as it was before the tag. *)
Theorem empty_tag_is_closed_by_the_next_call :
  forall (shape : TagShape) (lead name ws0 : list wchar_t) (attrs : list AttrText)
         (rest : list wchar_t) (fuel fuel' : nat) (p : XmlParser),
    tag_is_empty shape = true ->
    m_PriorWasEmptyTag p && negb (vector_empty (m_Stack p)) = false ->
    forallb iswspace lead = true ->
    tag_name name = true ->
    forallb is_blank ws0 = true ->
    (attrs <> [] -> ws0 <> []) ->
    forallb attr_ok attrs = true ->
    stands_at p (lead ++ ch_lt :: tag_opener shape ++ name ++ ws0 ++ render_attrs attrs
                   ++ tag_closer shape ++ rest) ->
    exists open p' p'',
      NextNode (S (List.length attrs + S fuel)) p = Ok (true, Some (BeginNode open), p') /\
      begin_m_Name open = string_of_list_ascii name /\
      NextNode (S fuel') p' = Ok (true, Some (Close (string_of_list_ascii name)), p'') /\
      CurPosition p'' = CurPosition p' /\
      input_at p'' = input_at p' /\
      stands_at p'' rest /\
      m_Stack p'' = m_Stack p /\
      m_PriorWasEmptyTag p'' = false.
Proof.
  intros shape lead name ws0 attrs rest fuel fuel' p Hempty Hsyn Hlead Hname Hws Hsep
    Hok Hp.
  destruct (NextNode_begin_tag shape lead name ws0 attrs rest fuel p
              Hsyn Hlead Hname Hws Hsep Hok Hp) as (p' & Hrun & Hp' & Hst & Hfl & Her).
  rewrite Hempty, orb_true_r in Hfl.
  eexists _, p', _. split; [exact Hrun|]. split; [reflexivity|].
  rewrite (NextNode_synthetic_close fuel' p' _ _ Hfl Hst).
  unfold element_of. rewrite Hempty. cbn [m_End].
  split; [reflexivity|]. repeat split; auto.
Qed.

(** The theorem at [ <?c x="1" x='2 3'?/><d>]. *)
Lemma empty_tag_is_closed_by_the_next_call_witness :
  let p := sample_tag_session InstructionSlashTag in
  tag_is_empty InstructionSlashTag = true /\
  m_PriorWasEmptyTag p && negb (vector_empty (m_Stack p)) = false /\
  forallb iswspace [" "%char] = true /\
  tag_name ["c"%char] = true /\
  forallb is_blank [" "%char] = true /\
  (sample_attrs <> [] -> [" "%char] <> []) /\
  forallb attr_ok sample_attrs = true /\
  stands_at p ([" "%char] ++ ch_lt :: tag_opener InstructionSlashTag ++ ["c"%char]
                 ++ [" "%char] ++ render_attrs sample_attrs
                 ++ tag_closer InstructionSlashTag ++ list_ascii_of_string "<d>") /\
  exists open p' p'',
    NextNode (S (List.length sample_attrs + S 0)) p = Ok (true, Some (BeginNode open), p') /\
    begin_m_Name open = string_of_list_ascii ["c"%char] /\
    NextNode (S 0) p' = Ok (true, Some (Close (string_of_list_ascii ["c"%char])), p'') /\
    CurPosition p'' = CurPosition p' /\
    input_at p'' = input_at p' /\
    stands_at p'' (list_ascii_of_string "<d>") /\
    m_Stack p'' = m_Stack p /\
    m_PriorWasEmptyTag p'' = false.
Proof.
  intros p.
  assert (H0 : tag_is_empty InstructionSlashTag = true) by reflexivity.
  assert (H1 : m_PriorWasEmptyTag p && negb (vector_empty (m_Stack p)) = false)
    by reflexivity.
  assert (H2 : forallb iswspace [" "%char] = true) by reflexivity.
  assert (H3 : tag_name ["c"%char] = true) by reflexivity.
  assert (H4 : forallb is_blank [" "%char] = true) by reflexivity.
  assert (H5 : sample_attrs <> [] -> [" "%char] <> []) by (intros _; discriminate).
  assert (H6 : forallb attr_ok sample_attrs = true) by reflexivity.
  assert (H7 : stands_at p ([" "%char] ++ ch_lt :: tag_opener InstructionSlashTag
                              ++ ["c"%char] ++ [" "%char] ++ render_attrs sample_attrs
                              ++ tag_closer InstructionSlashTag
                              ++ list_ascii_of_string "<d>"))
    by reflexivity.
  exact (conj H0 (conj H1 (conj H2 (conj H3 (conj H4 (conj H5 (conj H6 (conj H7
           (empty_tag_is_closed_by_the_next_call InstructionSlashTag [" "%char]
              ["c"%char] [" "%char] sample_attrs (list_ascii_of_string "<d>") 0 0 p
              H0 H1 H2 H3 H4 H5 H6 H7))))))))).
Defined.

(** ** Values and end tags along a known input *)

Lemma string_of_list_ascii_append (a b : list wchar_t) :
  string_of_list_ascii (a ++ b)
  = (string_of_list_ascii a ++ string_of_list_ascii b)%string.
Proof. induction a as [|c a IH]; cbn; congruence. Qed.

Lemma IsWhiteSpace_string_of (l : list wchar_t) :
  IsWhiteSpace (string_of_list_ascii l) = forallb iswspace l.
Proof.
  induction l as [|c l IH]; cbn; auto. rewrite IH. now destruct (iswspace c).
Qed.

Lemma value_char_not_lt (c : wchar_t) :
  value_char c = true -> wchar_eqb c ch_lt = false.
Proof.
  unfold value_char. intros H. apply andb_prop in H as (_ & H).
  now apply negb_true_iff in H.
Qed.

(** [NextNode] on text: blanks, then a character that is neither a blank
    nor '<' nor zero, then more characters up to the next '<' or the end
    of the input. *)
Lemma NextNode_value (lead : list wchar_t) (c : wchar_t) (more tail : list wchar_t)
  (fuel : nat) (p : XmlParser) :
  m_PriorWasEmptyTag p && negb (vector_empty (m_Stack p)) = false ->
  forallb iswspace lead = true ->
  iswspace c = false ->
  value_char c = true ->
  forallb value_char more = true ->
  value_char (first_char tail) = false ->
  stands_at p (lead ++ c :: more ++ tail) ->
  let text := string_of_list_ascii (lead ++ c :: more) in
  let q := advance (List.length (lead ++ c :: more)) p in
  stands_at q tail /\
  NextNode (S fuel) p
  = match vector_back (m_Stack p) with
    | None =>
        Ok (false, None,
            set_ErrorInfo ("Unexpected data outside of all tags:  '" ++ text ++ "'") q)
    | Some e =>
        Ok (true,
            Some (Text (begin_m_Name (m_Begin e)) text),
            set_Stack
              (vector_set_back (m_Stack p)
                 (mkXmlElementBase (m_Begin e)
                    (mkXmlValueNode (begin_m_Name (m_Begin e)) text) (m_End e))) q)
    end.
Proof.
  intros Hsyn Hlead Hcw Hcv Hmore Htail Hp text q.
  assert (Hq : stands_at q tail).
  { unfold q. apply stands_at_advance. now rewrite <- app_assoc. }
  split; [exact Hq|].
  rewrite (NextNode_skips_blanks lead (c :: more ++ tail) _ p Hsyn Hlead Hcw Hp).
  cbv zeta.
  destruct (advance_frame (List.length lead) p) as (St & _ & _).
  apply stands_at_advance in Hp.
  set (q0 := advance (List.length lead) p) in *.
  rewrite (proj1 (stands_at_cons _ _ _ Hp)), (value_char_not_lt _ Hcv).
  unfold ParseTagValueNode.
  assert (Hall : forallb value_char (c :: more) = true)
    by (cbn [forallb]; now rewrite Hcv, Hmore).
  change (fun c0 => negb (wchar_eqb c0 NUL) && negb (wchar_eqb c0 ch_lt)) with value_char.
  rewrite (scan_consumes value_char value_char_NUL (c :: more) tail Hall Htail
             (loop_budget q0) q0 (string_of_list_ascii lead) Hp (loop_budget_enough q0)).
  rewrite <- string_of_list_ascii_append. fold text.
  replace (advance (List.length (c :: more)) q0) with q.
  2:{ unfold q, q0. rewrite length_app, advance_add. reflexivity. }
  destruct (advance_frame (List.length (lead ++ c :: more)) p) as (Stq & _ & _).
  fold q in Stq. rewrite Stq.
  destruct (m_Stack p) as [|x v] eqn:Hs.
  - cbn [vector_empty vector_back back_index].
    assert (Hw : IsWhiteSpace text = false).
    { unfold text. rewrite IsWhiteSpace_string_of, forallb_app. cbn [forallb].
      now rewrite Hcw, andb_false_r. }
    rewrite Hw. reflexivity.
  - cbn [vector_empty].
    destruct (vector_back_nonempty (x :: v) eq_refl) as [e ->]. reflexivity.
Qed.

(** X10.  Text inside an element is handed out verbatim: blanks before the
    first visible character, interior blanks and everything else up to
    the next '<' (or the end of the input) form the value node's text; the
    node carries the name of the innermost open element, the cursor stops
    on the '<', and the stack keeps its names. *)
Theorem text_is_handed_out_verbatim :
  forall (lead : list wchar_t) (c : wchar_t) (more tail : list wchar_t)
         (fuel : nat) (p : XmlParser) (e : XmlElementBase),
    m_PriorWasEmptyTag p = false ->
    vector_back (m_Stack p) = Some e ->
    forallb iswspace lead = true ->
    iswspace c = false ->
    value_char c = true ->
    forallb value_char more = true ->
    value_char (first_char tail) = false ->
    stands_at p (lead ++ c :: more ++ tail) ->
    exists p',
      NextNode (S fuel) p
      = Ok (true,
            Some (Text (begin_m_Name (m_Begin e))
                    (string_of_list_ascii (lead ++ c :: more))),
            p') /\
      stands_at p' tail /\
      open_element_names p' = open_element_names p /\
      ErrorInfo p' = ErrorInfo p.
Proof.
  intros lead c more tail fuel p e Hf Hb Hlead Hcw Hcv Hmore Htail Hp.
  assert (Hsyn : m_PriorWasEmptyTag p && negb (vector_empty (m_Stack p)) = false)
    by now rewrite Hf.
  destruct (NextNode_value lead c more tail fuel p Hsyn Hlead Hcw Hcv Hmore Htail Hp)
    as (Hq & Hrun).
  rewrite Hb in Hrun. eexists. split; [exact Hrun|].
  destruct (advance_frame (List.length (lead ++ c :: more)) p) as (_ & _ & Er).
  split; [exact Hq|]. split; [|exact Er].
  unfold open_element_names. cbn [m_Stack set_Stack].
  rewrite (vector_back_inv _ _ Hb) at 2. unfold vector_set_back.
  rewrite !map_app. reflexivity.
Qed.

(** X11.  Text outside every element is fatal unless it is blank: with an
    empty stack, text that holds a visible character makes [NextNode]
    return false, and the error text quotes the whole run of characters up
    to the next '<' (leading blanks included). *)
Theorem text_outside_all_tags_is_an_error :
  forall (lead : list wchar_t) (c : wchar_t) (more tail : list wchar_t)
         (fuel : nat) (p : XmlParser),
    m_Stack p = [] ->
    forallb iswspace lead = true ->
    iswspace c = false ->
    value_char c = true ->
    forallb value_char more = true ->
    value_char (first_char tail) = false ->
    stands_at p (lead ++ c :: more ++ tail) ->
    exists p',
      NextNode (S fuel) p = Ok (false, None, p') /\
      ErrorInfo p'
      = ("Unexpected data outside of all tags:  '"
           ++ string_of_list_ascii (lead ++ c :: more) ++ "'")%string /\
      stands_at p' tail /\ m_Stack p' = [].
Proof.
  intros lead c more tail fuel p Hs Hlead Hcw Hcv Hmore Htail Hp.
  assert (Hsyn : m_PriorWasEmptyTag p && negb (vector_empty (m_Stack p)) = false)
    by (rewrite Hs; apply andb_false_r).
  destruct (NextNode_value lead c more tail fuel p Hsyn Hlead Hcw Hcv Hmore Htail Hp)
    as (Hq & Hrun).
  rewrite Hs in Hrun. cbn [vector_back back_index] in Hrun.
  eexists. split; [exact Hrun|].
  destruct (advance_frame (List.length (lead ++ c :: more)) p) as (St & _ & _).
  repeat split; auto. cbn [m_Stack set_ErrorInfo]. congruence.
Qed.

Lemma c_str_of_name (name : list wchar_t) :
  forallb name_char name = true ->
  c_str (string_of_list_ascii name) = string_of_list_ascii name.
Proof.
  induction name as [|c name IH]; cbn; auto. intros H.
  apply andb_prop in H as (Hc & Hn).
  destruct (name_char_facts c Hc) as (_ & _ & _ & _ & _ & _ & _ & _ & _ & ->).
  now rewrite (IH Hn).
Qed.

Lemma string_of_list_ascii_inj (a b : list wchar_t) :
  string_of_list_ascii a = string_of_list_ascii b -> a = b.
Proof.
  intros H. apply (f_equal list_ascii_of_string) in H.
  now rewrite !list_ascii_of_string_of_list_ascii in H.
Qed.

Lemma wcscmp_differs_names (a b : list wchar_t) :
  forallb name_char a = true -> forallb name_char b = true ->
  wcscmp_differs (string_of_list_ascii a) (string_of_list_ascii b)
  = negb (String.eqb (string_of_list_ascii a) (string_of_list_ascii b)).
Proof.
  intros Ha Hb. unfold wcscmp_differs. now rewrite !c_str_of_name.
Qed.

(** [NextNode] on an end tag [</name>], blanks allowed before the '<',
    around the name and before the '>'. *)
Lemma NextNode_end_tag (lead ws1 name ws2 rest : list wchar_t) (fuel : nat)
  (p : XmlParser) :
  m_PriorWasEmptyTag p && negb (vector_empty (m_Stack p)) = false ->
  forallb iswspace lead = true ->
  forallb iswspace ws1 = true ->
  tag_name name = true ->
  forallb is_blank ws2 = true ->
  stands_at p (lead ++ ch_lt :: ch_slash :: ws1 ++ name ++ ws2 ++ ch_gt :: rest) ->
  exists q,
    stands_at q rest /\ same_session_state p q /\
    NextNode (S fuel) p
    = match vector_back (m_Stack p) with
      | None =>
          Ok (false, None,
              set_ErrorInfo ("Unexpected end tag outside of all tags:  "
                               ++ string_of_list_ascii name) q)
      | Some e =>
          if wcscmp_differs (string_of_list_ascii name) (begin_m_Name (m_Begin e))
          then Ok (false, None,
                   set_ErrorInfo ("Mismatched end tag, found '"
                                    ++ string_of_list_ascii name ++ "', expected '"
                                    ++ begin_m_Name (m_Begin e) ++ "'") q)
          else Ok (true, Some (Close (begin_m_Name (m_Begin e))),
                   set_Stack (removelast (m_Stack p))
                     (set_Stack
                        (vector_set_back (m_Stack p)
                           (mkXmlElementBase (m_Begin e) (m_Value e)
                              (mkXmlEndNode (begin_m_Name (m_Begin e))))) q))
      end.
Proof.
  intros Hsyn Hlead Hws1 Hname Hws2 Hp.
  set (inner := ws1 ++ name ++ ws2 ++ ch_gt :: rest) in *.
  rewrite (NextNode_skips_blanks lead (ch_lt :: ch_slash :: inner) _ p Hsyn Hlead
             eq_refl Hp).
  cbv zeta.
  pose proof (advance_same_session_state (List.length lead) p) as S0.
  apply stands_at_advance in Hp.
  set (q0 := advance (List.length lead) p) in *.
  destruct (stands_at_cons _ _ _ Hp) as (Hc0 & Hp1). rewrite Hc0.
  change (wchar_eqb ch_lt ch_lt) with true. cbv iota.
  pose proof (NextChar_same_session_state q0) as S1.
  set (q1 := snd (NextChar q0)) in *.
  destruct (stands_at_cons _ _ _ Hp1) as (Hc1 & Hp2). rewrite Hc1.
  change (wchar_eqb ch_slash ch_slash) with true. cbv iota.
  unfold ParseEndTagNode.
  pose proof (NextChar_same_session_state q1) as S2.
  set (q2 := snd (NextChar q1)) in *.
  destruct (tag_name_facts _ Hname) as (c & nrest & Hn & Hcn & Hall).
  destruct (name_char_facts c Hcn) as (_ & _ & Hcw & Hcq & _).
  assert (F1 : iswspace (first_char (name ++ ws2 ++ ch_gt :: rest)) = false)
    by (rewrite Hn; exact Hcw).
  assert (F2 : is_quote (first_char (name ++ ws2 ++ ch_gt :: rest)) = false)
    by (rewrite Hn; exact Hcq).
  assert (F3 : token_char (Some xmlDelimsWithEquals)
                 (first_char (ws2 ++ ch_gt :: rest)) = false).
  { destruct ws2 as [|b ws2]; [reflexivity|].
    cbn [forallb] in Hws2. apply andb_prop in Hws2 as (Hb & _).
    cbn [app first_char hd]. now destruct (is_blank_facts b Hb) as (_ & _ & ->). }
  destruct (NextToken_unquoted (Some xmlDelimsWithEquals) ws1 name ws2 (ch_gt :: rest) q2
              Hws1 (forallb_name_char_token _ _ (or_intror eq_refl) Hall)
              (blanks_are_space _ Hws2) F1 F2 F3 eq_refl Hp2) as (Htok & Hq3).
  pose proof (NextToken_same_session_state (Some xmlDelimsWithEquals) q2) as S3.
  assert (Hfst : fst (NextToken (Some xmlDelimsWithEquals) q2) = true).
  { apply NextToken_ok_when_token. rewrite Htok.
    now apply string_of_tag_name_not_empty. }
  destruct (NextToken (Some xmlDelimsWithEquals) q2) as [ok q3]; cbn [fst snd] in *.
  subst ok. cbn [negb].
  destruct (stands_at_cons _ _ _ Hq3) as (Hc3 & Hq4). rewrite Hc3.
  change (wchar_eqb ch_gt ch_gt) with true. cbn [negb].
  pose proof (NextChar_same_session_state q3) as S4.
  set (q4 := snd (NextChar q3)) in *.
  assert (Sall : same_session_state p q4).
  { apply (same_session_state_trans _ _ _ S0), (same_session_state_trans _ _ _ S1),
      (same_session_state_trans _ _ _ S2), (same_session_state_trans _ _ _ S3), S4. }
  exists q4. split; [exact Hq4|]. split; [exact Sall|].
  destruct Sall as (St & Fl & Er). rewrite St.
  destruct (m_Stack p) as [|x v] eqn:Hs.
  - cbn [vector_empty vector_back back_index]. unfold CurToken in *. rewrite Htok.
    reflexivity.
  - cbn [vector_empty].
    destruct (vector_back_nonempty (x :: v) eq_refl) as [e He]. rewrite He.
    cbn [require bind]. unfold CurToken in *. rewrite Htok.
    destruct (wcscmp_differs _ _); [reflexivity|].
    cbn [m_Stack set_Stack]. rewrite vector_erase_set_back. reflexivity.
Qed.

Lemma text_is_handed_out_verbatim_witness :
  let p := inside_to in
  let e := mkXmlElementBase (mkXmlBeginNode "to" [] 0%Z)
             (mkXmlValueNode "" "") (mkXmlEndNode "") in
  m_PriorWasEmptyTag p = false /\
  vector_back (m_Stack p) = Some e /\
  forallb iswspace [" "%char] = true /\
  iswspace "T"%char = false /\
  value_char "T"%char = true /\
  forallb value_char (list_ascii_of_string "ove ") = true /\
  value_char (first_char (list_ascii_of_string "</to>")) = false /\
  stands_at p ([" "%char] ++ "T"%char :: list_ascii_of_string "ove "
                 ++ list_ascii_of_string "</to>") /\
  exists p',
    NextNode (S 0) p
    = Ok (true,
          Some (Text (begin_m_Name (m_Begin e))
                  (string_of_list_ascii
                     ([" "%char] ++ "T"%char :: list_ascii_of_string "ove "))),
          p') /\
    stands_at p' (list_ascii_of_string "</to>") /\
    open_element_names p' = open_element_names p /\
    ErrorInfo p' = ErrorInfo p.
Proof.
  intros p e.
  assert (H1 : m_PriorWasEmptyTag p = false) by reflexivity.
  assert (H2 : vector_back (m_Stack p) = Some e) by reflexivity.
  assert (H3 : forallb iswspace [" "%char] = true) by reflexivity.
  assert (H4 : iswspace "T"%char = false) by reflexivity.
  assert (H5 : value_char "T"%char = true) by reflexivity.
  assert (H6 : forallb value_char (list_ascii_of_string "ove ") = true) by reflexivity.
  assert (H7 : value_char (first_char (list_ascii_of_string "</to>")) = false)
    by reflexivity.
  assert (H8 : stands_at p ([" "%char] ++ "T"%char :: list_ascii_of_string "ove "
                              ++ list_ascii_of_string "</to>")) by reflexivity.
  exact (conj H1 (conj H2 (conj H3 (conj H4 (conj H5 (conj H6 (conj H7 (conj H8
           (text_is_handed_out_verbatim [" "%char] "T"%char
              (list_ascii_of_string "ove ") (list_ascii_of_string "</to>") 0 p e
              H1 H2 H3 H4 H5 H6 H7 H8))))))))).
Defined.

Lemma text_outside_all_tags_is_an_error_witness :
  let p := snd (session " oops<a/>") in
  m_Stack p = [] /\
  forallb iswspace [" "%char] = true /\
  iswspace "o"%char = false /\
  value_char "o"%char = true /\
  forallb value_char (list_ascii_of_string "ops") = true /\
  value_char (first_char (list_ascii_of_string "<a/>")) = false /\
  stands_at p ([" "%char] ++ "o"%char :: list_ascii_of_string "ops"
                 ++ list_ascii_of_string "<a/>") /\
  exists p',
    NextNode (S 0) p = Ok (false, None, p') /\
    ErrorInfo p'
    = ("Unexpected data outside of all tags:  '"
         ++ string_of_list_ascii ([" "%char] ++ "o"%char :: list_ascii_of_string "ops")
         ++ "'")%string /\
    stands_at p' (list_ascii_of_string "<a/>") /\ m_Stack p' = [].
Proof.
  intros p.
  assert (H1 : m_Stack p = []) by reflexivity.
  assert (H2 : forallb iswspace [" "%char] = true) by reflexivity.
  assert (H3 : iswspace "o"%char = false) by reflexivity.
  assert (H4 : value_char "o"%char = true) by reflexivity.
  assert (H5 : forallb value_char (list_ascii_of_string "ops") = true) by reflexivity.
  assert (H6 : value_char (first_char (list_ascii_of_string "<a/>")) = false)
    by reflexivity.
  assert (H7 : stands_at p ([" "%char] ++ "o"%char :: list_ascii_of_string "ops"
                              ++ list_ascii_of_string "<a/>")) by reflexivity.
  exact (conj H1 (conj H2 (conj H3 (conj H4 (conj H5 (conj H6 (conj H7
           (text_outside_all_tags_is_an_error [" "%char] "o"%char
              (list_ascii_of_string "ops") (list_ascii_of_string "<a/>") 0 p
              H1 H2 H3 H4 H5 H6 H7)))))))).
Defined.

(** X12.  An end tag that names the innermost open element closes it: the
    call hands out the end node with that name, removes exactly that
    element from the stack, records no error, and leaves the cursor behind
    the '>'.  Any white space may stand before the '<' and between "</"
    and the name; between the name and the '>' blanks (space, TAB, CR,
    LF) may stand. *)
Theorem end_tag_closes_the_innermost_element :
  forall (lead ws1 name ws2 rest : list wchar_t) (fuel : nat)
         (p : XmlParser) (e : XmlElementBase),
    m_PriorWasEmptyTag p = false ->
    vector_back (m_Stack p) = Some e ->
    begin_m_Name (m_Begin e) = string_of_list_ascii name ->
    forallb iswspace lead = true ->
    forallb iswspace ws1 = true ->
    tag_name name = true ->
    forallb is_blank ws2 = true ->
    stands_at p (lead ++ ch_lt :: ch_slash :: ws1 ++ name ++ ws2 ++ ch_gt :: rest) ->
    exists p',
      NextNode (S fuel) p = Ok (true, Some (Close (string_of_list_ascii name)), p') /\
      m_Stack p = m_Stack p' ++ [e] /\
      stands_at p' rest /\
      m_PriorWasEmptyTag p' = false /\
      ErrorInfo p' = ErrorInfo p.
Proof.
  intros lead ws1 name ws2 rest fuel p e Hf Hb Hnm Hlead Hws1 Hname Hws2 Hp.
  assert (Hsyn : m_PriorWasEmptyTag p && negb (vector_empty (m_Stack p)) = false)
    by now rewrite Hf.
  destruct (NextNode_end_tag lead ws1 name ws2 rest fuel p Hsyn Hlead Hws1 Hname Hws2 Hp)
    as (q & Hq & (St & Fl & Er) & Hrun).
  rewrite Hb, Hnm in Hrun.
  destruct (tag_name_facts _ Hname) as (_ & _ & _ & _ & Hall).
  rewrite (wcscmp_differs_names _ _ Hall Hall), String.eqb_refl in Hrun.
  cbn [negb] in Hrun.
  eexists. split; [exact Hrun|]. cbn [m_Stack set_Stack].
  split; [exact (vector_back_inv _ _ Hb)|].
  split; [exact Hq|]. split; [cbn; congruence|].
  unfold ErrorInfo. cbn. exact Er.
Qed.

Lemma end_tag_closes_the_innermost_element_witness :
  let p := inside_to_after_text in
  let e := mkXmlElementBase (mkXmlBeginNode "to" [] 0%Z)
             (mkXmlValueNode "to" " Tove ") (mkXmlEndNode "") in
  m_PriorWasEmptyTag p = false /\
  vector_back (m_Stack p) = Some e /\
  begin_m_Name (m_Begin e) = string_of_list_ascii (list_ascii_of_string "to") /\
  forallb iswspace [] = true /\
  forallb iswspace [] = true /\
  tag_name (list_ascii_of_string "to") = true /\
  forallb is_blank [] = true /\
  stands_at p ([] ++ ch_lt :: ch_slash :: [] ++ list_ascii_of_string "to" ++ []
                 ++ ch_gt :: []) /\
  exists p',
    NextNode (S 0) p
    = Ok (true, Some (Close (string_of_list_ascii (list_ascii_of_string "to"))), p') /\
    m_Stack p = m_Stack p' ++ [e] /\
    stands_at p' [] /\
    m_PriorWasEmptyTag p' = false /\
    ErrorInfo p' = ErrorInfo p.
Proof.
  intros p e.
  assert (H1 : m_PriorWasEmptyTag p = false) by reflexivity.
  assert (H2 : vector_back (m_Stack p) = Some e) by reflexivity.
  assert (H3 : begin_m_Name (m_Begin e)
               = string_of_list_ascii (list_ascii_of_string "to")) by reflexivity.
  assert (H4 : forallb iswspace [] = true) by reflexivity.
  assert (H5 : tag_name (list_ascii_of_string "to") = true) by reflexivity.
  assert (H6 : forallb is_blank [] = true) by reflexivity.
  assert (H7 : stands_at p ([] ++ ch_lt :: ch_slash :: [] ++ list_ascii_of_string "to"
                              ++ [] ++ ch_gt :: [])) by reflexivity.
  exact (conj H1 (conj H2 (conj H3 (conj H4 (conj H4 (conj H5 (conj H6 (conj H7
           (end_tag_closes_the_innermost_element [] [] (list_ascii_of_string "to")
              [] [] 0 p e H1 H2 H3 H4 H4 H5 H6 H7))))))))).
Defined.

(** X13.  An end tag that names another element than the innermost open
    one is fatal: [NextNode] returns false with no node, the error text
    quotes the name found and the name expected, and nothing is removed
    from the stack, although the whole tag has been consumed. *)
Theorem mismatched_end_tag_is_an_error :
  forall (lead ws1 name ws2 rest expected : list wchar_t) (fuel : nat)
         (p : XmlParser) (e : XmlElementBase),
    m_PriorWasEmptyTag p = false ->
    vector_back (m_Stack p) = Some e ->
    begin_m_Name (m_Begin e) = string_of_list_ascii expected ->
    forallb name_char expected = true ->
    name <> expected ->
    forallb iswspace lead = true ->
    forallb iswspace ws1 = true ->
    tag_name name = true ->
    forallb is_blank ws2 = true ->
    stands_at p (lead ++ ch_lt :: ch_slash :: ws1 ++ name ++ ws2 ++ ch_gt :: rest) ->
    exists p',
      NextNode (S fuel) p = Ok (false, None, p') /\
      ErrorInfo p'
      = ("Mismatched end tag, found '" ++ string_of_list_ascii name
           ++ "', expected '" ++ string_of_list_ascii expected ++ "'")%string /\
      m_Stack p' = m_Stack p /\
      stands_at p' rest.
Proof.
  intros lead ws1 name ws2 rest expected fuel p e Hf Hb Hnm Hexp Hne
         Hlead Hws1 Hname Hws2 Hp.
  assert (Hsyn : m_PriorWasEmptyTag p && negb (vector_empty (m_Stack p)) = false)
    by now rewrite Hf.
  destruct (NextNode_end_tag lead ws1 name ws2 rest fuel p Hsyn Hlead Hws1 Hname Hws2 Hp)
    as (q & Hq & (St & Fl & Er) & Hrun).
  rewrite Hb, Hnm in Hrun.
  destruct (tag_name_facts _ Hname) as (_ & _ & _ & _ & Hall).
  rewrite (wcscmp_differs_names _ _ Hall Hexp) in Hrun.
  assert (Hd : String.eqb (string_of_list_ascii name) (string_of_list_ascii expected)
               = false).
  { apply String.eqb_neq. intros E. apply Hne. now apply string_of_list_ascii_inj. }
  rewrite Hd in Hrun. cbn [negb] in Hrun.
  eexists. split; [exact Hrun|]. repeat split; auto.
Qed.

Lemma mismatched_end_tag_is_an_error_witness :
  let p := mismatch_before in
  let e := mkXmlElementBase (mkXmlBeginNode "a" [] 0%Z)
             (mkXmlValueNode "" "") (mkXmlEndNode "") in
  m_PriorWasEmptyTag p = false /\
  vector_back (m_Stack p) = Some e /\
  begin_m_Name (m_Begin e) = string_of_list_ascii ["a"%char] /\
  forallb name_char ["a"%char] = true /\
  ["b"%char] <> ["a"%char] /\
  forallb iswspace [] = true /\
  forallb iswspace [] = true /\
  tag_name ["b"%char] = true /\
  forallb is_blank [] = true /\
  stands_at p ([] ++ ch_lt :: ch_slash :: [] ++ ["b"%char] ++ []
                 ++ ch_gt :: list_ascii_of_string "</a>") /\
  exists p',
    NextNode (S 0) p = Ok (false, None, p') /\
    ErrorInfo p'
    = ("Mismatched end tag, found '" ++ string_of_list_ascii ["b"%char]
         ++ "', expected '" ++ string_of_list_ascii ["a"%char] ++ "'")%string /\
    m_Stack p' = m_Stack p /\
    stands_at p' (list_ascii_of_string "</a>").
Proof.
  intros p e.
  assert (H1 : m_PriorWasEmptyTag p = false) by reflexivity.
  assert (H2 : vector_back (m_Stack p) = Some e) by reflexivity.
  assert (H3 : begin_m_Name (m_Begin e) = string_of_list_ascii ["a"%char])
    by reflexivity.
  assert (H4 : forallb name_char ["a"%char] = true) by reflexivity.
  assert (H5 : ["b"%char] <> ["a"%char]) by discriminate.
  assert (H6 : forallb iswspace [] = true) by reflexivity.
  assert (H7 : tag_name ["b"%char] = true) by reflexivity.
  assert (H8 : forallb is_blank [] = true) by reflexivity.
  assert (H9 : stands_at p ([] ++ ch_lt :: ch_slash :: [] ++ ["b"%char] ++ []
                              ++ ch_gt :: list_ascii_of_string "</a>"))
    by reflexivity.
  exact (conj H1 (conj H2 (conj H3 (conj H4 (conj H5 (conj H6 (conj H6 (conj H7
           (conj H8 (conj H9
           (mismatched_end_tag_is_an_error [] [] ["b"%char] []
              (list_ascii_of_string "</a>") ["a"%char] 0 p e
              H1 H2 H3 H4 H5 H6 H6 H7 H8 H9))))))))))).
Defined.

(** X14.  An end tag met while no element is open is fatal: [NextNode]
    returns false with no node and the error text names the tag; the tag
    has been consumed and the stack is still empty. *)
Theorem end_tag_outside_all_tags_is_an_error :
  forall (lead ws1 name ws2 rest : list wchar_t) (fuel : nat) (p : XmlParser),
    m_Stack p = [] ->
    forallb iswspace lead = true ->
    forallb iswspace ws1 = true ->
    tag_name name = true ->
    forallb is_blank ws2 = true ->
    stands_at p (lead ++ ch_lt :: ch_slash :: ws1 ++ name ++ ws2 ++ ch_gt :: rest) ->
    exists p',
      NextNode (S fuel) p = Ok (false, None, p') /\
      ErrorInfo p'
      = ("Unexpected end tag outside of all tags:  "
           ++ string_of_list_ascii name)%string /\
      m_Stack p' = [] /\
      stands_at p' rest.
Proof.
  intros lead ws1 name ws2 rest fuel p Hs Hlead Hws1 Hname Hws2 Hp.
  assert (Hsyn : m_PriorWasEmptyTag p && negb (vector_empty (m_Stack p)) = false)
    by (rewrite Hs; apply andb_false_r).
  destruct (NextNode_end_tag lead ws1 name ws2 rest fuel p Hsyn Hlead Hws1 Hname Hws2 Hp)
    as (q & Hq & (St & Fl & Er) & Hrun).
  rewrite Hs in Hrun. cbn [vector_back back_index] in Hrun.
  eexists. split; [exact Hrun|]. repeat split; auto.
  cbn [m_Stack set_ErrorInfo]. congruence.
Qed.

Lemma end_tag_outside_all_tags_is_an_error_witness :
  let p := snd (session " </ a >x") in
  m_Stack p = [] /\
  forallb iswspace [" "%char] = true /\
  forallb iswspace [" "%char] = true /\
  tag_name ["a"%char] = true /\
  forallb is_blank [" "%char] = true /\
  stands_at p ([" "%char] ++ ch_lt :: ch_slash :: [" "%char] ++ ["a"%char]
                 ++ [" "%char] ++ ch_gt :: ["x"%char]) /\
  exists p',
    NextNode (S 0) p = Ok (false, None, p') /\
    ErrorInfo p'
    = ("Unexpected end tag outside of all tags:  "
         ++ string_of_list_ascii ["a"%char])%string /\
    m_Stack p' = [] /\
    stands_at p' ["x"%char].
Proof.
  intros p.
  assert (H1 : m_Stack p = []) by reflexivity.
  assert (H2 : forallb iswspace [" "%char] = true) by reflexivity.
  assert (H3 : tag_name ["a"%char] = true) by reflexivity.
  assert (H4 : forallb is_blank [" "%char] = true) by reflexivity.
  assert (H5 : stands_at p ([" "%char] ++ ch_lt :: ch_slash :: [" "%char]
                              ++ ["a"%char] ++ [" "%char] ++ ch_gt :: ["x"%char]))
    by reflexivity.
  exact (conj H1 (conj H2 (conj H2 (conj H3 (conj H4 (conj H5
           (end_tag_outside_all_tags_is_an_error [" "%char] [" "%char] ["a"%char]
              [" "%char] ["x"%char] 0 p H1 H2 H2 H3 H4 H5))))))).
Defined.

(** ** What a call may change *)

(** Every member function that [NextNode] runs changes the parser only
    through [NextChar] and through assignments to the token, the error
    text, the empty-tag flag and the stack.  A relation that is reflexive
    and transitive and holds across each of these therefore holds across
    [NextNode]. *)
Section Footprint.

Variable R : XmlParser -> XmlParser -> Prop.
Hypothesis R_refl : forall p, R p p.
Hypothesis R_trans : forall p q r, R p q -> R q r -> R p r.
Hypothesis R_NextChar : forall p, R p (snd (NextChar p)).
Hypothesis R_CurToken : forall t p, R p (set_CurToken t p).
Hypothesis R_ErrorInfo : forall e p, R p (set_ErrorInfo e p).
Hypothesis R_PriorWasEmptyTag : forall b p, R p (set_PriorWasEmptyTag b p).
Hypothesis R_Stack : forall v p, R p (set_Stack v p).

Lemma scan_footprint (n : nat) (cond : wchar_t -> bool) (p : XmlParser) (text : string) :
  R p (fst (scan n cond p text)).
Proof.
  revert p text. induction n as [|n IH]; intros p text; cbn [scan fst]; [apply R_refl|].
  destruct (cond (CurChar p)); cbn [fst]; [|apply R_refl].
  eapply R_trans; [apply R_NextChar | apply IH].
Qed.

Lemma accumulate_token_footprint (cond : wchar_t -> bool) (p : XmlParser) :
  R p (accumulate_token cond p).
Proof.
  unfold accumulate_token.
  pose proof (scan_footprint (loop_budget p) cond p (m_CurToken p)) as H.
  destruct (scan (loop_budget p) cond p (m_CurToken p)) as [q tok]; cbn [fst] in H.
  eapply R_trans; [exact H | apply R_CurToken].
Qed.

Ltac footprint :=
  repeat first
    [ apply R_refl
    | assumption
    | match goal with
      | |- R ?p (snd (NextChar ?q)) => apply (R_trans p q); [|apply R_NextChar]
      | |- R ?p (skip_space ?q) => apply (R_trans p q); [|apply scan_footprint]
      | |- R ?p (accumulate_token ?c ?q) =>
          apply (R_trans p q); [|apply accumulate_token_footprint]
      | |- R ?p (set_CurToken ?t ?q) => apply (R_trans p q); [|apply R_CurToken]
      | |- R ?p (set_ErrorInfo ?t ?q) => apply (R_trans p q); [|apply R_ErrorInfo]
      | |- R ?p (set_PriorWasEmptyTag ?t ?q) =>
          apply (R_trans p q); [|apply R_PriorWasEmptyTag]
      | |- R ?p (set_Stack ?t ?q) => apply (R_trans p q); [|apply R_Stack]
      | |- R ?p (if ?b then _ else _) => destruct b
      end ].

Lemma NextToken_footprint (delims : option string) (p : XmlParser) :
  R p (snd (NextToken delims p)).
Proof.
  unfold NextToken.
  match goal with
  | |- R _ (snd (if ?b then _ else _)) => destruct b
  end; cbn [snd]; footprint.
Qed.

Lemma ParseAttribs_footprint (fuel : nat) (p q : XmlParser)
  (attribs attribs' : list XmlAttribute) :
  ParseAttribs fuel p attribs = Ok (q, attribs') -> R p q.
Proof.
  revert p attribs. induction fuel as [|fuel IH]; intros p attribs; cbn; [discriminate|].
  match goal with |- context [if ?b then _ else _] => destruct b end.
  - match goal with |- context [if ?b then _ else _] => destruct b end;
      intros H; apply IH in H; (eapply R_trans; [|exact H]).
    + apply (R_trans _ (snd (NextToken (Some xmlDelimsWithEquals) p)));
        [apply NextToken_footprint|].
      eapply R_trans; [apply R_NextChar | apply NextToken_footprint].
    + apply NextToken_footprint.
  - intros H; injection H as <- _. apply R_refl.
Qed.

Lemma Eat_footprint (n : nat) (closer : wchar_t) (p : XmlParser) :
  R p (snd (Eat n closer p)).
Proof.
  revert p. induction n as [|n IH]; intros p; cbn [Eat snd]; [apply R_refl|].
  destruct (wchar_eqb (CurChar p) closer).
  - apply (R_trans _ _ _ (R_NextChar p)).
    destruct (wchar_eqb (CurChar (snd (NextChar p))) closer); [|apply IH].
    apply (R_trans _ _ _ (R_NextChar _)).
    destruct (wchar_eqb (CurChar (snd (NextChar (snd (NextChar p))))) ch_gt);
      [|apply IH].
    pose proof (R_NextChar (snd (NextChar (snd (NextChar p))))) as Hs.
    destruct (NextChar (snd (NextChar (snd (NextChar p))))) as [[|] q]; cbn in *;
      footprint.
  - pose proof (R_NextChar p) as Hs.
    pose proof (IH (snd (NextChar p))) as IH'.
    destruct (NextChar p) as [[|] q]; cbn in *.
    + eapply R_trans; eassumption.
    + footprint.
Qed.

Lemma ParseTagValueNode_footprint (prefix : string) (p : XmlParser)
  (b : bool) (node : option XmlNodeBase) (p' : XmlParser) :
  ParseTagValueNode prefix p = Ok (b, node, p') -> R p p'.
Proof.
  unfold ParseTagValueNode, failure, success.
  match goal with
  | |- context [scan ?n ?c p prefix] =>
      pose proof (scan_footprint n c p prefix) as H0;
      destruct (scan n c p prefix) as [q token]
  end.
  cbn [fst] in H0.
  destruct (vector_empty (m_Stack q)).
  - destruct (negb (IsWhiteSpace token)); intros H; injection H as _ _ <-; footprint.
  - destruct (vector_back (m_Stack q)); cbn [require bind]; [|discriminate].
    intros H; injection H as _ _ <-. footprint.
Qed.

Lemma ParseEndTagNode_footprint (p : XmlParser)
  (b : bool) (node : option XmlNodeBase) (p' : XmlParser) :
  ParseEndTagNode p = Ok (b, node, p') -> R p p'.
Proof.
  unfold ParseEndTagNode, failure, success.
  pose proof (R_trans _ _ _ (R_NextChar p)
                (NextToken_footprint (Some xmlDelimsWithEquals) (snd (NextChar p)))) as H0.
  destruct (NextToken (Some xmlDelimsWithEquals) (snd (NextChar p))) as [ok q].
  cbn [snd] in H0.
  destruct (negb ok); [intros H; injection H as _ _ <-; footprint|].
  destruct (negb (wchar_eqb (CurChar q) ch_gt));
    [intros H; injection H as _ _ <-; footprint|].
  destruct (vector_empty (m_Stack (snd (NextChar q))));
    [intros H; injection H as _ _ <-; footprint|].
  destruct (vector_back (m_Stack (snd (NextChar q)))) as [celm|];
    cbn [require bind]; [|discriminate].
  destruct (wcscmp_differs _ _); [intros H; injection H as _ _ <-; footprint|].
  cbn [m_Stack set_Stack].
  destruct (vector_erase_back _); cbn [require bind]; [|discriminate].
  intros H; injection H as _ _ <-. footprint.
Qed.

Lemma ParseBeginTagNode_footprint (fuel : nat) (p : XmlParser)
  (b : bool) (node : option XmlNodeBase) (p' : XmlParser) :
  ParseBeginTagNode fuel p = Ok (b, node, p') -> R p p'.
Proof.
  unfold ParseBeginTagNode, failure, success. intros H.
  set (p1 := if wchar_eqb (CurChar p) ch_question then snd (NextChar p) else p) in *.
  assert (S1 : R p p1) by (unfold p1; footprint).
  pose proof (NextToken_footprint (Some xmlDelimsWithSlash) p1) as S2.
  destruct (NextToken _ p1) as [ok q]; cbn [snd] in S2.
  assert (S12 : R p q) by (eapply R_trans; eassumption).
  destruct (negb ok); [injection H as _ _ <-; footprint|].
  destruct (ParseAttribs fuel q []) as [[q' attribs]| |] eqn:Ha; cbn [bind] in H;
    try discriminate.
  apply ParseAttribs_footprint in Ha.
  assert (S3 : R p q') by (eapply R_trans; eassumption).
  destruct (wchar_eqb (CurChar p) ch_question) eqn:HQ; cbn [andb] in H.
  - destruct (negb (wchar_eqb (CurChar q') ch_question));
      [injection H as _ _ <-; footprint|].
    set (q1 := snd (NextChar (set_PriorWasEmptyTag true q'))) in *.
    assert (S4 : R p q1) by (unfold q1; footprint).
    destruct (wchar_eqb (CurChar q1) ch_slash).
    + set (q2 := snd (NextChar (set_PriorWasEmptyTag true q1))) in *.
      assert (S5 : R p q2) by (unfold q2; footprint).
      destruct (negb (wchar_eqb (CurChar q2) ch_gt));
        injection H as _ _ <-; footprint.
    + destruct (negb (wchar_eqb (CurChar q1) ch_gt));
        injection H as _ _ <-; footprint.
  - destruct (wchar_eqb (CurChar q') ch_slash).
    + set (q2 := snd (NextChar (set_PriorWasEmptyTag true q'))) in *.
      assert (S5 : R p q2) by (unfold q2; footprint).
      destruct (negb (wchar_eqb (CurChar q2) ch_gt));
        injection H as _ _ <-; footprint.
    + destruct (negb (wchar_eqb (CurChar q') ch_gt));
        injection H as _ _ <-; footprint.
Qed.

Lemma NextNode_footprint (fuel : nat) (p : XmlParser)
  (b : bool) (node : option XmlNodeBase) (p' : XmlParser) :
  NextNode fuel p = Ok (b, node, p') -> R p p'.
Proof.
  revert p b node p'.
  induction fuel as [|fuel IH]; intros p b node p' H; cbn [NextNode] in H; [discriminate|].
  destruct (m_PriorWasEmptyTag p && negb (vector_empty (m_Stack p))).
  - cbn [m_Stack set_PriorWasEmptyTag] in H.
    destruct (vector_back (m_Stack p)); cbn [require bind] in H; [|discriminate].
    destruct (vector_erase_back (m_Stack p)); cbn [require bind] in H; [|discriminate].
    unfold success in H. injection H as _ _ <-. footprint.
  - pose proof (scan_footprint (loop_budget p) iswspace p "") as S0.
    destruct (scan (loop_budget p) iswspace p "") as [q token]; cbn [fst] in S0.
    destruct (wchar_eqb (CurChar q) ch_lt).
    + pose proof (R_trans _ _ _ S0 (R_NextChar q)) as S1.
      destruct (wchar_eqb (CurChar (snd (NextChar q))) ch_slash).
      * eapply R_trans; [exact S1 | eapply ParseEndTagNode_footprint; exact H].
      * destruct (wchar_eqb (CurChar (snd (NextChar q))) ch_bang).
        -- unfold ParseBangTag, failure in H.
           match type of H with
           | (if ?c then _ else _) = _ => destruct c
           end.
           ++ apply IH in H. eapply R_trans; [|exact H].
              unfold EatMarkedSection.
              eapply R_trans; [|apply Eat_footprint]. footprint.
           ++ match type of H with
              | (if ?c then _ else _) = _ => destruct c
              end.
              ** apply IH in H. eapply R_trans; [|exact H].
                 unfold EatComment.
                 eapply R_trans; [|apply Eat_footprint]. footprint.
              ** injection H as _ _ <-. footprint.
        -- eapply R_trans; [exact S1 | eapply ParseBeginTagNode_footprint; exact H].
    + eapply R_trans; [exact S0 | eapply ParseTagValueNode_footprint; exact H].
Qed.

End Footprint.

(** ** The position *)

Lemma reads_on_refl (p : XmlParser) : reads_on p p.
Proof.
  split; [reflexivity|]. exists 0. cbn [skipn]. repeat split; lia.
Qed.

Lemma reads_on_trans (p q r : XmlParser) : reads_on p q -> reads_on q r -> reads_on p r.
Proof.
  intros (S1 & k1 & L1 & U1 & P1) (S2 & k2 & L2 & U2 & P2).
  split; [congruence|]. exists (k1 + k2).
  rewrite U1, length_skipn in L2. rewrite U1, skipn_skipn in U2.
  repeat split; [lia | now rewrite Nat.add_comm | lia].
Qed.

Lemma reads_on_same_cursor (p q : XmlParser) :
  m_DataSize q = m_DataSize p -> m_Reader q = m_Reader p -> m_DataPos q = m_DataPos p ->
  reads_on p q.
Proof.
  intros H1 H2 H3. split; [exact H1|]. exists 0. unfold upcoming. rewrite H2, H3.
  cbn [skipn]. repeat split; lia.
Qed.

Lemma NextChar_reads_on (p : XmlParser) : reads_on p (snd (NextChar p)).
Proof.
  destruct (upcoming p) as [|c l] eqn:Hup.
  - rewrite (NextChar_upcoming_nil _ Hup). cbn [snd].
    split; [reflexivity|]. exists 0.
    unfold upcoming in *. cbn [m_Reader set_Reader set_CurChar m_DataPos].
    rewrite Hup. cbn. repeat split; lia.
  - destruct (NextChar_upcoming_cons _ _ _ Hup) as (_ & _ & Hl & Hpos).
    split.
    + destruct (NextChar_cases p) as [(r & d & _ & _ & _ & ->)|(_ & _ & ->)];
        reflexivity.
    + exists 1. rewrite Hup, Hl, Hpos. cbn. repeat split; lia.
Qed.

Lemma NextNode_reads_on (fuel : nat) (p : XmlParser)
  (b : bool) (node : option XmlNodeBase) (p' : XmlParser) :
  NextNode fuel p = Ok (b, node, p') -> reads_on p p'.
Proof.
  apply (NextNode_footprint reads_on reads_on_refl reads_on_trans NextChar_reads_on);
    intros; apply reads_on_same_cursor; reflexivity.
Qed.


Lemma ascending_between_bounds (lo hi : nat) (l : list nat) :
  ascending_between lo hi l -> lo <= hi.
Proof.
  revert lo. induction l as [|x l IH]; intros lo; cbn; [auto|].
  intros (H1 & H2). specialize (IH _ H2). lia.
Qed.






(** ** Whole elements *)

Lemma NextNodes_app (fuel : nat) (ns1 ns2 : list XmlNodeBase) (p q r : XmlParser) :
  NextNodes fuel ns1 p q -> NextNodes fuel ns2 q r -> NextNodes fuel (ns1 ++ ns2) p r.
Proof.
  revert p. induction ns1 as [|n ns1 IH]; intros p; cbn [NextNodes app].
  - now intros ->.
  - intros (x & H1 & H2) H3. exists x. split; [exact H1|]. now apply IH.
Qed.

Lemma NextNodes_reads_on (fuel : nat) (ns : list XmlNodeBase) (p q : XmlParser) :
  NextNodes fuel ns p q -> reads_on p q.
Proof.
  revert p. induction ns as [|n ns IH]; intros p; cbn [NextNodes].
  - intros ->. apply reads_on_refl.
  - intros (x & H1 & H2). eapply reads_on_trans; [|apply IH; exact H2].
    eapply NextNode_reads_on; exact H1.
Qed.

Lemma stands_at_set_Stack (v : list XmlElementBase) (p : XmlParser) (l : list wchar_t) :
  stands_at p l -> stands_at (set_Stack v p) l.
Proof. unfold stands_at, input_at. auto. Qed.

(** Where the parser stands tells how far it has read. *)
Lemma position_after (p p' : XmlParser) (l rest : list wchar_t) :
  reads_on p p' -> rest <> [] ->
  stands_at p (l ++ rest) -> stands_at p' rest ->
  m_DataPos p' = m_DataPos p + List.length l.
Proof.
  intros (_ & k & Hk & Hu & ->) Hne H1 H2.
  destruct rest as [|c rest]; [congruence|].
  unfold stands_at in H1, H2. cbn [input_after] in H2.
  apply input_at_upcoming in H2.
  assert (Hup : List.length (upcoming p) = List.length l + List.length rest).
  { destruct l as [|x l]; cbn [app input_after] in H1;
      apply input_at_upcoming in H1; rewrite H1; [reflexivity|].
    rewrite length_app. cbn. lia. }
  rewrite H2 in Hu. apply (f_equal (@List.length _)) in Hu.
  rewrite length_skipn in Hu. lia.
Qed.

Lemma split_gap (gap : list wchar_t) :
  forallb iswspace gap = false ->
  forallb value_char gap = true ->
  exists lead c more,
    gap = lead ++ c :: more /\
    forallb iswspace lead = true /\ iswspace c = false /\
    value_char c = true /\ forallb value_char more = true.
Proof.
  induction gap as [|a gap IH]; cbn [forallb]; [discriminate|].
  intros Hw Hv. apply andb_prop in Hv as (Ha & Hv).
  destruct (iswspace a) eqn:Hwa; cbn [andb] in Hw.
  - destruct (IH Hw Hv) as (lead & c & more & -> & H1 & H2 & H3 & H4).
    exists (a :: lead), c, more. cbn [app forallb]. rewrite Hwa. auto.
  - exists [], a, gap. cbn. auto.
Qed.

Lemma tag_ok_facts (name ws0 : list wchar_t) (attrs : list AttrText) :
  tag_ok name ws0 attrs = true ->
  tag_name name = true /\ forallb is_blank ws0 = true /\
  (attrs <> [] -> ws0 <> []) /\ forallb attr_ok attrs = true.
Proof.
  unfold tag_ok. intros H.
  apply andb_prop in H as (H & H4). apply andb_prop in H as (H & H3).
  apply andb_prop in H as (H1 & H2).
  repeat split; auto.
  destruct attrs; [congruence|]. destruct ws0; [discriminate|]. discriminate.
Qed.

(** The text before a tag, inside an element. *)
Lemma gap_run (gap rest : list wchar_t) (fuel index : nat) (p : XmlParser)
  (below : list XmlElementBase) (e : XmlElementBase) :
  m_PriorWasEmptyTag p = false ->
  m_Stack p = below ++ [e] ->
  m_DataPos p = S index ->
  forallb value_char gap = true ->
  stands_at p (gap ++ ch_lt :: rest) ->
  exists p' lead' e' index',
    forallb iswspace lead' = true /\
    NextNodes (S fuel) (gap_events (begin_m_Name (m_Begin e)) gap) p p' /\
    stands_at p' (lead' ++ ch_lt :: rest) /\
    m_Stack p' = below ++ [e'] /\ m_Begin e' = m_Begin e /\
    m_PriorWasEmptyTag p' = false /\ m_ErrorInfo p' = m_ErrorInfo p /\
    m_DataPos p' = S index' /\ index' + List.length lead' = index + List.length gap.
Proof.
  intros Hf Hs Hpos Hv Hp. unfold gap_events.
  destruct (forallb iswspace gap) eqn:Hw.
  - exists p, gap, e, index. cbn [NextNodes]. repeat split; auto.
  - destruct (split_gap _ Hw Hv) as (lead & c & more & -> & H1 & H2 & H3 & H4).
    assert (Hsyn : m_PriorWasEmptyTag p && negb (vector_empty (m_Stack p)) = false)
      by now rewrite Hf.
    assert (Hp' : stands_at p (lead ++ c :: more ++ ch_lt :: rest)).
    { rewrite <- app_assoc in Hp. exact Hp. }
    destruct (NextNode_value lead c more (ch_lt :: rest) fuel p Hsyn H1 H2 H3 H4
                eq_refl Hp') as (Hq & Hrun).
    rewrite Hs, vector_back_snoc in Hrun.
    destruct (advance_frame (List.length (lead ++ c :: more)) p) as (_ & Fl & Er).
    eexists _, [], _, (index + List.length (lead ++ c :: more)).
    split; [reflexivity|]. split; [eexists; split; [exact Hrun|reflexivity]|].
    split; [apply stands_at_set_Stack; exact Hq|].
    cbn [m_Stack set_Stack m_PriorWasEmptyTag m_ErrorInfo m_DataPos List.length].
    unfold vector_set_back. rewrite removelast_last.
    split; [reflexivity|]. split; [reflexivity|].
    split; [congruence|]. split; [exact Er|].
    split; [|lia].
    replace (lead ++ (c :: more) ++ ch_lt :: rest)
      with ((lead ++ c :: more) ++ ch_lt :: rest) in Hp
      by (rewrite <- app_assoc; reflexivity).
    rewrite (stands_at_advance_pos _ _ _ _ Hp). lia.
Qed.

(** A matching end tag. *)
Lemma NextNode_closes (lead ws1 name ws2 rest : list wchar_t) (fuel : nat)
  (p : XmlParser) (below : list XmlElementBase) (e : XmlElementBase) :
  m_PriorWasEmptyTag p = false ->
  m_Stack p = below ++ [e] ->
  begin_m_Name (m_Begin e) = string_of_list_ascii name ->
  forallb iswspace lead = true ->
  forallb iswspace ws1 = true ->
  tag_name name = true ->
  forallb is_blank ws2 = true ->
  stands_at p (lead ++ ch_lt :: ch_slash :: ws1 ++ name ++ ws2 ++ ch_gt :: rest) ->
  exists p',
    NextNode (S fuel) p = Ok (true, Some (Close (string_of_list_ascii name)), p') /\
    stands_at p' rest /\ m_Stack p' = below /\
    m_PriorWasEmptyTag p' = false /\ m_ErrorInfo p' = m_ErrorInfo p.
Proof.
  intros Hf Hs Hnm Hlead Hws1 Hname Hws2 Hp.
  assert (Hsyn : m_PriorWasEmptyTag p && negb (vector_empty (m_Stack p)) = false)
    by now rewrite Hf.
  destruct (NextNode_end_tag lead ws1 name ws2 rest fuel p Hsyn Hlead Hws1 Hname Hws2 Hp)
    as (q & Hq & (St & Fl & Er) & Hrun).
  rewrite Hs, vector_back_snoc, Hnm in Hrun.
  destruct (tag_name_facts _ Hname) as (_ & _ & _ & _ & Hall).
  rewrite (wcscmp_differs_names _ _ Hall Hall), String.eqb_refl in Hrun.
  cbn [negb] in Hrun.
  eexists. split; [exact Hrun|]. cbn [m_Stack set_Stack m_PriorWasEmptyTag m_ErrorInfo].
  rewrite removelast_last.
  split; [do 2 apply stands_at_set_Stack; exact Hq|]. repeat split; congruence.
Qed.

(** A tag without a separate end tag takes two calls. *)
Lemma NextNodes_leaf (shape : TagShape) (lead name ws0 : list wchar_t)
  (attrs : list AttrText) (rest : list wchar_t) (fuel index : nat) (p : XmlParser) :
  tag_is_empty shape = true ->
  List.length attrs + 2 <= fuel ->
  m_PriorWasEmptyTag p = false ->
  m_DataPos p = S index ->
  forallb iswspace lead = true ->
  tag_ok name ws0 attrs = true ->
  stands_at p (lead ++ ch_lt :: tag_opener shape ++ name ++ ws0 ++ render_attrs attrs
                 ++ tag_closer shape ++ rest) ->
  exists p',
    NextNodes fuel
      [Open (string_of_list_ascii name) (offset_at (index + List.length lead))
         (map attr_of attrs);
       Close (string_of_list_ascii name)] p p' /\
    stands_at p' rest /\ m_Stack p' = m_Stack p /\
    m_PriorWasEmptyTag p' = false /\ m_ErrorInfo p' = m_ErrorInfo p.
Proof.
  intros Hempty Hfuel Hf Hpos Hlead Hok Hp.
  destruct (tag_ok_facts _ _ _ Hok) as (Hname & Hws0 & Hsep & Hattrs).
  assert (Hsyn : m_PriorWasEmptyTag p && negb (vector_empty (m_Stack p)) = false)
    by now rewrite Hf.
  destruct (NextNode_begin_tag shape lead name ws0 attrs rest
              (fuel - List.length attrs - 2) p Hsyn Hlead Hname Hws0 Hsep Hattrs Hp)
    as (p1 & Hrun & Hp1 & St & Fl & Er).
  replace (S (List.length attrs + S (fuel - List.length attrs - 2))) with fuel
    in Hrun by lia.
  rewrite Hf, Hempty in Fl. cbn [orb] in Fl.
  destruct fuel as [|fuel]; [lia|].
  pose proof (NextNode_synthetic_close fuel p1 _ _ Fl St) as Hclose.
  eexists. split.
  - eexists. split.
    + rewrite Hrun. unfold Open, element_of, offset_at. cbn [m_Begin].
      rewrite Hpos.
    replace (S index + List.length lead + 1) with (index + List.length lead + 2) by lia.
    reflexivity.
    + eexists. split; [|reflexivity]. rewrite Hclose.
      unfold element_of, Close. cbn [m_End]. now rewrite Hempty.
  - cbn [m_Stack set_Stack m_PriorWasEmptyTag set_PriorWasEmptyTag m_ErrorInfo].
    split; [apply stands_at_set_Stack, stands_at_set_PriorWasEmptyTag; exact Hp1|].
    repeat split; auto.
Qed.

(** A begin tag that opens an element. *)
Lemma NextNode_opens (lead name ws0 : list wchar_t)
  (attrs : list AttrText) (rest : list wchar_t) (fuel index : nat) (p : XmlParser) :
  List.length attrs + 2 <= fuel ->
  m_PriorWasEmptyTag p = false ->
  m_DataPos p = S index ->
  forallb iswspace lead = true ->
  tag_ok name ws0 attrs = true ->
  stands_at p (lead ++ ch_lt :: tag_opener PlainTag ++ name ++ ws0 ++ render_attrs attrs
                 ++ tag_closer PlainTag ++ rest) ->
  exists p' e,
    NextNode fuel p
    = Ok (true,
          Some (Open (string_of_list_ascii name) (offset_at (index + List.length lead))
                  (map attr_of attrs)), p') /\
    stands_at p' rest /\ m_Stack p' = m_Stack p ++ [e] /\
    begin_m_Name (m_Begin e) = string_of_list_ascii name /\
    m_PriorWasEmptyTag p' = false /\ m_ErrorInfo p' = m_ErrorInfo p.
Proof.
  intros Hfuel Hf Hpos Hlead Hok Hp.
  destruct (tag_ok_facts _ _ _ Hok) as (Hname & Hws0 & Hsep & Hattrs).
  assert (Hsyn : m_PriorWasEmptyTag p && negb (vector_empty (m_Stack p)) = false)
    by now rewrite Hf.
  destruct (NextNode_begin_tag PlainTag lead name ws0 attrs rest
              (fuel - List.length attrs - 2) p Hsyn Hlead Hname Hws0 Hsep Hattrs Hp)
    as (p1 & Hrun & Hp1 & St & Fl & Er).
  replace (S (List.length attrs + S (fuel - List.length attrs - 2))) with fuel
    in Hrun by lia.
  rewrite Hf in Fl. cbn [orb tag_is_empty] in Fl.
  eexists _, _. split.
  - rewrite Hrun. unfold Open, element_of, offset_at. cbn [m_Begin].
    rewrite Hpos.
    replace (S index + List.length lead + 1) with (index + List.length lead + 2) by lia.
    reflexivity.
  - split; [exact Hp1|]. split; [exact St|]. repeat split; auto.
Qed.

Lemma render_starts_with_lt (e : Element) : render e = ch_lt :: tl (render e).
Proof. destruct e; reflexivity. Qed.

Lemma render_branch_along (lead name ws0 : list wchar_t) (attrs : list AttrText)
  (body : Content) (ws1 ws2 rest : list wchar_t) :
  lead ++ render (Branch name ws0 attrs body ws1 ws2) ++ rest
  = lead ++ ch_lt :: tag_opener PlainTag ++ name ++ ws0 ++ render_attrs attrs
      ++ tag_closer PlainTag
      ++ (render_content body
            ++ ch_lt :: ch_slash :: ws1 ++ name ++ ws2 ++ ch_gt :: rest).
Proof.
  cbn [render tag_opener tag_closer app]. unfold end_tag.
  f_equal. cbn [app]. f_equal.
  repeat (rewrite <- app_assoc; cbn [app]). reflexivity.
Qed.

Lemma elements_run (fuel : nat) :
  (forall e, element_ok e = true -> most_attributes e + 2 <= fuel ->
             element_runs fuel e) /\
  (forall b, content_ok b = true -> most_attributes_in b + 2 <= fuel ->
             content_runs fuel b).
Proof.
  apply Element_Content_ind.
  - (* Leaf *)
    intros shape name ws0 attrs Hok Hfuel lead rest index p Hf Hpos Hlead Hp.
    cbn [element_ok] in Hok. apply andb_prop in Hok as (Hempty & Hok).
    cbn [most_attributes] in Hfuel. cbn [events].
    apply (NextNodes_leaf shape lead name ws0 attrs rest fuel index p); auto.
    cbn [render app] in Hp. repeat (rewrite <- app_assoc in Hp; cbn [app] in Hp).
    exact Hp.
  - (* Branch *)
    intros name ws0 attrs body IHbody ws1 ws2 Hok Hfuel lead rest index p
           Hf Hpos Hlead Hp.
    cbn [element_ok] in Hok.
    apply andb_prop in Hok as (Hok & Hws2). apply andb_prop in Hok as (Hok & Hws1).
    apply andb_prop in Hok as (Htag & Hbody).
    cbn [most_attributes] in Hfuel.
    rewrite render_branch_along in Hp.
    destruct (NextNode_opens lead name ws0 attrs _ fuel index p
                ltac:(lia) Hf Hpos Hlead Htag Hp)
      as (p1 & e1 & Hrun1 & Hp1 & St1 & Hn1 & Fl1 & Er1).
    assert (Hpos1 : m_DataPos p1
                    = S (index + List.length lead
                         + List.length (ch_lt :: tag_opener PlainTag ++ name ++ ws0
                                          ++ render_attrs attrs ++ tag_closer PlainTag))).
    { rewrite (position_after p p1
                 (lead ++ ch_lt :: tag_opener PlainTag ++ name ++ ws0
                    ++ render_attrs attrs ++ tag_closer PlainTag)
                 (render_content body
                    ++ ch_lt :: ch_slash :: ws1 ++ name ++ ws2 ++ ch_gt :: rest)).
      - rewrite Hpos, length_app. lia.
      - eapply NextNode_reads_on; exact Hrun1.
      - destruct (render_content body); discriminate.
      - cbn [tag_opener tag_closer app] in *.
        repeat (rewrite <- app_assoc; cbn [app]). exact Hp.
      - exact Hp1. }
    destruct (IHbody Hbody ltac:(lia) _ _ p1 (m_Stack p) e1 Fl1 St1 Hpos1 Hp1)
      as (p2 & lead2 & e2 & Hlead2 & Hrun2 & Hp2 & St2 & Hb2 & Fl2 & Er2).
    destruct (tag_ok_facts _ _ _ Htag) as (Hname & _).
    destruct fuel as [|fuel']; [lia|].
    destruct (NextNode_closes lead2 ws1 name ws2 rest fuel' p2 (m_Stack p) e2
                Fl2 St2 ltac:(now rewrite Hb2) Hlead2 Hws1 Hname Hws2 Hp2)
      as (p3 & Hrun3 & Hp3 & St3 & Fl3 & Er3).
    exists p3. split.
    + cbn [events]. eexists. split; [exact Hrun1|].
      eapply NextNodes_app; [rewrite <- Hn1; exact Hrun2|].
      eexists. split; [exact Hrun3|reflexivity].
    + repeat split; auto; congruence.
  - (* Last *)
    intros gap Hok Hfuel following index p below e Hf Hs Hpos Hp.
    cbn [content_ok] in Hok. cbn [render_content content_events] in *.
    destruct fuel as [|fuel']; [lia|].
    destruct (gap_run gap following fuel' index p below e Hf Hs Hpos Hok Hp)
      as (p' & lead' & e' & index' & H1 & H2 & H3 & H4 & H5 & H6 & H7 & _).
    exists p', lead', e'. repeat split; auto.
  - (* Child *)
    intros gap child IHchild rest IHrest Hok Hfuel following index p below e
           Hf Hs Hpos Hp.
    cbn [content_ok] in Hok.
    apply andb_prop in Hok as (Hok & Hrest). apply andb_prop in Hok as (Hgap & Hchild).
    cbn [most_attributes_in] in Hfuel.
    cbn [render_content content_events] in *.
    assert (Hp0 : stands_at p (gap ++ ch_lt :: tl (render child)
                                 ++ render_content rest ++ ch_lt :: following)).
    { rewrite <- !app_assoc in Hp. rewrite render_starts_with_lt in Hp. exact Hp. }
    destruct fuel as [|fuel']; [lia|].
    destruct (gap_run gap _ fuel' index p below e Hf Hs Hpos Hgap Hp0)
      as (p1 & lead1 & e1 & index1 & Hlead1 & Hrun1 & Hp1 & St1 & Hb1 & Fl1 & Er1
          & Hpos1 & Hidx1).
    assert (Hp1' : stands_at p1 (lead1 ++ render child
                                   ++ render_content rest ++ ch_lt :: following)).
    { rewrite (render_starts_with_lt child). exact Hp1. }
    destruct (IHchild Hchild ltac:(lia) lead1 _ index1 p1 Fl1 Hpos1 Hlead1 Hp1')
      as (p2 & Hrun2 & Hp2 & St2 & Fl2 & Er2).
    assert (Hpos2 : m_DataPos p2
                    = S (index + List.length gap + List.length (render child))).
    { rewrite (position_after p1 p2 (lead1 ++ render child)
                 (render_content rest ++ ch_lt :: following)).
      - rewrite Hpos1, length_app. lia.
      - eapply NextNodes_reads_on; exact Hrun2.
      - destruct (render_content rest); discriminate.
      - rewrite <- app_assoc. exact Hp1'.
      - exact Hp2. }
    rewrite St1 in St2.
    destruct (IHrest Hrest ltac:(lia) following _ p2 below e1 Fl2 St2 Hpos2 Hp2)
      as (p3 & lead3 & e3 & Hlead3 & Hrun3 & Hp3 & St3 & Hb3 & Fl3 & Er3).
    exists p3, lead3, e3. split; [exact Hlead3|]. split.
    + eapply NextNodes_app; [exact Hrun1|].
      eapply NextNodes_app; [rewrite <- Hidx1; exact Hrun2|].
      rewrite <- Hb1. exact Hrun3.
    + repeat split; auto; congruence.
Qed.

(** ** Whole documents *)

Lemma session_start (c : wchar_t) (l : list wchar_t) :
  exists p0,
    session (string_of_list_ascii (c :: l)) = (true, p0) /\
    stands_at p0 (c :: l) /\ m_DataPos p0 = 1 /\ m_Stack p0 = [] /\
    m_PriorWasEmptyTag p0 = false /\ m_ErrorInfo p0 = "".
Proof.
  unfold session. rewrite list_ascii_of_string_of_list_ascii.
  unfold BeginParsingFromMemory, BeginParsingImpl.
  cbn [m_Reader set_Reader Reset].
  match goal with
  | |- context [NextChar ?x] => set (start := x)
  end.
  assert (Hup : upcoming start = c :: l).
  { unfold start, upcoming, Mem.unread. cbn [m_Reader set_DataSize set_Reader Mem.new
                                              Mem.m_Data Mem.m_DataPos Mem.m_DataSize].
    rewrite Nat.sub_0_r. apply map_byte_at_seq. }
  destruct (NextChar_upcoming_cons _ _ _ Hup) as (Hok & Hc & Hl & Hpos).
  destruct (NextChar_same_session_state start) as (St & Fl & Er).
  destruct (NextChar start) as [ok p0]; cbn [fst snd] in *. subst ok. cbn [negb].
  exists p0. split; [reflexivity|].
  split; [unfold stands_at, input_at; cbn [input_after]; congruence|].
  repeat split; auto.
Qed.

(** Blanks up to the end of the input, with no element open: the session
    ends and no error is recorded. *)
Lemma NextNode_clean_end (trail : list wchar_t) (fuel : nat) (p : XmlParser) :
  m_Stack p = [] ->
  forallb iswspace trail = true ->
  stands_at p trail ->
  exists p',
    NextNode (S fuel) p = Ok (false, None, p') /\
    m_ErrorInfo p' = m_ErrorInfo p /\ m_Stack p' = [].
Proof.
  intros Hs Hw Hp.
  assert (Hsyn : m_PriorWasEmptyTag p && negb (vector_empty (m_Stack p)) = false)
    by (rewrite Hs; apply andb_false_r).
  assert (Hp' : stands_at p (trail ++ [])) by now rewrite app_nil_r.
  rewrite (NextNode_skips_blanks trail [] fuel p Hsyn Hw iswspace_NUL Hp').
  cbv zeta.
  destruct (advance_frame (List.length trail) p) as (St & _ & Er).
  apply stands_at_advance in Hp'.
  set (q := advance (List.length trail) p) in *.
  pose proof (stands_at_first_char _ _ Hp') as Hc. cbn in Hc.
  rewrite Hc. change (wchar_eqb NUL ch_lt) with false. cbv iota.
  unfold ParseTagValueNode.
  rewrite scan_stops_at_once by (rewrite Hc; reflexivity).
  rewrite St, Hs. cbn [vector_empty].
  rewrite IsWhiteSpace_string_of, Hw. cbn [negb].
  exists q. repeat split; auto. congruence.
Qed.

Lemma gap_events_blank (name : string) (gap : list wchar_t) :
  forallb iswspace gap = true -> gap_events name gap = [].
Proof. unfold gap_events. now intros ->. Qed.

Lemma render_not_empty (e : Element) (l : list wchar_t) : render e ++ l <> [].
Proof. rewrite render_starts_with_lt. discriminate. Qed.

(** The elements at the top level of a document, one after the other. *)
Lemma top_level_run (fuel : nat) (name : string) (doc : Content) :
  content_ok doc = true ->
  blank_gaps doc = true ->
  most_attributes_in doc + 2 <= fuel ->
  forall (index : nat) (p : XmlParser),
    m_PriorWasEmptyTag p = false ->
    m_Stack p = [] ->
    (render_content doc <> [] -> m_DataPos p = S index) ->
    stands_at p (render_content doc) ->
    exists p' trail,
      forallb iswspace trail = true /\
      NextNodes fuel (content_events name index doc) p p' /\
      stands_at p' trail /\ m_Stack p' = [] /\ m_ErrorInfo p' = m_ErrorInfo p.
Proof.
  induction doc as [gap | gap e rest IH]; intros Hok Hblank Hfuel index p Hf Hs Hpos Hp;
    cbn [content_ok blank_gaps most_attributes_in render_content content_events] in *.
  - exists p, gap. rewrite gap_events_blank by exact Hblank.
    cbn [NextNodes]. repeat split; auto.
  - apply andb_prop in Hok as (Hok & Hrest). apply andb_prop in Hok as (_ & He).
    apply andb_prop in Hblank as (Hgap & Hblank).
    assert (Hpos0 : m_DataPos p = S index).
    { apply Hpos. destruct gap; [apply render_not_empty|discriminate]. }
    destruct (proj1 (elements_run fuel) e He ltac:(lia) gap (render_content rest)
                index p Hf Hpos0 Hgap Hp)
      as (p1 & Hrun1 & Hp1 & St1 & Fl1 & Er1).
    destruct (IH Hrest Hblank ltac:(lia)
                (index + List.length gap + List.length (render e)) p1 Fl1
                ltac:(congruence)) as (p2 & trail & Ht & Hrun2 & Hp2 & St2 & Er2).
    + intros Hne.
      rewrite (position_after p p1 (gap ++ render e) (render_content rest)).
      * rewrite Hpos0, length_app. lia.
      * eapply NextNodes_reads_on; exact Hrun1.
      * exact Hne.
      * rewrite <- app_assoc. exact Hp.
      * exact Hp1.
    + exact Hp1.
    + exists p2, trail. split; [exact Ht|]. split.
      * rewrite gap_events_blank by exact Hgap. cbn [app].
        eapply NextNodes_app; [exact Hrun1 | exact Hrun2].
      * repeat split; auto. congruence.
Qed.

Lemma pull_NextNodes (fuel : nat) (ns : list XmlNodeBase) (p q fin : XmlParser)
  (node : option XmlNodeBase) :
  NextNodes fuel ns p q ->
  NextNode fuel q = Ok (false, node, fin) ->
  exists trace,
    pull (S (List.length ns)) fuel p = Ok (trace, fin) /\ nodes_of trace = ns.
Proof.
  revert p. induction ns as [|n ns IH]; intros p; cbn [NextNodes List.length].
  - intros -> H. exists []. cbn [pull]. rewrite H. cbn. auto.
  - intros (x & H1 & H2) H3. destruct (IH _ H2 H3) as (trace & Hp & Hn).
    exists ((n, CurPosition x) :: trace).
    change (pull (S (S (List.length ns))) fuel p)
      with (r <- NextNode fuel p ;;
            match (r : NodeResult) with
            | (true, Some node, p') =>
                rest <- pull (S (List.length ns)) fuel p' ;;
                Ok ((node, CurPosition p') :: fst rest, snd rest)
            | (_, _, p') => Ok ([], p')
            end).
    rewrite H1. cbn [bind]. rewrite Hp. cbn [bind fst snd nodes_of map].
    split; [reflexivity|]. unfold nodes_of in Hn. now rewrite Hn.
Qed.

(** X16.  The parser decodes well-formed documents.  For a document made
    of elements (with a declaration or other instruction tags if any),
    nested to any depth, with quoted attribute values, text without '<'
    between the tags and only blanks outside the elements, the session
    starts, the caller's loop receives exactly the nodes of the document
    (for every element its begin node with name, attributes and the offset
    of its '<', a value node for every stretch of text that is not all
    white space, and its end node, in document order), and then ends
    with an empty error text and an empty stack. *)
Theorem well_formed_document_is_decoded :
  forall (doc : Content) (fuel : nat),
    content_ok doc = true ->
    blank_gaps doc = true ->
    render_content doc <> [] ->
    most_attributes_in doc + 2 <= fuel ->
    exists p0 trace fin,
      session (string_of_list_ascii (render_content doc)) = (true, p0) /\
      pull (S (List.length (content_events "" 0 doc))) fuel p0 = Ok (trace, fin) /\
      nodes_of trace = content_events "" 0 doc /\
      ErrorInfo fin = "" /\ m_Stack fin = [].
Proof.
  intros doc fuel Hok Hblank Hne Hfuel.
  destruct (render_content doc) as [|c l] eqn:Hdoc; [congruence|].
  destruct (session_start c l) as (p0 & Hstart & Hp0 & Hpos & Hs & Hf & He).
  rewrite <- Hdoc in Hp0.
  destruct (top_level_run fuel "" doc Hok Hblank Hfuel 0 p0 Hf Hs (fun _ => Hpos) Hp0)
    as (p1 & trail & Ht & Hrun & Hp1 & St1 & Er1).
  destruct fuel as [|fuel']; [lia|].
  destruct (NextNode_clean_end trail fuel' p1 St1 Ht Hp1) as (fin & Hend & Er2 & St2).
  destruct (pull_NextNodes _ _ _ _ _ _ Hrun Hend) as (trace & Hpull & Hnodes).
  exists p0, trace, fin. repeat split; auto.
  unfold ErrorInfo. congruence.
Qed.

Lemma well_formed_document_is_decoded_witness :
  content_ok sample_document = true /\
  blank_gaps sample_document = true /\
  render_content sample_document <> [] /\
  most_attributes_in sample_document + 2 <= 3 /\
  exists p0 trace fin,
    session (string_of_list_ascii (render_content sample_document)) = (true, p0) /\
    pull (S (List.length (content_events "" 0 sample_document))) 3 p0
    = Ok (trace, fin) /\
    nodes_of trace = content_events "" 0 sample_document /\
    ErrorInfo fin = "" /\ m_Stack fin = [].
Proof.
  assert (H1 : content_ok sample_document = true) by reflexivity.
  assert (H2 : blank_gaps sample_document = true) by reflexivity.
  assert (H3 : render_content sample_document <> []) by discriminate.
  assert (H4 : most_attributes_in sample_document + 2 <= 3) by (cbn; lia).
  exact (conj H1 (conj H2 (conj H3 (conj H4
           (well_formed_document_is_decoded sample_document 3 H1 H2 H3 H4))))).
Defined.

(** ** A begin tag that is never finished *)

Lemma first_char_render_attrs_visible (attrs : list AttrText) (tail : list wchar_t) :
  forallb attr_ok attrs = true ->
  iswspace (first_char tail) = false ->
  iswspace (first_char (render_attrs attrs ++ tail)) = false.
Proof.
  destruct attrs as [|a attrs]; cbn [render_attrs forallb app]; [auto|].
  intros H _. apply andb_prop in H as (Ha & _). unfold attr_ok in Ha.
  apply andb_prop in Ha as (Ha & _). apply andb_prop in Ha as (Ha & _).
  apply andb_prop in Ha as (Ha & _).
  destruct (tag_name_facts _ Ha) as (c & rest & Hn & Hc & _).
  unfold render_attr. rewrite Hn. cbn [app first_char hd].
  now destruct (name_char_facts c Hc) as (_ & _ & -> & _).
Qed.

(** The attribute loop takes the attributes written [name="value"] one
    per iteration, whatever follows them. *)
Lemma ParseAttribs_prefix (attrs : list AttrText) :
  forall (tail : list wchar_t) (n : nat) (p : XmlParser) (acc : list XmlAttribute),
    forallb attr_ok attrs = true ->
    iswspace (first_char tail) = false ->
    stands_at p (render_attrs attrs ++ tail) ->
    exists p',
      ParseAttribs (List.length attrs + n) p acc
      = ParseAttribs n p' (acc ++ map attr_of attrs) /\
      stands_at p' tail.
Proof.
  induction attrs as [|a attrs IH]; intros tail n p acc Hok Hend Hp.
  - cbn [render_attrs app List.length Nat.add map] in *.
    exists p. rewrite app_nil_r. auto.
  - cbn [forallb] in Hok. apply andb_prop in Hok as (Ha & Hok).
    pose proof Ha as Ha'. unfold attr_ok in Ha'.
    apply andb_prop in Ha' as (Ha' & Hsep). apply andb_prop in Ha' as (Ha' & Hval).
    apply andb_prop in Ha' as (Hname & Hquote).
    destruct (tag_name_facts _ Hname) as (c & nrest & Hn & Hc & Hall).
    destruct (name_char_facts c Hc) as (_ & _ & Hcw & Hcq & Hc1 & Hc2 & Hc3 & _).
    rewrite render_attrs_cons in Hp.
    set (after := render_attrs attrs ++ tail) in *.
    assert (Hcur : CurChar p = c).
    { rewrite (stands_at_first_char _ _ Hp), Hn. reflexivity. }
    cbn [List.length Nat.add ParseAttribs]. rewrite Hcur, Hc1, Hc2, Hc3. cbn [negb andb].
    set (more := ch_equals :: at_quote a :: at_value a ++ at_quote a :: at_sep a ++ after)
      in *.
    assert (F1 : iswspace (first_char (at_name a ++ [] ++ more)) = false)
      by (rewrite Hn; exact Hcw).
    assert (F2 : is_quote (first_char (at_name a ++ [] ++ more)) = false)
      by (rewrite Hn; exact Hcq).
    destruct (NextToken_unquoted (Some xmlDelimsWithEquals) [] (at_name a) [] more
                p eq_refl
                (forallb_name_char_token _ _ (or_intror eq_refl) Hall) eq_refl
                F1 F2 eq_refl eq_refl Hp)
      as (Htok & Hq).
    set (q := snd (NextToken (Some xmlDelimsWithEquals) p)) in *.
    destruct (stands_at_cons _ _ _ Hq) as (Hqc & Hq1).
    rewrite Hqc. change (wchar_eqb ch_equals ch_equals) with true. cbv iota.
    destruct (NextToken_quoted (Some xmlDelimsWithEquals) (at_quote a) []
                (at_value a) (at_sep a) after (snd (NextChar q))
                Hquote eq_refl Hval (blanks_are_space _ Hsep)
                (first_char_render_attrs_visible _ _ Hok Hend) Hq1) as (Htok2 & Hq2).
    set (q2 := snd (NextToken (Some xmlDelimsWithEquals) (snd (NextChar q)))) in *.
    destruct (IH tail n q2 (acc ++ [mkXmlAttribute (CurToken q) (CurToken q2)])
                Hok Hend Hq2) as (p' & Hrun & Hp').
    exists p'. rewrite Hrun. rewrite Htok, Htok2. cbn [map].
    rewrite <- app_assoc. cbn [app]. unfold attr_of at 2.
    split; [reflexivity|exact Hp'].
Qed.

(** On a '<' or at the end of the input an iteration of the attribute
    loop reads nothing, so the loop does not come to an end. *)
Lemma ParseAttribs_stuck (tail : list wchar_t) :
  first_char tail = ch_lt \/ tail = [] ->
  forall (n : nat) (p : XmlParser) (acc : list XmlAttribute),
    stands_at p tail -> ParseAttribs n p acc = OutOfFuel.
Proof.
  intros Htail. induction n as [|n IH]; intros p acc Hp; cbn [ParseAttribs]; [reflexivity|].
  assert (Hc : first_char tail = ch_lt \/ first_char tail = NUL).
  { destruct Htail as [H| ->]; auto. }
  pose proof (stands_at_first_char _ _ Hp) as Hcur.
  assert (Hcond : negb (wchar_eqb (CurChar p) ch_slash) &&
                  negb (wchar_eqb (CurChar p) ch_gt) &&
                  negb (wchar_eqb (CurChar p) ch_question) = true).
  { rewrite Hcur. destruct Hc as [-> | ->]; reflexivity. }
  rewrite Hcond.
  assert (F1 : iswspace (first_char ([] ++ [] ++ tail)) = false)
    by (cbn [app]; destruct Hc as [-> | ->]; reflexivity).
  assert (F2 : is_quote (first_char ([] ++ [] ++ tail)) = false)
    by (cbn [app]; destruct Hc as [-> | ->]; reflexivity).
  assert (F3 : token_char (Some xmlDelimsWithEquals) (first_char ([] ++ tail)) = false)
    by (cbn [app]; destruct Hc as [-> | ->]; reflexivity).
  assert (F4 : iswspace (first_char tail) = false)
    by (destruct Hc as [-> | ->]; reflexivity).
  destruct (NextToken_unquoted (Some xmlDelimsWithEquals) [] [] [] tail p
              eq_refl eq_refl eq_refl F1 F2 F3 F4 Hp) as (_ & Hq).
  set (q := snd (NextToken (Some xmlDelimsWithEquals) p)) in *.
  rewrite (stands_at_first_char _ _ Hq).
  assert (Heq : wchar_eqb (first_char tail) ch_equals = false)
    by (destruct Hc as [-> | ->]; reflexivity).
  rewrite Heq. apply IH. exact Hq.
Qed.

Lemma ParseAttribs_more_fuel (n k : nat) (p : XmlParser) (acc : list XmlAttribute)
  (r : XmlParser * list XmlAttribute) :
  ParseAttribs n p acc = Ok r -> ParseAttribs (n + k) p acc = Ok r.
Proof.
  revert p acc. induction n as [|n IH]; intros p acc; cbn [ParseAttribs Nat.add];
    [discriminate|].
  destruct (negb (wchar_eqb (CurChar p) ch_slash) &&
            negb (wchar_eqb (CurChar p) ch_gt) &&
            negb (wchar_eqb (CurChar p) ch_question)); [|auto].
  destruct (wchar_eqb _ ch_equals); apply IH.
Qed.

Lemma ParseAttribs_never_ends (attrs : list AttrText) (tail : list wchar_t)
  (fuel : nat) (p : XmlParser) :
  forallb attr_ok attrs = true ->
  first_char tail = ch_lt \/ tail = [] ->
  stands_at p (render_attrs attrs ++ tail) ->
  ParseAttribs fuel p [] = OutOfFuel.
Proof.
  intros Hok Htail Hp.
  assert (Hw : iswspace (first_char tail) = false).
  { destruct Htail as [-> | ->]; reflexivity. }
  destruct (ParseAttribs fuel p []) as [r| |] eqn:E; [| |reflexivity].
  - apply (ParseAttribs_more_fuel _ (List.length attrs)) in E.
    destruct (ParseAttribs_prefix attrs tail fuel p [] Hok Hw Hp) as (p' & Hrun & Hp').
    rewrite Nat.add_comm, Hrun, (ParseAttribs_stuck tail Htail _ _ _ Hp') in E.
    discriminate.
  - now apply ParseAttribs_no_fault in E.
Qed.

(** X17.  A begin tag that is cut short never lets [NextNode] return.
    When, after the tag name and any attributes written [name="value"],
    the next character is another '<' or the input ends, every iteration
    of the attribute loop appends an empty attribute and reads nothing:
    whatever the number of iterations allowed, the call has not returned
    (in C++: it loops until memory is exhausted). *)
Theorem unfinished_begin_tag_never_returns :
  forall (shape : TagShape) (lead name ws0 : list wchar_t) (attrs : list AttrText)
         (tail : list wchar_t) (fuel : nat) (p : XmlParser),
    m_PriorWasEmptyTag p && negb (vector_empty (m_Stack p)) = false ->
    forallb iswspace lead = true ->
    tag_name name = true ->
    forallb is_blank ws0 = true ->
    (attrs <> [] -> ws0 <> []) ->
    forallb attr_ok attrs = true ->
    first_char tail = ch_lt \/ tail = [] ->
    stands_at p (lead ++ ch_lt :: tag_opener shape ++ name ++ ws0
                   ++ render_attrs attrs ++ tail) ->
    NextNode fuel p = OutOfFuel.
Proof.
  intros shape lead name ws0 attrs tail fuel p Hsyn Hlead Hname Hws0 Hsep Hok Htail Hp.
  destruct fuel as [|fuel]; [reflexivity|].
  set (inner := tag_opener shape ++ name ++ ws0 ++ render_attrs attrs ++ tail) in *.
  rewrite (NextNode_skips_blanks lead (ch_lt :: inner) _ p Hsyn Hlead eq_refl Hp).
  cbv zeta.
  apply stands_at_advance in Hp.
  set (q0 := advance (List.length lead) p) in *.
  destruct (stands_at_cons _ _ _ Hp) as (Hc0 & Hp1). rewrite Hc0.
  change (wchar_eqb ch_lt ch_lt) with true. cbv iota.
  set (q1 := snd (NextChar q0)) in *.
  destruct (tag_name_facts _ Hname) as (c & nrest & Hn & Hcn & Hall).
  destruct (name_char_facts c Hcn) as (_ & _ & Hcw & Hcq & Hs & _ & Hq & Hb & _).
  assert (Hw : iswspace (first_char tail) = false).
  { destruct Htail as [-> | ->]; reflexivity. }
  (* which kind of tag *)
  assert (Hkind : wchar_eqb (CurChar q1) ch_slash = false /\
                  wchar_eqb (CurChar q1) ch_bang = false).
  { rewrite (stands_at_first_char _ _ Hp1). unfold inner.
    destruct shape; cbn [tag_opener app first_char hd]; try (split; reflexivity);
      rewrite Hn; cbn [app first_char hd]; auto. }
  destruct Hkind as (-> & ->).
  unfold ParseBeginTagNode.
  set (x := if wchar_eqb (CurChar q1) ch_question then snd (NextChar q1) else q1).
  assert (Hx : stands_at x (name ++ ws0 ++ render_attrs attrs ++ tail)).
  { unfold x, inner in *. destruct shape; cbn [tag_opener app] in Hp1.
    1, 2: rewrite (stands_at_first_char _ _ Hp1), Hn; cbn [app first_char hd];
          rewrite Hq; rewrite Hn in Hp1; exact Hp1.
    all: destruct (stands_at_cons _ _ _ Hp1) as (-> & Hp2);
         change (wchar_eqb ch_question ch_question) with true; exact Hp2. }
  (* the name *)
  assert (F1 : iswspace (first_char (name ++ ws0 ++ render_attrs attrs ++ tail)) = false)
    by (rewrite Hn; exact Hcw).
  assert (F2 : is_quote (first_char (name ++ ws0 ++ render_attrs attrs ++ tail)) = false)
    by (rewrite Hn; exact Hcq).
  assert (F3 : token_char (Some xmlDelimsWithSlash)
                 (first_char (ws0 ++ render_attrs attrs ++ tail)) = false).
  { destruct ws0 as [|b ws0].
    - destruct attrs as [|a attrs]; [|now destruct Hsep].
      cbn [app render_attrs]. destruct Htail as [-> | ->]; reflexivity.
    - cbn [forallb] in Hws0. apply andb_prop in Hws0 as (Hb0 & _).
      cbn [app first_char hd]. now destruct (is_blank_facts b Hb0) as (_ & -> & _). }
  destruct (NextToken_unquoted (Some xmlDelimsWithSlash) [] name ws0
              (render_attrs attrs ++ tail) x eq_refl
              (forallb_name_char_token _ _ (or_introl eq_refl) Hall)
              (blanks_are_space _ Hws0) F1 F2 F3
              (first_char_render_attrs_visible _ _ Hok Hw) Hx) as (Htok & Hy).
  assert (Hfst : fst (NextToken (Some xmlDelimsWithSlash) x) = true).
  { apply NextToken_ok_when_token. rewrite Htok.
    now apply string_of_tag_name_not_empty. }
  destruct (NextToken (Some xmlDelimsWithSlash) x) as [ok y]; cbn [fst snd] in *.
  subst ok. cbn [negb].
  rewrite (ParseAttribs_never_ends attrs tail fuel y Hok Htail Hy). reflexivity.
Qed.

Lemma unfinished_begin_tag_never_returns_witness :
  let p := snd (session "<a x='1' <b>") in
  let attrs := [mkAttrText ["x"%char] ch_squote ["1"%char] [" "%char]] in
  m_PriorWasEmptyTag p && negb (vector_empty (m_Stack p)) = false /\
  forallb iswspace [] = true /\
  tag_name ["a"%char] = true /\
  forallb is_blank [" "%char] = true /\
  (attrs <> [] -> [" "%char] <> []) /\
  forallb attr_ok attrs = true /\
  (first_char (list_ascii_of_string "<b>") = ch_lt \/ list_ascii_of_string "<b>" = []) /\
  stands_at p ([] ++ ch_lt :: tag_opener PlainTag ++ ["a"%char] ++ [" "%char]
                 ++ render_attrs attrs ++ list_ascii_of_string "<b>") /\
  NextNode 1000 p = OutOfFuel.
Proof.
  intros p attrs.
  assert (H1 : m_PriorWasEmptyTag p && negb (vector_empty (m_Stack p)) = false)
    by reflexivity.
  assert (H2 : forallb iswspace [] = true) by reflexivity.
  assert (H3 : tag_name ["a"%char] = true) by reflexivity.
  assert (H4 : forallb is_blank [" "%char] = true) by reflexivity.
  assert (H5 : attrs <> [] -> [" "%char] <> []) by (intros _; discriminate).
  assert (H6 : forallb attr_ok attrs = true) by reflexivity.
  assert (H7 : first_char (list_ascii_of_string "<b>") = ch_lt
               \/ list_ascii_of_string "<b>" = []) by (left; reflexivity).
  assert (H8 : stands_at p ([] ++ ch_lt :: tag_opener PlainTag ++ ["a"%char]
                              ++ [" "%char] ++ render_attrs attrs
                              ++ list_ascii_of_string "<b>")) by reflexivity.
  exact (conj H1 (conj H2 (conj H3 (conj H4 (conj H5 (conj H6 (conj H7 (conj H8
           (unfinished_begin_tag_never_returns PlainTag [] ["a"%char] [" "%char]
              attrs (list_ascii_of_string "<b>") 1000 p
              H1 H2 H3 H4 H5 H6 H7 H8))))))))).
Defined.

(** ** Tags that begin with "<!" *)

Lemma stands_at_set_ErrorInfo (e : string) (p : XmlParser) (l : list wchar_t) :
  stands_at p l -> stands_at (set_ErrorInfo e p) l.
Proof. unfold stands_at, input_at. auto. Qed.

(** [NextNode] over a comment or a marked section, after any blanks: the
    call goes on behind it as a call with one unit less of fuel; when the
    input ends with the '>' of the markup, the error text of [Eat] has
    been recorded on the way. *)
Lemma NextNode_over_markup (kind : BangMarkup) (lead body rest : list wchar_t)
  (fuel : nat) (p : XmlParser) :
  m_PriorWasEmptyTag p && negb (vector_empty (m_Stack p)) = false ->
  forallb iswspace lead = true ->
  markup_body (markup_closer kind) body = true ->
  stands_at p (lead ++ ch_lt :: markup_opener kind ++ body
                 ++ markup_terminator kind ++ rest) ->
  exists q,
    stands_at q rest /\ same_session_state p q /\
    NextNode (S fuel) p
    = NextNode fuel
        (match rest with
         | [] => set_ErrorInfo "Unexpected end of input." q
         | _ :: _ => q
         end).
Proof.
  intros Hsyn Hlead Hbody Hp.
  set (inner := markup_opener kind ++ body ++ markup_terminator kind ++ rest) in *.
  rewrite (NextNode_skips_blanks lead (ch_lt :: inner) _ p Hsyn Hlead eq_refl Hp).
  cbv zeta.
  pose proof (advance_same_session_state (List.length lead) p) as S0.
  apply stands_at_advance in Hp.
  set (q0 := advance (List.length lead) p) in *.
  destruct (stands_at_cons _ _ _ Hp) as (Hc0 & Hp1). rewrite Hc0.
  change (wchar_eqb ch_lt ch_lt) with true. cbv iota.
  pose proof (NextChar_same_session_state q0) as S1.
  set (q1 := snd (NextChar q0)) in *.
  assert (Hbang : exists opener', markup_opener kind = ch_bang :: opener')
    by (destruct kind; eexists; reflexivity).
  destruct Hbang as (opener' & Hop).
  unfold inner in Hp1. rewrite Hop in Hp1. cbn [app] in Hp1.
  destruct (stands_at_cons _ _ _ Hp1) as (Hc1 & Hp2). rewrite Hc1.
  change (wchar_eqb ch_bang ch_slash) with false.
  change (wchar_eqb ch_bang ch_bang) with true. cbv iota.
  unfold ParseBangTag.
  pose proof (NextChar_same_session_state q1) as S2.
  set (q2 := snd (NextChar q1)) in *.
  (* the state in which [Eat] starts *)
  assert (Hstart : exists x,
             stands_at x (body ++ markup_terminator kind ++ rest) /\
             same_session_state q2 x /\
             forall k : XmlParser -> Outcome NodeResult,
               (if wchar_eqb (CurChar q2) ch_lbracket
                then k (snd (EatMarkedSection (snd (NextChar q2))))
                else if wchar_eqb (CurChar q2) ch_dash
                        && wchar_eqb (CurChar (snd (NextChar q2))) ch_dash
                     then k (snd (EatComment (snd (NextChar (snd (NextChar q2))))))
                     else failure (set_ErrorInfo "Malformed tag beginning with '!'"
                                     (snd (NextChar q2))))
               = k (snd (Eat (loop_budget x) (markup_closer kind) x))).
  { destruct kind; cbn [markup_opener] in Hop; injection Hop as <-;
      cbn [app markup_closer] in *.
    - destruct (stands_at_cons _ _ _ Hp2) as (Hc2 & Hp3).
      destruct (stands_at_cons _ _ _ Hp3) as (Hc3 & Hp4).
      exists (snd (NextChar (snd (NextChar q2)))). split; [exact Hp4|]. split.
      + eapply same_session_state_trans; apply NextChar_same_session_state.
      + intros k. rewrite Hc2, Hc3.
        change (wchar_eqb ch_dash ch_lbracket) with false.
        change (wchar_eqb ch_dash ch_dash) with true. reflexivity.
    - destruct (stands_at_cons _ _ _ Hp2) as (Hc2 & Hp3).
      exists (snd (NextChar q2)). split; [exact Hp3|]. split.
      + apply NextChar_same_session_state.
      + intros k. rewrite Hc2.
        change (wchar_eqb ch_lbracket ch_lbracket) with true. reflexivity. }
  destruct Hstart as (x & Hx & S3 & Hrun). rewrite Hrun. clear Hrun.
  assert (Hin : input_at x
                = body ++ [markup_closer kind; markup_closer kind; ch_gt] ++ rest).
  { unfold stands_at in Hx. rewrite Hx. unfold markup_terminator.
    destruct body; reflexivity. }
  rewrite (Eat_finds_terminator _ body rest (markup_closer_nonzero kind)
             (loop_budget x) x Hbody Hin (loop_budget_enough _)).
  cbv zeta.
  assert (Hgt : stands_at (advance (List.length body + 2) x) (ch_gt :: rest)).
  { replace (List.length body + 2)
      with (List.length (body ++ [markup_closer kind; markup_closer kind]))
      by (rewrite length_app; reflexivity).
    apply stands_at_advance. unfold markup_terminator in Hx.
    rewrite <- app_assoc. exact Hx. }
  pose proof (advance_same_session_state (List.length body + 2) x) as S4.
  set (y := advance (List.length body + 2) x) in *.
  destruct (stands_at_cons _ _ _ Hgt) as (_ & Hy).
  pose proof (NextChar_same_session_state y) as S5.
  assert (Hup : upcoming y = rest).
  { unfold stands_at in Hgt. cbn [input_after] in Hgt.
    exact (input_at_upcoming _ _ _ Hgt). }
  exists (snd (NextChar y)). split; [exact Hy|]. split.
  - apply (same_session_state_trans _ _ _ S0), (same_session_state_trans _ _ _ S1),
      (same_session_state_trans _ _ _ S2), (same_session_state_trans _ _ _ S3),
      (same_session_state_trans _ _ _ S4), S5.
  - rewrite Hup. destruct rest; reflexivity.
Qed.

(** X18.  A comment or a marked section whose '>' is the very last
    character of the input is reported as an error although it is
    complete: with no element open, [NextNode] returns false with no node
    and the error text "Unexpected end of input.", whatever was recorded
    before. *)
Theorem markup_at_the_end_of_input_is_an_error :
  forall (kind : BangMarkup) (lead body : list wchar_t) (fuel : nat) (p : XmlParser),
    m_Stack p = [] ->
    forallb iswspace lead = true ->
    markup_body (markup_closer kind) body = true ->
    stands_at p (lead ++ ch_lt :: markup_opener kind ++ body ++ markup_terminator kind) ->
    exists p',
      NextNode (S (S fuel)) p = Ok (false, None, p') /\
      ErrorInfo p' = "Unexpected end of input."%string /\
      m_Stack p' = [].
Proof.
  intros kind lead body fuel p Hs Hlead Hbody Hp.
  assert (Hsyn : m_PriorWasEmptyTag p && negb (vector_empty (m_Stack p)) = false)
    by (rewrite Hs; apply andb_false_r).
  assert (Hp' : stands_at p (lead ++ ch_lt :: markup_opener kind ++ body
                               ++ markup_terminator kind ++ [])).
  { rewrite app_nil_r. exact Hp. }
  destruct (NextNode_over_markup kind lead body [] (S fuel) p Hsyn Hlead Hbody Hp')
    as (q & Hq & (St & _ & _) & Hrun).
  destruct (NextNode_clean_end [] fuel (set_ErrorInfo "Unexpected end of input." q))
    as (p' & Hend & Er & St').
  - cbn [m_Stack set_ErrorInfo]. congruence.
  - reflexivity.
  - apply stands_at_set_ErrorInfo. exact Hq.
  - exists p'. rewrite Hrun. split; [exact Hend|]. split; [exact Er|exact St'].
Qed.

Lemma markup_at_the_end_of_input_is_an_error_witness :
  let p := snd (session " <!--bye-->") in
  m_Stack p = [] /\
  forallb iswspace [" "%char] = true /\
  markup_body (markup_closer CommentMarkup) (list_ascii_of_string "bye") = true /\
  stands_at p ([" "%char] ++ ch_lt :: markup_opener CommentMarkup
                 ++ list_ascii_of_string "bye" ++ markup_terminator CommentMarkup) /\
  exists p',
    NextNode (S (S 0)) p = Ok (false, None, p') /\
    ErrorInfo p' = "Unexpected end of input."%string /\
    m_Stack p' = [].
Proof.
  intros p.
  assert (H1 : m_Stack p = []) by reflexivity.
  assert (H2 : forallb iswspace [" "%char] = true) by reflexivity.
  assert (H3 : markup_body (markup_closer CommentMarkup) (list_ascii_of_string "bye")
               = true) by reflexivity.
  assert (H4 : stands_at p ([" "%char] ++ ch_lt :: markup_opener CommentMarkup
                              ++ list_ascii_of_string "bye"
                              ++ markup_terminator CommentMarkup)) by reflexivity.
  exact (conj H1 (conj H2 (conj H3 (conj H4
           (markup_at_the_end_of_input_is_an_error CommentMarkup [" "%char]
              (list_ascii_of_string "bye") 0 p H1 H2 H3 H4))))).
Defined.

(** X19.  Of the tags that begin with "<!" only comments ("<!--") and
    marked sections ("<![") are accepted.  Any other, a document type
    declaration for one, is fatal: [NextNode] returns false with no node
    and the error text "Malformed tag beginning with '!'", having read the
    "<!" and the character after it; the stack is untouched. *)
Theorem other_bang_tags_are_rejected :
  forall (lead : list wchar_t) (c1 : wchar_t) (after : list wchar_t)
         (fuel : nat) (p : XmlParser),
    m_PriorWasEmptyTag p && negb (vector_empty (m_Stack p)) = false ->
    forallb iswspace lead = true ->
    wchar_eqb c1 ch_lbracket = false ->
    wchar_eqb c1 ch_dash && wchar_eqb (first_char after) ch_dash = false ->
    stands_at p (lead ++ ch_lt :: ch_bang :: c1 :: after) ->
    exists p',
      NextNode (S fuel) p = Ok (false, None, p') /\
      ErrorInfo p' = "Malformed tag beginning with '!'"%string /\
      m_Stack p' = m_Stack p /\
      stands_at p' after.
Proof.
  intros lead c1 after fuel p Hsyn Hlead Hc1 Hc2 Hp.
  rewrite (NextNode_skips_blanks lead (ch_lt :: ch_bang :: c1 :: after) _ p Hsyn Hlead
             eq_refl Hp).
  cbv zeta.
  destruct (advance_frame (List.length lead) p) as (St0 & _ & _).
  apply stands_at_advance in Hp.
  set (q0 := advance (List.length lead) p) in *.
  destruct (stands_at_cons _ _ _ Hp) as (Hq0 & Hp1). rewrite Hq0.
  change (wchar_eqb ch_lt ch_lt) with true. cbv iota.
  destruct (stands_at_cons _ _ _ Hp1) as (Hq1 & Hp2). rewrite Hq1.
  change (wchar_eqb ch_bang ch_slash) with false.
  change (wchar_eqb ch_bang ch_bang) with true. cbv iota.
  unfold ParseBangTag.
  destruct (stands_at_cons _ _ _ Hp2) as (Hq2 & Hp3). rewrite Hq2, Hc1.
  rewrite (stands_at_first_char _ _ Hp3), Hc2.
  eexists. split; [reflexivity|]. split; [reflexivity|].
  split; [|apply stands_at_set_ErrorInfo; exact Hp3].
  cbn [m_Stack set_ErrorInfo]. rewrite !NextChar_stack. exact St0.
Qed.

Lemma other_bang_tags_are_rejected_witness :
  let p := snd (session "<!DOCTYPE note><note/>") in
  m_PriorWasEmptyTag p && negb (vector_empty (m_Stack p)) = false /\
  forallb iswspace [] = true /\
  wchar_eqb "D"%char ch_lbracket = false /\
  wchar_eqb "D"%char ch_dash
  && wchar_eqb (first_char (list_ascii_of_string "OCTYPE note><note/>")) ch_dash
  = false /\
  stands_at p ([] ++ ch_lt :: ch_bang :: "D"%char
                 :: list_ascii_of_string "OCTYPE note><note/>") /\
  exists p',
    NextNode (S 0) p = Ok (false, None, p') /\
    ErrorInfo p' = "Malformed tag beginning with '!'"%string /\
    m_Stack p' = m_Stack p /\
    stands_at p' (list_ascii_of_string "OCTYPE note><note/>").
Proof.
  intros p.
  assert (H1 : m_PriorWasEmptyTag p && negb (vector_empty (m_Stack p)) = false)
    by reflexivity.
  assert (H2 : forallb iswspace [] = true) by reflexivity.
  assert (H3 : wchar_eqb "D"%char ch_lbracket = false) by reflexivity.
  assert (H4 : wchar_eqb "D"%char ch_dash
               && wchar_eqb (first_char (list_ascii_of_string "OCTYPE note><note/>"))
                    ch_dash = false) by reflexivity.
  assert (H5 : stands_at p ([] ++ ch_lt :: ch_bang :: "D"%char
                              :: list_ascii_of_string "OCTYPE note><note/>"))
    by reflexivity.
  exact (conj H1 (conj H2 (conj H3 (conj H4 (conj H5
           (other_bang_tags_are_rejected [] "D"%char
              (list_ascii_of_string "OCTYPE note><note/>") 0 p
              H1 H2 H3 H4 H5)))))).
Defined.

(** ** Attributes without quotes *)

Lemma token_char_equals_facts (c : wchar_t) :
  token_char (Some xmlDelimsWithEquals) c = true ->
  wchar_eqb c ch_gt = false /\ wchar_eqb c ch_question = false /\
  wchar_eqb c ch_equals = false.
Proof.
  destruct c as [[] [] [] [] [] [] [] []]; cbv; intros H;
    try discriminate H; repeat split.
Qed.

Lemma bare_token_facts (t : list wchar_t) :
  bare_token t = true ->
  exists c rest, t = c :: rest /\ iswspace c = false /\ is_quote c = false /\
                 token_char (Some xmlDelimsWithEquals) c = true /\
                 forallb (token_char (Some xmlDelimsWithEquals)) t = true.
Proof.
  destruct t as [|c rest]; [discriminate|]. unfold bare_token. intros H.
  apply andb_prop in H as (H & H3). apply andb_prop in H as (H1 & H2).
  apply negb_true_iff in H1, H2.
  exists c, rest. repeat split; auto.
  cbn [forallb] in H3. now apply andb_prop in H3 as (-> & _).
Qed.

Lemma tag_name_is_attr_name (t : list wchar_t) : tag_name t = true -> attr_name t = true.
Proof.
  intros H. destruct (tag_name_facts _ H) as (c & rest & -> & Hc & Hall).
  destruct (name_char_facts c Hc) as (_ & _ & Hw & Hq & Hs & _).
  unfold attr_name, bare_token. cbn [first_char hd]. rewrite Hw, Hq, Hs.
  now rewrite (forallb_name_char_token _ _ (or_intror eq_refl) Hall).
Qed.

Lemma first_char_render_form (f : AttrForm) (next : list wchar_t) :
  form_ok f next = true ->
  let c := first_char (render_form f ++ next) in
  iswspace c = false /\ token_char (Some xmlDelimsWithEquals) c = true /\
  wchar_eqb c ch_slash = false.
Proof.
  assert (Hname : forall n l, attr_name n = true ->
            let c := first_char (n ++ l) in
            iswspace c = false /\ token_char (Some xmlDelimsWithEquals) c = true /\
            wchar_eqb c ch_slash = false).
  { intros n l H. unfold attr_name in H. apply andb_prop in H as (H1 & H2).
    destruct (bare_token_facts _ H1) as (c & r & -> & Hw & _ & Ht & _).
    cbn [first_char hd] in *. apply negb_true_iff in H2. auto. }
  destruct f as [a | name value sep | name sep]; cbn [form_ok render_form]; intros H.
  - unfold attr_ok in H. apply andb_prop in H as (H & _). apply andb_prop in H as (H & _).
    apply andb_prop in H as (H & _). unfold render_attr. rewrite <- app_assoc.
    apply Hname. now apply tag_name_is_attr_name.
  - apply andb_prop in H as (H & _). apply andb_prop in H as (H & _).
    apply andb_prop in H as (H & _). rewrite <- app_assoc. now apply Hname.
  - apply andb_prop in H as (H & _). apply andb_prop in H as (H & _).
    rewrite <- app_assoc. now apply Hname.
Qed.

Lemma first_char_render_forms (fs : list AttrForm) (tail : list wchar_t) :
  forms_ok fs tail = true ->
  ends_attributes (first_char tail) = true ->
  let c := first_char (render_forms fs ++ tail) in
  iswspace c = false /\ wchar_eqb c ch_equals = false.
Proof.
  destruct fs as [|f fs]; cbn [forms_ok render_forms app].
  - intros _ H. destruct (first_char tail) as [[] [] [] [] [] [] [] []]; cbv in H |- *;
      try discriminate H; split; reflexivity.
  - intros H _. apply andb_prop in H as (H & _). rewrite <- app_assoc.
    destruct (first_char_render_form f _ H) as (H1 & H2 & _).
    split; [exact H1|]. now destruct (token_char_equals_facts _ H2) as (_ & _ & ->).
Qed.

Lemma token_ends_facts (sep next : list wchar_t) :
  forallb is_blank sep = true -> token_ends sep next = true ->
  token_char (Some xmlDelimsWithEquals) (first_char (sep ++ next)) = false.
Proof.
  destruct sep as [|b sep]; cbn [token_ends app forallb].
  - intros _ H. now apply negb_true_iff in H.
  - intros H _. apply andb_prop in H as (Hb & _). cbn [first_char hd].
    now destruct (is_blank_facts b Hb) as (_ & _ & ->).
Qed.

(** The attribute loop on attributes written in any of the three forms. *)
Lemma ParseAttribs_forms (fs : list AttrForm) :
  forall (tail : list wchar_t) (fuel : nat) (p : XmlParser) (acc : list XmlAttribute),
    forms_ok fs tail = true ->
    ends_attributes (first_char tail) = true ->
    stands_at p (render_forms fs ++ tail) ->
    exists p',
      ParseAttribs (List.length fs + S fuel) p acc = Ok (p', acc ++ map form_of fs) /\
      stands_at p' tail.
Proof.
  induction fs as [|f fs IH]; intros tail fuel p acc Hok Hend Hp.
  - destruct (ParseAttribs_along [] tail fuel p acc eq_refl Hend Hp)
      as (p' & Hrun & Hp' & _).
    exists p'. split; [exact Hrun|exact Hp'].
  - cbn [forms_ok] in Hok. apply andb_prop in Hok as (Hf & Hok).
    cbn [render_forms] in Hp. rewrite <- app_assoc in Hp.
    set (next := render_forms fs ++ tail) in *.
    destruct (first_char_render_forms fs tail Hok Hend) as (Hnw & Hne). fold next in Hnw, Hne.
    destruct f as [a | name value sep | name sep]; cbn [form_ok render_form] in Hf, Hp.
    + (* name="value" *)
      assert (Ha : forallb attr_ok [a] = true) by (cbn; now rewrite Hf).
      assert (Hp1 : stands_at p (render_attrs [a] ++ next)).
      { cbn [render_attrs]. rewrite app_nil_r. exact Hp. }
      destruct (ParseAttribs_prefix [a] next (List.length fs + S fuel) p acc Ha Hnw Hp1)
        as (p1 & Hrun1 & Hq1).
      destruct (IH tail fuel p1 (acc ++ map attr_of [a]) Hok Hend Hq1)
        as (p' & Hrun & Hp').
      exists p'. split; [|exact Hp'].
      cbn [List.length Nat.add] in Hrun1 |- *. rewrite Hrun1, Hrun.
      cbn [map form_of]. now rewrite <- app_assoc.
    + (* name=value *)
      apply andb_prop in Hf as (Hf & Hends). apply andb_prop in Hf as (Hf & Hsep).
      apply andb_prop in Hf as (Hname & Hvalue).
      unfold attr_name in Hname. apply andb_prop in Hname as (Hname & Hslash).
      apply negb_true_iff in Hslash.
      destruct (bare_token_facts _ Hname) as (c & nrest & Hn & Hcw & Hcq & Hct & Hall).
      destruct (bare_token_facts _ Hvalue) as (d & vrest & Hv & Hdw & Hdq & _ & Hvall).
      destruct (token_char_equals_facts _ Hct) as (Hc2 & Hc3 & _).
      rewrite Hn in Hslash. cbn [first_char hd] in Hslash.
      rewrite <- app_assoc in Hp. cbn [app] in Hp. rewrite <- app_assoc in Hp.
      assert (Hcur : CurChar p = c).
      { rewrite (stands_at_first_char _ _ Hp), Hn. reflexivity. }
      cbn [List.length Nat.add ParseAttribs]. rewrite Hcur, Hslash, Hc2, Hc3.
      cbn [negb andb].
      set (more := ch_equals :: value ++ sep ++ next) in *.
      assert (F1 : iswspace (first_char (name ++ [] ++ more)) = false)
        by (rewrite Hn; exact Hcw).
      assert (F2 : is_quote (first_char (name ++ [] ++ more)) = false)
        by (rewrite Hn; exact Hcq).
      destruct (NextToken_unquoted (Some xmlDelimsWithEquals) [] name [] more
                  p eq_refl Hall eq_refl F1 F2 eq_refl eq_refl Hp)
        as (Htok & Hq).
      set (q := snd (NextToken (Some xmlDelimsWithEquals) p)) in *.
      destruct (stands_at_cons _ _ _ Hq) as (Hqc & Hq1).
      rewrite Hqc. change (wchar_eqb ch_equals ch_equals) with true. cbv iota.
      assert (G1 : iswspace (first_char (value ++ sep ++ next)) = false)
        by (rewrite Hv; exact Hdw).
      assert (G2 : is_quote (first_char (value ++ sep ++ next)) = false)
        by (rewrite Hv; exact Hdq).
      destruct (NextToken_unquoted (Some xmlDelimsWithEquals) [] value sep next
                  (snd (NextChar q)) eq_refl Hvall (blanks_are_space _ Hsep) G1 G2
                  (token_ends_facts _ _ Hsep Hends) Hnw Hq1)
        as (Htok2 & Hq2).
      set (q2 := snd (NextToken (Some xmlDelimsWithEquals) (snd (NextChar q)))) in *.
      destruct (IH tail fuel q2 (acc ++ [mkXmlAttribute (CurToken q) (CurToken q2)])
                  Hok Hend Hq2) as (p' & Hrun & Hp').
      exists p'. rewrite Hrun. rewrite Htok, Htok2. cbn [map form_of].
      rewrite <- app_assoc. cbn [app]. split; [reflexivity|exact Hp'].
    + (* name *)
      apply andb_prop in Hf as (Hf & Hends). apply andb_prop in Hf as (Hname & Hsep).
      unfold attr_name in Hname. apply andb_prop in Hname as (Hname & Hslash).
      apply negb_true_iff in Hslash.
      destruct (bare_token_facts _ Hname) as (c & nrest & Hn & Hcw & Hcq & Hct & Hall).
      destruct (token_char_equals_facts _ Hct) as (Hc2 & Hc3 & _).
      rewrite Hn in Hslash. cbn [first_char hd] in Hslash.
      rewrite <- app_assoc in Hp.
      assert (Hcur : CurChar p = c).
      { rewrite (stands_at_first_char _ _ Hp), Hn. reflexivity. }
      cbn [List.length Nat.add ParseAttribs]. rewrite Hcur, Hslash, Hc2, Hc3.
      cbn [negb andb].
      assert (F1 : iswspace (first_char (name ++ sep ++ next)) = false)
        by (rewrite Hn; exact Hcw).
      assert (F2 : is_quote (first_char (name ++ sep ++ next)) = false)
        by (rewrite Hn; exact Hcq).
      destruct (NextToken_unquoted (Some xmlDelimsWithEquals) [] name sep next
                  p eq_refl Hall (blanks_are_space _ Hsep) F1 F2
                  (token_ends_facts _ _ Hsep Hends) Hnw Hp)
        as (Htok & Hq).
      set (q := snd (NextToken (Some xmlDelimsWithEquals) p)) in *.
      rewrite (stands_at_first_char _ _ Hq), Hne.
      destruct (IH tail fuel q (acc ++ [mkXmlAttribute (CurToken q) ""])
                  Hok Hend Hq) as (p' & Hrun & Hp').
      exists p'. rewrite Hrun. rewrite Htok. cbn [map form_of].
      rewrite <- app_assoc. cbn [app]. split; [reflexivity|exact Hp'].
Qed.

Lemma forms_along (fs : list AttrForm) (tail : list wchar_t) :
  forms_ok fs tail = true ->
  ends_attributes (first_char tail) = true ->
  attribs_along (render_forms fs) (List.length fs) (map form_of fs) tail.
Proof.
  intros Hok Hend fuel q Hq.
  destruct (ParseAttribs_forms fs tail fuel q [] Hok Hend Hq) as (p2 & Hrun & Hp2).
  exists p2. cbn [app] in Hrun. split; [exact Hrun|]. split; [exact Hp2|].
  eapply ParseAttribs_same_session_state; exact Hrun.
Qed.

Lemma no_blank_no_forms (ws0 : list wchar_t) (fs : list AttrForm) :
  (fs <> [] -> ws0 <> []) -> ws0 = [] -> render_forms fs = [].
Proof.
  intros Hsep ->. destruct fs as [|f fs]; [reflexivity|].
  exfalso. apply Hsep; [discriminate|reflexivity].
Qed.

(** A begin tag with attributes in any of the three forms. *)
Lemma NextNode_begin_tag_forms (shape : TagShape) (lead name ws0 : list wchar_t)
  (fs : list AttrForm) (rest : list wchar_t) (fuel : nat) (p : XmlParser) :
  m_PriorWasEmptyTag p && negb (vector_empty (m_Stack p)) = false ->
  forallb iswspace lead = true ->
  tag_name name = true ->
  forallb is_blank ws0 = true ->
  (fs <> [] -> ws0 <> []) ->
  forms_ok fs (tag_closer shape ++ rest) = true ->
  stands_at p (lead ++ ch_lt :: tag_opener shape ++ name ++ ws0 ++ render_forms fs
                 ++ tag_closer shape ++ rest) ->
  let elm := element_of shape name (map form_of fs)
               (size_t_sub (m_DataPos p + List.length lead + 1) 2) in
  exists p',
    NextNode (S (List.length fs + S fuel)) p
    = Ok (true, Some (BeginNode (m_Begin elm)), p') /\
    stands_at p' rest /\
    m_Stack p' = m_Stack p ++ [elm] /\
    m_PriorWasEmptyTag p' = m_PriorWasEmptyTag p || tag_is_empty shape /\
    m_ErrorInfo p' = m_ErrorInfo p.
Proof.
  intros Hsyn Hlead Hname Hws Hsep Hok Hp.
  pose proof (first_char_tag_closer shape rest) as Hend.
  exact (NextNode_begin_tag_generic shape lead name ws0 (render_forms fs)
           (List.length fs) (map form_of fs) rest fuel p Hsyn Hlead Hname Hws
           (no_blank_no_forms _ _ Hsep)
           (proj1 (first_char_render_forms _ _ Hok Hend))
           (forms_along _ _ Hok Hend) Hp).
Qed.

Lemma render_forms_app (fs gs : list AttrForm) :
  render_forms (fs ++ gs) = render_forms fs ++ render_forms gs.
Proof.
  induction fs as [|f fs IH]; cbn [render_forms app]; [reflexivity|].
  now rewrite IH, app_assoc.
Qed.

Lemma render_with_slash (f : AttrForm) (l : list wchar_t) :
  is_unquoted f = true ->
  render_form (with_slash f) ++ l = render_form f ++ ch_slash :: l.
Proof.
  destruct f as [a | name value sep | name sep]; cbn [is_unquoted]; [discriminate| |];
    destruct sep; try discriminate; intros _; cbn [with_slash render_form];
    repeat (rewrite <- app_assoc; cbn [app]); rewrite ?app_nil_r; reflexivity.
Qed.

(** X20.  Attributes may be written in three forms, mixed freely in one
    tag: [name="value"] or [name='value'], [name=value] without quotes,
    and [name] alone, which gets the empty value.  A value or a name
    without quotes runs up to the next blank or the next of [=><?]; it
    may hold any other character, '/' included.  The begin node carries
    the attributes in the order written; offset, stack, flag, cursor and
    error text are as for a tag with quoted values. *)
Theorem attributes_in_three_forms :
  forall (shape : TagShape) (lead name ws0 : list wchar_t) (fs : list AttrForm)
         (rest : list wchar_t) (fuel : nat) (p : XmlParser),
    m_PriorWasEmptyTag p && negb (vector_empty (m_Stack p)) = false ->
    forallb iswspace lead = true ->
    tag_name name = true ->
    forallb is_blank ws0 = true ->
    (fs <> [] -> ws0 <> []) ->
    forms_ok fs (tag_closer shape ++ rest) = true ->
    stands_at p (lead ++ ch_lt :: tag_opener shape ++ name ++ ws0 ++ render_forms fs
                   ++ tag_closer shape ++ rest) ->
    exists p',
      NextNode (S (List.length fs + S fuel)) p
      = Ok (true,
            Some (Open (string_of_list_ascii name)
                    (size_t_sub (m_DataPos p + List.length lead + 1) 2)
                    (map form_of fs)),
            p') /\
      stands_at p' rest /\
      open_element_names p' = open_element_names p ++ [string_of_list_ascii name] /\
      m_PriorWasEmptyTag p' = m_PriorWasEmptyTag p || tag_is_empty shape /\
      ErrorInfo p' = ErrorInfo p.
Proof.
  intros shape lead name ws0 fs rest fuel p Hsyn Hlead Hname Hws Hsep Hok Hp.
  destruct (NextNode_begin_tag_forms shape lead name ws0 fs rest fuel p
              Hsyn Hlead Hname Hws Hsep Hok Hp)
    as (p' & Hrun & Hp' & St & Fl & Er).
  exists p'. split; [exact Hrun|]. split; [exact Hp'|].
  split; [|split; [exact Fl|exact Er]].
  unfold open_element_names. rewrite St, map_app. reflexivity.
Qed.

Lemma attributes_in_three_forms_witness :
  let fs := [BareAttr ["x"%char] (list_ascii_of_string "a/b") [" "%char];
             QuotedAttr (mkAttrText ["y"%char] ch_dquote (list_ascii_of_string "1 2") []);
             FlagAttr (list_ascii_of_string "checked") [" "%char];
             BareAttr ["z"%char] ["3"%char] []] in
  let p := snd (session (string_of_list_ascii
                           (ch_lt :: ["t"%char] ++ [" "%char] ++ render_forms fs
                              ++ list_ascii_of_string ">text"))) in
  m_PriorWasEmptyTag p && negb (vector_empty (m_Stack p)) = false /\
  forallb iswspace [] = true /\
  tag_name ["t"%char] = true /\
  forallb is_blank [" "%char] = true /\
  (fs <> [] -> [" "%char] <> []) /\
  forms_ok fs (tag_closer PlainTag ++ list_ascii_of_string "text") = true /\
  stands_at p ([] ++ ch_lt :: tag_opener PlainTag ++ ["t"%char] ++ [" "%char]
                 ++ render_forms fs ++ tag_closer PlainTag
                 ++ list_ascii_of_string "text") /\
  exists p',
    NextNode (S (List.length fs + S 0)) p
    = Ok (true,
          Some (Open (string_of_list_ascii ["t"%char])
                  (size_t_sub (m_DataPos p + List.length (@nil wchar_t) + 1) 2)
                  (map form_of fs)),
          p') /\
    stands_at p' (list_ascii_of_string "text") /\
    open_element_names p' = open_element_names p ++ [string_of_list_ascii ["t"%char]] /\
    m_PriorWasEmptyTag p' = m_PriorWasEmptyTag p || tag_is_empty PlainTag /\
    ErrorInfo p' = ErrorInfo p.
Proof.
  intros fs p.
  assert (H1 : m_PriorWasEmptyTag p && negb (vector_empty (m_Stack p)) = false)
    by reflexivity.
  assert (H2 : forallb iswspace [] = true) by reflexivity.
  assert (H3 : tag_name ["t"%char] = true) by reflexivity.
  assert (H4 : forallb is_blank [" "%char] = true) by reflexivity.
  assert (H5 : fs <> [] -> [" "%char] <> []) by (intros _; discriminate).
  assert (H6 : forms_ok fs (tag_closer PlainTag ++ list_ascii_of_string "text") = true)
    by reflexivity.
  assert (H7 : stands_at p ([] ++ ch_lt :: tag_opener PlainTag ++ ["t"%char]
                              ++ [" "%char] ++ render_forms fs ++ tag_closer PlainTag
                              ++ list_ascii_of_string "text")) by reflexivity.
  exact (conj H1 (conj H2 (conj H3 (conj H4 (conj H5 (conj H6 (conj H7
           (attributes_in_three_forms PlainTag [] ["t"%char] [" "%char] fs
              (list_ascii_of_string "text") 0 p H1 H2 H3 H4 H5 H6 H7)))))))).
Defined.

(** X21.  A '/' written directly after an attribute without quotes
    belongs to the attribute.  Where the text reads [<name ... b=c/>] or
    [<name ... b/>], the last attribute is handed out with the '/' at the
    end of its value (of its name when it has no value), the tag does not
    count as empty, and its element stays open: no end node will be
    made up for it. *)
Theorem slash_after_unquoted_attribute_is_swallowed :
  forall (lead name ws0 : list wchar_t) (fs : list AttrForm) (f : AttrForm)
         (rest : list wchar_t) (fuel : nat) (p : XmlParser),
    m_PriorWasEmptyTag p = false ->
    forallb iswspace lead = true ->
    tag_name name = true ->
    forallb is_blank ws0 = true ->
    ws0 <> [] ->
    is_unquoted f = true ->
    forms_ok (fs ++ [with_slash f]) (ch_gt :: rest) = true ->
    stands_at p (lead ++ ch_lt :: name ++ ws0 ++ render_forms fs ++ render_form f
                   ++ ch_slash :: ch_gt :: rest) ->
    exists p',
      NextNode (S (List.length fs + 1 + S fuel)) p
      = Ok (true,
            Some (Open (string_of_list_ascii name)
                    (size_t_sub (m_DataPos p + List.length lead + 1) 2)
                    (map form_of fs ++ [form_of (with_slash f)])),
            p') /\
      stands_at p' rest /\
      open_element_names p' = open_element_names p ++ [string_of_list_ascii name] /\
      m_PriorWasEmptyTag p' = false.
Proof.
  intros lead name ws0 fs f rest fuel p Hf Hlead Hname Hws Hne Hun Hok Hp.
  assert (Hsyn : m_PriorWasEmptyTag p && negb (vector_empty (m_Stack p)) = false)
    by now rewrite Hf.
  assert (Hp' : stands_at p (lead ++ ch_lt :: tag_opener PlainTag ++ name ++ ws0
                               ++ render_forms (fs ++ [with_slash f])
                               ++ tag_closer PlainTag ++ rest)).
  { rewrite render_forms_app. cbn [render_forms tag_opener tag_closer app].
    rewrite app_nil_r, <- app_assoc, (render_with_slash f _ Hun). exact Hp. }
  destruct (NextNode_begin_tag_forms PlainTag lead name ws0 (fs ++ [with_slash f]) rest
              fuel p Hsyn Hlead Hname Hws (fun _ => Hne) Hok Hp')
    as (p' & Hrun & Hq & St & Fl & _).
  rewrite length_app in Hrun. cbn [List.length] in Hrun.
  rewrite map_app in Hrun. cbn [map] in Hrun.
  exists p'. split; [exact Hrun|]. split; [exact Hq|]. split.
  - unfold open_element_names. rewrite St, map_app. reflexivity.
  - rewrite Fl, Hf. reflexivity.
Qed.

Lemma slash_after_unquoted_attribute_is_swallowed_witness :
  let p := snd (session "<a b=c/><d/>") in
  let f := BareAttr ["b"%char] ["c"%char] [] in
  m_PriorWasEmptyTag p = false /\
  forallb iswspace [] = true /\
  tag_name ["a"%char] = true /\
  forallb is_blank [" "%char] = true /\
  [" "%char] <> [] /\
  is_unquoted f = true /\
  forms_ok ([] ++ [with_slash f]) (ch_gt :: list_ascii_of_string "<d/>") = true /\
  stands_at p ([] ++ ch_lt :: ["a"%char] ++ [" "%char] ++ render_forms []
                 ++ render_form f ++ ch_slash :: ch_gt :: list_ascii_of_string "<d/>") /\
  exists p',
    NextNode (S (List.length (@nil AttrForm) + 1 + S 0)) p
    = Ok (true,
          Some (Open (string_of_list_ascii ["a"%char])
                  (size_t_sub (m_DataPos p + List.length (@nil wchar_t) + 1) 2)
                  (map form_of [] ++ [form_of (with_slash f)])),
          p') /\
    stands_at p' (list_ascii_of_string "<d/>") /\
    open_element_names p' = open_element_names p ++ [string_of_list_ascii ["a"%char]] /\
    m_PriorWasEmptyTag p' = false.
Proof.
  intros p f.
  assert (H1 : m_PriorWasEmptyTag p = false) by reflexivity.
  assert (H2 : forallb iswspace [] = true) by reflexivity.
  assert (H3 : tag_name ["a"%char] = true) by reflexivity.
  assert (H4 : forallb is_blank [" "%char] = true) by reflexivity.
  assert (H5 : [" "%char] <> []) by discriminate.
  assert (H6 : is_unquoted f = true) by reflexivity.
  assert (H7 : forms_ok ([] ++ [with_slash f]) (ch_gt :: list_ascii_of_string "<d/>")
               = true) by reflexivity.
  assert (H8 : stands_at p ([] ++ ch_lt :: ["a"%char] ++ [" "%char] ++ render_forms []
                              ++ render_form f
                              ++ ch_slash :: ch_gt :: list_ascii_of_string "<d/>"))
    by reflexivity.
  exact (conj H1 (conj H2 (conj H3 (conj H4 (conj H5 (conj H6 (conj H7 (conj H8
           (slash_after_unquoted_attribute_is_swallowed [] ["a"%char] [" "%char] []
              f (list_ascii_of_string "<d/>") 0 p H1 H2 H3 H4 H5 H6 H7 H8))))))))).
Defined.

(** ** The dump of an element tree *)

Lemma string_append_assoc (a b c : string) : ((a ++ b) ++ c = a ++ (b ++ c))%string.
Proof. induction a as [|x a IH]; cbn; [reflexivity|]. now rewrite IH. Qed.

Lemma AddSpaces_appends (text : string) (indent : nat) :
  AddSpaces text indent = (text ++ spaces indent)%string.
Proof.
  revert text. induction indent as [|n IH]; intros text; cbn [AddSpaces spaces].
  - now rewrite append_empty_r.
  - rewrite IH, string_append_assoc. reflexivity.
Qed.

Lemma dump_attribs_appends (text : string) (attribs : list XmlAttribute) :
  dump_attribs text attribs
  = (text ++ concat_strings (map attrib_line attribs))%string.
Proof.
  revert text. induction attribs as [|a rest IH]; intros text;
    cbn [dump_attribs map concat_strings].
  - now rewrite append_empty_r.
  - cbv zeta. rewrite IH. unfold attrib_line.
    rewrite !string_append_assoc. reflexivity.
Qed.

(** X22.  [dump] only appends to the caller's text.  What it appends is
    the element's own lines (the Begin line and one line per attribute,
    then the Value line, then the End line, each only if the node has
    its type) and after them the dumps of the children in order, each as
    it would be written on its own, four columns deeper.  So the End line
    of an element comes before the lines of its children, and attribute
    lines are indented by two spaces at every depth. *)
Theorem dump_appends_own_lines_then_children :
  forall (t : XmlElementTree) (text : string) (indent : nat),
    dump t text indent
    = (text ++ own_lines t indent
         ++ concat_strings (map (fun c => dump c "" (indent + 4)) (children_of t)))%string.
Proof.
  fix IH 1. intros [bt b vt v et e children] text indent.
  cbn [dump own_lines children_of]. cbv zeta.
  rewrite !AddSpaces_appends, dump_attribs_appends.
  set (own := ((if XmlNodeType_eqb bt XmlNodeType_Begin
                then spaces indent ++ "Begin:  " ++ begin_m_Name b ++ newline
                     ++ concat_strings (map attrib_line (m_Attribs b))
                else "")
               ++ (if XmlNodeType_eqb vt XmlNodeType_Value
                   then spaces (indent + 4) ++ "Value:  " ++ value_m_Value v ++ newline
                   else "")
               ++ (if XmlNodeType_eqb et XmlNodeType_End
                   then spaces indent ++ "End:  " ++ end_m_Name e ++ newline
                   else ""))%string).
  match goal with
  | |- _ ?children ?start = _ =>
      assert (Hstart : start = (text ++ own)%string)
  end.
  { unfold own.
    destruct (XmlNodeType_eqb bt XmlNodeType_Begin),
             (XmlNodeType_eqb vt XmlNodeType_Value),
             (XmlNodeType_eqb et XmlNodeType_End);
      rewrite ?string_append_assoc; cbn [append]; rewrite ?append_empty_r; reflexivity. }
  rewrite Hstart. rewrite <- string_append_assoc.
  generalize (text ++ own)%string as acc. clear Hstart.
  induction children as [|c cs IHcs]; intros acc; cbn [map concat_strings].
  - now rewrite append_empty_r.
  - rewrite IHcs, (IH c acc (indent + 4)), (IH c ""%string (indent + 4)).
    cbn [append]. rewrite !string_append_assoc. reflexivity.
Qed.

(** ** Tags that do not end as they should *)

(** X23.  An end tag whose name is not followed by '>' is fatal.  When,
    after "</", the name and any blanks, the next character is not '>'
    (the input may also end there), [NextNode] returns false with no node
    and the error text "Expected '>' at end of tag:  " followed by the
    name; the cursor is left on the unexpected character and the stack
    is untouched. *)
Theorem end_tag_without_gt_is_an_error :
  forall (lead ws1 name ws2 tail : list wchar_t) (fuel : nat) (p : XmlParser),
    m_PriorWasEmptyTag p && negb (vector_empty (m_Stack p)) = false ->
    forallb iswspace lead = true ->
    forallb iswspace ws1 = true ->
    tag_name name = true ->
    forallb is_blank ws2 = true ->
    token_char (Some xmlDelimsWithEquals) (first_char (ws2 ++ tail)) = false ->
    iswspace (first_char tail) = false ->
    wchar_eqb (first_char tail) ch_gt = false ->
    stands_at p (lead ++ ch_lt :: ch_slash :: ws1 ++ name ++ ws2 ++ tail) ->
    exists p',
      NextNode (S fuel) p = Ok (false, None, p') /\
      ErrorInfo p'
      = ("Expected '>' at end of tag:  " ++ string_of_list_ascii name)%string /\
      m_Stack p' = m_Stack p /\
      stands_at p' tail.
Proof.
  intros lead ws1 name ws2 tail fuel p Hsyn Hlead Hws1 Hname Hws2 F3 F4 Hgt Hp.
  set (inner := ws1 ++ name ++ ws2 ++ tail) in *.
  rewrite (NextNode_skips_blanks lead (ch_lt :: ch_slash :: inner) _ p Hsyn Hlead
             eq_refl Hp).
  cbv zeta.
  destruct (advance_frame (List.length lead) p) as (St0 & _ & _).
  apply stands_at_advance in Hp.
  set (q0 := advance (List.length lead) p) in *.
  destruct (stands_at_cons _ _ _ Hp) as (Hc0 & Hp1). rewrite Hc0.
  change (wchar_eqb ch_lt ch_lt) with true. cbv iota.
  set (q1 := snd (NextChar q0)) in *.
  destruct (stands_at_cons _ _ _ Hp1) as (Hc1 & Hp2). rewrite Hc1.
  change (wchar_eqb ch_slash ch_slash) with true. cbv iota.
  unfold ParseEndTagNode.
  set (q2 := snd (NextChar q1)) in *.
  destruct (tag_name_facts _ Hname) as (c & nrest & Hn & Hcn & Hall).
  destruct (name_char_facts c Hcn) as (_ & _ & Hcw & Hcq & _).
  assert (F1 : iswspace (first_char (name ++ ws2 ++ tail)) = false)
    by (rewrite Hn; exact Hcw).
  assert (F2 : is_quote (first_char (name ++ ws2 ++ tail)) = false)
    by (rewrite Hn; exact Hcq).
  destruct (NextToken_unquoted (Some xmlDelimsWithEquals) ws1 name ws2 tail q2
              Hws1 (forallb_name_char_token _ _ (or_intror eq_refl) Hall)
              (blanks_are_space _ Hws2) F1 F2 F3 F4 Hp2) as (Htok & Hq3).
  pose proof (NextToken_stack (Some xmlDelimsWithEquals) q2) as St3.
  assert (Hfst : fst (NextToken (Some xmlDelimsWithEquals) q2) = true).
  { apply NextToken_ok_when_token. rewrite Htok.
    now apply string_of_tag_name_not_empty. }
  destruct (NextToken (Some xmlDelimsWithEquals) q2) as [ok q3]; cbn [fst snd] in *.
  subst ok. cbn [negb].
  rewrite (stands_at_first_char _ _ Hq3), Hgt. cbn [negb].
  eexists. split; [reflexivity|].
  split; [unfold ErrorInfo; cbn [m_ErrorInfo set_ErrorInfo]; now rewrite Htok|].
  split; [|apply stands_at_set_ErrorInfo; exact Hq3].
  cbn [m_Stack set_ErrorInfo]. unfold q2, q1 in St3.
  rewrite St3, !NextChar_stack. exact St0.
Qed.

Lemma end_tag_without_gt_is_an_error_witness :
  let p := snd (session "</a b>") in
  m_PriorWasEmptyTag p && negb (vector_empty (m_Stack p)) = false /\
  forallb iswspace [] = true /\
  forallb iswspace [] = true /\
  tag_name ["a"%char] = true /\
  forallb is_blank [" "%char] = true /\
  token_char (Some xmlDelimsWithEquals)
    (first_char ([" "%char] ++ list_ascii_of_string "b>")) = false /\
  iswspace (first_char (list_ascii_of_string "b>")) = false /\
  wchar_eqb (first_char (list_ascii_of_string "b>")) ch_gt = false /\
  stands_at p ([] ++ ch_lt :: ch_slash :: [] ++ ["a"%char] ++ [" "%char]
                 ++ list_ascii_of_string "b>") /\
  exists p',
    NextNode (S 0) p = Ok (false, None, p') /\
    ErrorInfo p'
    = ("Expected '>' at end of tag:  " ++ string_of_list_ascii ["a"%char])%string /\
    m_Stack p' = m_Stack p /\
    stands_at p' (list_ascii_of_string "b>").
Proof.
  intros p.
  assert (H1 : m_PriorWasEmptyTag p && negb (vector_empty (m_Stack p)) = false)
    by reflexivity.
  assert (H2 : forallb iswspace [] = true) by reflexivity.
  assert (H3 : tag_name ["a"%char] = true) by reflexivity.
  assert (H4 : forallb is_blank [" "%char] = true) by reflexivity.
  assert (H5 : token_char (Some xmlDelimsWithEquals)
                 (first_char ([" "%char] ++ list_ascii_of_string "b>")) = false)
    by reflexivity.
  assert (H6 : iswspace (first_char (list_ascii_of_string "b>")) = false) by reflexivity.
  assert (H7 : wchar_eqb (first_char (list_ascii_of_string "b>")) ch_gt = false)
    by reflexivity.
  assert (H8 : stands_at p ([] ++ ch_lt :: ch_slash :: [] ++ ["a"%char] ++ [" "%char]
                              ++ list_ascii_of_string "b>")) by reflexivity.
  exact (conj H1 (conj H2 (conj H2 (conj H3 (conj H4 (conj H5 (conj H6 (conj H7 (conj H8
           (end_tag_without_gt_is_an_error [] [] ["a"%char] [" "%char]
              (list_ascii_of_string "b>") 0 p H1 H2 H2 H3 H4 H5 H6 H7 H8)))))))))).
Defined.

(** [NextNode] on the head of a begin tag: the name and the attributes
    are read, and the call ends as [tag_end] does on what follows. *)
Lemma NextNode_tag_head (questioned : bool) (lead name ws0 text : list wchar_t)
  (n : nat) (attribs : list XmlAttribute) (tail : list wchar_t) (fuel : nat)
  (p : XmlParser) :
  m_PriorWasEmptyTag p && negb (vector_empty (m_Stack p)) = false ->
  forallb iswspace lead = true ->
  tag_name name = true ->
  forallb is_blank ws0 = true ->
  (ws0 = [] -> text = []) ->
  ends_attributes (first_char tail) = true ->
  iswspace (first_char (text ++ tail)) = false ->
  attribs_along text n attribs tail ->
  stands_at p (lead ++ ch_lt :: (if questioned then [ch_question] else [])
                 ++ name ++ ws0 ++ text ++ tail) ->
  exists p2,
    stands_at p2 tail /\ same_session_state p p2 /\
    NextNode (S (n + S fuel)) p
    = tag_end questioned (string_of_list_ascii name) attribs
        (size_t_sub (m_DataPos p + List.length lead + 1) 2) p2.
Proof.
  intros Hsyn Hlead Hname Hws Hsep Hend Hvis Hattr Hp.
  set (inner := (if questioned then [ch_question] else [])
                ++ name ++ ws0 ++ text ++ tail) in *.
  rewrite (NextNode_skips_blanks lead (ch_lt :: inner) _ p Hsyn Hlead eq_refl Hp).
  cbv zeta.
  pose proof (stands_at_advance_pos lead ch_lt inner p Hp) as Hpos.
  pose proof (advance_same_session_state (List.length lead) p) as S0.
  apply stands_at_advance in Hp.
  set (q := advance (List.length lead) p) in *.
  destruct (stands_at_cons _ _ _ Hp) as (Hc & Hq1). rewrite Hc.
  change (wchar_eqb ch_lt ch_lt) with true. cbv iota.
  pose proof (NextChar_same_session_state q) as S1.
  destruct (tag_name_facts _ Hname) as (c & nrest & Hn & Hcn & _).
  destruct (name_char_facts c Hcn) as (_ & _ & _ & _ & Hs & _ & Hq & Hb & _).
  assert (Hpos1 : m_DataPos (snd (NextChar q)) = m_DataPos p + List.length lead + 1).
  { assert (Hup : exists x l, upcoming q = x :: l).
    { unfold stands_at in Hp. cbn [input_after] in Hp.
      rewrite (input_at_upcoming _ _ _ Hp). unfold inner. rewrite Hn.
      destruct questioned; cbn [app]; eauto. }
    destruct Hup as (x & l & Hup).
    destruct (NextChar_upcoming_cons _ _ _ Hup) as (_ & _ & _ & ->). lia. }
  set (q1 := snd (NextChar q)) in *.
  assert (Hfirst : wchar_eqb (CurChar q1) ch_slash = false /\
                   wchar_eqb (CurChar q1) ch_bang = false /\
                   wchar_eqb (CurChar q1) ch_question = questioned).
  { rewrite (stands_at_first_char _ _ Hq1). unfold inner. rewrite Hn.
    destruct questioned; cbn [app first_char hd]; auto. }
  destruct Hfirst as (-> & -> & HQ).
  unfold ParseBeginTagNode. rewrite HQ, Hpos1.
  set (x := if questioned then snd (NextChar q1) else q1).
  assert (Hx : stands_at x (name ++ ws0 ++ text ++ tail) /\ same_session_state q1 x).
  { unfold x, inner in *. destruct questioned; cbn [app] in Hq1.
    - destruct (stands_at_cons _ _ _ Hq1) as (_ & H). split; [exact H|].
      apply NextChar_same_session_state.
    - split; [exact Hq1|apply same_session_state_refl]. }
  destruct Hx as (Hx & S2).
  destruct (begin_name_then_attribs name ws0 text n attribs tail fuel x
              Hname Hws Hsep Hend Hvis Hattr Hx)
    as (y & p2 & Htok & Hcur & Hrun & Hp2 & S3).
  rewrite Htok. cbn [negb]. rewrite Hrun. cbn [bind]. rewrite Hcur.
  exists p2. split; [exact Hp2|]. split; [|reflexivity].
  apply (same_session_state_trans _ _ _ S0), (same_session_state_trans _ _ _ S1),
    (same_session_state_trans _ _ _ S2), S3.
Qed.

(** X24.  A tag that begins with "<?" must end with "?>".  When, after the
    name and any attributes written [name="value"], a '>' or a '/' comes
    where the '?' is due, [NextNode] returns false with no node and the
    error text "Expected '?' at end of tag."; nothing is pushed on the
    stack and the cursor is left on that character. *)
Theorem instruction_tag_without_question_mark_is_an_error :
  forall (lead name ws0 : list wchar_t) (attrs : list AttrText) (tail : list wchar_t)
         (fuel : nat) (p : XmlParser),
    m_PriorWasEmptyTag p && negb (vector_empty (m_Stack p)) = false ->
    forallb iswspace lead = true ->
    tag_name name = true ->
    forallb is_blank ws0 = true ->
    (attrs <> [] -> ws0 <> []) ->
    forallb attr_ok attrs = true ->
    first_char tail = ch_gt \/ first_char tail = ch_slash ->
    stands_at p (lead ++ ch_lt :: ch_question :: name ++ ws0 ++ render_attrs attrs
                   ++ tail) ->
    exists p',
      NextNode (S (List.length attrs + S fuel)) p = Ok (false, None, p') /\
      ErrorInfo p' = "Expected '?' at end of tag."%string /\
      m_Stack p' = m_Stack p /\
      stands_at p' tail.
Proof.
  intros lead name ws0 attrs tail fuel p Hsyn Hlead Hname Hws Hsep Hok Htail Hp.
  assert (Hend : ends_attributes (first_char tail) = true)
    by (destruct Htail as [-> | ->]; reflexivity).
  destruct (NextNode_tag_head true lead name ws0 (render_attrs attrs)
              (List.length attrs) (map attr_of attrs) tail fuel p Hsyn Hlead Hname Hws
              (no_blank_no_attrs _ _ Hsep) Hend
              (first_char_render_attrs _ _ Hok Hend) (attrs_along _ _ Hok Hend) Hp)
    as (p2 & Hp2 & (St & _ & _) & Hrun).
  rewrite Hrun. unfold tag_end. rewrite (stands_at_first_char _ _ Hp2).
  assert (Hq : wchar_eqb (first_char tail) ch_question = false)
    by (destruct Htail as [-> | ->]; reflexivity).
  rewrite Hq. cbn [andb negb].
  eexists. split; [reflexivity|]. split; [reflexivity|].
  split; [exact St|apply stands_at_set_ErrorInfo; exact Hp2].
Qed.

Lemma instruction_tag_without_question_mark_is_an_error_witness :
  let p := snd (session "<?xml version='1.0'><a/>") in
  let attrs := [mkAttrText (list_ascii_of_string "version") ch_squote
                  (list_ascii_of_string "1.0") []] in
  m_PriorWasEmptyTag p && negb (vector_empty (m_Stack p)) = false /\
  forallb iswspace [] = true /\
  tag_name (list_ascii_of_string "xml") = true /\
  forallb is_blank [" "%char] = true /\
  (attrs <> [] -> [" "%char] <> []) /\
  forallb attr_ok attrs = true /\
  (first_char (list_ascii_of_string "><a/>") = ch_gt
   \/ first_char (list_ascii_of_string "><a/>") = ch_slash) /\
  stands_at p ([] ++ ch_lt :: ch_question :: list_ascii_of_string "xml" ++ [" "%char]
                 ++ render_attrs attrs ++ list_ascii_of_string "><a/>") /\
  exists p',
    NextNode (S (List.length attrs + S 0)) p = Ok (false, None, p') /\
    ErrorInfo p' = "Expected '?' at end of tag."%string /\
    m_Stack p' = m_Stack p /\
    stands_at p' (list_ascii_of_string "><a/>").
Proof.
  intros p attrs.
  assert (H1 : m_PriorWasEmptyTag p && negb (vector_empty (m_Stack p)) = false)
    by reflexivity.
  assert (H2 : forallb iswspace [] = true) by reflexivity.
  assert (H3 : tag_name (list_ascii_of_string "xml") = true) by reflexivity.
  assert (H4 : forallb is_blank [" "%char] = true) by reflexivity.
  assert (H5 : attrs <> [] -> [" "%char] <> []) by (intros _; discriminate).
  assert (H6 : forallb attr_ok attrs = true) by reflexivity.
  assert (H7 : first_char (list_ascii_of_string "><a/>") = ch_gt
               \/ first_char (list_ascii_of_string "><a/>") = ch_slash)
    by (left; reflexivity).
  assert (H8 : stands_at p ([] ++ ch_lt :: ch_question :: list_ascii_of_string "xml"
                              ++ [" "%char] ++ render_attrs attrs
                              ++ list_ascii_of_string "><a/>")) by reflexivity.
  exact (conj H1 (conj H2 (conj H3 (conj H4 (conj H5 (conj H6 (conj H7 (conj H8
           (instruction_tag_without_question_mark_is_an_error []
              (list_ascii_of_string "xml") [" "%char] attrs
              (list_ascii_of_string "><a/>") 0 p
              H1 H2 H3 H4 H5 H6 H7 H8))))))))).
Defined.

(** X25.  After the '/' or the '?' that ends a tag only '>' may follow
    (after '?' also "/>").  Anything else is fatal: [NextNode] returns
    false with no node and the error text "Expected '>' at end of tag.",
    and nothing is pushed on the stack.  The empty-tag flag has been set
    on the way and stays set. *)
Theorem tag_end_without_gt_is_an_error :
  forall (shape : TagShape) (lead name ws0 : list wchar_t) (attrs : list AttrText)
         (tail : list wchar_t) (fuel : nat) (p : XmlParser),
    tag_is_empty shape = true ->
    m_PriorWasEmptyTag p && negb (vector_empty (m_Stack p)) = false ->
    forallb iswspace lead = true ->
    tag_name name = true ->
    forallb is_blank ws0 = true ->
    (attrs <> [] -> ws0 <> []) ->
    forallb attr_ok attrs = true ->
    wchar_eqb (first_char tail) ch_gt = false ->
    (shape = InstructionTag -> wchar_eqb (first_char tail) ch_slash = false) ->
    stands_at p (lead ++ ch_lt :: tag_opener shape ++ name ++ ws0 ++ render_attrs attrs
                   ++ closer_before_gt shape ++ tail) ->
    exists p',
      NextNode (S (List.length attrs + S fuel)) p = Ok (false, None, p') /\
      ErrorInfo p' = "Expected '>' at end of tag."%string /\
      m_Stack p' = m_Stack p /\
      m_PriorWasEmptyTag p' = true /\
      stands_at p' tail.
Proof.
  intros shape lead name ws0 attrs tail fuel p Hempty Hsyn Hlead Hname Hws Hsep Hok
         Hgt Hsl Hp.
  set (questioned := match shape with
                     | InstructionTag | InstructionSlashTag => true
                     | _ => false
                     end).
  assert (Hop : tag_opener shape = if questioned then [ch_question] else [])
    by (destruct shape; reflexivity).
  rewrite Hop in Hp.
  assert (Hend : ends_attributes (first_char (closer_before_gt shape ++ tail)) = true)
    by (destruct shape; try discriminate; reflexivity).
  destruct (NextNode_tag_head questioned lead name ws0 (render_attrs attrs)
              (List.length attrs) (map attr_of attrs) (closer_before_gt shape ++ tail)
              fuel p Hsyn Hlead Hname Hws
              (no_blank_no_attrs _ _ Hsep) Hend
              (first_char_render_attrs _ _ Hok Hend) (attrs_along _ _ Hok Hend) Hp)
    as (p2 & Hp2 & (St & _ & _) & Hrun).
  rewrite Hrun. unfold tag_end, questioned. clear Hrun Hop Hp.
  destruct shape; try discriminate Hempty;
    cbn [closer_before_gt tag_closer removelast app] in Hp2.
  - (* <name ... / *)
    destruct (stands_at_cons _ _ _ Hp2) as (Hc2 & _).
    rewrite !Hc2; known_chars.
    apply (stands_at_set_PriorWasEmptyTag true) in Hp2.
    destruct (stands_at_cons _ _ _ Hp2) as (_ & Hp3).
    rewrite (stands_at_first_char _ _ Hp3), Hgt. cbn [negb].
    eexists. split; [reflexivity|]. split; [reflexivity|].
    cbn [m_Stack set_ErrorInfo m_PriorWasEmptyTag].
    destruct (NextChar_same_session_state (set_PriorWasEmptyTag true p2)) as (A1 & A2 & _).
    rewrite A1, A2. cbn.
    split; [exact St|]. split; [reflexivity|].
    apply stands_at_set_ErrorInfo. exact Hp3.
  - (* <?name ... ? *)
    destruct (stands_at_cons _ _ _ Hp2) as (Hc2 & _).
    rewrite !Hc2; known_chars.
    apply (stands_at_set_PriorWasEmptyTag true) in Hp2.
    destruct (stands_at_cons _ _ _ Hp2) as (_ & Hp3).
    rewrite (stands_at_first_char _ _ Hp3), (Hsl eq_refl).
    rewrite (stands_at_first_char _ _ Hp3), Hgt. cbn [negb].
    eexists. split; [reflexivity|]. split; [reflexivity|].
    cbn [m_Stack set_ErrorInfo m_PriorWasEmptyTag].
    destruct (NextChar_same_session_state (set_PriorWasEmptyTag true p2)) as (A1 & A2 & _).
    rewrite A1, A2. cbn.
    split; [exact St|]. split; [reflexivity|].
    apply stands_at_set_ErrorInfo. exact Hp3.
  - (* <?name ... ?/ *)
    destruct (stands_at_cons _ _ _ Hp2) as (Hc2 & _).
    rewrite !Hc2; known_chars.
    apply (stands_at_set_PriorWasEmptyTag true) in Hp2.
    destruct (stands_at_cons _ _ _ Hp2) as (_ & Hp3).
    destruct (stands_at_cons _ _ _ Hp3) as (Hc3 & _).
    rewrite !Hc3; known_chars.
    apply (stands_at_set_PriorWasEmptyTag true) in Hp3.
    destruct (stands_at_cons _ _ _ Hp3) as (_ & Hp4).
    rewrite (stands_at_first_char _ _ Hp4), Hgt. cbn [negb].
    eexists. split; [reflexivity|]. split; [reflexivity|].
    cbn [m_Stack set_ErrorInfo m_PriorWasEmptyTag].
    destruct (NextChar_same_session_state (set_PriorWasEmptyTag true p2)) as (A1 & A2 & _).
    destruct (NextChar_same_session_state
                (set_PriorWasEmptyTag true
                   (snd (NextChar (set_PriorWasEmptyTag true p2))))) as (B1 & B2 & _).
    rewrite B1, B2. cbn. rewrite A1. cbn.
    split; [exact St|]. split; [reflexivity|].
    apply stands_at_set_ErrorInfo. exact Hp4.
Qed.

Lemma tag_end_without_gt_is_an_error_witness :
  let p := snd (session "<br/ >") in
  tag_is_empty SelfClosingTag = true /\
  m_PriorWasEmptyTag p && negb (vector_empty (m_Stack p)) = false /\
  forallb iswspace [] = true /\
  tag_name (list_ascii_of_string "br") = true /\
  forallb is_blank [] = true /\
  (@nil AttrText <> [] -> @nil wchar_t <> []) /\
  forallb attr_ok [] = true /\
  wchar_eqb (first_char (list_ascii_of_string " >")) ch_gt = false /\
  (SelfClosingTag = InstructionTag ->
   wchar_eqb (first_char (list_ascii_of_string " >")) ch_slash = false) /\
  stands_at p ([] ++ ch_lt :: tag_opener SelfClosingTag ++ list_ascii_of_string "br"
                 ++ [] ++ render_attrs [] ++ closer_before_gt SelfClosingTag
                 ++ list_ascii_of_string " >") /\
  exists p',
    NextNode (S (List.length (@nil AttrText) + S 0)) p = Ok (false, None, p') /\
    ErrorInfo p' = "Expected '>' at end of tag."%string /\
    m_Stack p' = m_Stack p /\
    m_PriorWasEmptyTag p' = true /\
    stands_at p' (list_ascii_of_string " >").
Proof.
  intros p.
  assert (H0 : tag_is_empty SelfClosingTag = true) by reflexivity.
  assert (H1 : m_PriorWasEmptyTag p && negb (vector_empty (m_Stack p)) = false)
    by reflexivity.
  assert (H2 : forallb iswspace [] = true) by reflexivity.
  assert (H3 : tag_name (list_ascii_of_string "br") = true) by reflexivity.
  assert (H4 : forallb is_blank [] = true) by reflexivity.
  assert (H5 : @nil AttrText <> [] -> @nil wchar_t <> []) by (intros H; destruct (H eq_refl)).
  assert (H6 : forallb attr_ok [] = true) by reflexivity.
  assert (H7 : wchar_eqb (first_char (list_ascii_of_string " >")) ch_gt = false)
    by reflexivity.
  assert (H8 : SelfClosingTag = InstructionTag ->
               wchar_eqb (first_char (list_ascii_of_string " >")) ch_slash = false)
    by (intros _; reflexivity).
  assert (H9 : stands_at p ([] ++ ch_lt :: tag_opener SelfClosingTag
                              ++ list_ascii_of_string "br" ++ [] ++ render_attrs []
                              ++ closer_before_gt SelfClosingTag
                              ++ list_ascii_of_string " >")) by reflexivity.
  exact (conj H0 (conj H1 (conj H2 (conj H3 (conj H4 (conj H5 (conj H6 (conj H7 (conj H8
           (conj H9
           (tag_end_without_gt_is_an_error SelfClosingTag []
              (list_ascii_of_string "br") [] [] (list_ascii_of_string " >") 0 p
              H0 H1 H2 H3 H4 H5 H6 H7 H8 H9))))))))))).
Defined.

(** X26.  A true return does not mean that no error was recorded.  When a
    comment or a marked section inside an open element ends exactly where
    the input ends, [NextNode] returns true and hands out a value node
    with empty text for that element, and the error text is "Unexpected
    end of input." all the same. *)
Theorem true_return_with_an_error_text :
  forall (kind : BangMarkup) (lead body : list wchar_t) (fuel : nat) (p : XmlParser)
         (e : XmlElementBase),
    m_PriorWasEmptyTag p = false ->
    vector_back (m_Stack p) = Some e ->
    forallb iswspace lead = true ->
    markup_body (markup_closer kind) body = true ->
    stands_at p (lead ++ ch_lt :: markup_opener kind ++ body ++ markup_terminator kind) ->
    exists p',
      NextNode (S (S fuel)) p
      = Ok (true, Some (Text (begin_m_Name (m_Begin e)) ""), p') /\
      ErrorInfo p' = "Unexpected end of input."%string /\
      open_element_names p' = open_element_names p.
Proof.
  intros kind lead body fuel p e Hf Hb Hlead Hbody Hp.
  assert (Hsyn : m_PriorWasEmptyTag p && negb (vector_empty (m_Stack p)) = false)
    by now rewrite Hf.
  assert (Hp' : stands_at p (lead ++ ch_lt :: markup_opener kind ++ body
                               ++ markup_terminator kind ++ [])).
  { rewrite app_nil_r. exact Hp. }
  destruct (NextNode_over_markup kind lead body [] (S fuel) p Hsyn Hlead Hbody Hp')
    as (q & Hq & (St & Fl & _) & Hrun).
  rewrite Hrun.
  rewrite (exhausted_input_yields_value_node fuel
             (set_ErrorInfo "Unexpected end of input." q) e).
  - eexists. split; [reflexivity|]. split; [reflexivity|].
    unfold open_element_names. cbn [m_Stack set_Stack set_ErrorInfo]. rewrite St.
    rewrite (vector_back_inv _ _ Hb) at 2. unfold vector_set_back.
    rewrite !map_app. reflexivity.
  - exact (stands_at_first_char _ _ (stands_at_set_ErrorInfo _ _ _ Hq)).
  - cbn [m_PriorWasEmptyTag set_ErrorInfo]. congruence.
  - cbn [m_Stack set_ErrorInfo]. congruence.
Qed.

Lemma true_return_with_an_error_text_witness :
  let p := inside_a_before_comment in
  let e := mkXmlElementBase (mkXmlBeginNode "a" [] 0%Z)
             (mkXmlValueNode "" "") (mkXmlEndNode "") in
  m_PriorWasEmptyTag p = false /\
  vector_back (m_Stack p) = Some e /\
  forallb iswspace [] = true /\
  markup_body (markup_closer CommentMarkup) ["x"%char] = true /\
  stands_at p ([] ++ ch_lt :: markup_opener CommentMarkup ++ ["x"%char]
                 ++ markup_terminator CommentMarkup) /\
  exists p',
    NextNode (S (S 0)) p
    = Ok (true, Some (Text (begin_m_Name (m_Begin e)) ""), p') /\
    ErrorInfo p' = "Unexpected end of input."%string /\
    open_element_names p' = open_element_names p.
Proof.
  intros p e.
  assert (H1 : m_PriorWasEmptyTag p = false) by reflexivity.
  assert (H2 : vector_back (m_Stack p) = Some e) by reflexivity.
  assert (H3 : forallb iswspace [] = true) by reflexivity.
  assert (H4 : markup_body (markup_closer CommentMarkup) ["x"%char] = true)
    by reflexivity.
  assert (H5 : stands_at p ([] ++ ch_lt :: markup_opener CommentMarkup ++ ["x"%char]
                              ++ markup_terminator CommentMarkup)) by reflexivity.
  exact (conj H1 (conj H2 (conj H3 (conj H4 (conj H5
           (true_return_with_an_error_text CommentMarkup [] ["x"%char] 0 p e
              H1 H2 H3 H4 H5)))))).
Defined.

(** ** Markup whose body ends in the closing character *)

Lemma stands_at_NextChar_more (p : XmlParser) (c c' : wchar_t) (l : list wchar_t) :
  stands_at p (c :: c' :: l) -> fst (NextChar p) = true.
Proof.
  unfold stands_at. cbn [input_after]. intros H.
  exact (proj1 (input_at_NextChar _ _ _ _ H)).
Qed.

Lemma stands_at_NextChar_last (p : XmlParser) (l : list wchar_t) :
  List.length l <= 1 ->
  stands_at p l ->
  fst (NextChar p) = false /\ stands_at (snd (NextChar p)) [].
Proof.
  unfold stands_at. intros Hl H.
  destruct l as [|c [|c' l]]; cbn [input_after List.length] in *; [| |lia];
    exact (input_at_NextChar_last _ _ H).
Qed.

(** Without the closing character ahead, [Eat] reads to the end of the
    input and fails there. *)
Lemma Eat_no_closer (closer : wchar_t) (l : list wchar_t) :
  wchar_eqb closer NUL = false ->
  forallb (fun c => negb (wchar_eqb c closer)) l = true ->
  forall (n : nat) (p : XmlParser),
    stands_at p l -> measure p < n ->
    exists q,
      Eat n closer p = (false, set_ErrorInfo "Unexpected end of input." q) /\
      stands_at q [] /\ same_session_state p q.
Proof.
  intros Hcl. induction l as [|c l IH]; intros Hl n p Hp Hn;
    (destruct n as [|n]; [lia|]); cbn [Eat].
  - rewrite (stands_at_first_char _ _ Hp). cbn [first_char hd].
    assert (Hz : wchar_eqb NUL closer = false).
    { unfold wchar_eqb in *. rewrite Ascii.eqb_sym. exact Hcl. }
    rewrite Hz.
    destruct (stands_at_NextChar_last p [] ltac:(cbn; lia) Hp) as (Hf & Hq).
    pose proof (NextChar_same_session_state p) as S1.
    destruct (NextChar p) as [ok q]; cbn [fst snd] in *. subst ok. cbn [negb].
    exists q. auto.
  - cbn [forallb] in Hl. apply andb_prop in Hl as (Hc & Hl).
    apply negb_true_iff in Hc.
    destruct (stands_at_cons _ _ _ Hp) as (Hcur & Hp1). rewrite Hcur, Hc.
    pose proof (NextChar_same_session_state p) as S1.
    destruct l as [|c' l].
    + destruct (stands_at_NextChar_last p [c] ltac:(cbn; lia) Hp) as (Hf & Hq).
      destruct (NextChar p) as [ok q]; cbn [fst snd] in *. subst ok. cbn [negb].
      exists q. auto.
    + pose proof (stands_at_NextChar_more _ _ _ _ Hp) as Hok.
      pose proof (NextChar_measure_true _ Hok) as Hm.
      destruct (NextChar p) as [ok q]; cbn [fst snd] in *. subst ok. cbn [negb].
      destruct (IH Hl n q Hp1 ltac:(lia)) as (q' & E & Hq' & S2).
      exists q'. split; [exact E|]. split; [exact Hq'|].
      eapply same_session_state_trans; eassumption.
Qed.

(** Over a body in which every closing character is followed by another
    character, [Eat] just reads on. *)
Lemma Eat_along (closer : wchar_t) (body tail : list wchar_t) :
  wchar_eqb closer NUL = false ->
  tail <> [] ->
  markup_body closer body = true ->
  forall (n : nat) (p : XmlParser),
    stands_at p (body ++ tail) -> measure p < n ->
    Eat n closer p
    = Eat (loop_budget (advance (List.length body) p)) closer
        (advance (List.length body) p).
Proof.
  intros Hcl Htail. induction body as [|c body IH]; intros Hbody n p Hp Hn.
  - cbn [List.length advance].
    apply Eat_budget_irrelevant; auto using loop_budget_enough.
  - destruct n as [|n]; [lia|].
    cbn [app] in Hp. destruct (stands_at_cons _ _ _ Hp) as (Hcur & Hp1).
    assert (Hok : fst (NextChar p) = true).
    { destruct (body ++ tail) as [|x l] eqn:E.
      - destruct body; [exfalso; now apply Htail|discriminate].
      - exact (stands_at_NextChar_more _ _ _ _ Hp). }
    pose proof (NextChar_measure_true _ Hok) as Hm.
    cbn [Eat List.length advance]. rewrite Hcur.
    cbn [markup_body] in Hbody.
    destruct (wchar_eqb c closer) eqn:Hc.
    + destruct body as [|c' body]; [discriminate|].
      apply andb_prop in Hbody as (Hc' & Hbody).
      apply negb_true_iff in Hc'.
      cbn [app] in Hp1. rewrite (stands_at_first_char _ _ Hp1). cbn [first_char hd].
      rewrite Hc'. apply (IH Hbody); [exact Hp1|lia].
    + destruct (NextChar p) as [ok q]; cbn [fst snd] in *. subst ok. cbn [negb].
      apply (IH Hbody); [exact Hp1|lia].
Qed.

(** A body that ends in the closing character hides the terminator: of
    the three closing characters in a row [Eat] takes the first two for
    the start of a terminator, finds no '>' after them, and goes on behind
    the third. *)
Lemma Eat_misses_terminator (kind : BangMarkup) (body rest : list wchar_t)
  (p : XmlParser) :
  markup_body (markup_closer kind) body = true ->
  forallb (fun c => negb (wchar_eqb c (markup_closer kind))) rest = true ->
  stands_at p (body ++ markup_closer kind :: markup_terminator kind ++ rest) ->
  exists q,
    Eat (loop_budget p) (markup_closer kind) p
    = (false, set_ErrorInfo "Unexpected end of input." q) /\
    stands_at q [] /\ same_session_state p q.
Proof.
  intros Hbody Hrest Hp.
  set (cl := markup_closer kind) in *.
  assert (Hcl : wchar_eqb cl NUL = false) by apply markup_closer_nonzero.
  assert (Hgt : wchar_eqb cl ch_gt = false /\ wchar_eqb ch_gt cl = false /\
                wchar_eqb cl cl = true)
    by (unfold cl; destruct kind; repeat split; reflexivity).
  destruct Hgt as (Hgt1 & Hgt2 & Hrefl).
  unfold markup_terminator in Hp. fold cl in Hp. cbn [app] in Hp.
  rewrite (Eat_along cl body (cl :: cl :: cl :: ch_gt :: rest) Hcl
             ltac:(discriminate) Hbody _ p Hp
             (loop_budget_enough p)).
  pose proof (advance_same_session_state (List.length body) p) as S0.
  apply stands_at_advance in Hp.
  set (y := advance (List.length body) p) in *.
  rewrite (Eat_budget_irrelevant _ (S (S (measure y))) cl y Hcl
             (loop_budget_enough y) ltac:(lia)).
  destruct (stands_at_cons _ _ _ Hp) as (Hc0 & Hp1).
  destruct (stands_at_cons _ _ _ Hp1) as (Hc1 & Hp2).
  destruct (stands_at_cons _ _ _ Hp2) as (Hc2 & Hp3).
  assert (Hnz : forall x, CurChar x = cl -> measure (snd (NextChar x)) < measure x).
  { intros x Hx. apply NextChar_measure_nonzero. now rewrite Hx. }
  pose proof (Hnz _ Hc0) as M1. pose proof (Hnz _ Hc1) as M2.
  pose proof (Hnz _ Hc2) as M3.
  pose proof (NextChar_same_session_state y) as S1.
  pose proof (NextChar_same_session_state (snd (NextChar y))) as S2.
  pose proof (NextChar_same_session_state (snd (NextChar (snd (NextChar y))))) as S3.
  set (y1 := snd (NextChar y)) in *.
  set (y2 := snd (NextChar y1)) in *.
  set (y3 := snd (NextChar y2)) in *.
  change (Eat (S (S (measure y))) cl y)
    with (if wchar_eqb (CurChar y) cl then
            if wchar_eqb (CurChar y1) cl then
              if wchar_eqb (CurChar y2) ch_gt then
                let (ok, p) := NextChar y2 in
                if negb ok
                then (false, set_ErrorInfo "Unexpected end of input." p)
                else (true, p)
              else Eat (S (measure y)) cl y2
            else Eat (S (measure y)) cl y1
          else
            let (ok, p) := NextChar y in
            if negb ok
            then (false, set_ErrorInfo "Unexpected end of input." p)
            else Eat (S (measure y)) cl p).
  rewrite Hc0, Hc1, Hc2, Hrefl, Hgt1.
  change (Eat (S (measure y)) cl y2)
    with (if wchar_eqb (CurChar y2) cl then
            if wchar_eqb (CurChar y3) cl then
              if wchar_eqb (CurChar (snd (NextChar y3))) ch_gt then
                let (ok, p) := NextChar (snd (NextChar y3)) in
                if negb ok
                then (false, set_ErrorInfo "Unexpected end of input." p)
                else (true, p)
              else Eat (measure y) cl (snd (NextChar y3))
            else Eat (measure y) cl y3
          else
            let (ok, p) := NextChar y2 in
            if negb ok
            then (false, set_ErrorInfo "Unexpected end of input." p)
            else Eat (measure y) cl p).
  rewrite Hc2, Hrefl, (stands_at_first_char _ _ Hp3). cbn [first_char hd].
  rewrite Hgt2.
  destruct (Eat_no_closer cl (ch_gt :: rest) Hcl
              ltac:(cbn [forallb]; rewrite Hgt2; exact Hrest)
              (measure y) y3 Hp3 ltac:(lia)) as (q & E & Hq & S4).
  exists q. split; [exact E|]. split; [exact Hq|].
  apply (same_session_state_trans _ _ _ S0), (same_session_state_trans _ _ _ S1),
    (same_session_state_trans _ _ _ S2), (same_session_state_trans _ _ _ S3), S4.
Qed.

(** [NextNode] on the opening of a comment or a marked section, after any
    blanks: [Eat] is run on what follows the opening, its return is
    ignored, and the call goes on as a call on the parser [Eat] leaves. *)
Lemma NextNode_into_markup (kind : BangMarkup) (lead inside : list wchar_t)
  (fuel : nat) (p : XmlParser) :
  m_PriorWasEmptyTag p && negb (vector_empty (m_Stack p)) = false ->
  forallb iswspace lead = true ->
  stands_at p (lead ++ ch_lt :: markup_opener kind ++ inside) ->
  exists x,
    stands_at x inside /\ same_session_state p x /\
    NextNode (S fuel) p
    = NextNode fuel (snd (Eat (loop_budget x) (markup_closer kind) x)).
Proof.
  intros Hsyn Hlead Hp.
  set (inner := markup_opener kind ++ inside) in *.
  rewrite (NextNode_skips_blanks lead (ch_lt :: inner) _ p Hsyn Hlead eq_refl Hp).
  cbv zeta.
  pose proof (advance_same_session_state (List.length lead) p) as S0.
  apply stands_at_advance in Hp.
  set (q0 := advance (List.length lead) p) in *.
  destruct (stands_at_cons _ _ _ Hp) as (Hc0 & Hp1). rewrite Hc0.
  change (wchar_eqb ch_lt ch_lt) with true. cbv iota.
  pose proof (NextChar_same_session_state q0) as S1.
  set (q1 := snd (NextChar q0)) in *.
  assert (Hbang : exists opener', markup_opener kind = ch_bang :: opener')
    by (destruct kind; eexists; reflexivity).
  destruct Hbang as (opener' & Hop).
  unfold inner in Hp1. rewrite Hop in Hp1. cbn [app] in Hp1.
  destruct (stands_at_cons _ _ _ Hp1) as (Hc1 & Hp2). rewrite Hc1.
  change (wchar_eqb ch_bang ch_slash) with false.
  change (wchar_eqb ch_bang ch_bang) with true. cbv iota.
  unfold ParseBangTag, EatComment, EatMarkedSection.
  pose proof (NextChar_same_session_state q1) as S2.
  set (q2 := snd (NextChar q1)) in *.
  destruct kind; cbn [markup_opener] in Hop; injection Hop as <-;
    cbn [app markup_closer] in *.
  - destruct (stands_at_cons _ _ _ Hp2) as (Hc2 & Hp3).
    destruct (stands_at_cons _ _ _ Hp3) as (Hc3 & Hp4).
    exists (snd (NextChar (snd (NextChar q2)))). split; [exact Hp4|]. split.
    + apply (same_session_state_trans _ _ _ S0), (same_session_state_trans _ _ _ S1),
        (same_session_state_trans _ _ _ S2).
      eapply same_session_state_trans; apply NextChar_same_session_state.
    + rewrite Hc2, Hc3.
      change (wchar_eqb ch_dash ch_lbracket) with false.
      change (wchar_eqb ch_dash ch_dash) with true. reflexivity.
  - destruct (stands_at_cons _ _ _ Hp2) as (Hc2 & Hp3).
    exists (snd (NextChar q2)). split; [exact Hp3|]. split.
    + apply (same_session_state_trans _ _ _ S0), (same_session_state_trans _ _ _ S1),
        (same_session_state_trans _ _ _ S2), NextChar_same_session_state.
    + rewrite Hc2.
      change (wchar_eqb ch_lbracket ch_lbracket) with true. reflexivity.
Qed.

(** C7, where the code departs from it.  A complete comment or marked
    section whose body ends in the closing character (as in
    [<![CDATA[x]]]>] or [<!--x--->]) is not recognised as complete.  The
    call reads on to the end of the input, so that whatever follows the
    markup is never handed out, and records "Unexpected end of input.".
    With an element open it then returns true with an empty value node
    for that element; with none open it returns false. *)
Theorem markup_ending_in_its_closer_is_not_skipped :
  forall (kind : BangMarkup) (lead body rest : list wchar_t) (fuel : nat)
         (p : XmlParser),
    m_PriorWasEmptyTag p && negb (vector_empty (m_Stack p)) = false ->
    forallb iswspace lead = true ->
    markup_body (markup_closer kind) body = true ->
    forallb (fun c => negb (wchar_eqb c (markup_closer kind))) rest = true ->
    stands_at p (lead ++ ch_lt :: markup_opener kind
                   ++ (body ++ [markup_closer kind]) ++ markup_terminator kind ++ rest) ->
    exists p',
      NextNode (S (S fuel)) p
      = match vector_back (m_Stack p) with
        | Some e => Ok (true, Some (Text (begin_m_Name (m_Begin e)) ""), p')
        | None => Ok (false, None, p')
        end /\
      ErrorInfo p' = "Unexpected end of input."%string /\
      stands_at p' [] /\
      open_element_names p' = open_element_names p.
Proof.
  intros kind lead body rest fuel p Hsyn Hlead Hbody Hrest Hp.
  destruct (NextNode_into_markup kind lead _ (S fuel) p Hsyn Hlead Hp)
    as (x & Hx & (St0 & Fl0 & _) & Hrun).
  rewrite <- app_assoc in Hx. cbn [app] in Hx.
  destruct (Eat_misses_terminator kind body rest x Hbody Hrest Hx)
    as (q & E & Hq & (St1 & Fl1 & _)).
  rewrite Hrun, E. cbn [snd].
  set (z := set_ErrorInfo "Unexpected end of input." q).
  assert (Hz : stands_at z []) by (apply stands_at_set_ErrorInfo; exact Hq).
  assert (Stz : m_Stack z = m_Stack p) by (cbn; congruence).
  destruct (vector_back (m_Stack p)) as [e|] eqn:Hb.
  - assert (Hf : m_PriorWasEmptyTag z = false).
    { cbn [z m_PriorWasEmptyTag set_ErrorInfo]. rewrite Fl1, Fl0.
      destruct (m_Stack p); [discriminate|].
      cbn [vector_empty negb] in Hsyn. now rewrite andb_true_r in Hsyn. }
    rewrite (exhausted_input_yields_value_node fuel z e
               (stands_at_first_char _ _ Hz) Hf ltac:(now rewrite Stz)).
    eexists. split; [reflexivity|]. split; [reflexivity|].
    split; [apply stands_at_set_Stack; exact Hz|].
    unfold open_element_names. cbn [m_Stack set_Stack]. rewrite Stz.
    rewrite (vector_back_inv _ _ Hb) at 2. unfold vector_set_back.
    rewrite !map_app. reflexivity.
  - assert (Hs : m_Stack p = []).
    { destruct (m_Stack p) as [|a v] eqn:Hsp; [reflexivity|].
      destruct (vector_back_nonempty (a :: v) eq_refl) as (e & He). congruence. }
    rewrite (NextNode_skips_blanks [] [] fuel z
               ltac:(rewrite Stz, Hs; apply andb_false_r) eq_refl iswspace_NUL Hz).
    cbv zeta. cbn [List.length advance].
    rewrite (stands_at_first_char _ _ Hz). cbn [first_char hd].
    change (wchar_eqb NUL ch_lt) with false. cbv iota.
    unfold ParseTagValueNode.
    rewrite scan_stops_at_once
      by (rewrite (stands_at_first_char _ _ Hz); reflexivity).
    rewrite Stz, Hs. cbn [vector_empty].
    change (negb (IsWhiteSpace (string_of_list_ascii []))) with false. cbv iota.
    exists z. split; [reflexivity|]. split; [reflexivity|]. split; [exact Hz|].
    unfold open_element_names. now rewrite Stz.
Qed.

Lemma markup_ending_in_its_closer_is_not_skipped_witness :
  let p := inside_a_before_section in
  m_PriorWasEmptyTag p && negb (vector_empty (m_Stack p)) = false /\
  forallb iswspace [] = true /\
  markup_body (markup_closer MarkedSectionMarkup) (list_ascii_of_string "CDATA[x")
  = true /\
  forallb (fun c => negb (wchar_eqb c (markup_closer MarkedSectionMarkup)))
    (list_ascii_of_string "</a>") = true /\
  stands_at p ([] ++ ch_lt :: markup_opener MarkedSectionMarkup
                 ++ (list_ascii_of_string "CDATA[x"
                       ++ [markup_closer MarkedSectionMarkup])
                 ++ markup_terminator MarkedSectionMarkup
                 ++ list_ascii_of_string "</a>") /\
  exists p',
    NextNode (S (S 0)) p
    = match vector_back (m_Stack p) with
      | Some e => Ok (true, Some (Text (begin_m_Name (m_Begin e)) ""), p')
      | None => Ok (false, None, p')
      end /\
    ErrorInfo p' = "Unexpected end of input."%string /\
    stands_at p' [] /\
    open_element_names p' = open_element_names p.
Proof.
  intros p.
  assert (H1 : m_PriorWasEmptyTag p && negb (vector_empty (m_Stack p)) = false)
    by reflexivity.
  assert (H2 : forallb iswspace [] = true) by reflexivity.
  assert (H3 : markup_body (markup_closer MarkedSectionMarkup)
                 (list_ascii_of_string "CDATA[x") = true) by reflexivity.
  assert (H4 : forallb (fun c => negb (wchar_eqb c (markup_closer MarkedSectionMarkup)))
                 (list_ascii_of_string "</a>") = true) by reflexivity.
  assert (H5 : stands_at p ([] ++ ch_lt :: markup_opener MarkedSectionMarkup
                              ++ (list_ascii_of_string "CDATA[x"
                                    ++ [markup_closer MarkedSectionMarkup])
                              ++ markup_terminator MarkedSectionMarkup
                              ++ list_ascii_of_string "</a>")) by reflexivity.
  exact (conj H1 (conj H2 (conj H3 (conj H4 (conj H5
           (markup_ending_in_its_closer_is_not_skipped MarkedSectionMarkup []
              (list_ascii_of_string "CDATA[x") (list_ascii_of_string "</a>") 0 p
              H1 H2 H3 H4 H5)))))).
Defined.
